(** * xmlsec: X509 certificate store and chain-of-trust verification

    A shallow embedding of [src/openssl/x509vfy.c] and [src/nss/x509vfy.c]
    (distinguished-name parsing and comparison, certificate lookup, CRL
    checks, leaf selection and the verification loop), with the theorems
    that relate the code to its natural-language specification.

    Conventions.
    - C [int], [size_t] and [unsigned long] values are [Z]; a byte
      ([xmlSecByte], [xmlChar], [unsigned char]) is a [Z] in [0, 255].
    - A C string or a (pointer, size) pair is the [list Z] of its bytes; a
      pointer advanced through a buffer is the remaining suffix of the list.
    - An OpenSSL stack ([STACK_OF(X509)] ...) is a [list]; [sk_value] is
      list lookup and [sk_delete] is list deletion at an index.
    - Calls into OpenSSL/NSS whose result is cryptographic (signature check,
      chain building, name hashing, object-name table) are the fields of the
      [Backend] class: the code is verified for every backend.
    - Constructors of the library ([X509_NAME_new], [BN_new],
      [X509_STORE_CTX_new_ex], [sk_X509_dup], [PORT_Alloc] ...) are taken
      to succeed: running out of memory is not modelled. *)

From Stdlib Require Import ZArith String Ascii Lia.
From stdpp Require Import prelude sorting.

Local Open Scope Z_scope.

(* ================================================================== *)
(** * Definitions *)
(* ================================================================== *)

(** ** Bytes and C strings *)

Abbreviation xmlSecByte := Z (only parsing).
Abbreviation xmlSecSize := Z (only parsing).

(** [BAD_CAST "..."]: a string literal seen as an array of bytes. *)
Definition BAD_CAST (s : string) : list Z :=
  map (fun a => Z.of_N (N_of_ascii a)) (list_ascii_of_string s).

Definition ch_tab : Z := 9.
Definition ch_space : Z := 32.
Definition ch_quote : Z := 34.
Definition ch_hash : Z := 35.
Definition ch_comma : Z := 44.
Definition ch_equal : Z := 61.
Definition ch_backslash : Z := 92.

(** [isspace] of <ctype.h> in the C locale: space, \t, \n, \v, \f, \r. *)
Definition isspace (c : Z) : bool :=
  (c =? 32) || ((9 <=? c) && (c <=? 13)).

(** [memcmp(a, b, n)]: the difference of the first pair of bytes that
    differ among the first [n], 0 when there is none.  Every caller passes
    an [n] that is the length of both arrays. *)
Fixpoint memcmp (a b : list Z) (n : nat) : Z :=
  match n, a, b with
  | S n', x :: a', y :: b' => if x =? y then memcmp a' b' n' else x - y
  | _, _, _ => 0
  end.

(** ** Distinguished names (OpenSSL [X509_NAME]) *)

(** An [ASN1_OBJECT] is the encoded object identifier; an [ASN1_STRING] is
    its data bytes ([ASN1_STRING_length] is their number). *)
Abbreviation ASN1_OBJECT := (list Z) (only parsing).
Abbreviation ASN1_STRING := (list Z) (only parsing).

(** [X509_NAME_ENTRY]: the fields the library reads.  An entry that belongs
    to an [X509_NAME] always carries both an object and a value, so the NULL
    branches of the comparison function are not represented. *)
Record X509_NAME_ENTRY : Type := mkEntry {
  ne_object : ASN1_OBJECT;
  ne_value : ASN1_STRING
}.

Abbreviation X509_NAME := (list X509_NAME_ENTRY) (only parsing).

Global Instance X509_NAME_ENTRY_eq_dec : EqDecision X509_NAME_ENTRY.
Proof. solve_decision. Defined.

(** [OBJ_cmp] of OpenSSL: length first, then the encoded bytes. *)
Definition OBJ_cmp (a b : ASN1_OBJECT) : Z :=
  let ret := Z.of_nat (length a) - Z.of_nat (length b) in
  if negb (ret =? 0) then ret else memcmp a b (length a).

(** [xmlSecOpenSSLX509_NAME_ENTRY_cmp]: values first (length, then bytes),
    names next. *)
Definition xmlSecOpenSSLX509_NAME_ENTRY_cmp (a b : X509_NAME_ENTRY) : Z :=
  let a_len := Z.of_nat (length (ne_value a)) in
  let b_len := Z.of_nat (length (ne_value b)) in
  let ret := a_len - b_len in
  if negb (ret =? 0) then ret
  else
    let ret := if 0 <? a_len
               then memcmp (ne_value a) (ne_value b) (Z.to_nat a_len)
               else 0 in
    if negb (ret =? 0) then ret
    else OBJ_cmp (ne_object a) (ne_object b).

(** The order a stack sorted with the comparison function obeys. *)
Definition entry_le (a b : X509_NAME_ENTRY) : Prop :=
  xmlSecOpenSSLX509_NAME_ENTRY_cmp a b <= 0.

Global Instance entry_le_dec : RelDecision entry_le.
Proof. intros a b. unfold entry_le. apply _. Defined.

(** [sk_X509_NAME_ENTRY_sort]: the stack sorted by its comparison function.
    OpenSSL sorts with [qsort]; a merge sort stands for it here, and
    [NamesCompare_any_sort] shows the result of the name comparison is the
    same for every sorting procedure. *)
Definition sk_X509_NAME_ENTRY_sort (sk : list X509_NAME_ENTRY)
  : list X509_NAME_ENTRY := merge_sort entry_le sk.

(** [xmlSecOpenSSLX509_NAME_ENTRIES_copy]: entries are pushed from the last
    index down to 0. *)
Definition xmlSecOpenSSLX509_NAME_ENTRIES_copy (a : X509_NAME)
  : list X509_NAME_ENTRY := rev a.

(** The loop of [xmlSecOpenSSLX509_NAME_ENTRIES_cmp], which walks both
    stacks from the last index down to 0: [ra] and [rb] are the stacks read
    in that direction. *)
Fixpoint entries_cmp_loop (ra rb : list X509_NAME_ENTRY) : Z :=
  match ra, rb with
  | na :: ra', nb :: rb' =>
      let ret := xmlSecOpenSSLX509_NAME_ENTRY_cmp na nb in
      if negb (ret =? 0) then ret else entries_cmp_loop ra' rb'
  | _, _ => 0
  end.

Definition xmlSecOpenSSLX509_NAME_ENTRIES_cmp (a b : list X509_NAME_ENTRY) : Z :=
  let na := Z.of_nat (length a) in
  let nb := Z.of_nat (length b) in
  if negb (na =? nb) then na - nb
  else entries_cmp_loop (rev a) (rev b).

(** [xmlSecOpenSSLX509NamesCompare]: 0 when the names are equal. *)
Definition xmlSecOpenSSLX509NamesCompare (a b : X509_NAME) : Z :=
  let a1 := xmlSecOpenSSLX509_NAME_ENTRIES_copy a in
  let b1 := xmlSecOpenSSLX509_NAME_ENTRIES_copy b in
  let a1 := sk_X509_NAME_ENTRY_sort a1 in
  let b1 := sk_X509_NAME_ENTRY_sort b1 in
  xmlSecOpenSSLX509_NAME_ENTRIES_cmp a1 b1.

(** *** NameMatcher, as the specification words it

    Entries are sorted by value bytes first (lexicographically), then by
    attribute-type identifier; two names are equal when the sorted sequences
    have the same length and agree pairwise on value length, value bytes and
    attribute type. *)
Fixpoint bytes_leb (a b : list Z) : bool :=
  match a, b with
  | [], _ => true
  | _ :: _, [] => false
  | x :: a', y :: b' => (x <? y) || ((x =? y) && bytes_leb a' b')
  end.

Definition spec_entry_leb (a b : X509_NAME_ENTRY) : bool :=
  if bool_decide (ne_value a = ne_value b)
  then bytes_leb (ne_object a) (ne_object b)
  else bytes_leb (ne_value a) (ne_value b).

Definition spec_entry_le (a b : X509_NAME_ENTRY) : Prop :=
  spec_entry_leb a b = true.

Global Instance spec_entry_le_dec : RelDecision spec_entry_le.
Proof. intros a b. unfold spec_entry_le. apply _. Defined.

Definition spec_entry_same (x y : X509_NAME_ENTRY) : Prop :=
  length (ne_value x) = length (ne_value y)
  /\ ne_value x = ne_value y
  /\ ne_object x = ne_object y.

Definition NameMatcher_equal (a b : X509_NAME) : Prop :=
  let sa := merge_sort spec_entry_le a in
  let sb := merge_sort spec_entry_le b in
  length sa = length sb /\ Forall2 spec_entry_same sa sb.

(** ** Results of fallible code

    A C function of the library returns a value, or reports an error
    through [xmlSecError] and returns its failure value (a negative [int] or
    NULL).  [Error] carries the message of the first report.  [Fault] marks
    undefined behaviour: a store at index [idx] of an array of [size]
    elements with [idx] outside it; [Fault 0 0] is an access through a NULL
    pointer.  [Timeout] is the exhaustion of the fuel
    of a loop of the model; the loops are given enough fuel and never reach
    it ([NameRead_no_timeout], [revocation_filter_no_timeout]). *)
Inductive result (A : Type) : Type :=
| Ok (a : A)
| Error (msg : string)
| Fault (idx size : Z)
| Timeout.

Arguments Ok {A} a.
Arguments Error {A} msg.
Arguments Fault {A} idx size.
Arguments Timeout {A}.

Global Instance result_ret : MRet result := fun A a => Ok a.
Global Instance result_bind : MBind result := fun A B f m =>
  match m with
  | Ok a => f a
  | Error msg => Error msg
  | Fault idx size => Fault idx size
  | Timeout => Timeout
  end.

(** [buf[idx] = v] on an array: a fault when [idx] is not inside it. *)
Definition store (buf : list Z) (idx : Z) (v : Z) : result (list Z) :=
  if (0 <=? idx) && (idx <? Z.of_nat (length buf))
  then Ok (<[Z.to_nat idx := v]> buf)
  else Fault idx (Z.of_nat (length buf)).

(** The C string held by an array: the bytes before the first NUL. *)
Fixpoint c_str (buf : list Z) : list Z :=
  match buf with
  | [] => []
  | c :: rest => if c =? 0 then [] else c :: c_str rest
  end.

(** [*str] on a C string given by its bytes: the terminating NUL when the
    string is exhausted. *)
Definition peek (str : list Z) : Z := hd 0 str.

(** ** DN string parsing *)

(** Modelled from the spec: the macros [xmlSecIsHex] and [xmlSecGetHex] are
    used by the parser but defined in a header that is not under src/.
    "A backslash followed by two hex digits decodes one byte": a hex digit
    is one of 0-9, a-f, A-F and denotes its usual value. *)
Definition xmlSecIsHex (c : Z) : bool :=
  ((48 <=? c) && (c <=? 57)) || ((97 <=? c) && (c <=? 102))
  || ((65 <=? c) && (c <=? 70)).

Definition xmlSecGetHex (c : Z) : Z :=
  if (48 <=? c) && (c <=? 57) then c - 48
  else if (97 <=? c) && (c <=? 102) then c - 97 + 10
  else if (65 <=? c) && (c <=? 70) then c - 65 + 10
  else 0.

(** State of the copy loop of [xmlSecOpenSSLX509NameStringRead]: the output
    array, [jj] and [nonSpace].  The index [ii] is the number of input bytes
    consumed, kept as the remaining input. *)
Definition put (ingoreTrailingSpaces : bool) (out : list Z) (jj nonSpace : Z)
    (outCh : Z) : result (list Z * Z * Z) :=
  out' ← store out jj outCh;
  let jj' := jj + 1 in
  mret (out', jj',
        if ingoreTrailingSpaces && negb (isspace outCh) then jj' else nonSpace).

(** The [while (ii < *inSize)] loop.  The result is the input from index
    [ii] on, the output array, [jj] and [nonSpace]. *)
Fixpoint NameStringRead_loop (delim : Z) (ingoreTrailingSpaces : bool)
    (outSize : Z) (inp : list Z) (out : list Z) (jj nonSpace : Z)
  : result (list Z * list Z * Z * Z) :=
  match inp with
  | [] => Ok ([], out, jj, nonSpace)
  | inCh :: rest =>
      if inCh =? delim then Ok (inp, out, jj, nonSpace)
      else if jj >=? outSize then Error "output buffer is too small"
      else if inCh =? ch_backslash then
        match rest with
        | [] => Ok ([], out, jj, nonSpace)
        | inCh1 :: rest1 =>
            if xmlSecIsHex inCh1 then
              match rest1 with
              | [] => Error "two hex digits expected"
              | inCh2 :: rest2 =>
                  if negb (xmlSecIsHex inCh2)
                  then Error "two hex digits expected"
                  else
                    let outCh :=
                      (xmlSecGetHex inCh1 * 16 + xmlSecGetHex inCh2) mod 256 in
                    '(out', jj', nonSpace') ←
                      put ingoreTrailingSpaces out jj nonSpace outCh;
                    NameStringRead_loop delim ingoreTrailingSpaces outSize
                      rest2 out' jj' nonSpace'
              end
            else
              '(out', jj', nonSpace') ←
                put ingoreTrailingSpaces out jj nonSpace inCh1;
              NameStringRead_loop delim ingoreTrailingSpaces outSize
                rest1 out' jj' nonSpace'
        end
      else
        '(out', jj', nonSpace') ←
          put ingoreTrailingSpaces out jj nonSpace inCh;
        NameStringRead_loop delim ingoreTrailingSpaces outSize
          rest out' jj' nonSpace'
  end.

(** [xmlSecOpenSSLX509NameStringRead] (and [xmlSecNssX509NameStringRead],
    which is the same text): the advanced input, the output array and
    [*outWritten]. *)
Definition xmlSecOpenSSLX509NameStringRead (inp : list Z) (out : list Z)
    (outSize : Z) (delim : Z) (ingoreTrailingSpaces : bool)
  : result (list Z * list Z * Z) :=
  '(inp', out', jj, nonSpace) ←
    NameStringRead_loop delim ingoreTrailingSpaces outSize inp out 0 0;
  mret (inp', out', if ingoreTrailingSpaces then nonSpace else jj).

(** ** Certificates, CRLs and the crypto backend *)

(** An [ASN1_TIME] is a well-formed time (seconds since the epoch) or a
    string the library cannot read as a time. *)
Inductive ASN1_TIME : Type :=
| ASN1_TIME_at (secs : Z)
| ASN1_TIME_malformed.

(** [X509]: the fields the code reads.  [x509_addr] is the address of the
    object: [cert == cert_ii] in C compares addresses.  The subject key
    identifier extension and the public key may be missing. *)
Record X509 : Type := mkX509 {
  x509_addr : Z;
  x509_subject : list X509_NAME_ENTRY;
  x509_issuer : list X509_NAME_ENTRY;
  x509_serialNumber : Z;
  x509_skid : option (list Z);
  x509_pubkey : option Z
}.

Global Instance X509_eq_dec : EqDecision X509.
Proof. solve_decision. Defined.

(** [X509_CRL]: issuer, nextUpdate, the serial numbers of the revoked
    entries in order, and the signature (opaque to this code).  The field
    nextUpdate is optional in a CRL: [crl_nextUpdate] is what
    [X509_CRL_get0_nextUpdate] returns, [None] being NULL. *)
Record X509_CRL : Type := mkCRL {
  crl_issuer : list X509_NAME_ENTRY;
  crl_nextUpdate : option ASN1_TIME;
  crl_revoked : list Z;
  crl_signature : Z
}.

Global Instance ASN1_TIME_eq_dec : EqDecision ASN1_TIME.
Proof. solve_decision. Defined.

Global Instance X509_CRL_eq_dec : EqDecision X509_CRL.
Proof. solve_decision. Defined.

(** The calls into the crypto library whose result this code only consumes.
    - [X509_NAME_add_entry_by_txt name value]: the entry the library builds
      from a field name and a value and appends to the name ([None] when it
      returns an error: unknown field name, value refused).
    - [X509_NAME_hash_ex]: the hash of a name, 0 on error.
    - [X509_CRL_verify crl pkey]: 1 when the signature of the CRL checks
      out with the key, another value otherwise.
    - [X509_verify_cert xst cert chain time depth]: chain building and
      validation of [cert] against the trusted store [xst] with [chain] as
      the supply of intermediates; the result is the return value, the error
      code and the certificate the error is about.
    - [X509_STORE_CTX_get_by_subject xst name]: the call
      [X509_STORE_CTX_get_by_subject(xsc, X509_LU_X509, name, xobj)] on a
      context initialised with the store [xst] alone (no untrusted chain);
      the certificate the library finds, [None] when it returns 0 or a
      negative value.  The library compares names in its canonical form,
      in which the case of letters and surplus white space do not count. *)
Class Backend : Type := {
  X509_NAME_add_entry_by_txt : list Z -> list Z -> option X509_NAME_ENTRY;
  X509_NAME_hash_ex : list X509_NAME_ENTRY -> Z;
  X509_CRL_verify : X509_CRL -> Z -> Z;
  X509_verify_cert :
    list X509 -> X509 -> list X509 -> option Z -> Z -> Z * Z * option X509;
  X509_STORE_CTX_get_by_subject :
    list X509 -> list X509_NAME_ENTRY -> option X509
}.

(** ** [xmlSecOpenSSLX509NameRead] *)

(** [sizeof(name)] and [sizeof(value)]. *)
Definition NAME_BUF_SIZE : Z := 256.

(** The loops that skip white space: [++str; --strSize;] while
    [strSize > 0] and the current byte is a space. *)
Fixpoint skip_spaces (str : list Z) : list Z :=
  match str with
  | c :: rest => if isspace c then skip_spaces rest else str
  | [] => []
  end.

(** [if(strSize > 0) { ++str; --strSize; }] *)
Definition skip_one (str : list Z) : list Z := tl str.

(** [xmlStrPrintf(name, sizeof(name), "emailAddress")] *)
Definition xmlStrPrintf_emailAddress (name : list Z) : list Z :=
  BAD_CAST "emailAddress" ++ [0] ++ drop 13 name.

(** The value part of one [name=value] pair: from the test
    [if(strSize > 0)] that follows the name to the end of that conditional.
    The result is the advanced input, the value array and [valueSize]. *)
Definition NameRead_value (str : list Z) (value : list Z)
  : result (list Z * list Z * Z) :=
  match str with
  | [] => Ok ([], value, 0)
  | _ :: str =>
      if peek str =? ch_quote then
        let str := skip_one str in
        '(str, value, valueSize) ←
          xmlSecOpenSSLX509NameStringRead str value NAME_BUF_SIZE ch_quote true;
        if (Z.of_nat (length str) <=? 0) || negb (peek str =? ch_quote)
        then Error "quote expected"
        else
          let str := skip_one str in
          let str := skip_spaces str in
          if (0 <? Z.of_nat (length str)) && negb (peek str =? ch_comma)
          then Error "comma expected"
          else Ok (skip_one str, value, valueSize)
      else if peek str =? ch_hash then
        Error "reading octect values is not implemented yet"
      else
        xmlSecOpenSSLX509NameStringRead str value NAME_BUF_SIZE ch_comma true
  end.

(** One iteration of the [while(strSize > 0)] loop up to the call of
    [X509_NAME_add_entry_by_txt]: the advanced input, the two arrays, and
    the two arguments of the call, the field name (a C string) and the
    value ([valueLen] bytes). *)
Definition NameRead_pair_fields (str name value : list Z)
  : result (list Z * list Z * list Z * list Z * list Z) :=
  let str := skip_spaces str in
  '(str, name, nameSize) ←
    xmlSecOpenSSLX509NameStringRead str name NAME_BUF_SIZE ch_equal false;
  name ← store name nameSize 0;
  let name := if bool_decide (c_str name = BAD_CAST "E")
              then xmlStrPrintf_emailAddress name else name in
  '(str, value, valueSize) ← NameRead_value str value;
  value ← store value valueSize 0;
  let str := skip_one str in
  mret (str, name, value, c_str name, take (Z.to_nat valueSize) value).

(** One iteration of the loop: the name is extended by one entry. *)
Definition NameRead_pair `{Backend} (str name value : list Z)
    (nm : list X509_NAME_ENTRY)
  : result (list Z * list Z * list Z * list X509_NAME_ENTRY) :=
  '(str, name, value, field, data) ← NameRead_pair_fields str name value;
  match X509_NAME_add_entry_by_txt field data with
  | Some entry => Ok (str, name, value, nm ++ [entry])
  | None => Error "X509_NAME_add_entry_by_txt"
  end.

Fixpoint NameRead_loop `{Backend} (fuel : nat) (str name value : list Z)
    (nm : list X509_NAME_ENTRY) : result (list X509_NAME_ENTRY) :=
  match str with
  | [] => Ok nm
  | _ :: _ =>
      match fuel with
      | O => Timeout
      | S fuel' =>
          '(str, name, value, nm) ← NameRead_pair str name value nm;
          NameRead_loop fuel' str name value nm
      end
  end.

(** [xmlSecOpenSSLX509NameRead]: the parsed name, or an error (NULL).  The
    two local arrays start with indeterminate contents, taken as zeros: no
    byte of them is read before it is written.  Every iteration consumes at
    least one byte of input, so the length of the input is enough fuel. *)
Definition xmlSecOpenSSLX509NameRead `{Backend} (str : list Z)
  : result (list X509_NAME_ENTRY) :=
  NameRead_loop (length str) str
    (replicate (Z.to_nat NAME_BUF_SIZE) 0)
    (replicate (Z.to_nat NAME_BUF_SIZE) 0) [].

(** ** Certificate lookup: [xmlSecOpenSSLX509FindCert] *)

(** [BN_dec2bn] followed by [BN_to_ASN1_INTEGER]: OpenSSL reads an optional
    minus sign and the longest run of decimal digits, of any length, and
    fails (returns 0) when there is no digit.  The integer is kept as a
    [Z]. *)
Definition isdigit (c : Z) : bool := (48 <=? c) && (c <=? 57).

Fixpoint dec_digits (acc : Z) (s : list Z) : Z :=
  match s with
  | c :: rest => if isdigit c then dec_digits (acc * 10 + (c - 48)) rest else acc
  | [] => acc
  end.

Definition BN_dec2bn (s : list Z) : option Z :=
  let neg := peek s =? 45 in
  let digits := if neg then tl s else s in
  if isdigit (peek digits)
  then Some (if neg then - dec_digits 0 digits else dec_digits 0 digits)
  else None.

(** [ASN1_INTEGER_cmp]: 0 exactly when the two integers are equal. *)
Definition ASN1_INTEGER_cmp (x y : Z) : Z :=
  if x <? y then -1 else if x =? y then 0 else 1.

Definition INT_MAX : Z := 2147483647.

Section FindCert.
Context `{Backend}.

(** "search by subject name if available": the body of the first [if]. *)
Definition find_by_subject (certs : list X509) (subjectName : list Z)
  : result (option X509) :=
  match xmlSecOpenSSLX509NameRead subjectName with
  | Ok nm =>
      Ok (find (fun cert =>
                  xmlSecOpenSSLX509NamesCompare nm (x509_subject cert) =? 0)
               certs)
  | Error _ => Error "xmlSecOpenSSLX509NameRead"
  | Fault idx size => Fault idx size
  | Timeout => Timeout
  end.

(** "search by issuer name+serial if available": the body of the second
    [if]. *)
Definition find_by_issuer_serial (certs : list X509)
    (issuerName issuerSerial : list Z) : result (option X509) :=
  match xmlSecOpenSSLX509NameRead issuerName with
  | Ok nm =>
      match BN_dec2bn issuerSerial with
      | None => Error "BN_dec2bn"
      | Some serial =>
          Ok (find (fun cert =>
                      (ASN1_INTEGER_cmp (x509_serialNumber cert) serial =? 0)
                      && (xmlSecOpenSSLX509NamesCompare nm (x509_issuer cert)
                          =? 0))
                   certs)
      end
  | Error _ => Error "xmlSecOpenSSLX509NameRead"
  | Fault idx size => Fault idx size
  | Timeout => Timeout
  end.

(** "search by SKI if available": the body of the third [if].  A
    certificate without the extension is skipped. *)
Definition find_by_ski (certs : list X509) (ski : list Z)
  : result (option X509) :=
  let skiSize := Z.of_nat (length ski) in
  if INT_MAX <? skiSize then Error "XMLSEC_SAFE_CAST_SIZE_TO_INT"
  else
    Ok (find (fun cert =>
                match x509_skid cert with
                | None => false
                | Some keyId =>
                    (Z.of_nat (length keyId) =? skiSize)
                    && (memcmp keyId ski (length ski) =? 0)
                end)
             certs).

(** [xmlSecOpenSSLX509FindCert].  An absent criterion is a NULL pointer;
    [ski] is the decoded identifier and [skiSize] its length.  The result
    is [Ok (Some cert)], [Ok None] (NULL, nothing reported) or an error
    (NULL after an error report). *)
Definition xmlSecOpenSSLX509FindCert (certs : list X509)
    (subjectName issuerName issuerSerial : option (list Z))
    (ski : option (list Z)) : result (option X509) :=
  r1 ← match subjectName with
       | Some sn => find_by_subject certs sn
       | None => Ok None
       end;
  match r1 with
  | Some cert => Ok (Some cert)
  | None =>
      r2 ← match issuerName, issuerSerial with
           | Some iname, Some iserial =>
               find_by_issuer_serial certs iname iserial
           | _, _ => Ok None
           end;
      match r2 with
      | Some cert => Ok (Some cert)
      | None =>
          match ski with
          | Some k =>
              if 0 <? Z.of_nat (length k) then find_by_ski certs k
              else Ok None
          | None => Ok None
          end
      end
  end.
End FindCert.

(** ** The store *)

(** [xmlSecOpenSSLX509StoreCtx]: the trusted certificates of the
    [X509_STORE], the untrusted certificates and the CRLs. *)
Record xmlSecOpenSSLX509StoreCtx : Type := mkStore {
  xst : list X509;
  untrusted : list X509;
  crls : list X509_CRL
}.


Section StoreFindCert.
Context `{Backend} `{Base64}.

(** [xmlSecOpenSSLX509StoreFindCert_ex] *)
Definition xmlSecOpenSSLX509StoreFindCert_ex (ctx : xmlSecOpenSSLX509StoreCtx)
    (subjectName issuerName issuerSerial : option (list Z))
    (ski : option (list Z)) : result (option X509) :=
  xmlSecOpenSSLX509FindCert (untrusted ctx) subjectName issuerName
    issuerSerial ski.

End StoreFindCert.

(** ** CRL checks *)

(** [X509_cmp_current_time] of OpenSSL on a pointer that is not NULL, after
    its manual page: -1 when the time is earlier than or equal to the
    current time, 1 when it is later, 0 on error (a time that cannot be
    read).  [now] is the clock. *)
Definition X509_cmp_current_time (ctm : ASN1_TIME) (now : Z) : Z :=
  match ctm with
  | ASN1_TIME_at secs => if secs <=? now then -1 else 1
  | ASN1_TIME_malformed => 0
  end.

Section Verify.
Context `{Backend}.

(** [xmlSecOpenSSLX509VerifyCRL]: 1 verified, 0 not verified, -1 error. *)
Definition xmlSecOpenSSLX509VerifyCRL (store : list X509) (crl : X509_CRL)
  : Z :=
  match X509_STORE_CTX_get_by_subject store (crl_issuer crl) with
  | None => -1
  | Some issuer =>
      match x509_pubkey issuer with
      | None => -1
      | Some pkey =>
          let ret := X509_CRL_verify crl pkey in
          if ret =? 1 then 1 else 0
      end
  end.

(** [xmlSecOpenSSLX509VerifyCertAgainstCrls]: 0 when the certificate is
    revoked, 1 otherwise.  The first loop stops at the first CRL whose
    issuer is the issuer of the certificate.  The pointer returned by
    [X509_CRL_get0_nextUpdate] is passed on unchecked: for a CRL without
    nextUpdate [X509_cmp_current_time] reads through NULL. *)
Definition xmlSecOpenSSLX509VerifyCertAgainstCrls (now : Z)
    (crls : list X509_CRL) (cert : X509) : result Z :=
  let issuer := x509_issuer cert in
  match find (fun crl =>
                xmlSecOpenSSLX509NamesCompare (crl_issuer crl) issuer =? 0)
             crls with
  | None => Ok 1
  | Some crl =>
      match crl_nextUpdate crl with
      | None => Fault 0 0
      | Some nextUpdate =>
          let ret := X509_cmp_current_time nextUpdate now in
          if ret =? 0 then Ok 1
          else if existsb
                    (fun revoked =>
                       ASN1_INTEGER_cmp revoked (x509_serialNumber cert) =? 0)
                    (crl_revoked crl)
          then Ok 0
          else Ok 1
      end
  end.

(** ** Leaf selection: [xmlSecOpenSSLX509FindNextChainCert] *)

Definition xmlSecOpenSSLX509GetSubjectHash (x : X509) : Z :=
  X509_NAME_hash_ex (x509_subject x).

Definition xmlSecOpenSSLX509GetIssuerHash (x : X509) : Z :=
  X509_NAME_hash_ex (x509_issuer x).

Fixpoint FindNextChainCert_loop (certNameHash : Z) (cert : X509)
    (chain : list X509) : result (option X509) :=
  match chain with
  | [] => Ok None
  | cert_ii :: rest =>
      if x509_addr cert =? x509_addr cert_ii
      then FindNextChainCert_loop certNameHash cert rest
      else
        let certNameHash2 := xmlSecOpenSSLX509GetSubjectHash cert_ii in
        if certNameHash2 =? 0 then Error "xmlSecOpenSSLX509GetSubjectHash"
        else if certNameHash =? certNameHash2
        then FindNextChainCert_loop certNameHash cert rest
        else
          let certNameHash2 := xmlSecOpenSSLX509GetIssuerHash cert_ii in
          if certNameHash2 =? 0 then Error "xmlSecOpenSSLX509GetIssuerHash"
          else if negb (certNameHash =? certNameHash2)
          then FindNextChainCert_loop certNameHash cert rest
          else Ok (Some cert_ii)
  end.

(** The function returns NULL both when no certificate of the chain was
    issued by [cert] ([Ok None]) and after an error report. *)
Definition xmlSecOpenSSLX509FindNextChainCert (chain : list X509)
    (cert : X509) : result (option X509) :=
  let certNameHash := xmlSecOpenSSLX509GetSubjectHash cert in
  if certNameHash =? 0 then Error "xmlSecOpenSSLX509GetSubjectHash"
  else FindNextChainCert_loop certNameHash cert chain.

(** [xmlSecOpenSSLX509FindNextChainCert(certs2, cert) == NULL] *)
Definition is_leaf (chain : list X509) (cert : X509) : bool :=
  match xmlSecOpenSSLX509FindNextChainCert chain cert with
  | Ok (Some _) => false
  | _ => true
  end.

(** ** [xmlSecOpenSSLX509StoreVerify] *)

(** The fields of [xmlSecKeyInfoCtx] the function reads. *)
Record xmlSecKeyInfoCtx : Type := mkKeyInfoCtx {
  certsVerificationTime : Z;
  certsVerificationDepth : Z;
  flags : Z
}.

(** Modelled from the spec: the flag is defined in xmlsec/keyinfo.h, which
    is not under src/; there it is the bit 0x200.  No theorem depends on
    which bit it is. *)
Definition XMLSEC_KEYINFO_FLAGS_X509DATA_DONT_VERIFY_CERTS : Z := 512.

(** "dup crls but remove all non-verified": the loop over [crls2] with
    index [i], which deletes in place. *)
Fixpoint verify_crls_loop (fuel : nat) (store : list X509)
    (crls2 : list X509_CRL) (i : nat) : result (list X509_CRL) :=
  match fuel with
  | O => Timeout
  | S fuel' =>
      match crls2 !! i with
      | None => Ok crls2
      | Some crl =>
          let ret := xmlSecOpenSSLX509VerifyCRL store crl in
          if ret =? 1 then verify_crls_loop fuel' store crls2 (S i)
          else if ret =? 0
          then verify_crls_loop fuel' store (delete i crls2) i
          else Error "xmlSecOpenSSLX509VerifyCRL"
      end
  end.

(** "remove all revoked certs": the loop over [certs2] with index [i].
    [crls2] is NULL when the caller passed no CRL stack; the CRL stack of
    the store always exists. *)
Fixpoint remove_revoked_loop (fuel : nat) (now : Z)
    (crls2 : option (list X509_CRL)) (ctx_crls : list X509_CRL)
    (certs2 : list X509) (i : nat) : result (list X509) :=
  match fuel with
  | O => Timeout
  | S fuel' =>
      match certs2 !! i with
      | None => Ok certs2
      | Some cert =>
          ret1 ← match crls2 with
                 | Some l => xmlSecOpenSSLX509VerifyCertAgainstCrls now l cert
                 | None => Ok 1
                 end;
          if ret1 =? 0
          then remove_revoked_loop fuel' now crls2 ctx_crls (delete i certs2) i
          else if negb (ret1 =? 1)
          then Error "xmlSecOpenSSLX509VerifyCertAgainstCrls"
          else
            ret2 ← xmlSecOpenSSLX509VerifyCertAgainstCrls now ctx_crls cert;
            if ret2 =? 0
            then remove_revoked_loop fuel' now crls2 ctx_crls
                   (delete i certs2) i
            else if negb (ret2 =? 1)
            then Error "xmlSecOpenSSLX509VerifyCertAgainstCrls"
            else remove_revoked_loop fuel' now crls2 ctx_crls certs2 (S i)
      end
  end.

(** The part of [xmlSecOpenSSLX509StoreVerify] that runs before the
    verification loop: [certs2] is the caller's stack followed by the
    untrusted certificates of the store; the CRLs of the caller are
    verified; the revoked certificates are removed.  The result is the
    final [certs2].  Each loop either advances its index or deletes an
    element, so one more than the length of the stack is enough fuel. *)
Definition revocation_filter (ctx : xmlSecOpenSSLX509StoreCtx)
    (certs : list X509) (crls_arg : option (list X509_CRL)) (now : Z)
  : result (list X509) :=
  let certs2 := certs ++ untrusted ctx in
  crls2 ← match crls_arg with
          | Some l =>
              l' ← verify_crls_loop (S (length l)) (xst ctx) l 0;
              mret (Some l')
          | None => mret None
          end;
  remove_revoked_loop (S (length certs2)) now crls2 (crls ctx) certs2 0.

(** How the call ends: a verified certificate, or NULL with the error
    class reported after the loop (if any). *)
Inductive xmlSecErrorReason : Type :=
| XMLSEC_ERRORS_R_CERT_ISSUER_FAILED
| XMLSEC_ERRORS_R_CERT_NOT_YET_VALID
| XMLSEC_ERRORS_R_CERT_HAS_EXPIRED
| XMLSEC_ERRORS_R_CERT_VERIFY_FAILED.

Inductive verify_outcome : Type :=
| Verified (cert : X509)
| NotVerified (reason : option xmlSecErrorReason).

(** The [switch (err)] after the loop, with OpenSSL's error codes:
    X509_V_ERR_UNABLE_TO_GET_ISSUER_CERT is 2, X509_V_ERR_CERT_NOT_YET_VALID
    9, X509_V_ERR_CERT_HAS_EXPIRED 10, X509_V_ERR_ERROR_IN_CERT_NOT_BEFORE_FIELD
    13 and X509_V_ERR_ERROR_IN_CERT_NOT_AFTER_FIELD 14. *)
Definition classify (err : Z) (err_cert : option X509)
  : option xmlSecErrorReason :=
  match err_cert with
  | None => None
  | Some _ =>
      if err =? 0 then None
      else if err =? 2 then Some XMLSEC_ERRORS_R_CERT_ISSUER_FAILED
      else if (err =? 9) || (err =? 13)
      then Some XMLSEC_ERRORS_R_CERT_NOT_YET_VALID
      else if (err =? 10) || (err =? 14)
      then Some XMLSEC_ERRORS_R_CERT_HAS_EXPIRED
      else Some XMLSEC_ERRORS_R_CERT_VERIFY_FAILED
  end.

(** "get one cert after another and try to verify": [todo] is [certs2]
    from index [i] on; [err] and [err_cert] are the variables of the same
    name. *)
Fixpoint verify_loop (ctx : xmlSecOpenSSLX509StoreCtx)
    (keyInfoCtx : xmlSecKeyInfoCtx) (certs2 : list X509)
    (todo : list X509) (err : Z) (err_cert : option X509)
  : result verify_outcome :=
  match todo with
  | [] => Ok (NotVerified (classify err err_cert))
  | cert :: todo' =>
      if is_leaf certs2 cert then
        if Z.land (flags keyInfoCtx)
             XMLSEC_KEYINFO_FLAGS_X509DATA_DONT_VERIFY_CERTS =? 0
        then
          let time := if 0 <? certsVerificationTime keyInfoCtx
                      then Some (certsVerificationTime keyInfoCtx)
                      else None in
          let '(ret, err', err_cert') :=
            X509_verify_cert (xst ctx) cert certs2 time
              (certsVerificationDepth keyInfoCtx) in
          if ret =? 1 then Ok (Verified cert)
          else if ret <? 0 then Error "X509_verify_cert"
          else verify_loop ctx keyInfoCtx certs2 todo' err' err_cert'
        else Ok (Verified cert)
      else verify_loop ctx keyInfoCtx certs2 todo' err err_cert
  end.

(** [xmlSecOpenSSLX509StoreVerify].  [crls_arg] is [None] when the caller
    passes a NULL CRL stack; [now] is the clock. *)
Definition xmlSecOpenSSLX509StoreVerify (ctx : xmlSecOpenSSLX509StoreCtx)
    (certs : list X509) (crls_arg : option (list X509_CRL))
    (keyInfoCtx : xmlSecKeyInfoCtx) (now : Z) : result verify_outcome :=
  certs2 ← revocation_filter ctx certs crls_arg now;
  verify_loop ctx keyInfoCtx certs2 certs2 0 None.
End Verify.

(** ** The NSS backend: [src/nss/x509vfy.c] *)

(** [xmlSecNssNumToItem]: [ui] is a [PRUint64].  [bb] is the 9-byte array,
    [zeros_len] the value of the loop variable when the [for] loop ends.
    The result is the data copied into the item and the returned length
    (the allocation is taken to succeed). *)
Definition NumToItem_bb (ui : Z) : list Z :=
  0 :: map (fun sh => Z.land (Z.shiftr ui sh) 255) [56; 48; 40; 32; 24; 16; 8; 0].

Fixpoint leading_zeros (l : list Z) : nat :=
  match l with
  | c :: rest => if c =? 0 then S (leading_zeros rest) else O
  | [] => O
  end.

Definition NumToItem_zeros_len (bb : list Z) : nat :=
  S (leading_zeros (drop 1 bb)).

Definition xmlSecNssNumToItem (ui : Z) : list Z * Z :=
  let bb := NumToItem_bb ui in
  let bb_len := length bb in
  let zeros_len := NumToItem_zeros_len bb in
  let len := (bb_len - (zeros_len - 1))%nat in
  (take len (drop (zeros_len - 1) bb), Z.of_nat len).

(** [CERTCertificate]: the address of the object and the encoded subject
    and issuer names. *)
Record CERTCertificate : Type := mkCERT {
  nss_addr : Z;
  derSubject : list Z;
  derIssuer : list Z
}.

(** The inner loop of [xmlSecNssX509StoreVerify]: "if cert is the issuer of
    any other cert in the list, then it is to be skipped".
    [SECITEM_CompareItem] is [SECEqual] when the two items hold the same
    bytes. *)
Definition nss_issuer_of_other (certs : list CERTCertificate)
    (cert : CERTCertificate) : bool :=
  existsb (fun cert1 =>
             negb (nss_addr cert1 =? nss_addr cert)
             && bool_decide (derIssuer cert1 = derSubject cert))
          certs.

(** The outer loop of [xmlSecNssX509StoreVerify]; [verify cert] stands for
    [CERT_VerifyCertificate(...) == SECSuccess] and [dont_verify] for the
    flag test. *)
Fixpoint nss_verify_loop (verify : CERTCertificate -> bool) (dont_verify : bool)
    (certs todo : list CERTCertificate) : option CERTCertificate :=
  match todo with
  | [] => None
  | cert :: todo' =>
      if nss_issuer_of_other certs cert
      then nss_verify_loop verify dont_verify certs todo'
      else if dont_verify then Some cert
      else if verify cert then Some cert
      else nss_verify_loop verify dont_verify certs todo'
  end.

(** The calls of [xmlSecNssX509FindCert] into NSS and its certificate
    database.
    - [xmlSecNssGetCertName name]: the parsed name, [None] for NULL;
    - [SEC_ASN1EncodeItem name]: its encoding, [None] for NULL;
    - [PR_sscanf_llu s]: the number read by the format [%llu], a
      [PRUint64], when [PR_sscanf] returns 1;
    - the three lookups of the database and the reading of the subject key
      identifier extension of a certificate ([None]: not [SECSuccess]).
    Allocation failures ([PORT_NewArena], [PORT_Alloc],
    [CERT_DupCertificate]) are left out. *)
Class NssBackend : Type := {
  CERTName : Type;
  xmlSecNssGetCertName : list Z -> option CERTName;
  SEC_ASN1EncodeItem : CERTName -> option (list Z);
  PR_sscanf_llu : list Z -> option Z;
  CERT_FindCertByName : list Z -> option CERTCertificate;
  CERT_FindCertByIssuerAndSN : list Z -> list Z -> option CERTCertificate;
  CERT_FindCertBySubjectKeyID : list Z -> option CERTCertificate;
  CERT_FindSubjectKeyIDExtension : CERTCertificate -> option (list Z)
}.

Definition UINT_MAX : Z := 4294967295.

Section NssFindCert.
Context `{NssBackend}.

(** "search by subject name if available" *)
Definition nss_find_by_subject (subjectName : list Z)
  : result (option CERTCertificate) :=
  match xmlSecNssGetCertName subjectName with
  | None => Error "xmlSecNssGetCertName"
  | Some name =>
      match SEC_ASN1EncodeItem name with
      | None => Error "SEC_ASN1EncodeItem"
      | Some nameitem => Ok (CERT_FindCertByName nameitem)
      end
  end.

(** "search by issuer name+serial if available" *)
Definition nss_find_by_issuer_serial (issuerName issuerSerial : list Z)
  : result (option CERTCertificate) :=
  match xmlSecNssGetCertName issuerName with
  | None => Error "xmlSecNssGetCertName"
  | Some name =>
      match SEC_ASN1EncodeItem name with
      | None => Error "SEC_ASN1EncodeItem"
      | Some nameitem =>
          match PR_sscanf_llu issuerSerial with
          | None => Error "PR_sscanf(issuerSerial)"
          | Some issuerSN =>
              let '(serialNumber, rv) := xmlSecNssNumToItem issuerSN in
              if rv <=? 0 then Error "xmlSecNssNumToItem(serialNumber)"
              else Ok (CERT_FindCertByIssuerAndSN nameitem serialNumber)
          end
      end
  end.

(** "try to search in our list": the loop over [certsList]. *)
Fixpoint nss_find_ski_in_list (certsList : list CERTCertificate)
    (ski : list Z) : result (option CERTCertificate) :=
  match certsList with
  | [] => Ok None
  | cert :: rest =>
      match CERT_FindSubjectKeyIDExtension cert with
      | None => Error "CERT_FindSubjectKeyIDExtension(ski)"
      | Some tmpitem =>
          if (Z.of_nat (length tmpitem) =? Z.of_nat (length ski))
             && (memcmp tmpitem ski (length ski) =? 0)
          then Ok (Some cert)
          else nss_find_ski_in_list rest ski
      end
  end.

(** "search by SKI if available"; [certsList] can be NULL. *)
Definition nss_find_by_ski (certsList : option (list CERTCertificate))
    (ski : list Z) : result (option CERTCertificate) :=
  if UINT_MAX <? Z.of_nat (length ski) then Error "XMLSEC_SAFE_CAST_SIZE_TO_UINT"
  else
    match CERT_FindCertBySubjectKeyID ski with
    | Some cert => Ok (Some cert)
    | None =>
        match certsList with
        | Some l => nss_find_ski_in_list l ski
        | None => Ok None
        end
    end.

(** [xmlSecNssX509FindCert] *)
Definition xmlSecNssX509FindCert (certsList : option (list CERTCertificate))
    (subjectName issuerName issuerSerial : option (list Z))
    (ski : option (list Z)) : result (option CERTCertificate) :=
  r1 ← match subjectName with
       | Some sn => nss_find_by_subject sn
       | None => Ok None
       end;
  match r1 with
  | Some cert => Ok (Some cert)
  | None =>
      r2 ← match issuerName, issuerSerial with
           | Some iname, Some iserial => nss_find_by_issuer_serial iname iserial
           | _, _ => Ok None
           end;
      match r2 with
      | Some cert => Ok (Some cert)
      | None =>
          match ski with
          | Some k =>
              if 0 <? Z.of_nat (length k) then nss_find_by_ski certsList k
              else Ok None
          | None => Ok None
          end
      end
  end.
End NssFindCert.

(** ** Base64 decoding: [src/base64.c] *)

Module Base64C.
(** [xmlSecBase64Ctx] in decode mode: [ctx_in] holds [in[0..inPos-1]],
    [ctx_out] holds [out[0..outPos-1]]. *)
Record xmlSecBase64Ctx : Type := mkCtx {
  ctx_in : list Z;
  ctx_out : list Z;
  equalSigns : Z
}.

Definition xmlSecIsBase64Char (ch : Z) : bool :=
  ((65 <=? ch) && (ch <=? 90)) || ((97 <=? ch) && (ch <=? 122))
  || ((48 <=? ch) && (ch <=? 57)) || (ch =? 43) || (ch =? 47).

Definition xmlSecIsBase64Space (ch : Z) : bool :=
  (ch =? 32) || (ch =? 9) || (ch =? 13) || (ch =? 10).

(** The six bits a base64 character stands for: the chain of tests of
    [xmlSecBase64CtxPush]. *)
Definition sextet (ch : Z) : Z :=
  if (65 <=? ch) && (ch <=? 90) then ch - 65
  else if (97 <=? ch) && (ch <=? 122) then 26 + (ch - 97)
  else if (48 <=? ch) && (ch <=? 57) then 52 + (ch - 48)
  else if ch =? 43 then 62
  else 63.

(** The three macros, with the conversion to [unsigned char] of the
    store. *)
Definition xmlSecBase64Decode1 (a b : Z) : Z :=
  Z.land (Z.lor (Z.shiftl a 2) (Z.shiftr (Z.land b 63) 4)) 255.
Definition xmlSecBase64Decode2 (b c : Z) : Z :=
  Z.land (Z.lor (Z.shiftl b 4) (Z.shiftr (Z.land c 63) 2)) 255.
Definition xmlSecBase64Decode3 (c d : Z) : Z :=
  Z.land (Z.lor (Z.shiftl c 6) (Z.land d 63)) 255.

(** [xmlSecBase64CtxPush], decode branch: the context and the number of
    input bytes consumed. *)
Fixpoint xmlSecBase64CtxPush (ctx : xmlSecBase64Ctx) (inp : list Z)
    (inPos : Z) : result (xmlSecBase64Ctx * Z) :=
  match inp with
  | [] => Ok (ctx, inPos)
  | ch :: rest =>
      if 4 <=? Z.of_nat (length (ctx_in ctx)) then Ok (ctx, inPos)
      else if 0 <? equalSigns ctx then
        if (ch =? 61) && (equalSigns ctx <? 2)
        then xmlSecBase64CtxPush
               (mkCtx (ctx_in ctx) (ctx_out ctx) (equalSigns ctx + 1))
               rest (inPos + 1)
        else if negb (xmlSecIsBase64Space ch)
        then Error "too many equal signs at the end or non space character after equal sign"
        else xmlSecBase64CtxPush ctx rest (inPos + 1)
      else if ch =? 61
      then xmlSecBase64CtxPush
             (mkCtx (ctx_in ctx) (ctx_out ctx) (equalSigns ctx + 1))
             rest (inPos + 1)
      else if xmlSecIsBase64Char ch
      then xmlSecBase64CtxPush
             (mkCtx (ctx_in ctx ++ [sextet ch]) (ctx_out ctx) (equalSigns ctx))
             rest (inPos + 1)
      else if negb (xmlSecIsBase64Space ch)
      then Error "non-base64 and non-space character"
      else xmlSecBase64CtxPush ctx rest (inPos + 1)
  end.

(** [xmlSecBase64CtxDecode] *)
Definition xmlSecBase64CtxDecode (ctx : xmlSecBase64Ctx)
  : result xmlSecBase64Ctx :=
  if 0 <? Z.of_nat (length (ctx_out ctx)) then Ok ctx
  else
    match ctx_in ctx with
    | [] => Ok ctx
    | [_] => Error "only one or two equal signs are allowed at the end"
    | a :: b :: more =>
        let out1 := [xmlSecBase64Decode1 a b] in
        let out2 := match more with
                    | c :: more' =>
                        xmlSecBase64Decode2 b c ::
                        match more' with
                        | d :: _ => [xmlSecBase64Decode3 c d]
                        | [] => []
                        end
                    | [] => []
                    end in
        Ok (mkCtx [] (out1 ++ out2) (equalSigns ctx))
    end.

(** [xmlSecBase64CtxPop]: the context and the bytes copied out. *)
Definition xmlSecBase64CtxPop (ctx : xmlSecBase64Ctx) (outSize : Z)
    (final : bool) : result (xmlSecBase64Ctx * list Z) :=
  ctx ← (if (Z.of_nat (length (ctx_out ctx)) =? 0)
             && ((4 <=? Z.of_nat (length (ctx_in ctx))) || final)
         then xmlSecBase64CtxDecode ctx else Ok ctx);
  let outBlockSize :=
    Z.to_nat (Z.min (Z.of_nat (length (ctx_out ctx))) outSize) in
  mret (mkCtx (ctx_in ctx) (drop outBlockSize (ctx_out ctx)) (equalSigns ctx),
        take outBlockSize (ctx_out ctx)).

(** [xmlSecBase64CtxUpdate]: the context and the bytes written. *)
Fixpoint xmlSecBase64CtxUpdate (fuel : nat) (ctx : xmlSecBase64Ctx)
    (inp : list Z) (outSize : Z) (res : list Z)
  : result (xmlSecBase64Ctx * list Z) :=
  match fuel with
  | O => Timeout
  | S fuel' =>
      if (0 <? Z.of_nat (length inp)) && (0 <? outSize) then
        '(ctx, n) ← xmlSecBase64CtxPush ctx inp 0;
        let inp := drop (Z.to_nat n) inp in
        '(ctx, written) ← xmlSecBase64CtxPop ctx outSize false;
        match written with
        | [] => Ok (ctx, res)
        | _ => xmlSecBase64CtxUpdate fuel' ctx inp
                 (outSize - Z.of_nat (length written)) (res ++ written)
        end
      else Ok (ctx, res)
  end.

(** [xmlSecBase64CtxFinal] *)
Fixpoint xmlSecBase64CtxFinal (fuel : nat) (ctx : xmlSecBase64Ctx)
    (outLen : Z) (res : list Z) : result (list Z) :=
  match fuel with
  | O => Timeout
  | S fuel' =>
      if Z.of_nat (length res) <? outLen then
        '(ctx, written) ←
          xmlSecBase64CtxPop ctx (outLen - Z.of_nat (length res)) true;
        match written with
        | [] => Ok res
        | _ => xmlSecBase64CtxFinal fuel' ctx outLen (res ++ written)
        end
      else Error "buffer is too small"
  end.

(** [xmlSecBase64Decode(str, buf, len)]: the decoded bytes. *)
Definition xmlSecBase64Decode (str : list Z) (len : Z) : result (list Z) :=
  '(ctx, upd) ←
    xmlSecBase64CtxUpdate (S (length str)) (mkCtx [] [] 0) str len [];
  fin ← xmlSecBase64CtxFinal 8 ctx (len - Z.of_nat (length upd)) [];
  mret (upd ++ fin).

End Base64C.

(** ** A small backend for the worked examples

    Field names are looked up in a table of the usual short names; a
    signature is the number of the key that made it; the hash of a name is
    a positional sum of its bytes (never 0); chain validation accepts a
    certificate issued by a trusted certificate of the store; the lookup
    by subject compares names without regard to case and surplus white
    space. *)
Module Ref.
Definition OID_CN : list Z := [85; 4; 3].
Definition OID_C : list Z := [85; 4; 6].
Definition OID_O : list Z := [85; 4; 10].
Definition OID_OU : list Z := [85; 4; 11].
Definition OID_emailAddress : list Z := [42; 134; 72; 134; 247; 13; 1; 9; 1].

Definition field_table : list (list Z * list Z) :=
  [ (BAD_CAST "CN", OID_CN); (BAD_CAST "C", OID_C); (BAD_CAST "O", OID_O);
    (BAD_CAST "OU", OID_OU); (BAD_CAST "emailAddress", OID_emailAddress) ].

Definition add_entry_by_txt (name value : list Z) : option X509_NAME_ENTRY :=
  match find (fun kv => bool_decide (fst kv = name)) field_table with
  | Some kv => Some (mkEntry (snd kv) value)
  | None => None
  end.

Definition bytes_hash (l : list Z) : Z :=
  fold_left (fun acc c => (acc * 31 + c + 1) mod 4294967291) l 7.

Definition name_hash (nm : list X509_NAME_ENTRY) : Z :=
  1 + fold_left
        (fun acc e => (acc * 131 + bytes_hash (ne_object e ++ 0 :: ne_value e))
                      mod 4294967291)
        nm 0.

Definition crl_verify (crl : X509_CRL) (pkey : Z) : Z :=
  if crl_signature crl =? pkey then 1 else 0.

Definition verify_cert (store : list X509) (cert : X509) (chain : list X509)
    (time : option Z) (depth : Z) : Z * Z * option X509 :=
  if existsb (fun ca => bool_decide (x509_subject ca = x509_issuer cert)) store
  then (1, 0, Some cert)
  else (0, 20, Some cert).

(** The canonical form of a value: letters in lower case, no white space
    at the ends, one space for each run of white space inside.  [started]
    tells that a character has been written, [pending] that a space is due
    before the next one. *)
Definition tolower (c : Z) : Z :=
  if (65 <=? c) && (c <=? 90) then c + 32 else c.

Fixpoint canon_value (started pending : bool) (v : list Z) : list Z :=
  match v with
  | [] => []
  | c :: rest =>
      if isspace c then canon_value started started rest
      else (if pending then [32] else [])
           ++ tolower c :: canon_value true false rest
  end.

Definition canon (nm : list X509_NAME_ENTRY) : list X509_NAME_ENTRY :=
  map (fun e => mkEntry (ne_object e) (canon_value false false (ne_value e)))
      nm.

(** The lookup by subject: the first certificate of the store whose subject
    has the canonical form of the name. *)
Definition get_by_subject (store : list X509) (name : list X509_NAME_ENTRY)
  : option X509 :=
  find (fun cert => bool_decide (canon (x509_subject cert) = canon name))
       store.

Definition backend : Backend :=
  {| X509_NAME_add_entry_by_txt := add_entry_by_txt;
     X509_NAME_hash_ex := name_hash;
     X509_CRL_verify := crl_verify;
     X509_verify_cert := verify_cert;
     X509_STORE_CTX_get_by_subject := get_by_subject |}.

(** Names and certificates of the examples. *)
Definition dn (cn : string) : list X509_NAME_ENTRY :=
  [mkEntry OID_CN (BAD_CAST cn)].

Definition Root : X509 :=
  mkX509 1000 (dn "Root") (dn "Root") 1 (Some [1; 1]) (Some 11).
Definition Intermediate : X509 :=
  mkX509 1001 (dn "Intermediate") (dn "Root") 2 (Some [2; 2]) (Some 12).
Definition Leaf : X509 :=
  mkX509 1002 (dn "Leaf") (dn "Intermediate") 3 (Some [170; 187]) (Some 13).

(** Two certificates issued by Root, with serial numbers 5 and 6. *)
Definition Cert5 : X509 :=
  mkX509 1005 (dn "Five") (dn "Root") 5 None (Some 15).
Definition Cert6 : X509 :=
  mkX509 1006 (dn "Six") (dn "Root") 6 None (Some 16).

(** A second self-signed certificate of the subject Root (a renewed root:
    another object, another serial number and key). *)
Definition Root' : X509 :=
  mkX509 1010 (dn "Root") (dn "Root") 77 None (Some 21).

(** A CRL issued and signed by Root that lists serial 5; [crl_root]
    expires at time 2000, [crl_root_expired] expired at time 100. *)
Definition crl_root : X509_CRL :=
  mkCRL (dn "Root") (Some (ASN1_TIME_at 2000)) [5] 11.
Definition crl_root_expired : X509_CRL :=
  mkCRL (dn "Root") (Some (ASN1_TIME_at 100)) [5] 11.

(** A CRL issued and signed by Intermediate. *)
Definition crl_intermediate : X509_CRL :=
  mkCRL (dn "Intermediate") (Some (ASN1_TIME_at 2000)) [9] 12.

(** Three self-signed certificates that have nothing to do with each
    other. *)
Definition SelfA : X509 := mkX509 2001 (dn "A") (dn "A") 1 None (Some 31).
Definition SelfB : X509 := mkX509 2002 (dn "B") (dn "B") 1 None (Some 32).
Definition SelfC : X509 := mkX509 2003 (dn "C") (dn "C") 1 None (Some 33).

Definition store_root : xmlSecOpenSSLX509StoreCtx := mkStore [Root] [] [].

Definition kctx (flags : Z) : xmlSecKeyInfoCtx := mkKeyInfoCtx 0 9 flags.
(** A certificate database for the NSS lookups: each certificate with its
    serial number item and its subject key identifier.  Names are kept as
    their text. *)
Definition nss_Leaf : CERTCertificate :=
  mkCERT 103 (BAD_CAST "CN=Leaf") (BAD_CAST "CN=Intermediate").

Definition nss_db : list (CERTCertificate * list Z * list Z) :=
  [(nss_Leaf, [0; 255], [170; 187])].

Definition nss_lookup (p : CERTCertificate * list Z * list Z -> bool)
  : option CERTCertificate :=
  match List.filter p nss_db with
  | (cert, _, _) :: _ => Some cert
  | [] => None
  end.

#[export] Instance nss : NssBackend := {|
  CERTName := list Z;
  xmlSecNssGetCertName name := if peek name =? 0 then None else Some name;
  SEC_ASN1EncodeItem name := Some name;
  PR_sscanf_llu s :=
    if isdigit (peek s) then Some (dec_digits 0 s mod 2 ^ 64) else None;
  CERT_FindCertByName nameitem :=
    nss_lookup (fun e => bool_decide (derSubject e.1.1 = nameitem));
  CERT_FindCertByIssuerAndSN nameitem serialNumber :=
    nss_lookup (fun e => bool_decide (derIssuer e.1.1 = nameitem)
                         && bool_decide (e.1.2 = serialNumber));
  CERT_FindCertBySubjectKeyID id :=
    nss_lookup (fun e => bool_decide (e.2 = id));
  CERT_FindSubjectKeyIDExtension cert :=
    match List.filter (fun e => nss_addr e.1.1 =? nss_addr cert) nss_db with
    | e :: _ => Some e.2
    | [] => None
    end
|}.
End Ref.

(** ** The value of a DN string

    [NameString_decode delim raw] is what the copy loop of
    [xmlSecOpenSSLX509NameStringRead] decodes from [raw] when its array is
    large enough: the value and the input left, from the delimiter on.
    [None] where the loop reports "two hex digits expected": at a
    backslash followed by a hex digit that is not followed by a second hex
    digit. *)
Fixpoint NameString_decode (delim : Z) (raw : list Z)
  : option (list Z * list Z) :=
  match raw with
  | [] => Some ([], [])
  | c :: rest =>
      if c =? delim then Some ([], raw)
      else if c =? ch_backslash then
        match rest with
        | [] => Some ([], [])
        | h1 :: rest1 =>
            if xmlSecIsHex h1 then
              match rest1 with
              | h2 :: rest2 =>
                  if xmlSecIsHex h2 then
                    match NameString_decode delim rest2 with
                    | Some (v, remaining) =>
                        Some (xmlSecGetHex h1 * 16 + xmlSecGetHex h2 :: v, remaining)
                    | None => None
                    end
                  else None
              | [] => None
              end
            else
              match NameString_decode delim rest1 with
              | Some (v, remaining) => Some (h1 :: v, remaining)
              | None => None
              end
        end
      else
        match NameString_decode delim rest with
        | Some (v, remaining) => Some (c :: v, remaining)
        | None => None
        end
  end.

(** ** DNParser, as the specification words it

    "A value is bare (terminated by an unescaped delimiter or end of input,
    trailing spaces trimmed).  A backslash followed by two hex digits
    decodes one byte; a backslash followed by any other character yields
    that character literally (backslash dropped); a dangling backslash at
    end of input is dropped."  [DNParser_value delim raw] is the decoded
    value and the input left, from the delimiter on.  A backslash that is
    not followed by two hex digits falls under "any other character",
    also when the character that follows it is a hex digit. *)
Fixpoint DNParser_value (delim : Z) (raw : list Z) : list Z * list Z :=
  match raw with
  | [] => ([], [])
  | c :: rest =>
      if c =? delim then ([], raw)
      else if c =? ch_backslash then
        match rest with
        | [] => ([], [])
        | h1 :: rest1 =>
            let literal :=
              let '(v, remaining) := DNParser_value delim rest1 in
              (h1 :: v, remaining) in
            match rest1 with
            | h2 :: rest2 =>
                if xmlSecIsHex h1 && xmlSecIsHex h2 then
                  let '(v, remaining) := DNParser_value delim rest2 in
                  (xmlSecGetHex h1 * 16 + xmlSecGetHex h2 :: v, remaining)
                else literal
            | [] => literal
            end
        end
      else
        let '(v, remaining) := DNParser_value delim rest in
        (c :: v, remaining)
  end.

(** A value without its trailing spaces. *)
Fixpoint rtrim (v : list Z) : list Z :=
  match v with
  | [] => []
  | c :: v' =>
      match rtrim v' with
      | [] => if isspace c then [] else [c]
      | t => c :: t
      end
  end.

(** The value of [nonSpace] after the bytes [v] have been stored from index
    [jj] on. *)
Fixpoint nonSpace_after (ign : bool) (jj nonSpace : Z) (v : list Z) : Z :=
  match v with
  | [] => nonSpace
  | c :: v' =>
      nonSpace_after ign (jj + 1)
        (if ign && negb (isspace c) then jj + 1 else nonSpace) v'
  end.

(** ** Auxiliary notions of the statements *)

(** The first of two lookups that finds a certificate; an error of the
    first ends the search. *)
Definition first_found {A : Type} (r1 next : result (option A))
  : result (option A) :=
  match r1 with
  | Ok None => next
  | other => other
  end.

(** A lookup that runs when its criterion is given (is not NULL). *)
Definition when_given {A : Type} (criterion : option (list Z))
    (lookup : list Z -> result (option A)) : result (option A) :=
  match criterion with
  | Some c => lookup c
  | None => Ok None
  end.

(** The same for the issuer name and serial, which go together, and for the
    subject key identifier, which must not be empty ([skiSize > 0]). *)
Definition when_both_given {A : Type} (c1 c2 : option (list Z))
    (lookup : list Z -> list Z -> result (option A)) : result (option A) :=
  match c1, c2 with
  | Some x, Some y => lookup x y
  | _, _ => Ok None
  end.

Definition when_ski_given {A : Type} (ski : option (list Z))
    (lookup : list Z -> result (option A)) : result (option A) :=
  match ski with
  | Some k => if 0 <? Z.of_nat (length k) then lookup k else Ok None
  | None => Ok None
  end.

(** The value of a big-endian byte string. *)
Definition be_value (l : list Z) : Z :=
  fold_left (fun acc b => acc * 256 + b) l 0.

(** The serial number encoding, as the specification words it: "a minimal
    unsigned big-endian byte string (prefix a zero byte if the most
    significant bit of the first significant byte is set)". *)
Fixpoint be_digits (fuel : nat) (n : Z) (acc : list Z) : list Z :=
  match fuel with
  | O => acc
  | S fuel' =>
      if n <=? 0 then acc else be_digits fuel' (n / 256) (n mod 256 :: acc)
  end.

Definition minimal_be (n : Z) : list Z :=
  match be_digits (S (Z.to_nat (Z.log2 n))) n [] with
  | [] => [0]
  | digits => digits
  end.

Definition spec_serial_bytes (n : Z) : list Z :=
  let digits := minimal_be n in
  if 128 <=? hd 0 digits then 0 :: digits else digits.

Section Predicates.
Context `{Backend}.

(** [X509_NAME_hash_ex] succeeds (is not 0) on the subject and issuer names
    of every certificate of the stack. *)
Definition hashes_ok (certs : list X509) : bool :=
  forallb (fun cert =>
             negb (xmlSecOpenSSLX509GetSubjectHash cert =? 0)
             && negb (xmlSecOpenSSLX509GetIssuerHash cert =? 0))
          certs.

(** The call returned 1. *)
Definition returns_1 (r : result Z) : bool :=
  match r with
  | Ok ret => ret =? 1
  | _ => false
  end.

(** The certificate survives "remove all revoked certs": neither the
    verified CRLs of the caller ([crls2], if any) nor the CRLs of the store
    report it revoked. *)
Definition not_revoked (now : Z) (crls2 : option (list X509_CRL))
    (ctx_crls : list X509_CRL) (cert : X509) : bool :=
  match crls2 with
  | Some l => returns_1 (xmlSecOpenSSLX509VerifyCertAgainstCrls now l cert)
  | None => true
  end
  && returns_1 (xmlSecOpenSSLX509VerifyCertAgainstCrls now ctx_crls cert).

(** The check of the certificate in "remove all revoked certs" does not
    return: one of its two calls, the second being made when the first
    returned 1, reads the nextUpdate of a CRL that has none. *)
Definition reads_NULL_nextUpdate (now : Z) (crls2 : option (list X509_CRL))
    (ctx_crls : list X509_CRL) (cert : X509) : bool :=
  match match crls2 with
        | Some l => xmlSecOpenSSLX509VerifyCertAgainstCrls now l cert
        | None => Ok 1
        end with
  | Ok ret1 =>
      if ret1 =? 0 then false
      else
        match xmlSecOpenSSLX509VerifyCertAgainstCrls now ctx_crls cert with
        | Ok _ => false
        | _ => true
        end
  | _ => true
  end.
End Predicates.

(** ** Byte order: [src/mscrypto/crypto.c] *)






(** ** The NSS name reader: [xmlSecNssX509NameRead] *)

Module NssName.
(** [memcpy(buf + p, src, n)], [src] being the [n] bytes copied: one store
    per byte, so a copy that leaves the array is a fault. *)
Fixpoint memcpy_at (buf : list Z) (p : Z) (src : list Z) : result (list Z) :=
  match src with
  | [] => Ok buf
  | c :: src' => buf' ← store buf p c; memcpy_at buf' (p + 1) src'
  end.

(** The value part of one pair: from the test [if(strSize > 0)] that
    follows the name to the end of that conditional.  [retval] is the
    array allocated for the result and [p] the index of the pointer of that
    name in it.  In the quoted branch the reader is called on the opening
    quote itself, which the source does not skip. *)
Definition NameRead_value (str value retval : list Z) (p : Z)
  : result (list Z * list Z * list Z * Z) :=
  match str with
  | [] => Ok ([], value, retval, p)
  | _ :: str =>
      if peek str =? ch_quote then
        '(str, value, valueSize) ←
          xmlSecOpenSSLX509NameStringRead str value NAME_BUF_SIZE ch_quote true;
        retval ← store retval p ch_quote;
        retval ← memcpy_at retval (p + 1) (take (Z.to_nat valueSize) value);
        retval ← store retval (p + 1 + valueSize) ch_quote;
        let p := p + 1 + valueSize + 1 in
        let str := skip_spaces str in
        if (0 <? Z.of_nat (length str)) && negb (peek str =? ch_comma)
        then Error "comma expected"
        else Ok (skip_one str, value, retval, p)
      else if peek str =? ch_hash then
        Error "reading octect values is not implemented yet"
      else
        '(str, value, valueSize) ←
          xmlSecOpenSSLX509NameStringRead str value NAME_BUF_SIZE ch_comma true;
        retval ← memcpy_at retval p (take (Z.to_nat valueSize) value);
        let p := p + valueSize in
        if 0 <? Z.of_nat (length str)
        then retval ← store retval p ch_comma; Ok (str, value, retval, p + 1)
        else Ok (str, value, retval, p)
  end.

(** One iteration of the [while(strSize > 0)] loop. *)
Definition NameRead_pair (str name value retval : list Z) (p : Z)
  : result (list Z * list Z * list Z * list Z * Z) :=
  let str := skip_spaces str in
  '(str, name, nameSize) ←
    xmlSecOpenSSLX509NameStringRead str name NAME_BUF_SIZE ch_equal false;
  retval ← memcpy_at retval p (take (Z.to_nat nameSize) name);
  let p := p + nameSize in
  retval ← store retval p ch_equal;
  let p := p + 1 in
  '(str, value, retval, p) ← NameRead_value str value retval p;
  Ok (skip_one str, name, value, retval, p).

Fixpoint NameRead_loop (fuel : nat) (str name value retval : list Z) (p : Z)
  : result (list Z * Z) :=
  match str with
  | [] => Ok (retval, p)
  | _ :: _ =>
      match fuel with
      | O => Timeout
      | S fuel' =>
          '(str, name, value, retval, p) ←
            NameRead_pair str name value retval p;
          NameRead_loop fuel' str name value retval p
      end
  end.

(** [xmlSecNssX509NameRead]: the string returned, or an error (NULL).
    [retval] has [strSize + 1] bytes ("return string should be no longer
    than input string"); the arrays start as zeros, no byte of them being
    read before it is written. *)
Definition xmlSecNssX509NameRead (str : list Z) : result (list Z) :=
  let strSize := length str in
  '(retval, p) ←
    NameRead_loop strSize str
      (replicate (Z.to_nat NAME_BUF_SIZE) 0)
      (replicate (Z.to_nat NAME_BUF_SIZE) 0)
      (replicate (S strSize) 0) 0;
  retval ← store retval p 0;
  Ok (c_str retval).
End NssName.

(** ** Well-formed DN texts

    The texts on which the name readers are characterised: [name=value]
    items separated by commas, an item being written with optional white
    space before the name and after the value. *)
Record dn_item : Type := mkItem {
  it_lead : list Z;
  it_name : list Z;
  it_value : list Z;
  it_trail : list Z
}.

Definition item_text (i : dn_item) : list Z :=
  it_lead i ++ it_name i ++ ch_equal :: it_value i ++ it_trail i.

Fixpoint render_items (items : list dn_item) : list Z :=
  match items with
  | [] => []
  | [i] => item_text i
  | i :: rest => item_text i ++ ch_comma :: render_items rest
  end.

(** No delimiter, no backslash and no NUL. *)
Definition plain (delim : Z) (s : list Z) : bool :=
  forallb (fun c => negb (c =? delim) && negb (c =? ch_backslash)
                    && negb (c =? 0)) s.

(** An item without escapes and quotes whose name and value fit the
    arrays: the name does not begin with white space, the value does not
    end with white space and does not begin with a quote or a hash. *)
Definition clean_item (i : dn_item) : bool :=
  forallb isspace (it_lead i) && forallb isspace (it_trail i)
  && plain ch_equal (it_name i) && negb (isspace (peek (it_name i)))
  && (Z.of_nat (length (it_name i)) <? NAME_BUF_SIZE)
  && plain ch_comma (it_value i)
  && negb (peek (it_value i) =? ch_quote)
  && negb (peek (it_value i) =? ch_hash)
  && bool_decide (rtrim (it_value i) = it_value i)
  && (Z.of_nat (length (it_value i ++ it_trail i)) <? NAME_BUF_SIZE).

(** The field name handed to [X509_NAME_add_entry_by_txt]: "handle
    synonymous". *)
Definition field_of (name : list Z) : list Z :=
  if bool_decide (name = BAD_CAST "E") then BAD_CAST "emailAddress" else name.

(** The entries of a list of items, in order; [None] when the library
    refuses one of them. *)
Fixpoint entries_of `{Backend} (items : list dn_item)
  : option (list X509_NAME_ENTRY) :=
  match items with
  | [] => Some []
  | i :: rest =>
      match X509_NAME_add_entry_by_txt (field_of (it_name i)) (it_value i) with
      | Some e =>
          match entries_of rest with
          | Some es => Some (e :: es)
          | None => None
          end
      | None => None
      end
  end.

(** An item as [xmlSecNssX509NameRead] writes it: without the white space
    around it. *)
Definition strip_item (i : dn_item) : dn_item :=
  mkItem [] (it_name i) (it_value i) [].

(** The arrays [name] and [value] of the readers have [sizeof] 256. *)
Definition buf_len (l : list Z) : Prop := length l = Z.to_nat NAME_BUF_SIZE.

(** ** Adding to the store: [xmlSecOpenSSLX509StoreAdoptCert],
    [xmlSecOpenSSLX509StoreAdoptCrl] *)

(** [trusted] is the outcome of the test
    [(type & xmlSecKeyDataTypeTrusted) != 0].  [X509_STORE_add_cert] adds
    the certificate to the trusted store, [sk_X509_push] to the end of the
    stack of untrusted certificates. *)
Definition xmlSecOpenSSLX509StoreAdoptCert (ctx : xmlSecOpenSSLX509StoreCtx)
    (cert : X509) (trusted : bool) : xmlSecOpenSSLX509StoreCtx :=
  if trusted
  then mkStore (xst ctx ++ [cert]) (untrusted ctx) (crls ctx)
  else mkStore (xst ctx) (untrusted ctx ++ [cert]) (crls ctx).

Definition xmlSecOpenSSLX509StoreAdoptCrl (ctx : xmlSecOpenSSLX509StoreCtx)
    (crl : X509_CRL) : xmlSecOpenSSLX509StoreCtx :=
  mkStore (xst ctx) (untrusted ctx) (crls ctx ++ [crl]).

(** ** [xmlSecNssX509StoreVerify] and the NSS store *)

(** The error codes of NSS the function tells apart. *)
Inductive PRErrorCode : Type :=
| SEC_ERROR_EXPIRED_ISSUER_CERTIFICATE
| SEC_ERROR_CA_CERT_INVALID
| SEC_ERROR_UNKNOWN_SIGNER
| SEC_ERROR_EXPIRED_CERTIFICATE
| SEC_ERROR_REVOKED_CERTIFICATE
| SEC_ERROR_other (code : Z).

Inductive xmlSecNssErrorReason : Type :=
| NSS_R_CERT_ISSUER_FAILED
| NSS_R_CERT_HAS_EXPIRED
| NSS_R_CERT_REVOKED
| NSS_R_CERT_VERIFY_FAILED.

(** The [switch(err)] that ends the function. *)
Definition nss_classify (err : PRErrorCode) : xmlSecNssErrorReason :=
  match err with
  | SEC_ERROR_EXPIRED_ISSUER_CERTIFICATE
  | SEC_ERROR_CA_CERT_INVALID
  | SEC_ERROR_UNKNOWN_SIGNER => NSS_R_CERT_ISSUER_FAILED
  | SEC_ERROR_EXPIRED_CERTIFICATE => NSS_R_CERT_HAS_EXPIRED
  | SEC_ERROR_REVOKED_CERTIFICATE => NSS_R_CERT_REVOKED
  | SEC_ERROR_other _ => NSS_R_CERT_VERIFY_FAILED
  end.

(** How the call ends: the certificate returned; NULL after the report of
    an error class with the subject name of [cert]; or the read of
    [cert->subjectName] through a NULL [cert], which is undefined. *)
Inductive nss_verify_outcome : Type :=
| NssVerified (cert : CERTCertificate)
| NssNotVerified (reason : xmlSecNssErrorReason) (cert : CERTCertificate)
| NssNullCert.

(** The loop over [certs].  [CERT_VerifyCertificate cert timeboundary] is
    [None] for [SECSuccess] and otherwise the error code the library
    leaves for [PORT_GetError].  The state is the variable [cert] (the
    certificate of the last node visited) and the error code that
    [PORT_GetError] would return; the result tells whether [status] is
    [SECSuccess]. *)
Fixpoint nss_StoreVerify_loop
    (CERT_VerifyCertificate : CERTCertificate -> Z -> option PRErrorCode)
    (timeboundary : Z) (dont_verify : bool)
    (certs todo : list CERTCertificate)
    (cert : option CERTCertificate) (err : PRErrorCode)
  : bool * option CERTCertificate * PRErrorCode :=
  match todo with
  | [] => (false, cert, err)
  | c :: todo' =>
      if nss_issuer_of_other certs c
      then nss_StoreVerify_loop CERT_VerifyCertificate timeboundary dont_verify
             certs todo' (Some c) err
      else if dont_verify then (true, Some c, err)
      else
        match CERT_VerifyCertificate c timeboundary with
        | None => (true, Some c, err)
        | Some e =>
            nss_StoreVerify_loop CERT_VerifyCertificate timeboundary
              dont_verify certs todo' (Some c) e
        end
  end.

(** The 64-bit arithmetic of NSPR on [int64]: [LL_UI2L(l, ui)] is
    [l = (PRInt64)(ui)] and [LL_MUL(r, a, b)] is [r = a * b], a product of
    two [int64] that wraps around (two's complement). *)
Definition int64_wrap (z : Z) : Z := (z + 2 ^ 63) mod 2 ^ 64 - 2 ^ 63.

Definition LL_UI2L (ui : Z) : Z := int64_wrap ui.

Definition LL_MUL (a b : Z) : Z := int64_wrap (a * b).

Definition PR_USEC_PER_SEC : Z := 1000000.

(** [xmlSecNssX509StoreVerify].  [now] is [PR_Now()], in microseconds;
    [err0] is the error code of the thread when the function is entered.
    The context of the store is fetched and not used.  "convert the time
    since epoch in seconds to microseconds": [tmp1] is [PR_USEC_PER_SEC]
    and [tmp2] the time converted by [LL_UI2L]. *)
Definition xmlSecNssX509StoreVerify
    (CERT_VerifyCertificate : CERTCertificate -> Z -> option PRErrorCode)
    (certs : list CERTCertificate) (keyInfoCtx : xmlSecKeyInfoCtx)
    (now : Z) (err0 : PRErrorCode) : nss_verify_outcome :=
  let timeboundary :=
    if 0 <? certsVerificationTime keyInfoCtx
    then LL_MUL PR_USEC_PER_SEC (LL_UI2L (certsVerificationTime keyInfoCtx))
    else now in
  let dont_verify :=
    negb (Z.land (flags keyInfoCtx)
            XMLSEC_KEYINFO_FLAGS_X509DATA_DONT_VERIFY_CERTS =? 0) in
  let '(status, cert, err) :=
    nss_StoreVerify_loop CERT_VerifyCertificate timeboundary dont_verify
      certs certs None err0 in
  if status then
    match cert with
    | Some c => NssVerified c
    | None => NssNullCert
    end
  else
    match cert with
    | Some c => NssNotVerified (nss_classify err) c
    | None => NssNullCert
    end.

(** [xmlSecNssX509StoreAdoptCert]: the list of the store, created by the
    first call, gets the certificate at its tail.  The trust of a trusted
    certificate is changed in the database of NSS, which is not part of
    the context; the result of [CERT_ChangeCertTrust] is not looked at. *)
Definition xmlSecNssX509StoreAdoptCert
    (certsList : option (list CERTCertificate)) (cert : CERTCertificate)
  : option (list CERTCertificate) :=
  match certsList with
  | None => Some [cert]
  | Some l => Some (l ++ [cert])
  end.

(** [xmlSecNssX509StoreFindCert_ex] *)
Definition xmlSecNssX509StoreFindCert_ex `{NssBackend}
    (certsList : option (list CERTCertificate))
    (subjectName issuerName issuerSerial ski : option (list Z))
  : result (option CERTCertificate) :=
  xmlSecNssX509FindCert certsList subjectName issuerName issuerSerial ski.

(** ** What the base64 decoder computes

    The decoder works in chunks; the two functions below describe its
    result on the whole text. *)

(** The six-bit values of the characters of a text, in order: white space
    is passed over everywhere, an equal sign ends the data and may be
    followed by one more equal sign and white space only.  [e] is the
    number of equal signs seen so far ([equalSigns]).  [None]: the text
    holds a character that is refused. *)
Fixpoint sextets_of (e : Z) (inp : list Z) : option (list Z) :=
  match inp with
  | [] => Some []
  | ch :: rest =>
      if 0 <? e then
        if (ch =? 61) && (e <? 2) then sextets_of (e + 1) rest
        else if negb (Base64C.xmlSecIsBase64Space ch) then None
        else sextets_of e rest
      else if ch =? 61 then sextets_of (e + 1) rest
      else if Base64C.xmlSecIsBase64Char ch
      then option_map (cons (Base64C.sextet ch)) (sextets_of e rest)
      else if negb (Base64C.xmlSecIsBase64Space ch) then None
      else sextets_of e rest
  end.

(** The bytes of a run of six-bit values: three bytes for each group of
    four, one byte for two left over, two bytes for three; one value left
    over cannot be decoded. *)
Fixpoint bytes_of_sextets (sx : list Z) : option (list Z) :=
  match sx with
  | a :: b :: c :: d :: rest =>
      option_map (fun t => Base64C.xmlSecBase64Decode1 a b
                           :: Base64C.xmlSecBase64Decode2 b c
                           :: Base64C.xmlSecBase64Decode3 c d :: t)
                 (bytes_of_sextets rest)
  | [a; b; c] => Some [Base64C.xmlSecBase64Decode1 a b;
                       Base64C.xmlSecBase64Decode2 b c]
  | [a; b] => Some [Base64C.xmlSecBase64Decode1 a b]
  | [_] => None
  | [] => Some []
  end.

(** What the decoder has still to deliver when [pend] are the six-bit
    values it holds, [e] equal signs were seen and [inp] is the text left. *)
Definition decoded (pend : list Z) (e : Z) (inp : list Z)
  : option (list Z) :=
  match option_map (app pend) (sextets_of e inp) with
  | Some sx => bytes_of_sextets sx
  | None => None
  end.

(** ** Base64 encoding: [src/base64.c] *)

Module Base64E.
(** [xmlSecBase64Ctx] in encode mode: [ctx_in] is the array [in] (four
    bytes, set to 0 when the context is created and not cleared
    afterwards), [ctx_out] holds [out[0..outPos-1]]. *)
Record xmlSecBase64Ctx : Type := mkCtx {
  ctx_in : list Z;
  inPos : Z;
  ctx_out : list Z;
  linePos : Z;
  columns : Z
}.

(** The table [base64] and an access to it. *)
Definition base64 : list Z :=
  BAD_CAST "ABCDEFGHIJKLMNOPQRSTUVWXYZabcdefghijklmnopqrstuvwxyz0123456789+/".

Definition base64_at (i : Z) : Z := nth (Z.to_nat i) base64 0.

(** The four macros. *)
Definition xmlSecBase64Encode1 (a : Z) : Z :=
  base64_at (Z.land (Z.shiftr a 2) 63).
Definition xmlSecBase64Encode2 (a b : Z) : Z :=
  base64_at (Z.land (Z.shiftl a 4) 48 + Z.land (Z.shiftr b 4) 15).
Definition xmlSecBase64Encode3 (b c : Z) : Z :=
  base64_at (Z.land (Z.shiftl b 2) 60 + Z.land (Z.shiftr c 6) 3).
Definition xmlSecBase64Encode4 (c : Z) : Z :=
  base64_at (Z.land c 63).

(** One output character of [xmlSecBase64CtxEncode]: the line break when
    the line is full, then the character. *)
Definition put_char (ctx : xmlSecBase64Ctx) (ch : Z) : xmlSecBase64Ctx :=
  let ctx :=
    if (0 <? columns ctx) && (columns ctx <=? linePos ctx)
    then mkCtx (ctx_in ctx) (inPos ctx) (ctx_out ctx ++ [10]) 0 (columns ctx)
    else ctx in
  mkCtx (ctx_in ctx) (inPos ctx) (ctx_out ctx ++ [ch]) (linePos ctx + 1)
    (columns ctx).

(** [xmlSecBase64CtxEncode] *)
Definition xmlSecBase64CtxEncode (ctx : xmlSecBase64Ctx) : xmlSecBase64Ctx :=
  if 0 <? Z.of_nat (length (ctx_out ctx)) then ctx
  else if inPos ctx =? 0 then ctx
  else
    let in0 := nth 0 (ctx_in ctx) 0 in
    let in1 := nth 1 (ctx_in ctx) 0 in
    let in2 := nth 2 (ctx_in ctx) 0 in
    let ctx := put_char ctx (xmlSecBase64Encode1 in0) in
    let ctx := put_char ctx (xmlSecBase64Encode2 in0 in1) in
    let ctx := put_char ctx (if 1 <? inPos ctx
                             then xmlSecBase64Encode3 in1 in2 else 61) in
    let ctx := put_char ctx (if 2 <? inPos ctx
                             then xmlSecBase64Encode4 in2 else 61) in
    mkCtx (ctx_in ctx) 0 (ctx_out ctx) (linePos ctx) (columns ctx).

(** [xmlSecBase64CtxPush], encode branch: the context and the number of
    input bytes taken. *)
Definition xmlSecBase64CtxPush (ctx : xmlSecBase64Ctx) (inp : list Z)
  : xmlSecBase64Ctx * Z :=
  let inSize := Z.of_nat (length inp) in
  if (inPos ctx <? 3) && (0 <? inSize) then
    let inBlockSize := Z.min inSize (3 - inPos ctx) in
    let p := Z.to_nat (inPos ctx) in
    let n := Z.to_nat inBlockSize in
    (mkCtx (take p (ctx_in ctx) ++ take n inp ++ drop (p + n) (ctx_in ctx))
       (inPos ctx + inBlockSize) (ctx_out ctx) (linePos ctx) (columns ctx),
     inBlockSize)
  else (ctx, 0).

(** [xmlSecBase64CtxPop]: the context and the bytes copied out. *)
Definition xmlSecBase64CtxPop (ctx : xmlSecBase64Ctx) (outSize : Z)
    (final : bool) : xmlSecBase64Ctx * list Z :=
  let ctx :=
    if (Z.of_nat (length (ctx_out ctx)) =? 0)
       && ((3 <=? inPos ctx) || final)
    then xmlSecBase64CtxEncode ctx else ctx in
  let outBlockSize :=
    Z.to_nat (Z.min (Z.of_nat (length (ctx_out ctx))) outSize) in
  (mkCtx (ctx_in ctx) (inPos ctx) (drop outBlockSize (ctx_out ctx))
     (linePos ctx) (columns ctx),
   take outBlockSize (ctx_out ctx)).

(** [xmlSecBase64CtxUpdate]: the context and the bytes written.  The
    value the function returns is their number, summed up in the [int]
    [res], which the loop itself does not read. *)
Fixpoint xmlSecBase64CtxUpdate (fuel : nat) (ctx : xmlSecBase64Ctx)
    (inp : list Z) (outSize : Z) (res : list Z)
  : result (xmlSecBase64Ctx * list Z) :=
  match fuel with
  | O => Timeout
  | S fuel' =>
      if (0 <? Z.of_nat (length inp)) && (0 <? outSize) then
        let '(ctx, n) := xmlSecBase64CtxPush ctx inp in
        let inp := drop (Z.to_nat n) inp in
        let '(ctx, written) := xmlSecBase64CtxPop ctx outSize false in
        match written with
        | [] => Ok (ctx, res)
        | _ => xmlSecBase64CtxUpdate fuel' ctx inp
                 (outSize - Z.of_nat (length written)) (res ++ written)
        end
      else Ok (ctx, res)
  end.

(** [xmlSecBase64CtxFinal]: the bytes written.  The value the function
    returns is their number, [outPos], converted to [int]. *)
Fixpoint xmlSecBase64CtxFinal (fuel : nat) (ctx : xmlSecBase64Ctx)
    (outLen : Z) (res : list Z) : result (list Z) :=
  match fuel with
  | O => Timeout
  | S fuel' =>
      if Z.of_nat (length res) <? outLen then
        let '(ctx, written) :=
          xmlSecBase64CtxPop ctx (outLen - Z.of_nat (length res)) true in
        match written with
        | [] => Ok res
        | _ => xmlSecBase64CtxFinal fuel' ctx outLen (res ++ written)
        end
      else Error "buffer is too small"
  end.

(** [xmlSecBase64CtxCreate(1, columns)]: [memset] to 0, then the fields.
    [columns] is an [int] stored into a [size_t], taken as 64 bits wide. *)
Definition xmlSecBase64CtxCreate (columns : Z) : xmlSecBase64Ctx :=
  mkCtx [0; 0; 0; 0] 0 [] 0 (columns mod 2 ^ 64).

(** A value held in an [int] (32 bits, two's complement; arithmetic on
    [int] is taken to wrap around) and in a [size_t] (64 bits). *)
Definition to_int (z : Z) : Z := (z + 2 ^ 31) mod 2 ^ 32 - 2 ^ 31.

Definition to_size_t (z : Z) : Z := z mod 2 ^ 64.

(** [xmlSecBase64Encode(buf, len, columns)]: the string returned.  [size],
    a [size_t], is the size of the buffer allocated for it (the allocation
    is taken to succeed).  The two calls return the number of characters
    they wrote as an [int]: [xmlSecBase64CtxUpdate] its variable [res], an
    [int] to which the loop adds the size of every chunk,
    [xmlSecBase64CtxFinal] its [size_t] [outPos]; a negative value is
    taken for a failure.  The second call writes at [ptr + size_update]
    and the NUL is stored at [size_update + size_final]: the string
    returned is what the buffer holds before it.  Each turn of the loop of
    [xmlSecBase64CtxUpdate] takes input or ends the loop, and
    [xmlSecBase64CtxFinal] has at most the sixteen bytes of [out] to
    deliver. *)
Definition xmlSecBase64Encode (buf : list Z) (columns : Z)
  : result (list Z) :=
  let ctx := xmlSecBase64CtxCreate columns in
  let len := Z.of_nat (length buf) in
  let size := to_size_t (to_size_t (4 * len) / 3 + 4) in
  let size := if 0 <? columns
              then to_size_t (size + size / columns + 4) else size in
  '(ctx, written) ← xmlSecBase64CtxUpdate (S (length buf)) ctx buf size [];
  let ret := to_int (Z.of_nat (length written)) in
  if ret <? 0 then Error "xmlSecBase64CtxUpdate"
  else
    let size_update := ret in
    final ← xmlSecBase64CtxFinal 24 ctx (to_size_t (size - size_update)) [];
    let ret := to_int (Z.of_nat (length final)) in
    if ret <? 0 then Error "xmlSecBase64CtxFinal"
    else
      let size_final := ret in
      let idx := to_int (size_update + size_final) in
      if (idx <? 0) || (size <=? idx) then Fault idx size
      else mret (take (Z.to_nat size_update) written ++ final).
End Base64E.

(** *** What the encoder computes *)

(** The characters for a run of bytes, without line breaks.  [s1] and
    [s2] are the bytes that [in[1]] and [in[2]] hold from the block
    before (0 at the start): a last block of one or two bytes is encoded
    with them in the place of the missing bytes. *)
Fixpoint encode_blocks (s1 s2 : Z) (buf : list Z) : list Z :=
  match buf with
  | a :: b :: c :: rest =>
      Base64E.xmlSecBase64Encode1 a :: Base64E.xmlSecBase64Encode2 a b
      :: Base64E.xmlSecBase64Encode3 b c :: Base64E.xmlSecBase64Encode4 c
      :: encode_blocks b c rest
  | [a; b] =>
      [Base64E.xmlSecBase64Encode1 a; Base64E.xmlSecBase64Encode2 a b;
       Base64E.xmlSecBase64Encode3 b s2; 61]
  | [a] =>
      [Base64E.xmlSecBase64Encode1 a; Base64E.xmlSecBase64Encode2 a s1; 61; 61]
  | [] => []
  end.

(** Line breaks: a line feed before each character that would make the
    line longer than [columns] characters, when [columns] is not 0. *)
Fixpoint wrap_lines (columns linePos : Z) (chars : list Z) : list Z :=
  match chars with
  | [] => []
  | ch :: rest =>
      if (0 <? columns) && (columns <=? linePos)
      then 10 :: ch :: wrap_lines columns 1 rest
      else ch :: wrap_lines columns (linePos + 1) rest
  end.

(** The position in the line after [chars]. *)
Fixpoint line_pos_after (columns linePos : Z) (chars : list Z) : Z :=
  match chars with
  | [] => linePos
  | ch :: rest =>
      if (0 <? columns) && (columns <=? linePos)
      then line_pos_after columns 1 rest
      else line_pos_after columns (linePos + 1) rest
  end.

(** The size of the buffer [xmlSecBase64Encode] allocates for [len] bytes,
    as a number: [(4 * len) / 3 + 4], and [size / columns + 4] more when
    there are line breaks. *)
Definition encode_buffer_size (len columns : Z) : Z :=
  let size := 4 * len / 3 + 4 in
  if 0 <? columns then size + size / columns + 4 else size.

(** The four characters [xmlSecBase64CtxEncode] writes for the block held:
    [i] is the array [in] and [p] is [inPos]. *)
Definition block_chars (i : list Z) (p : Z) : list Z :=
  [Base64E.xmlSecBase64Encode1 (nth 0 i 0);
   Base64E.xmlSecBase64Encode2 (nth 0 i 0) (nth 1 i 0);
   if 1 <? p then Base64E.xmlSecBase64Encode3 (nth 1 i 0) (nth 2 i 0) else 61;
   if 2 <? p then Base64E.xmlSecBase64Encode4 (nth 2 i 0) else 61].

(** The values of an [unsigned char]. *)
Definition is_byte (b : Z) : Prop := 0 <= b < 256.

(** The characters still to come from a context in encode mode that
    holds [p] bytes in the array [i], when [buf] is the input left. *)
Definition enc_rest (i : list Z) (p : Z) (buf : list Z) : list Z :=
  encode_blocks (nth 1 i 0) (nth 2 i 0) (take (Z.to_nat p) i ++ buf).

(** What a call of [xmlSecBase64CtxUpdate] in encode mode leaves behind
    when it does not fill its buffer: [written] are the characters, with
    their line breaks, of the blocks completed, and the context holds the
    bytes that wait for the next call. *)
Definition update_post (cols : Z) (i : list Z) (p lp : Z) (buf : list Z)
    (outSize : Z) (res : list Z) (ctx' : Base64E.xmlSecBase64Ctx)
    (out : list Z) : Prop :=
  exists written,
    out = res ++ written
    /\ (Z.of_nat (length written) < outSize ->
        exists y0 y1 y2 y3 p' chars,
          ctx' = Base64E.mkCtx [y0; y1; y2; y3] p' []
                   (line_pos_after cols lp chars) cols
          /\ 0 <= p' < 3
          /\ written = wrap_lines cols lp chars
          /\ forall more,
               enc_rest i p (buf ++ more)
               = chars ++ enc_rest [y0; y1; y2; y3] p' more).

(** The arrays of the context are not overrun: [in] has 4 bytes and [out]
    has 16.  In decode mode a block leaves at most 3 bytes in [out], in
    encode mode at most 8 (four characters, each after a line feed). *)
Definition dec_ctx_ok (ctx : Base64C.xmlSecBase64Ctx) : Prop :=
  (length (Base64C.ctx_in ctx) <= 4)%nat
  /\ (length (Base64C.ctx_out ctx) <= 3)%nat.

Definition enc_ctx_ok (ctx : Base64E.xmlSecBase64Ctx) : Prop :=
  length (Base64E.ctx_in ctx) = 4%nat
  /\ 0 <= Base64E.inPos ctx <= 3
  /\ (length (Base64E.ctx_out ctx) <= 8)%nat.

(* ================================================================== *)
(** * Theorems *)
(* ================================================================== *)

(** ** Name comparison *)

Section Memcmp.
Lemma memcmp_refl a n : memcmp a a n = 0.
Proof.
  revert a; induction n as [|n IH]; intros [|x a]; simpl; auto.
  rewrite Z.eqb_refl. apply IH.
Qed.

Lemma memcmp_opp a b n : memcmp b a n = - memcmp a b n.
Proof.
  revert a b; induction n as [|n IH]; intros [|x a] [|y b]; simpl; auto.
  rewrite (Z.eqb_sym y x). destruct (x =? y); [apply IH | lia].
Qed.

Lemma memcmp_zero_eq a b n :
  length a = n -> length b = n -> memcmp a b n = 0 -> a = b.
Proof.
  revert a b; induction n as [|n IH]; intros [|x a] [|y b]; simpl;
    try discriminate; auto.
  intros Ha Hb. destruct (x =? y) eqn:E.
  - intros H. apply Z.eqb_eq in E. subst y. f_equal. apply IH; auto.
  - apply Z.eqb_neq in E. lia.
Qed.

Lemma memcmp_trans a b c n :
  length a = n -> length b = n -> length c = n ->
  memcmp a b n <= 0 -> memcmp b c n <= 0 -> memcmp a c n <= 0.
Proof.
  revert a b c; induction n as [|n IH]; intros [|x a] [|y b] [|z c]; simpl;
    try discriminate; try lia.
  intros Ha Hb Hc.
  destruct (x =? y) eqn:Exy; destruct (y =? z) eqn:Eyz;
    destruct (x =? z) eqn:Exz;
    rewrite ?Z.eqb_eq, ?Z.eqb_neq in *; try lia.
  apply IH; lia.
Qed.
End Memcmp.

(** A comparison function is well behaved when it is zero on equal
    arguments only, changes sign when its arguments are swapped, and the
    order it induces is transitive. *)
Record good_cmp {A : Type} (c : A -> A -> Z) : Prop := {
  gc_refl : forall a, c a a = 0;
  gc_opp : forall a b, c b a = - c a b;
  gc_zero : forall a b, c a b = 0 -> a = b;
  gc_trans : forall a b d, c a b <= 0 -> c b d <= 0 -> c a d <= 0
}.

Lemma OBJ_cmp_good : good_cmp OBJ_cmp.
Proof.
  split; unfold OBJ_cmp.
  - intros a. rewrite Z.sub_diag. simpl. apply memcmp_refl.
  - intros a b.
    destruct (Z.of_nat (length a) - Z.of_nat (length b) =? 0) eqn:E;
      destruct (Z.of_nat (length b) - Z.of_nat (length a) =? 0) eqn:E';
      rewrite ?Z.eqb_eq, ?Z.eqb_neq in *; simpl; try lia.
    replace (length b) with (length a) by lia. apply memcmp_opp.
  - intros a b.
    destruct (Z.of_nat (length a) - Z.of_nat (length b) =? 0) eqn:E;
      rewrite ?Z.eqb_eq, ?Z.eqb_neq in *; simpl; try lia.
    apply memcmp_zero_eq; lia.
  - intros a b d.
    destruct (Z.of_nat (length a) - Z.of_nat (length b) =? 0) eqn:E1;
      destruct (Z.of_nat (length b) - Z.of_nat (length d) =? 0) eqn:E2;
      destruct (Z.of_nat (length a) - Z.of_nat (length d) =? 0) eqn:E3;
      rewrite ?Z.eqb_eq, ?Z.eqb_neq in *; simpl; try lia.
    replace (length b) with (length a) by lia.
    apply memcmp_trans; lia.
  Qed.

(** The entry comparison is the value comparison followed by the object
    comparison. *)
Lemma NAME_ENTRY_cmp_unfold a b :
  xmlSecOpenSSLX509_NAME_ENTRY_cmp a b =
  if negb (OBJ_cmp (ne_value a) (ne_value b) =? 0)
  then OBJ_cmp (ne_value a) (ne_value b)
  else OBJ_cmp (ne_object a) (ne_object b).
Proof.
  unfold xmlSecOpenSSLX509_NAME_ENTRY_cmp, OBJ_cmp.
  destruct (Z.of_nat (length (ne_value a)) - Z.of_nat (length (ne_value b)) =? 0)
    eqn:E; simpl.
  - rewrite Nat2Z.id.
    destruct (0 <? Z.of_nat (length (ne_value a))) eqn:E0; auto.
    apply Z.ltb_ge in E0.
    destruct (ne_value a); simpl in *; [reflexivity | lia].
  - rewrite E. reflexivity.
Qed.

Lemma NAME_ENTRY_cmp_good : good_cmp xmlSecOpenSSLX509_NAME_ENTRY_cmp.
Proof.
  pose proof OBJ_cmp_good as G.
  split.
  - intros a. rewrite NAME_ENTRY_cmp_unfold, !(gc_refl _ G). reflexivity.
  - intros a b. rewrite !NAME_ENTRY_cmp_unfold.
    rewrite (gc_opp _ G (ne_value a)), (gc_opp _ G (ne_object a)).
    destruct (OBJ_cmp (ne_value a) (ne_value b) =? 0) eqn:E;
      destruct (- OBJ_cmp (ne_value a) (ne_value b) =? 0) eqn:E';
      rewrite ?Z.eqb_eq, ?Z.eqb_neq in *; simpl; lia.
  - intros [oa va] [ob vb]. rewrite NAME_ENTRY_cmp_unfold. simpl.
    destruct (OBJ_cmp va vb =? 0) eqn:E;
      rewrite ?Z.eqb_eq, ?Z.eqb_neq in *; simpl; try lia.
    intros H. f_equal; apply (gc_zero _ G); assumption.
  - intros [oa va] [ob vb] [od vd]. rewrite !NAME_ENTRY_cmp_unfold. simpl.
    destruct (OBJ_cmp va vb =? 0) eqn:E1;
      destruct (OBJ_cmp vb vd =? 0) eqn:E2;
      rewrite ?Z.eqb_eq, ?Z.eqb_neq in *; simpl.
    + apply (gc_zero _ G) in E1, E2. subst vb vd.
      rewrite (gc_refl _ G). simpl. apply (gc_trans _ G).
    + apply (gc_zero _ G) in E1. subst vb. intros _ H.
      destruct (OBJ_cmp va vd =? 0) eqn:E3; simpl; [|assumption].
      apply Z.eqb_eq in E3. lia.
    + apply (gc_zero _ G) in E2. subst vd. intros H _.
      destruct (OBJ_cmp va vb =? 0) eqn:E3; simpl; [|assumption].
      apply Z.eqb_eq in E3. lia.
    + intros H1 H2. pose proof (gc_trans _ G _ _ _ H1 H2) as H3.
      destruct (OBJ_cmp va vd =? 0) eqn:E3; simpl; [|assumption].
      apply Z.eqb_eq in E3. apply (gc_zero _ G) in E3. subst vd.
      pose proof (gc_opp _ G va vb). lia.
Qed.

Global Instance entry_le_total : Total entry_le.
Proof.
  intros a b. unfold entry_le.
  pose proof (gc_opp _ NAME_ENTRY_cmp_good a b). lia.
Qed.

Global Instance entry_le_trans : Transitive entry_le.
Proof. intros a b d. apply (gc_trans _ NAME_ENTRY_cmp_good). Qed.

Global Instance entry_le_antisym : AntiSymm (=) entry_le.
Proof.
  intros a b H1 H2. unfold entry_le in *.
  pose proof (gc_opp _ NAME_ENTRY_cmp_good a b).
  apply (gc_zero _ NAME_ENTRY_cmp_good). lia.
Qed.

(** Sorting two lists by a total, transitive and antisymmetric order gives
    the same list exactly when they hold the same entries. *)
Section SortCanonical.
Context {A : Type} (R : relation A) `{!RelDecision R}
        `{!Total R, !Transitive R, !AntiSymm (=) R}.

Lemma sorted_perm_unique (l1 l2 : list A) :
  Sorted R l1 -> Sorted R l2 -> l1 ≡ₚ l2 -> l1 = l2.
Proof. intros. by apply (Sorted_unique R). Qed.

Lemma merge_sort_eq_iff_perm (a b : list A) :
  merge_sort R a = merge_sort R b <-> a ≡ₚ b.
Proof.
  split.
  - intros H. rewrite <- (merge_sort_Permutation R a), H.
    apply merge_sort_Permutation.
  - intros H. apply sorted_perm_unique; try apply Sorted_merge_sort; try apply _.
    by rewrite !merge_sort_Permutation.
Qed.

Lemma any_sort_is_merge_sort (srt : list A -> list A) (l : list A) :
  Sorted R (srt l) -> srt l ≡ₚ l -> srt l = merge_sort R l.
Proof.
  intros Hs Hp. apply sorted_perm_unique; auto.
  - apply Sorted_merge_sort; apply _.
  - by rewrite Hp, merge_sort_Permutation.
Qed.
End SortCanonical.

Lemma entries_cmp_loop_zero ra rb :
  length ra = length rb -> (entries_cmp_loop ra rb = 0 <-> ra = rb).
Proof.
  revert rb; induction ra as [|x ra IH]; intros [|y rb]; simpl;
    try discriminate; [tauto|].
  intros Hl. injection Hl as Hl.
  destruct (xmlSecOpenSSLX509_NAME_ENTRY_cmp x y =? 0) eqn:E; simpl.
  - apply Z.eqb_eq, (gc_zero _ NAME_ENTRY_cmp_good) in E. subst y.
    rewrite (IH _ Hl). split; [intros ->; reflexivity | congruence].
  - apply Z.eqb_neq in E. split; [contradiction|].
    intros H. injection H as -> _.
    rewrite (gc_refl _ NAME_ENTRY_cmp_good) in E. contradiction.
Qed.

Lemma NAME_ENTRIES_cmp_zero a b :
  xmlSecOpenSSLX509_NAME_ENTRIES_cmp a b = 0 <-> a = b.
Proof.
  unfold xmlSecOpenSSLX509_NAME_ENTRIES_cmp.
  destruct (Z.of_nat (length a) =? Z.of_nat (length b)) eqn:E; simpl.
  - apply Z.eqb_eq in E.
    rewrite entries_cmp_loop_zero by (rewrite !length_rev; lia).
    split; [|congruence].
    intros H. rewrite <- (rev_involutive a), H. apply rev_involutive.
  - apply Z.eqb_neq in E. split; [lia|]. intros ->. contradiction.
Qed.

Lemma NamesCompare_zero_iff_perm (a b : list X509_NAME_ENTRY) :
  xmlSecOpenSSLX509NamesCompare a b = 0 <-> a ≡ₚ b.
Proof.
  unfold xmlSecOpenSSLX509NamesCompare, sk_X509_NAME_ENTRY_sort,
    xmlSecOpenSSLX509_NAME_ENTRIES_copy.
  rewrite NAME_ENTRIES_cmp_zero, (merge_sort_eq_iff_perm entry_le).
  rewrite <- !Permutation_rev. reflexivity.
Qed.

(** The result does not depend on how [sk_X509_NAME_ENTRY_sort] sorts: any
    procedure that returns a sorted rearrangement of the stack yields the
    same comparison. *)
Lemma NamesCompare_any_sort (srt : list X509_NAME_ENTRY -> list X509_NAME_ENTRY)
    (a b : list X509_NAME_ENTRY) :
  (forall l, Sorted entry_le (srt l)) -> (forall l, srt l ≡ₚ l) ->
  xmlSecOpenSSLX509_NAME_ENTRIES_cmp
    (srt (xmlSecOpenSSLX509_NAME_ENTRIES_copy a))
    (srt (xmlSecOpenSSLX509_NAME_ENTRIES_copy b))
  = xmlSecOpenSSLX509NamesCompare a b.
Proof.
  intros Hs Hp. unfold xmlSecOpenSSLX509NamesCompare, sk_X509_NAME_ENTRY_sort.
  rewrite !(any_sort_is_merge_sort entry_le srt) by auto. reflexivity.
Qed.

(** The order of the specification: lexicographic on bytes. *)
Lemma bytes_leb_total a b : bytes_leb a b = true \/ bytes_leb b a = true.
Proof.
  revert b; induction a as [|x a IH]; intros [|y b]; simpl; auto.
  destruct (IH b) as [H|H]; rewrite H;
    destruct (x <? y) eqn:E1; destruct (y <? x) eqn:E2;
    destruct (x =? y) eqn:E3; rewrite (Z.eqb_sym y x), ?E3; simpl; auto;
    rewrite ?Z.ltb_lt, ?Z.ltb_ge, ?Z.eqb_neq in *; lia.
Qed.

Lemma bytes_leb_antisym a b :
  bytes_leb a b = true -> bytes_leb b a = true -> a = b.
Proof.
  revert b; induction a as [|x a IH]; intros [|y b]; simpl;
    try discriminate; auto.
  destruct (x <? y) eqn:E1; destruct (y <? x) eqn:E2;
    destruct (x =? y) eqn:E3; rewrite (Z.eqb_sym y x), ?E3; simpl;
    rewrite ?Z.ltb_lt, ?Z.ltb_ge, ?Z.eqb_eq, ?Z.eqb_neq in *;
    try discriminate; try lia.
  intros H1 H2. subst y. f_equal. auto.
Qed.

Lemma bytes_leb_trans a b c :
  bytes_leb a b = true -> bytes_leb b c = true -> bytes_leb a c = true.
Proof.
  revert b c; induction a as [|x a IH]; intros [|y b] [|z c]; simpl;
    try discriminate; auto.
  destruct (x <? y) eqn:E1; destruct (y <? z) eqn:E2;
    destruct (x <? z) eqn:E4;
    destruct (x =? y) eqn:E3; destruct (y =? z) eqn:E5;
    destruct (x =? z) eqn:E6; simpl;
    rewrite ?Z.ltb_lt, ?Z.ltb_ge, ?Z.eqb_eq, ?Z.eqb_neq in *;
    try discriminate; try lia; auto.
  apply IH.
Qed.

Lemma bytes_leb_refl a : bytes_leb a a = true.
Proof. destruct (bytes_leb_total a a); assumption. Qed.

Global Instance spec_entry_le_total : Total spec_entry_le.
Proof.
  intros a b. unfold spec_entry_le, spec_entry_leb.
  destruct (decide (ne_value a = ne_value b)) as [E|E].
  - rewrite !bool_decide_eq_true_2 by auto. apply bytes_leb_total.
  - rewrite !bool_decide_eq_false_2 by auto. apply bytes_leb_total.
Qed.

Global Instance spec_entry_le_antisym : AntiSymm (=) spec_entry_le.
Proof.
  intros [oa va] [ob vb]. unfold spec_entry_le, spec_entry_leb. simpl.
  destruct (decide (va = vb)) as [E|E].
  - rewrite !bool_decide_eq_true_2 by auto. subst vb.
    intros H1 H2. f_equal. by apply bytes_leb_antisym.
  - rewrite !bool_decide_eq_false_2 by auto.
    intros H1 H2. destruct E. by apply bytes_leb_antisym.
Qed.

Global Instance spec_entry_le_trans : Transitive spec_entry_le.
Proof.
  intros [oa va] [ob vb] [od vd]. unfold spec_entry_le, spec_entry_leb. simpl.
  destruct (decide (va = vb)) as [E1|E1];
    destruct (decide (vb = vd)) as [E2|E2];
    destruct (decide (va = vd)) as [E3|E3];
    rewrite ?(bool_decide_eq_true_2 (va = vb)), ?(bool_decide_eq_false_2 (va = vb)),
            ?(bool_decide_eq_true_2 (vb = vd)), ?(bool_decide_eq_false_2 (vb = vd)),
            ?(bool_decide_eq_true_2 (va = vd)), ?(bool_decide_eq_false_2 (va = vd))
      by assumption; subst; try congruence.
  - apply bytes_leb_trans.
  - intros H1 H2. destruct E1. by apply bytes_leb_antisym.
  - apply bytes_leb_trans.
Qed.

Lemma Forall2_spec_entry_same_eq sa sb :
  Forall2 spec_entry_same sa sb <-> sa = sb.
Proof.
  split.
  - induction 1 as [|[ox vx] [oy vy] sa sb (_ & Hv & Ho) _ IH]; [reflexivity|].
    simpl in *. congruence.
  - intros ->. induction sb; constructor; auto. repeat split.
Qed.

Lemma NameMatcher_equal_iff_perm (a b : list X509_NAME_ENTRY) :
  NameMatcher_equal a b <-> a ≡ₚ b.
Proof.
  unfold NameMatcher_equal. cbv zeta.
  rewrite Forall2_spec_entry_same_eq, <- (merge_sort_eq_iff_perm spec_entry_le).
  split; [tauto|]. intros H. split; [congruence | assumption].
Qed.

(** C8. DN equality as computed by [xmlSecOpenSSLX509NamesCompare] (result
    0) is reflexive, symmetric, independent of the order of the entries, and
    coincides with the NameMatcher of the specification: sort both entry
    lists (value bytes first, then attribute type) and require equal length
    and pairwise equal value length, value bytes and attribute type. *)
Theorem C8_NamesCompare_is_NameMatcher (a b : list X509_NAME_ENTRY) :
  xmlSecOpenSSLX509NamesCompare a a = 0
  /\ (xmlSecOpenSSLX509NamesCompare a b = 0
      <-> xmlSecOpenSSLX509NamesCompare b a = 0)
  /\ (xmlSecOpenSSLX509NamesCompare a b = 0 <-> NameMatcher_equal a b)
  /\ (forall a' b', a ≡ₚ a' -> b ≡ₚ b' ->
        (xmlSecOpenSSLX509NamesCompare a b = 0
         <-> xmlSecOpenSSLX509NamesCompare a' b' = 0)).
Proof.
  split; [by apply NamesCompare_zero_iff_perm|].
  split; [rewrite !NamesCompare_zero_iff_perm; split; intros H; by symmetry|].
  split.
  - rewrite NamesCompare_zero_iff_perm. symmetry. apply NameMatcher_equal_iff_perm.
  - intros a' b' Ha Hb. rewrite !NamesCompare_zero_iff_perm.
    by rewrite Ha, Hb.
Qed.

(** CN=A, O=B and O=B, CN=A hold the same entries, so either may stand for
    the other in a comparison. *)
Lemma C8_NamesCompare_is_NameMatcher_witness :
  let cn := mkEntry [85; 4; 3] (BAD_CAST "A") in
  let o := mkEntry [85; 4; 10] (BAD_CAST "B") in
  [cn; o] ≡ₚ [o; cn]
  /\ (xmlSecOpenSSLX509NamesCompare [cn; o] [cn; o] = 0
      <-> xmlSecOpenSSLX509NamesCompare [o; cn] [cn; o] = 0).
Proof.
  intros cn o. split; [apply perm_swap|].
  apply (proj2 (proj2 (proj2 (C8_NamesCompare_is_NameMatcher [cn; o] [cn; o])))
           [o; cn] [cn; o]);
    [apply perm_swap | reflexivity].
Defined.

(** The NameMatcher example of the specification:
    CN=A, O=B against O=B, CN=A. *)
Example NamesCompare_example :
  xmlSecOpenSSLX509NamesCompare
    [mkEntry [85;4;3] (BAD_CAST "A"); mkEntry [85;4;10] (BAD_CAST "B")]
    [mkEntry [85;4;10] (BAD_CAST "B"); mkEntry [85;4;3] (BAD_CAST "A")] = 0.
Proof. vm_compute. reflexivity. Qed.

(** ** DN string parsing *)

Lemma xmlSecGetHex_range c : 0 <= xmlSecGetHex c <= 15.
Proof.
  unfold xmlSecGetHex.
  destruct ((48 <=? c) && (c <=? 57)) eqn:E1;
    [apply andb_true_iff in E1; destruct E1; lia|].
  destruct ((97 <=? c) && (c <=? 102)) eqn:E2;
    [apply andb_true_iff in E2; destruct E2; lia|].
  destruct ((65 <=? c) && (c <=? 70)) eqn:E3;
    [apply andb_true_iff in E3; destruct E3; lia|].
  lia.
Qed.

Lemma hex_byte h1 h2 :
  (xmlSecGetHex h1 * 16 + xmlSecGetHex h2) mod 256
  = xmlSecGetHex h1 * 16 + xmlSecGetHex h2.
Proof.
  pose proof (xmlSecGetHex_range h1). pose proof (xmlSecGetHex_range h2).
  apply Z.mod_small. lia.
Qed.

Lemma store_in_bounds out jj c :
  0 <= jj < Z.of_nat (length out) ->
  store out jj c = Ok (<[Z.to_nat jj := c]> out).
Proof.
  intros H. unfold store.
  replace (0 <=? jj) with true by lia.
  replace (jj <? Z.of_nat (length out)) with true by lia.
  reflexivity.
Qed.

Lemma put_in_bounds ign out jj ns c :
  0 <= jj < Z.of_nat (length out) ->
  put ign out jj ns c
  = Ok (<[Z.to_nat jj := c]> out, jj + 1,
        if ign && negb (isspace c) then jj + 1 else ns).
Proof. intros H. unfold put. rewrite store_in_bounds by assumption. reflexivity. Qed.

(** Writing [c] then [v] from index [j] on. *)
Lemma splice_step (out : list Z) (j : nat) (c : Z) (v : list Z) :
  (j < length out)%nat ->
  take (S j) (<[j := c]> out) ++ v ++ drop (S j + length v) (<[j := c]> out)
  = take j out ++ (c :: v) ++ drop (j + S (length v)) out.
Proof.
  intros H.
  rewrite (take_S_r _ _ c) by (by apply list_lookup_insert_eq).
  rewrite take_insert_ge by lia.
  rewrite drop_insert_lt by lia.
  replace (S j + length v)%nat with (j + S (length v))%nat by lia.
  by rewrite <- app_assoc.
Qed.

Section Loop.
Variables (delim : Z) (ign : bool) (outSize : Z).

(** The copy loop computes the value [NameString_decode] describes, stores
    it from index [jj] on and leaves the rest of the array alone. *)
Lemma loop_refines n : forall raw, (length raw <= n)%nat ->
  forall out jj ns v rest,
    NameString_decode delim raw = Some (v, rest) ->
    0 <= jj -> jj + Z.of_nat (length v) < outSize ->
    outSize <= Z.of_nat (length out) ->
    NameStringRead_loop delim ign outSize raw out jj ns
    = Ok (rest,
          take (Z.to_nat jj) out ++ v ++ drop (Z.to_nat jj + length v) out,
          jj + Z.of_nat (length v),
          nonSpace_after ign jj ns v).
Proof.
  induction n as [|n IH]; intros raw Hn out jj ns v rest Hs Hj Hv Ho.
  { destruct raw; [|simpl in Hn; lia]. simpl in Hs. injection Hs as <- <-.
    simpl. rewrite Nat.add_0_r, take_drop, Z.add_0_r. reflexivity. }
  destruct raw as [|c raw]; simpl in Hs.
  { injection Hs as <- <-.
    simpl. rewrite Nat.add_0_r, take_drop, Z.add_0_r. reflexivity. }
  simpl in Hn. cbn [NameStringRead_loop].
  destruct (c =? delim) eqn:Ed.
  { injection Hs as <- <-.
    simpl. rewrite Nat.add_0_r, take_drop, Z.add_0_r. reflexivity. }
  replace (jj >=? outSize) with false by lia.
  assert (Hstep : forall c0 raw0 v0,
             (length raw0 <= n)%nat ->
             NameString_decode delim raw0 = Some (v0, rest) ->
             v = c0 :: v0 ->
             ('(out', jj', ns') ← put ign out jj ns c0;
              NameStringRead_loop delim ign outSize raw0 out' jj' ns')
             = Ok (rest,
                   take (Z.to_nat jj) out ++ v
                     ++ drop (Z.to_nat jj + length v) out,
                   jj + Z.of_nat (length v), nonSpace_after ign jj ns v)).
  { intros c0 raw0 v0 Hl Hs0 ->. simpl in Hv.
    rewrite put_in_bounds by lia. simpl.
    rewrite (IH raw0 Hl _ _ _ v0 rest Hs0) by (rewrite ?length_insert; lia).
    replace (Z.to_nat (jj + 1)) with (S (Z.to_nat jj)) by lia.
    rewrite splice_step by lia.
    replace (jj + 1 + Z.of_nat (length v0))
      with (jj + Z.of_nat (length (c0 :: v0))) by (simpl length; lia).
    reflexivity. }
  destruct (c =? ch_backslash) eqn:Eb.
  - destruct raw as [|h1 raw1].
    { injection Hs as <- <-.
      simpl. rewrite Nat.add_0_r, take_drop, Z.add_0_r. reflexivity. }
    destruct (xmlSecIsHex h1) eqn:E1.
    + destruct raw1 as [|h2 raw2]; [discriminate|].
      destruct (xmlSecIsHex h2) eqn:E2; [|discriminate]. simpl negb. cbv iota.
      destruct (NameString_decode delim raw2) as [[v0 rest0]|] eqn:E;
        [|discriminate].
      injection Hs as <- <-. rewrite hex_byte.
      apply (Hstep _ raw2 v0); auto. simpl in Hn. lia.
    + destruct (NameString_decode delim raw1) as [[v0 rest0]|] eqn:E;
        [|discriminate].
      injection Hs as <- <-.
      apply (Hstep _ raw1 v0); auto. simpl in Hn. lia.
  - destruct (NameString_decode delim raw) as [[v0 rest0]|] eqn:E; [|discriminate].
    injection Hs as <- <-.
    apply (Hstep _ raw v0); auto. lia.
Qed.
End Loop.

Lemma nonSpace_after_rtrim v : forall jj ns,
  nonSpace_after true jj ns v
  = match rtrim v with [] => ns | t => jj + Z.of_nat (length t) end.
Proof.
  induction v as [|c v IH]; intros jj ns; simpl; [reflexivity|].
  rewrite IH. destruct (rtrim v) as [|x t] eqn:E.
  - destruct (isspace c); simpl; [reflexivity | lia].
  - simpl length. lia.
Qed.

Lemma nonSpace_after_false v : forall jj ns, nonSpace_after false jj ns v = ns.
Proof. induction v as [|c v IH]; intros jj ns; simpl; auto. Qed.

Lemma rtrim_prefix v : take (length (rtrim v)) v = rtrim v.
Proof.
  induction v as [|c v IH]; simpl; [reflexivity|].
  destruct (rtrim v) as [|x t] eqn:E.
  - destruct (isspace c); reflexivity.
  - simpl. f_equal. exact IH.
Qed.

Lemma rtrim_length v : (length (rtrim v) <= length v)%nat.
Proof.
  induction v as [|c v IH]; simpl; [lia|].
  destruct (rtrim v) as [|x t] eqn:E.
  - destruct (isspace c); simpl; lia.
  - simpl in *. lia.
Qed.

Lemma NameStringRead_refines delim ign raw v rest out outSize :
  NameString_decode delim raw = Some (v, rest) ->
  Z.of_nat (length v) < outSize -> outSize <= Z.of_nat (length out) ->
  xmlSecOpenSSLX509NameStringRead raw out outSize delim ign
  = Ok (rest, v ++ drop (length v) out,
        Z.of_nat (length (if ign then rtrim v else v))).
Proof.
  intros Hs Hv Ho. unfold xmlSecOpenSSLX509NameStringRead.
  rewrite (loop_refines delim ign outSize (length raw) raw (le_n _) out 0 0 v rest)
    by (auto; lia).
  simpl. destruct ign.
  - rewrite nonSpace_after_rtrim. destruct (rtrim v); reflexivity.
  - reflexivity.
Qed.

Section Bounds.
Variables (delim : Z) (ign : bool) (outSize : Z).

(** The copy loop stays inside the output array: it never faults, it
    stores at most [outSize] bytes, and it hands back a suffix of its
    input. *)
Lemma loop_bounds n : forall inp, (length inp <= n)%nat ->
  forall out jj ns,
    0 <= jj <= outSize -> 0 <= ns <= jj -> outSize <= Z.of_nat (length out) ->
    match NameStringRead_loop delim ign outSize inp out jj ns with
    | Ok (rest, out', jj', ns') =>
        jj <= jj' <= outSize /\ 0 <= ns' <= jj' /\ length out' = length out
        /\ (length rest <= length inp)%nat
    | Error _ => True
    | Fault _ _ => False
    | Timeout => False
    end.
Proof.
  induction n as [|n IH]; intros inp Hn out jj ns Hj Hns Ho.
  { destruct inp; [|simpl in Hn; lia]. simpl. repeat split; auto; lia. }
  destruct inp as [|c inp]; [simpl; repeat split; auto; lia|].
  simpl in Hn. cbn [NameStringRead_loop].
  destruct (c =? delim); [repeat split; auto; lia|].
  destruct (jj >=? outSize) eqn:Ej; [exact I|].
  assert (Hstep : forall c0 inp0, (length inp0 <= n)%nat ->
             (length inp0 <= length inp)%nat ->
             match ('(out', jj', ns') ← put ign out jj ns c0;
                    NameStringRead_loop delim ign outSize inp0 out' jj' ns') with
             | Ok (rest, out', jj', ns') =>
                 jj <= jj' <= outSize /\ 0 <= ns' <= jj'
                 /\ length out' = length out
                 /\ (length rest <= length (c :: inp))%nat
             | Error _ => True
             | Fault _ _ => False
             | Timeout => False
             end).
  { intros c0 inp0 Hl Hl'. rewrite put_in_bounds by lia. simpl.
    assert (IH' := IH inp0 Hl (<[Z.to_nat jj:=c0]> out) (jj + 1)
                  (if ign && negb (isspace c0) then jj + 1 else ns)).
    rewrite length_insert in IH'.
    assert (H1 : 0 <= jj + 1 <= outSize) by lia.
    assert (H2 : 0 <= (if ign && negb (isspace c0) then jj + 1 else ns)
                 <= jj + 1) by (destruct (ign && negb (isspace c0)); lia).
    specialize (IH' H1 H2 Ho).
    destruct (NameStringRead_loop _ _ _ _ _ _ _) as [[[[r o] j] s]| | |];
      auto.
    destruct IH' as (H3 & H4 & H5 & H6).
    repeat split; try lia; simpl; lia. }
  destruct (c =? ch_backslash).
  - destruct inp as [|h1 inp1].
    { repeat split; auto; simpl; lia. }
    destruct (xmlSecIsHex h1).
    + destruct inp1 as [|h2 inp2]; [exact I|].
      destruct (xmlSecIsHex h2); simpl negb; cbv iota; [|exact I].
      apply Hstep; simpl in *; lia.
    + apply Hstep; simpl in *; lia.
  - apply Hstep; simpl in *; lia.
Qed.

(** A value longer than the array is refused, not truncated. *)
Lemma loop_too_long n : forall raw, (length raw <= n)%nat ->
  forall out jj ns v rest,
    NameString_decode delim raw = Some (v, rest) ->
    0 <= jj <= outSize -> outSize < jj + Z.of_nat (length v) ->
    outSize <= Z.of_nat (length out) ->
    NameStringRead_loop delim ign outSize raw out jj ns
    = Error "output buffer is too small".
Proof.
  induction n as [|n IH]; intros raw Hn out jj ns v rest Hs Hj Hv Ho.
  { destruct raw; [|simpl in Hn; lia]. simpl in Hs. injection Hs as <- <-.
    simpl in Hv. lia. }
  destruct raw as [|c raw]; simpl in Hs.
  { injection Hs as <- <-. simpl in Hv. lia. }
  simpl in Hn. cbn [NameStringRead_loop].
  destruct (c =? delim) eqn:Ed.
  { injection Hs as <- <-. simpl in Hv. lia. }
  destruct (jj >=? outSize) eqn:Ej; [reflexivity|].
  assert (Hstep : forall c0 raw0 v0,
             (length raw0 <= n)%nat ->
             NameString_decode delim raw0 = Some (v0, rest) ->
             v = c0 :: v0 ->
             ('(out', jj', ns') ← put ign out jj ns c0;
              NameStringRead_loop delim ign outSize raw0 out' jj' ns')
             = Error "output buffer is too small").
  { intros c0 raw0 v0 Hl Hs0 ->. simpl length in Hv.
    rewrite put_in_bounds by lia. simpl.
    apply (IH raw0 Hl _ _ _ v0 rest Hs0); rewrite ?length_insert; lia. }
  destruct (c =? ch_backslash) eqn:Eb.
  - destruct raw as [|h1 raw1].
    { injection Hs as <- <-. simpl in Hv. lia. }
    destruct (xmlSecIsHex h1) eqn:E1.
    + destruct raw1 as [|h2 raw2]; [discriminate|].
      destruct (xmlSecIsHex h2) eqn:E2; [|discriminate]. simpl negb. cbv iota.
      destruct (NameString_decode delim raw2) as [[v0 rest0]|] eqn:E;
        [|discriminate].
      injection Hs as <- <-. rewrite hex_byte.
      apply (Hstep _ raw2 v0); auto. simpl in Hn. lia.
    + destruct (NameString_decode delim raw1) as [[v0 rest0]|] eqn:E;
        [|discriminate].
      injection Hs as <- <-.
      apply (Hstep _ raw1 v0); auto. simpl in Hn. lia.
  - destruct (NameString_decode delim raw) as [[v0 rest0]|] eqn:E; [|discriminate].
    injection Hs as <- <-.
    apply (Hstep _ raw v0); auto. lia.
Qed.
End Bounds.

Lemma NameStringRead_bounds inp out outSize delim ign :
  0 <= outSize <= Z.of_nat (length out) ->
  match xmlSecOpenSSLX509NameStringRead inp out outSize delim ign with
  | Ok (rest, out', n) =>
      0 <= n <= outSize /\ length out' = length out
      /\ (length rest <= length inp)%nat
  | Error _ => True
  | Fault _ _ => False
  | Timeout => False
  end.
Proof.
  intros Ho. unfold xmlSecOpenSSLX509NameStringRead.
  pose proof (loop_bounds delim ign outSize (length inp) inp (le_n _) out 0 0)
    as Hb.
  destruct (NameStringRead_loop _ _ _ _ _ _ _) as [[[[r o] j] s]| | |];
    simpl; auto; try (apply Hb; lia).
  destruct Hb as (H1 & H2 & H3 & H4); try lia.
  destruct ign; repeat split; auto; lia.
Qed.

Lemma NameStringRead_too_long delim ign raw v rest out outSize :
  NameString_decode delim raw = Some (v, rest) ->
  0 <= outSize < Z.of_nat (length v) -> outSize <= Z.of_nat (length out) ->
  xmlSecOpenSSLX509NameStringRead raw out outSize delim ign
  = Error "output buffer is too small".
Proof.
  intros Hs Hv Ho. unfold xmlSecOpenSSLX509NameStringRead.
  rewrite (loop_too_long delim ign outSize (length raw) raw (le_n _) out 0 0 v rest)
    by (auto; lia).
  reflexivity.
Qed.

Lemma skip_spaces_length str : (length (skip_spaces str) <= length str)%nat.
Proof.
  induction str as [|c str IH]; simpl; [lia|].
  destruct (isspace c); simpl; lia.
Qed.

Lemma skip_one_length str : (length (skip_one str) <= length str)%nat.
Proof. destruct str; simpl; lia. Qed.

Lemma store_length buf idx v buf' :
  store buf idx v = Ok buf' -> length buf' = length buf.
Proof.
  unfold store. destruct ((0 <=? idx) && (idx <? Z.of_nat (length buf)));
    [|discriminate].
  intros [= <-]. apply length_insert.
Qed.

Lemma store_no_timeout buf idx v : store buf idx v <> Timeout.
Proof.
  unfold store. destruct ((0 <=? idx) && (idx <? Z.of_nat (length buf)));
    discriminate.
Qed.

Lemma NameRead_value_progress str value :
  length value = Z.to_nat NAME_BUF_SIZE ->
  match NameRead_value str value with
  | Ok (str', value', n) =>
      length value' = length value
      /\ (length str' <= length str)%nat
      /\ (str <> [] -> (length str' < length str)%nat)
  | Error _ => True
  | Fault _ _ => False
  | Timeout => False
  end.
Proof.
  intros Hv. unfold NameRead_value.
  destruct str as [|c str]; [simpl; repeat split; auto; congruence|].
  destruct (peek str =? ch_quote).
  - pose proof (NameStringRead_bounds (skip_one str) value NAME_BUF_SIZE
                  ch_quote true) as Hb.
    destruct (xmlSecOpenSSLX509NameStringRead _ _ _ _ _)
      as [[[r o] n]| | |]; simpl; auto;
      try (apply Hb; rewrite Hv; unfold NAME_BUF_SIZE; lia).
    destruct Hb as (H1 & H2 & H3); [rewrite Hv; unfold NAME_BUF_SIZE; lia|].
    destruct ((Z.of_nat (length r) <=? 0) || negb (peek r =? ch_quote)); [exact I|].
    destruct ((0 <? Z.of_nat (length (skip_spaces (skip_one r))))
              && negb (peek (skip_spaces (skip_one r)) =? ch_comma)); [exact I|].
    pose proof (skip_one_length str). pose proof (skip_one_length r).
    pose proof (skip_spaces_length (skip_one r)).
    pose proof (skip_one_length (skip_spaces (skip_one r))).
    repeat split; auto; simpl; lia.
  - destruct (peek str =? ch_hash); [exact I|].
    pose proof (NameStringRead_bounds str value NAME_BUF_SIZE ch_comma true) as Hb.
    destruct (xmlSecOpenSSLX509NameStringRead _ _ _ _ _)
      as [[[r o] n]| | |]; simpl; auto;
      try (apply Hb; rewrite Hv; unfold NAME_BUF_SIZE; lia).
    destruct Hb as (H1 & H2 & H3); [rewrite Hv; unfold NAME_BUF_SIZE; lia|].
    repeat split; auto; simpl; lia.
Qed.

Lemma xmlStrPrintf_emailAddress_length name :
  length name = Z.to_nat NAME_BUF_SIZE ->
  length (xmlStrPrintf_emailAddress name) = length name.
Proof.
  intros Hn. unfold xmlStrPrintf_emailAddress.
  rewrite !length_app, length_drop, Hn. reflexivity.
Qed.

Lemma NameRead_pair_fields_progress str name value :
  length name = Z.to_nat NAME_BUF_SIZE ->
  length value = Z.to_nat NAME_BUF_SIZE ->
  match NameRead_pair_fields str name value with
  | Ok (str', name', value', _, _) =>
      length name' = Z.to_nat NAME_BUF_SIZE
      /\ length value' = Z.to_nat NAME_BUF_SIZE
      /\ (str <> [] -> (length str' < length str)%nat)
  | Timeout => False
  | _ => True
  end.
Proof.
  intros Hn Hv. unfold NameRead_pair_fields.
  assert (Hsz : 0 <= NAME_BUF_SIZE <= Z.of_nat (Z.to_nat NAME_BUF_SIZE))
    by (vm_compute; split; discriminate).
  pose proof (skip_spaces_length str) as Hsp.
  pose proof (NameStringRead_bounds (skip_spaces str) name NAME_BUF_SIZE
                ch_equal false) as Hb.
  rewrite Hn in Hb. specialize (Hb Hsz).
  destruct (xmlSecOpenSSLX509NameStringRead _ _ _ _ _)
    as [[[r o] n]| | |]; cbn [mbind result_bind]; auto.
  destruct Hb as (H1 & H2 & H3).
  destruct (store o n 0) as [o'| | |] eqn:Es; cbn [mbind result_bind]; auto;
    [|by apply store_no_timeout in Es].
  apply store_length in Es.
  set (name' := if bool_decide (c_str o' = BAD_CAST "E")
                then xmlStrPrintf_emailAddress o' else o').
  assert (Hn' : length name' = Z.to_nat NAME_BUF_SIZE).
  { subst name'. destruct (bool_decide _);
      rewrite ?xmlStrPrintf_emailAddress_length; congruence. }
  pose proof (NameRead_value_progress r value Hv) as Hval.
  destruct (NameRead_value r value) as [[[r2 v2] n2]| | |];
    cbn [mbind result_bind]; auto.
  destruct Hval as (H4 & H5 & H6).
  destruct (store v2 n2 0) as [v2'| | |] eqn:Es2; cbn [mbind result_bind]; auto;
    [|by apply store_no_timeout in Es2].
  apply store_length in Es2. cbn [mret result_ret].
  repeat split; [assumption | congruence |].
  intros Hne. pose proof (skip_one_length r2).
  destruct r as [|c r].
  - simpl in H5. destruct str; [congruence|]. simpl length.
    assert (length r2 = 0)%nat by lia. lia.
  - assert (length r2 < length (c :: r))%nat by (apply H6; congruence).
    lia.
Qed.

Section NameReadTotal.
Context `{Backend}.

Lemma NameRead_loop_no_timeout fuel : forall str name value nm,
  (length str <= fuel)%nat ->
  length name = Z.to_nat NAME_BUF_SIZE ->
  length value = Z.to_nat NAME_BUF_SIZE ->
  NameRead_loop fuel str name value nm <> Timeout.
Proof.
  induction fuel as [|fuel IH]; intros str name value nm Hl Hn Hv.
  { destruct str; [discriminate | simpl in Hl; lia]. }
  destruct str as [|c str]; [discriminate|].
  cbn [NameRead_loop]. unfold NameRead_pair.
  pose proof (NameRead_pair_fields_progress (c :: str) name value Hn Hv) as Hp.
  destruct (NameRead_pair_fields (c :: str) name value)
    as [[[[[s' n'] v'] f'] d']| | |]; cbn [mbind result_bind];
    try discriminate; [|contradiction].
  destruct Hp as (H1 & H2 & H3).
  destruct (X509_NAME_add_entry_by_txt f' d'); cbn [mbind result_bind];
    [|discriminate].
  apply IH; auto.
  assert (length s' < length (c :: str))%nat by (apply H3; congruence).
  simpl in *. lia.
Qed.

(** The parser always returns: the fuel of its loop never runs out. *)
Lemma NameRead_no_timeout str : xmlSecOpenSSLX509NameRead str <> Timeout.
Proof.
  apply NameRead_loop_no_timeout; auto; apply length_replicate.
Qed.

(** One pair, then the end of the input. *)
Lemma NameRead_single str name' value' field data :
  str <> [] ->
  NameRead_pair_fields str (replicate (Z.to_nat NAME_BUF_SIZE) 0)
    (replicate (Z.to_nat NAME_BUF_SIZE) 0)
  = Ok ([], name', value', field, data) ->
  xmlSecOpenSSLX509NameRead str
  = match X509_NAME_add_entry_by_txt field data with
    | Some entry => Ok [entry]
    | None => Error "X509_NAME_add_entry_by_txt"
    end.
Proof.
  intros Hne Hf. unfold xmlSecOpenSSLX509NameRead.
  destruct str as [|c str]; [congruence|].
  cbn [length NameRead_loop]. unfold NameRead_pair. rewrite Hf.
  cbn [mbind result_bind].
  destruct (X509_NAME_add_entry_by_txt field data); [|reflexivity].
  cbn [mbind result_bind]. destruct (length str); reflexivity.
Qed.

(** A fault in the first pair is the result of the parser. *)
Lemma NameRead_fault str idx size :
  str <> [] ->
  NameRead_pair_fields str (replicate (Z.to_nat NAME_BUF_SIZE) 0)
    (replicate (Z.to_nat NAME_BUF_SIZE) 0)
  = Fault idx size ->
  xmlSecOpenSSLX509NameRead str = Fault idx size.
Proof.
  intros Hne Hf. unfold xmlSecOpenSSLX509NameRead.
  destruct str as [|c str]; [congruence|].
  cbn [length NameRead_loop]. unfold NameRead_pair. rewrite Hf. reflexivity.
Qed.

(** So is an error in the first pair. *)
Lemma NameRead_error str msg :
  str <> [] ->
  NameRead_pair_fields str (replicate (Z.to_nat NAME_BUF_SIZE) 0)
    (replicate (Z.to_nat NAME_BUF_SIZE) 0)
  = Error msg ->
  xmlSecOpenSSLX509NameRead str = Error msg.
Proof.
  intros Hne Hf. unfold xmlSecOpenSSLX509NameRead.
  destruct str as [|c str]; [congruence|].
  cbn [length NameRead_loop]. unfold NameRead_pair. rewrite Hf. reflexivity.
Qed.
End NameReadTotal.

Section TwoHex.
Variables (delim : Z) (ign : bool) (outSize : Z).

(** Where the value cannot be decoded the copy loop reports "two hex digits
    expected", when the array has room for the bytes before that place. *)
Lemma loop_two_hex_expected n : forall raw, (length raw <= n)%nat ->
  forall out jj ns,
    NameString_decode delim raw = None ->
    0 <= jj -> jj + Z.of_nat (length raw) <= outSize ->
    outSize <= Z.of_nat (length out) ->
    NameStringRead_loop delim ign outSize raw out jj ns
    = Error "two hex digits expected".
Proof.
  induction n as [|n IH]; intros raw Hn out jj ns Hs Hj Hv Ho.
  { destruct raw; [discriminate | simpl in Hn; lia]. }
  destruct raw as [|c raw]; [discriminate|].
  simpl in Hs, Hn. cbn [NameStringRead_loop].
  destruct (c =? delim) eqn:Ed; [discriminate|].
  simpl length in Hv.
  replace (jj >=? outSize) with false by lia.
  assert (Hstep : forall c0 raw0,
             (length raw0 <= n)%nat -> (length raw0 <= length raw)%nat ->
             NameString_decode delim raw0 = None ->
             ('(out', jj', ns') ← put ign out jj ns c0;
              NameStringRead_loop delim ign outSize raw0 out' jj' ns')
             = Error "two hex digits expected").
  { intros c0 raw0 Hl Hl' Hs0. rewrite put_in_bounds by lia. simpl.
    apply (IH raw0 Hl); rewrite ?length_insert; auto; lia. }
  destruct (c =? ch_backslash) eqn:Eb.
  - destruct raw as [|h1 raw1]; [discriminate|].
    destruct (xmlSecIsHex h1) eqn:E1.
    + destruct raw1 as [|h2 raw2]; [reflexivity|].
      destruct (xmlSecIsHex h2) eqn:E2; [|reflexivity]. simpl negb. cbv iota.
      destruct (NameString_decode delim raw2) as [[v0 rest0]|] eqn:E;
        [discriminate|].
      apply Hstep; simpl in *; [lia | lia | assumption].
    + destruct (NameString_decode delim raw1) as [[v0 rest0]|] eqn:E;
        [discriminate|].
      apply Hstep; simpl in *; [lia | lia | assumption].
  - destruct (NameString_decode delim raw) as [[v0 rest0]|] eqn:E;
      [discriminate|].
    apply Hstep; [lia | lia | assumption].
Qed.
End TwoHex.

Lemma NameStringRead_two_hex_expected delim ign raw out outSize :
  NameString_decode delim raw = None ->
  Z.of_nat (length raw) <= outSize -> outSize <= Z.of_nat (length out) ->
  xmlSecOpenSSLX509NameStringRead raw out outSize delim ign
  = Error "two hex digits expected".
Proof.
  intros Hs Hv Ho. unfold xmlSecOpenSSLX509NameStringRead.
  rewrite (loop_two_hex_expected delim ign outSize (length raw) raw (le_n _) out 0 0)
    by (auto; lia).
  reflexivity.
Qed.

(** Where the copy loop decodes a value, it is the value of the DNParser
    of the specification. *)
Lemma NameString_decode_DNParser delim n : forall raw, (length raw <= n)%nat ->
  forall v rest,
    NameString_decode delim raw = Some (v, rest) ->
    DNParser_value delim raw = (v, rest).
Proof.
  induction n as [|n IH]; intros raw Hn v rest Hs.
  { destruct raw; [|simpl in Hn; lia]. simpl in Hs. by injection Hs as <- <-. }
  destruct raw as [|c raw]; simpl in Hs; [by injection Hs as <- <-|].
  simpl in Hn. cbn [DNParser_value].
  destruct (c =? delim); [by injection Hs as <- <-|].
  destruct (c =? ch_backslash).
  - destruct raw as [|h1 raw1]; [by injection Hs as <- <-|].
    destruct (xmlSecIsHex h1) eqn:E1.
    + destruct raw1 as [|h2 raw2]; [discriminate|].
      destruct (xmlSecIsHex h2) eqn:E2; [|discriminate]. cbn [andb].
      destruct (NameString_decode delim raw2) as [[v0 rest0]|] eqn:E;
        [|discriminate].
      injection Hs as <- <-.
      rewrite (IH raw2 ltac:(simpl in Hn; lia) v0 rest0 E). reflexivity.
    + destruct (NameString_decode delim raw1) as [[v0 rest0]|] eqn:E;
        [|discriminate].
      injection Hs as <- <-.
      rewrite (IH raw1 ltac:(simpl in Hn; lia) v0 rest0 E).
      destruct raw1; reflexivity.
  - destruct (NameString_decode delim raw) as [[v0 rest0]|] eqn:E; [|discriminate].
    injection Hs as <- <-.
    rewrite (IH raw ltac:(lia) v0 rest0 E). reflexivity.
Qed.

(** C7 (as amended). The escape rule of [xmlSecOpenSSLX509NameStringRead]
    (the NSS function has the same text), whatever precedes and follows: a
    backslash followed by two hex digits stores the byte they denote; a
    backslash followed by a character that is not a hex digit stores that
    character; a backslash followed by a hex digit that is not followed by
    a second hex digit is the error "two hex digits expected"; a dangling
    backslash stores nothing.  Where the reader decodes a value it is the
    value of the DNParser of the specification, and a trailing space is
    trimmed whether it was escaped or not; where it does not, it reports
    that error.  In the OpenSSL backend the two worked examples of the
    specification parse to the values "A,B" and "AAB", and an escaped
    space at the end of a value is dropped; the NSS reader hands the
    decoded text on without escaping it again, the comma bare. *)
Theorem C7_escape_rule :
  (forall delim ign outSize out jj ns h1 h2 rest,
      ch_backslash <> delim -> jj < outSize ->
      xmlSecIsHex h1 = true -> xmlSecIsHex h2 = true ->
      NameStringRead_loop delim ign outSize
        (ch_backslash :: h1 :: h2 :: rest) out jj ns
      = ('(out', jj', ns') ←
           put ign out jj ns (xmlSecGetHex h1 * 16 + xmlSecGetHex h2);
         NameStringRead_loop delim ign outSize rest out' jj' ns'))
  /\ (forall delim ign outSize out jj ns c rest,
      ch_backslash <> delim -> jj < outSize ->
      xmlSecIsHex c = false ->
      NameStringRead_loop delim ign outSize (ch_backslash :: c :: rest) out jj ns
      = ('(out', jj', ns') ← put ign out jj ns c;
         NameStringRead_loop delim ign outSize rest out' jj' ns'))
  /\ (forall delim ign outSize out jj ns h1 rest,
      ch_backslash <> delim -> jj < outSize ->
      xmlSecIsHex h1 = true ->
      (forall h2 rest', rest = h2 :: rest' -> xmlSecIsHex h2 = false) ->
      NameStringRead_loop delim ign outSize (ch_backslash :: h1 :: rest) out jj ns
      = Error "two hex digits expected")
  /\ (forall delim ign outSize out jj ns,
      ch_backslash <> delim -> jj < outSize ->
      NameStringRead_loop delim ign outSize [ch_backslash] out jj ns
      = Ok ([], out, jj, ns))
  /\ (forall delim ign raw v rest out outSize,
      NameString_decode delim raw = Some (v, rest) ->
      Z.of_nat (length v) < outSize -> outSize <= Z.of_nat (length out) ->
      DNParser_value delim raw = (v, rest)
      /\ xmlSecOpenSSLX509NameStringRead raw out outSize delim ign
         = Ok (rest, v ++ drop (length v) out,
               Z.of_nat (length (if ign then rtrim v else v))))
  /\ (forall delim ign raw out outSize,
      NameString_decode delim raw = None ->
      Z.of_nat (length raw) <= outSize -> outSize <= Z.of_nat (length out) ->
      xmlSecOpenSSLX509NameStringRead raw out outSize delim ign
      = Error "two hex digits expected")
  /\ (forall B : Backend,
      xmlSecOpenSSLX509NameRead (BAD_CAST "CN=A\,B")
      = match X509_NAME_add_entry_by_txt (BAD_CAST "CN") (BAD_CAST "A,B") with
        | Some entry => Ok [entry]
        | None => Error "X509_NAME_add_entry_by_txt"
        end)
  /\ (forall B : Backend,
      xmlSecOpenSSLX509NameRead (BAD_CAST "CN=A\41B")
      = match X509_NAME_add_entry_by_txt (BAD_CAST "CN") (BAD_CAST "AAB") with
        | Some entry => Ok [entry]
        | None => Error "X509_NAME_add_entry_by_txt"
        end)
  /\ (forall B : Backend,
      xmlSecOpenSSLX509NameRead (BAD_CAST "CN=A\20")
      = match X509_NAME_add_entry_by_txt (BAD_CAST "CN") (BAD_CAST "A") with
        | Some entry => Ok [entry]
        | None => Error "X509_NAME_add_entry_by_txt"
        end)
  /\ (forall B : Backend,
      xmlSecOpenSSLX509NameRead (BAD_CAST "CN=A\4x")
      = Error "two hex digits expected")
  /\ NssName.xmlSecNssX509NameRead (BAD_CAST "CN=A\,B")
     = Ok (BAD_CAST "CN=A,B").
Proof.
  repeat apply conj.
  - intros delim ign outSize out jj ns h1 h2 rest Hd Hj E1 E2.
    cbn [NameStringRead_loop].
    replace (ch_backslash =? delim) with false by lia.
    replace (jj >=? outSize) with false by lia.
    rewrite Z.eqb_refl, E1, E2, hex_byte. reflexivity.
  - intros delim ign outSize out jj ns c rest Hd Hj E1.
    cbn [NameStringRead_loop].
    replace (ch_backslash =? delim) with false by lia.
    replace (jj >=? outSize) with false by lia.
    rewrite Z.eqb_refl, E1. reflexivity.
  - intros delim ign outSize out jj ns h1 rest Hd Hj E1 E2.
    cbn [NameStringRead_loop].
    replace (ch_backslash =? delim) with false by lia.
    replace (jj >=? outSize) with false by lia.
    rewrite Z.eqb_refl, E1.
    destruct rest as [|h2 rest']; [reflexivity|].
    by rewrite (E2 h2 rest' eq_refl).
  - intros delim ign outSize out jj ns Hd Hj.
    cbn [NameStringRead_loop].
    replace (ch_backslash =? delim) with false by lia.
    replace (jj >=? outSize) with false by lia.
    rewrite Z.eqb_refl. reflexivity.
  - intros delim ign raw v rest out outSize Hs Hv Ho. split.
    + by apply (NameString_decode_DNParser delim (length raw)).
    + by apply NameStringRead_refines.
  - intros. by apply NameStringRead_two_hex_expected.
  - intros B. eapply NameRead_single; [discriminate | vm_compute; reflexivity].
  - intros B. eapply NameRead_single; [discriminate | vm_compute; reflexivity].
  - intros B. eapply NameRead_single; [discriminate | vm_compute; reflexivity].
  - intros B. apply NameRead_error; [discriminate | vm_compute; reflexivity].
  - vm_compute. reflexivity.
Qed.

(** The bare value [A\,B], read up to a comma into a 256-byte array. *)
Lemma C7_escape_rule_witness :
  NameString_decode ch_comma (BAD_CAST "A\,B") = Some (BAD_CAST "A,B", [])
  /\ Z.of_nat (length (BAD_CAST "A,B")) < 256
  /\ 256 <= Z.of_nat (length (replicate 256 0))
  /\ DNParser_value ch_comma (BAD_CAST "A\,B") = (BAD_CAST "A,B", [])
  /\ xmlSecOpenSSLX509NameStringRead (BAD_CAST "A\,B") (replicate 256 0) 256
       ch_comma true
     = Ok ([], BAD_CAST "A,B" ++ drop 3 (replicate 256 0), 3).
Proof.
  split; [reflexivity|]. split; [reflexivity|]. split; [vm_compute; discriminate|].
  apply (proj1 (proj2 (proj2 (proj2 (proj2 C7_escape_rule))))
           ch_comma true (BAD_CAST "A\,B") (BAD_CAST "A,B") []
           (replicate 256 0) 256);
    [reflexivity | reflexivity | vm_compute; discriminate].
Defined.

(** C7, as stated, fails: the DNParser of the specification reads the
    value [\4x] as the two characters 4 and x ("any other character
    yields that character"), the code reports an error. *)
Lemma C7_counterexample :
  ~ (forall delim ign raw out outSize,
        Z.of_nat (length raw) < outSize -> outSize <= Z.of_nat (length out) ->
        let v := (DNParser_value delim raw).1 in
        let rest := (DNParser_value delim raw).2 in
        xmlSecOpenSSLX509NameStringRead raw out outSize delim ign
        = Ok (rest, v ++ drop (length v) out,
              Z.of_nat (length (if ign then rtrim v else v)))).
Proof.
  intros Hc.
  specialize (Hc ch_comma true (BAD_CAST "\4x") (replicate 256 0) 256
                ltac:(vm_compute; reflexivity)
                ltac:(vm_compute; discriminate)).
  vm_compute in Hc. discriminate.
Qed.

(** C10. The terminating NUL of a component of maximal length is stored
    outside the array: [xmlSecOpenSSLX509NameStringRead] accepts 256 bytes
    for a 256-byte array ([NameStringRead_bounds]) and
    [xmlSecOpenSSLX509NameRead] then executes [name[256] = 0], respectively
    [value[256] = 0].  A longer component is refused with an error
    ([NameStringRead_too_long]). *)
Theorem C10_nul_store_outside_the_array :
  (forall B : Backend,
      xmlSecOpenSSLX509NameRead (replicate 256 67 ++ BAD_CAST "=x")
      = Fault 256 NAME_BUF_SIZE)
  /\ (forall B : Backend,
      xmlSecOpenSSLX509NameRead (BAD_CAST "CN=" ++ replicate 256 67)
      = Fault 256 NAME_BUF_SIZE)
  /\ (forall B : Backend,
      xmlSecOpenSSLX509NameRead (replicate 257 67 ++ BAD_CAST "=x")
      = Error "output buffer is too small").
Proof.
  repeat apply conj; intros B.
  - apply NameRead_fault; [discriminate | vm_compute; reflexivity].
  - apply NameRead_fault; [discriminate | vm_compute; reflexivity].
  - unfold xmlSecOpenSSLX509NameRead.
    change (replicate 257 67 ++ BAD_CAST "=x")
      with (67 :: (replicate 256 67 ++ BAD_CAST "=x")).
    cbn [length NameRead_loop]. unfold NameRead_pair.
    replace (NameRead_pair_fields _ _ _)
      with (@Error (list Z * list Z * list Z * list Z * list Z)
              "output buffer is too small")
      by (vm_compute; reflexivity).
    reflexivity.
Qed.

(** ** Certificate lookup *)

Section FindCertFacts.
Context `{Backend}.

(** A certificate found by subject name is the first of the stack whose
    subject equals the parsed name. *)
Lemma find_by_subject_sound certs sn cert :
  find_by_subject certs sn = Ok (Some cert) ->
  exists nm, xmlSecOpenSSLX509NameRead sn = Ok nm
             /\ In cert certs
             /\ xmlSecOpenSSLX509NamesCompare nm (x509_subject cert) = 0.
Proof.
  unfold find_by_subject.
  destruct (xmlSecOpenSSLX509NameRead sn) as [nm| | |]; try discriminate.
  intros [= Hf]. exists nm. apply find_some in Hf as [Hin Hc].
  repeat split; auto. lia.
Qed.

Lemma find_by_issuer_serial_sound certs iname iserial cert :
  find_by_issuer_serial certs iname iserial = Ok (Some cert) ->
  exists nm serial,
    xmlSecOpenSSLX509NameRead iname = Ok nm
    /\ BN_dec2bn iserial = Some serial
    /\ In cert certs
    /\ x509_serialNumber cert = serial
    /\ xmlSecOpenSSLX509NamesCompare nm (x509_issuer cert) = 0.
Proof.
  unfold find_by_issuer_serial.
  destruct (xmlSecOpenSSLX509NameRead iname) as [nm| | |]; try discriminate.
  destruct (BN_dec2bn iserial) as [serial|]; try discriminate.
  intros [= Hf]. exists nm, serial. apply find_some in Hf as [Hin Hc].
  apply andb_true_iff in Hc as [Hs Hn].
  repeat split; auto; [|lia].
  unfold ASN1_INTEGER_cmp in Hs.
  destruct (x509_serialNumber cert <? serial); [discriminate|].
  destruct (x509_serialNumber cert =? serial) eqn:E; [lia | discriminate].
Qed.

Lemma find_by_issuer_serial_complete certs iname iserial nm serial :
  xmlSecOpenSSLX509NameRead iname = Ok nm ->
  BN_dec2bn iserial = Some serial ->
  find_by_issuer_serial certs iname iserial = Ok None ->
  forall cert, In cert certs ->
    x509_serialNumber cert <> serial
    \/ xmlSecOpenSSLX509NamesCompare nm (x509_issuer cert) <> 0.
Proof.
  unfold find_by_issuer_serial. intros -> -> [= Hf] cert Hin.
  pose proof (find_none _ _ Hf cert Hin) as Hc. simpl in Hc.
  apply andb_false_iff in Hc as [Hc|Hc].
  - left. unfold ASN1_INTEGER_cmp in Hc. intros Heq. rewrite Heq in Hc.
    rewrite Z.ltb_irrefl, Z.eqb_refl in Hc. discriminate.
  - right. lia.
Qed.
End FindCertFacts.

Lemma FindCert_first_found `{Backend} (certs : list X509)
    (subjectName issuerName issuerSerial ski : option (list Z)) :
  xmlSecOpenSSLX509FindCert certs subjectName issuerName issuerSerial ski
  = first_found (when_given subjectName (find_by_subject certs))
      (first_found
         (when_both_given issuerName issuerSerial (find_by_issuer_serial certs))
         (when_ski_given ski (find_by_ski certs))).
Proof.
  unfold xmlSecOpenSSLX509FindCert, when_given, when_both_given, when_ski_given.
  destruct subjectName as [sn|]; cbn [mbind result_bind first_found].
  - destruct (find_by_subject certs sn) as [[c|]| | |]; try reflexivity.
    cbn [mbind result_bind first_found].
    destruct issuerName as [iname|], issuerSerial as [iserial|];
      cbn [mbind result_bind first_found]; try reflexivity.
    destruct (find_by_issuer_serial certs iname iserial) as [[c|]| | |];
      reflexivity.
  - destruct issuerName as [iname|], issuerSerial as [iserial|];
      cbn [mbind result_bind first_found]; try reflexivity.
    destruct (find_by_issuer_serial certs iname iserial) as [[c|]| | |];
      reflexivity.
Qed.

Lemma NssFindCert_first_found `{NssBackend}
    (certsList : option (list CERTCertificate))
    (subjectName issuerName issuerSerial ski : option (list Z)) :
  xmlSecNssX509FindCert certsList subjectName issuerName issuerSerial ski
  = first_found (when_given subjectName nss_find_by_subject)
      (first_found
         (when_both_given issuerName issuerSerial nss_find_by_issuer_serial)
         (when_ski_given ski (nss_find_by_ski certsList))).
Proof.
  unfold xmlSecNssX509FindCert, when_given, when_both_given, when_ski_given.
  destruct subjectName as [sn|]; cbn [mbind result_bind first_found].
  - destruct (nss_find_by_subject sn) as [[c|]| | |]; try reflexivity.
    cbn [mbind result_bind first_found].
    destruct issuerName as [iname|], issuerSerial as [iserial|];
      cbn [mbind result_bind first_found]; try reflexivity.
    destruct (nss_find_by_issuer_serial iname iserial) as [[c|]| | |];
      reflexivity.
  - destruct issuerName as [iname|], issuerSerial as [iserial|];
      cbn [mbind result_bind first_found]; try reflexivity.
    destruct (nss_find_by_issuer_serial iname iserial) as [[c|]| | |];
      reflexivity.
Qed.

(** C5 (as amended). [xmlSecOpenSSLX509FindCert] and [xmlSecNssX509FindCert]
    try the three criteria in the order subject name, issuer name plus
    serial, subject key identifier; a criterion that is absent is skipped
    and the first lookup that finds a certificate wins.  A lookup that
    finds nothing hands over to the next criterion, also when its own
    criterion was given; a criterion that cannot be read ends the search
    with an error.  With no criterion the result is NULL and nothing is
    reported. *)
Theorem C5_FindCert_precedence :
  (forall (B : Backend) certs subjectName issuerName issuerSerial ski,
      xmlSecOpenSSLX509FindCert certs subjectName issuerName issuerSerial ski
      = first_found (when_given subjectName (find_by_subject certs))
          (first_found
             (when_both_given issuerName issuerSerial
                (find_by_issuer_serial certs))
             (when_ski_given ski (find_by_ski certs))))
  /\ (forall (N : NssBackend) certsList subjectName issuerName issuerSerial ski,
      xmlSecNssX509FindCert certsList subjectName issuerName issuerSerial ski
      = first_found (when_given subjectName nss_find_by_subject)
          (first_found
             (when_both_given issuerName issuerSerial nss_find_by_issuer_serial)
             (when_ski_given ski (nss_find_by_ski certsList))))
  /\ (forall (B : Backend) certs sn issuerName issuerSerial ski cert,
      find_by_subject certs sn = Ok (Some cert) ->
      xmlSecOpenSSLX509FindCert certs (Some sn) issuerName issuerSerial ski
      = Ok (Some cert))
  /\ (forall (B : Backend) certs sn issuerName issuerSerial ski,
      find_by_subject certs sn = Ok None ->
      xmlSecOpenSSLX509FindCert certs (Some sn) issuerName issuerSerial ski
      = xmlSecOpenSSLX509FindCert certs None issuerName issuerSerial ski)
  /\ (forall (B : Backend) certs sn issuerName issuerSerial ski msg,
      find_by_subject certs sn = Error msg ->
      xmlSecOpenSSLX509FindCert certs (Some sn) issuerName issuerSerial ski
      = Error msg)
  /\ (forall (B : Backend) certs,
      xmlSecOpenSSLX509FindCert certs None None None None = Ok None)
  /\ (forall (N : NssBackend) certsList,
      xmlSecNssX509FindCert certsList None None None None = Ok None).
Proof.
  split; [intros; apply FindCert_first_found|].
  split; [intros; apply NssFindCert_first_found|].
  split; [|split; [|split; [|split]]].
  - intros B certs sn issuerName issuerSerial ski cert Hs.
    rewrite FindCert_first_found. cbn [when_given]. rewrite Hs. reflexivity.
  - intros B certs sn issuerName issuerSerial ski Hs.
    rewrite !FindCert_first_found. cbn [when_given]. rewrite Hs. reflexivity.
  - intros B certs sn issuerName issuerSerial ski msg Hs.
    rewrite FindCert_first_found. cbn [when_given]. rewrite Hs. reflexivity.
  - reflexivity.
  - reflexivity.
Qed.

(** The subject name [CN=Nobody] matches no certificate; the search goes on
    and finds Leaf by its subject key identifier. *)
Lemma C5_FindCert_precedence_witness :
  find_by_subject (H := Ref.backend) [Ref.Leaf] (BAD_CAST "CN=Nobody") = Ok None
  /\ xmlSecOpenSSLX509FindCert (H := Ref.backend) [Ref.Leaf]
       (Some (BAD_CAST "CN=Nobody")) None None (Some [170; 187])
     = xmlSecOpenSSLX509FindCert (H := Ref.backend) [Ref.Leaf]
         None None None (Some [170; 187])
  /\ xmlSecOpenSSLX509FindCert (H := Ref.backend) [Ref.Leaf]
       None None None (Some [170; 187])
     = Ok (Some Ref.Leaf).
Proof.
  split; [vm_compute; reflexivity|]. split; [|vm_compute; reflexivity].
  apply (proj1 (proj2 (proj2 (proj2 C5_FindCert_precedence)))
           Ref.backend [Ref.Leaf] (BAD_CAST "CN=Nobody") None None
           (Some [170; 187])).
  vm_compute. reflexivity.
Defined.

(** The NSS lookup does the same: no certificate of the database has the
    subject [CN=Nobody], and the subject key identifier finds Leaf. *)
Example NssFindCert_falls_through :
  xmlSecNssX509FindCert (H := Ref.nss) (Some [Ref.nss_Leaf])
    (Some (BAD_CAST "CN=Nobody")) None None (Some [170; 187])
  = Ok (Some Ref.nss_Leaf)
  /\ nss_find_by_subject (H := Ref.nss) (BAD_CAST "CN=Nobody") = Ok None.
Proof. split; vm_compute; reflexivity. Qed.

(** C5, as stated, fails: with a subject name given, the result is not
    decided by the subject lookup alone. *)
Lemma C5_counterexample :
  ~ (forall (B : Backend) certs sn iname iserial ski,
        xmlSecOpenSSLX509FindCert certs (Some sn) iname iserial ski
        = find_by_subject certs sn).
Proof.
  intros Hc.
  specialize (Hc Ref.backend [Ref.Leaf] (BAD_CAST "CN=Nobody") None None
                (Some [170; 187])).
  vm_compute in Hc. discriminate.
Qed.



(** ** Serial numbers *)

Lemma drop_leading_zeros (l : list Z) :
  drop (leading_zeros l) (0 :: l) = 0 :: drop (leading_zeros l) l.
Proof.
  induction l as [|c l IH]; simpl; [reflexivity|].
  destruct (c =? 0) eqn:E; [|reflexivity].
  apply Z.eqb_eq in E. subst c. exact IH.
Qed.

Lemma drop_leading_zeros_head (l : list Z) :
  match drop (leading_zeros l) l with
  | [] => True
  | b :: _ => b <> 0
  end.
Proof.
  induction l as [|c l IH]; simpl; [exact I|].
  destruct (c =? 0) eqn:E; [exact IH|]. simpl. lia.
Qed.

Lemma be_value_leading_zeros (l : list Z) :
  be_value (drop (leading_zeros l) l) = be_value l.
Proof.
  unfold be_value.
  induction l as [|c l IH]; simpl; [reflexivity|].
  destruct (c =? 0) eqn:E; [|reflexivity].
  apply Z.eqb_eq in E. subst c. exact IH.
Qed.

Lemma NumToItem_shape ui :
  fst (xmlSecNssNumToItem ui)
  = 0 :: drop (leading_zeros (tl (NumToItem_bb ui))) (tl (NumToItem_bb ui)).
Proof.
  unfold xmlSecNssNumToItem, NumToItem_zeros_len. cbn [fst].
  set (bb := NumToItem_bb ui).
  assert (Hbb : bb = 0 :: tl bb) by reflexivity.
  replace (drop 1 bb) with (tl bb) by reflexivity.
  replace (S (leading_zeros (tl bb)) - 1)%nat with (leading_zeros (tl bb)) by lia.
  rewrite take_ge by (rewrite length_drop; lia).
  rewrite Hbb at 1. apply drop_leading_zeros.
Qed.

Lemma byte_split q : q = 256 * (q / 256) + Z.land q 255.
Proof.
  change 255 with (Z.ones 8). rewrite Z.land_ones by lia.
  change (2 ^ 8) with 256. apply Z.div_mod. lia.
Qed.

Lemma be_value_bb ui :
  0 <= ui < 2 ^ 64 -> be_value (tl (NumToItem_bb ui)) = ui.
Proof.
  intros Hui. unfold NumToItem_bb, be_value. cbn [tl map fold_left].
  rewrite Z.shiftr_0_r. rewrite !Z.shiftr_div_pow2 by lia.
  assert (E56 : ui / 2 ^ 56 = ui / 2 ^ 48 / 256)
    by (rewrite Z.div_div by lia; reflexivity).
  assert (E48 : ui / 2 ^ 48 = ui / 2 ^ 40 / 256)
    by (rewrite Z.div_div by lia; reflexivity).
  assert (E40 : ui / 2 ^ 40 = ui / 2 ^ 32 / 256)
    by (rewrite Z.div_div by lia; reflexivity).
  assert (E32 : ui / 2 ^ 32 = ui / 2 ^ 24 / 256)
    by (rewrite Z.div_div by lia; reflexivity).
  assert (E24 : ui / 2 ^ 24 = ui / 2 ^ 16 / 256)
    by (rewrite Z.div_div by lia; reflexivity).
  assert (E16 : ui / 2 ^ 16 = ui / 2 ^ 8 / 256)
    by (rewrite Z.div_div by lia; reflexivity).
  assert (E8 : ui / 2 ^ 8 = ui / 256) by reflexivity.
  assert (E64 : ui / 2 ^ 56 / 256 = 0).
  { rewrite Z.div_div by lia. apply Z.div_small. exact Hui. }
  pose proof (byte_split ui) as B0.
  pose proof (byte_split (ui / 2 ^ 8)) as B1.
  pose proof (byte_split (ui / 2 ^ 16)) as B2.
  pose proof (byte_split (ui / 2 ^ 24)) as B3.
  pose proof (byte_split (ui / 2 ^ 32)) as B4.
  pose proof (byte_split (ui / 2 ^ 40)) as B5.
  pose proof (byte_split (ui / 2 ^ 48)) as B6.
  pose proof (byte_split (ui / 2 ^ 56)) as B7.
  rewrite <- E8 in B0. rewrite <- E16 in B1. rewrite <- E24 in B2.
  rewrite <- E32 in B3. rewrite <- E40 in B4. rewrite <- E48 in B5.
  rewrite <- E56 in B6. rewrite E64 in B7.
  lia.
Qed.

Lemma land_255_range x : 0 <= Z.land x 255 <= 255.
Proof.
  assert (E : Z.land x 255 = x mod 256) by (apply (Z.land_ones x 8); lia).
  rewrite E. pose proof (Z.mod_pos_bound x 256). lia.
Qed.

Lemma NumToItem_bb_bytes ui :
  Forall (fun b => 0 <= b <= 255) (tl (NumToItem_bb ui)).
Proof.
  unfold NumToItem_bb. cbn [tl map].
  repeat (apply List.Forall_cons; [apply land_255_range|]).
  apply List.Forall_nil.
Qed.

(** C6 (as amended). [xmlSecNssNumToItem] encodes a 64-bit serial number as
    its big-endian bytes without leading zero bytes, always preceded by one
    zero byte (the number 0 is the single byte 0); the OpenSSL lookup reads
    a decimal serial of any length, and a certificate it returns has that
    serial number and an issuer name that matches the parsed issuer; the
    NSS lookup asks the database for the encoded issuer name together with
    the item of the number read from the serial. *)
Theorem C6_serial_encoding_and_match :
  (forall ui, 0 <= ui < 2 ^ 64 ->
     exists digits,
       fst (xmlSecNssNumToItem ui) = 0 :: digits
       /\ snd (xmlSecNssNumToItem ui) = Z.of_nat (length (0 :: digits))
       /\ be_value digits = ui
       /\ Forall (fun b => 0 <= b <= 255) digits
       /\ hd 1 digits <> 0)
  /\ (forall (B : Backend) certs iname iserial cert,
        find_by_issuer_serial certs iname iserial = Ok (Some cert) ->
        exists nm serial,
          xmlSecOpenSSLX509NameRead iname = Ok nm
          /\ BN_dec2bn iserial = Some serial
          /\ In cert certs
          /\ x509_serialNumber cert = serial
          /\ xmlSecOpenSSLX509NamesCompare nm (x509_issuer cert) = 0)
  /\ (forall (N : NssBackend) iname iserial r,
        nss_find_by_issuer_serial iname iserial = Ok r ->
        exists name nameitem issuerSN,
          xmlSecNssGetCertName iname = Some name
          /\ SEC_ASN1EncodeItem name = Some nameitem
          /\ PR_sscanf_llu iserial = Some issuerSN
          /\ r = CERT_FindCertByIssuerAndSN nameitem
                   (fst (xmlSecNssNumToItem issuerSN)))
  /\ BN_dec2bn (BAD_CAST "340282366920938463463374607431768211456")
     = Some (2 ^ 128).
Proof.
  split; [|split; [|split]].
  - intros ui Hui.
    exists (drop (leading_zeros (tl (NumToItem_bb ui))) (tl (NumToItem_bb ui))).
    split; [apply NumToItem_shape|].
    split.
    { pose proof (NumToItem_shape ui) as Hs.
      unfold xmlSecNssNumToItem in *. cbn [fst snd] in *.
      rewrite <- Hs. rewrite length_take, length_drop. f_equal. lia. }
    split; [rewrite be_value_leading_zeros; by apply be_value_bb|].
    split.
    { apply Forall_drop, NumToItem_bb_bytes. }
    pose proof (drop_leading_zeros_head (tl (NumToItem_bb ui))) as Hh.
    destruct (drop _ _); simpl; [lia | exact Hh].
  - intros B certs iname iserial cert. apply find_by_issuer_serial_sound.
  - intros N iname iserial r Hr. unfold nss_find_by_issuer_serial in Hr.
    destruct (xmlSecNssGetCertName iname) as [name|] eqn:Hname;
      [|discriminate].
    destruct (SEC_ASN1EncodeItem name) as [nameitem|] eqn:Hitem;
      [|discriminate].
    destruct (PR_sscanf_llu iserial) as [issuerSN|] eqn:Hscan;
      [|discriminate].
    destruct (xmlSecNssNumToItem issuerSN) as [serialNumber rv] eqn:Hn.
    destruct (rv <=? 0); [discriminate|].
    injection Hr as <-.
    exists name, nameitem, issuerSN. rewrite Hn. cbn [fst].
    repeat split; assumption.
  - vm_compute. reflexivity.
Qed.

(** The serial number 255: one zero byte, then the byte 255; the NSS
    lookup of the issuer [CN=Intermediate] with the serial [255] asks the
    database for that item and finds Leaf. *)
Lemma C6_serial_encoding_and_match_witness :
  (0 <= 255 < 2 ^ 64
   /\ exists digits,
        fst (xmlSecNssNumToItem 255) = 0 :: digits
        /\ snd (xmlSecNssNumToItem 255) = Z.of_nat (length (0 :: digits))
        /\ be_value digits = 255
        /\ Forall (fun b => 0 <= b <= 255) digits
        /\ hd 1 digits <> 0)
  /\ nss_find_by_issuer_serial (H := Ref.nss) (BAD_CAST "CN=Intermediate")
       (BAD_CAST "255") = Ok (Some Ref.nss_Leaf)
  /\ exists name nameitem issuerSN,
       xmlSecNssGetCertName (NssBackend := Ref.nss)
         (BAD_CAST "CN=Intermediate") = Some name
       /\ SEC_ASN1EncodeItem (NssBackend := Ref.nss) name = Some nameitem
       /\ PR_sscanf_llu (NssBackend := Ref.nss) (BAD_CAST "255")
          = Some issuerSN
       /\ Some Ref.nss_Leaf
          = CERT_FindCertByIssuerAndSN (NssBackend := Ref.nss) nameitem
              (fst (xmlSecNssNumToItem issuerSN)).
Proof.
  split; [split; [lia|]|split].
  - apply (proj1 C6_serial_encoding_and_match 255). lia.
  - vm_compute. reflexivity.
  - apply (proj1 (proj2 (proj2 C6_serial_encoding_and_match)) Ref.nss
             (BAD_CAST "CN=Intermediate") (BAD_CAST "255")).
    vm_compute. reflexivity.
Defined.

(** C6, as stated, fails: the serial number 1 is encoded as the two bytes
    0, 1, although the most significant bit of its only significant byte is
    clear and the minimal encoding is the single byte 1. *)
Lemma C6_counterexample :
  ~ (forall ui, 0 <= ui < 2 ^ 64 ->
        fst (xmlSecNssNumToItem ui) = spec_serial_bytes ui).
Proof.
  intros Hc.
  assert (H1 : fst (xmlSecNssNumToItem 1) = spec_serial_bytes 1)
    by (apply Hc; lia).
  vm_compute in H1. discriminate.
Qed.

(** ** The revocation filter *)

(** A loop that walks a stack by index and deletes in place the elements
    it rejects computes a filter. *)
Lemma delete_take (A : Type) (l : list A) (i : nat) x :
  l !! i = Some x -> take i (delete i l) = take i l.
Proof.
  intros Hl. rewrite delete_take_drop.
  apply take_app_length'. rewrite length_take.
  apply lookup_lt_Some in Hl. lia.
Qed.

Lemma delete_drop (A : Type) (l : list A) (i : nat) x :
  l !! i = Some x -> drop i (delete i l) = drop (S i) l.
Proof.
  intros Hl. rewrite delete_take_drop.
  apply drop_app_length'. rewrite length_take.
  apply lookup_lt_Some in Hl. lia.
Qed.

Section VerifyFacts.
Context `{Backend}.

Lemma VerifyCRL_range store crl :
  xmlSecOpenSSLX509VerifyCRL store crl = -1
  \/ xmlSecOpenSSLX509VerifyCRL store crl = 0
  \/ xmlSecOpenSSLX509VerifyCRL store crl = 1.
Proof.
  unfold xmlSecOpenSSLX509VerifyCRL.
  destruct (X509_STORE_CTX_get_by_subject _ _) as [issuer|]; auto.
  destruct (x509_pubkey issuer) as [pkey|]; auto.
  destruct (X509_CRL_verify crl pkey =? 1); auto.
Qed.

Lemma VerifyCertAgainstCrls_range now l cert :
  xmlSecOpenSSLX509VerifyCertAgainstCrls now l cert = Ok 0
  \/ xmlSecOpenSSLX509VerifyCertAgainstCrls now l cert = Ok 1
  \/ xmlSecOpenSSLX509VerifyCertAgainstCrls now l cert = Fault 0 0.
Proof.
  unfold xmlSecOpenSSLX509VerifyCertAgainstCrls.
  destruct (find _ l) as [crl|]; auto.
  destruct (crl_nextUpdate crl) as [nextUpdate|]; auto.
  destruct (X509_cmp_current_time _ _ =? 0); auto.
  destruct (existsb _ _); auto.
Qed.

Lemma verify_crls_loop_filter store fuel : forall l i,
  (length l - i < fuel)%nat ->
  verify_crls_loop fuel store l i
  = if existsb (fun crl => xmlSecOpenSSLX509VerifyCRL store crl =? -1) (drop i l)
    then Error "xmlSecOpenSSLX509VerifyCRL"
    else Ok (take i l
             ++ List.filter (fun crl => xmlSecOpenSSLX509VerifyCRL store crl =? 1)
                  (drop i l)).
Proof.
  induction fuel as [|fuel IH]; intros l i Hf; [lia|].
  cbn [verify_crls_loop].
  destruct (l !! i) as [crl|] eqn:El.
  - rewrite (drop_S _ _ _ El). cbn [existsb List.filter].
    pose proof (lookup_lt_Some _ _ _ El) as Hlt.
    destruct (VerifyCRL_range store crl) as [E|[E|E]]; rewrite E; simpl.
    + reflexivity.
    + rewrite IH by (rewrite length_delete by eauto; lia).
      rewrite (delete_take _ _ _ _ El), (delete_drop _ _ _ _ El). reflexivity.
    + rewrite IH by lia. rewrite (take_S_r _ _ _ El), <- app_assoc. reflexivity.
  - apply lookup_ge_None_1 in El.
    rewrite drop_ge, take_ge by lia. simpl. by rewrite app_nil_r.
Qed.

Lemma remove_revoked_loop_filter now crls2 ctx_crls fuel : forall l i,
  (length l - i < fuel)%nat ->
  remove_revoked_loop fuel now crls2 ctx_crls l i
  = if existsb (reads_NULL_nextUpdate now crls2 ctx_crls) (drop i l)
    then Fault 0 0
    else Ok (take i l ++ List.filter (not_revoked now crls2 ctx_crls) (drop i l)).
Proof.
  induction fuel as [|fuel IH]; intros l i Hf; [lia|].
  cbn [remove_revoked_loop].
  destruct (l !! i) as [cert|] eqn:El.
  - rewrite (drop_S _ _ _ El). cbn [List.filter existsb].
    pose proof (lookup_lt_Some _ _ _ El) as Hlt.
    assert (Hdel : remove_revoked_loop fuel now crls2 ctx_crls (delete i l) i
                   = if existsb (reads_NULL_nextUpdate now crls2 ctx_crls)
                          (drop (S i) l)
                     then Fault 0 0
                     else Ok (take i l
                              ++ List.filter (not_revoked now crls2 ctx_crls)
                                   (drop (S i) l))).
    { rewrite IH by (rewrite length_delete by eauto; lia).
      rewrite (delete_take _ _ _ _ El), (delete_drop _ _ _ _ El). reflexivity. }
    assert (Hkeep : remove_revoked_loop fuel now crls2 ctx_crls l (S i)
                   = if existsb (reads_NULL_nextUpdate now crls2 ctx_crls)
                          (drop (S i) l)
                     then Fault 0 0
                     else Ok (take i l ++ cert ::
                                List.filter (not_revoked now crls2 ctx_crls)
                                  (drop (S i) l))).
    { rewrite IH by lia. rewrite (take_S_r _ _ _ El), <- app_assoc. reflexivity. }
    unfold not_revoked at 1. unfold reads_NULL_nextUpdate at 1.
    destruct crls2 as [l2|].
    + destruct (VerifyCertAgainstCrls_range now l2 cert) as [E|[E|E]];
        rewrite E; cbn [mbind result_bind returns_1 Z.eqb negb andb orb].
      * exact Hdel.
      * destruct (VerifyCertAgainstCrls_range now ctx_crls cert) as [E'|[E'|E']];
          rewrite E'; cbn [mbind result_bind returns_1 Z.eqb negb andb orb];
          [exact Hdel | exact Hkeep | reflexivity].
      * reflexivity.
    + cbn [mbind result_bind returns_1 Z.eqb negb andb orb].
      destruct (VerifyCertAgainstCrls_range now ctx_crls cert) as [E'|[E'|E']];
        rewrite E'; cbn [mbind result_bind returns_1 Z.eqb negb andb orb];
        [exact Hdel | exact Hkeep | reflexivity].
  - apply lookup_ge_None_1 in El.
    rewrite drop_ge, take_ge by lia. simpl. by rewrite app_nil_r.
Qed.

(** The revocation filter never runs out of fuel, and what it computes. *)
Lemma revocation_filter_eq ctx certs crls_arg now :
  revocation_filter ctx certs crls_arg now
  = if existsb (fun crl => xmlSecOpenSSLX509VerifyCRL (xst ctx) crl =? -1)
         (match crls_arg with Some l => l | None => [] end)
    then Error "xmlSecOpenSSLX509VerifyCRL"
    else
      let crls2 :=
        option_map
          (List.filter (fun crl => xmlSecOpenSSLX509VerifyCRL (xst ctx) crl =? 1))
          crls_arg in
      if existsb (reads_NULL_nextUpdate now crls2 (crls ctx))
           (certs ++ untrusted ctx)
      then Fault 0 0
      else Ok (List.filter (not_revoked now crls2 (crls ctx))
                 (certs ++ untrusted ctx)).
Proof.
  unfold revocation_filter.
  destruct crls_arg as [l|]; cbn [option_map].
  - rewrite verify_crls_loop_filter by lia. rewrite drop_0, take_0. cbn [app].
    destruct (existsb _ l); [reflexivity|]. cbn [mbind result_bind mret result_ret].
    rewrite remove_revoked_loop_filter by lia. reflexivity.
  - cbn [existsb mbind result_bind mret result_ret].
    rewrite remove_revoked_loop_filter by lia. reflexivity.
Qed.

Lemma revocation_filter_no_timeout ctx certs crls_arg now :
  revocation_filter ctx certs crls_arg now <> Timeout.
Proof.
  rewrite revocation_filter_eq. destruct (existsb _ _); [discriminate|].
  cbv zeta. destruct (existsb _ _); discriminate.
Qed.

(** The certificates that pass the filter are candidates that survive. *)
Lemma revocation_filter_Ok ctx certs crls_arg now certs2 :
  revocation_filter ctx certs crls_arg now = Ok certs2 ->
  certs2
  = List.filter
      (not_revoked now
         (option_map
            (List.filter
               (fun crl => xmlSecOpenSSLX509VerifyCRL (xst ctx) crl =? 1))
            crls_arg)
         (crls ctx))
      (certs ++ untrusted ctx).
Proof.
  rewrite revocation_filter_eq. destruct (existsb _ _); [discriminate|].
  cbv zeta. destruct (existsb _ _); [discriminate|]. by intros [= <-].
Qed.

Lemma verify_loop_in ctx kctx certs2 : forall todo err err_cert cert,
  verify_loop ctx kctx certs2 todo err err_cert = Ok (Verified cert) ->
  In cert todo /\ is_leaf certs2 cert = true.
Proof.
  induction todo as [|c todo IH]; intros err err_cert cert; simpl; [discriminate|].
  destruct (is_leaf certs2 c) eqn:El.
  - destruct (Z.land _ _ =? 0).
    + destruct (X509_verify_cert _ _ _ _ _) as [[ret e] ec].
      destruct (ret =? 1); [intros [= <-]; auto|].
      destruct (ret <? 0); [discriminate|].
      intros Hv. apply IH in Hv as [? ?]. auto.
    + intros [= <-]; auto.
  - intros Hv. apply IH in Hv as [? ?]. auto.
Qed.
End VerifyFacts.

Lemma ASN1_INTEGER_cmp_refl x : ASN1_INTEGER_cmp x x = 0.
Proof. unfold ASN1_INTEGER_cmp. by rewrite Z.ltb_irrefl, Z.eqb_refl. Qed.


(** ** Leaf selection *)

Section LeafFacts.
Context `{Backend}.

Lemma FindNextChainCert_loop_find h cert chain :
  hashes_ok chain = true ->
  FindNextChainCert_loop h cert chain
  = Ok (find (fun cert_ii =>
                negb (x509_addr cert =? x509_addr cert_ii)
                && negb (h =? xmlSecOpenSSLX509GetSubjectHash cert_ii)
                && (h =? xmlSecOpenSSLX509GetIssuerHash cert_ii))
             chain).
Proof.
  induction chain as [|c chain IH]; simpl; [reflexivity|].
  intros Hok. apply andb_true_iff in Hok as [Hc Hok].
  apply andb_true_iff in Hc as [Hs Hi].
  apply negb_true_iff in Hs, Hi. rewrite Hs, Hi.
  destruct (x509_addr cert =? x509_addr c); simpl; [by apply IH|].
  destruct (h =? xmlSecOpenSSLX509GetSubjectHash c); simpl; [by apply IH|].
  destruct (h =? xmlSecOpenSSLX509GetIssuerHash c); simpl; [reflexivity|].
  by apply IH.
Qed.

Lemma is_leaf_false_iff chain cert :
  hashes_ok (cert :: chain) = true ->
  is_leaf chain cert = false
  <-> exists other,
        In other chain
        /\ x509_addr other <> x509_addr cert
        /\ X509_NAME_hash_ex (x509_subject other)
           <> X509_NAME_hash_ex (x509_subject cert)
        /\ X509_NAME_hash_ex (x509_issuer other)
           = X509_NAME_hash_ex (x509_subject cert).
Proof.
  intros Hok. simpl in Hok. apply andb_true_iff in Hok as [Hc Hok].
  apply andb_true_iff in Hc as [Hs _]. apply negb_true_iff in Hs.
  unfold is_leaf, xmlSecOpenSSLX509FindNextChainCert. rewrite Hs.
  rewrite FindNextChainCert_loop_find by assumption.
  unfold xmlSecOpenSSLX509GetSubjectHash, xmlSecOpenSSLX509GetIssuerHash.
  destruct (find _ chain) as [other|] eqn:Ef.
  - split; [intros _|reflexivity].
    apply find_some in Ef as [Hin Hp]. exists other.
    apply andb_true_iff in Hp as [Hp H3]. apply andb_true_iff in Hp as [H1 H2].
    apply negb_true_iff in H1, H2. repeat split; auto; lia.
  - split; [discriminate|]. intros (other & Hin & H1 & H2 & H3). exfalso.
    pose proof (find_none _ _ Ef other Hin) as Hp. simpl in Hp.
    replace (x509_addr cert =? x509_addr other) with false in Hp by lia.
    replace (X509_NAME_hash_ex (x509_subject cert)
             =? X509_NAME_hash_ex (x509_subject other)) with false in Hp by lia.
    replace (X509_NAME_hash_ex (x509_subject cert)
             =? X509_NAME_hash_ex (x509_issuer other)) with true in Hp by lia.
    discriminate.
Qed.
End LeafFacts.

Lemma nss_issuer_of_other_iff certs cert :
  nss_issuer_of_other certs cert = true
  <-> exists cert1,
        In cert1 certs
        /\ nss_addr cert1 <> nss_addr cert
        /\ derIssuer cert1 = derSubject cert.
Proof.
  unfold nss_issuer_of_other. rewrite existsb_exists.
  split; intros (cert1 & Hin & Hp); exists cert1; split; auto.
  - apply andb_true_iff in Hp as [H1 H2]. apply negb_true_iff in H1.
    apply bool_decide_eq_true in H2. split; [lia | assumption].
  - destruct Hp as [H1 H2]. apply andb_true_iff. split.
    + apply negb_true_iff. lia.
    + by apply bool_decide_eq_true.
Qed.

(** C2 (as amended). OpenSSL backend: a candidate is left out of the leaf
    set exactly when some other candidate (another object) whose subject
    name differs from its subject name has an issuer name equal to its
    subject name, names being compared by their hash; so a certificate that
    issues no other candidate stays in the set, self-signed or not, and so
    do two certificates of one subject.  NSS backend: a candidate is left
    out exactly when some other candidate has an encoded issuer name equal
    to its encoded subject name.  The two examples of the specification:
    of Root, Intermediate, Leaf only Leaf is a leaf; three unrelated
    self-signed certificates are all leaves. *)
Theorem C2_leaf_selection :
  (forall (B : Backend) chain cert,
      hashes_ok (cert :: chain) = true ->
      (is_leaf chain cert = false
       <-> exists other,
             In other chain
             /\ x509_addr other <> x509_addr cert
             /\ X509_NAME_hash_ex (x509_subject other)
                <> X509_NAME_hash_ex (x509_subject cert)
             /\ X509_NAME_hash_ex (x509_issuer other)
                = X509_NAME_hash_ex (x509_subject cert)))
  /\ (forall (B : Backend) chain cert,
      hashes_ok (cert :: chain) = true ->
      (forall other, In other chain -> x509_addr other <> x509_addr cert ->
         X509_NAME_hash_ex (x509_issuer other)
         <> X509_NAME_hash_ex (x509_subject cert)) ->
      is_leaf chain cert = true)
  /\ (forall certs cert,
      nss_issuer_of_other certs cert = true
      <-> exists cert1,
            In cert1 certs
            /\ nss_addr cert1 <> nss_addr cert
            /\ derIssuer cert1 = derSubject cert)
  /\ map (is_leaf (H := Ref.backend) [Ref.Root; Ref.Intermediate; Ref.Leaf])
       [Ref.Root; Ref.Intermediate; Ref.Leaf] = [false; false; true]
  /\ map (is_leaf (H := Ref.backend) [Ref.SelfA; Ref.SelfB; Ref.SelfC])
       [Ref.SelfA; Ref.SelfB; Ref.SelfC] = [true; true; true]
  /\ map (is_leaf (H := Ref.backend) [Ref.Root; Ref.Root'])
       [Ref.Root; Ref.Root'] = [true; true].
Proof.
  split; [intros B chain cert; apply is_leaf_false_iff|].
  split.
  { intros B chain cert Hok Hno.
    destruct (is_leaf chain cert) eqn:E; [reflexivity|].
    apply is_leaf_false_iff in E as (other & Hin & H1 & _ & H3); auto.
    destruct (Hno other Hin H1 H3). }
  split; [apply nss_issuer_of_other_iff|].
  repeat split; vm_compute; reflexivity.
Qed.

(** Root among Root, Intermediate and Leaf. *)
Lemma C2_leaf_selection_witness :
  hashes_ok (H := Ref.backend) (Ref.Root :: [Ref.Root; Ref.Intermediate; Ref.Leaf])
  = true
  /\ (is_leaf (H := Ref.backend) [Ref.Root; Ref.Intermediate; Ref.Leaf] Ref.Root
      = false
      <-> exists other,
            In other [Ref.Root; Ref.Intermediate; Ref.Leaf]
            /\ x509_addr other <> x509_addr Ref.Root
            /\ Ref.name_hash (x509_subject other)
               <> Ref.name_hash (x509_subject Ref.Root)
            /\ Ref.name_hash (x509_issuer other)
               = Ref.name_hash (x509_subject Ref.Root)).
Proof.
  split; [vm_compute; reflexivity|].
  apply (proj1 C2_leaf_selection Ref.backend
           [Ref.Root; Ref.Intermediate; Ref.Leaf] Ref.Root).
  vm_compute. reflexivity.
Defined.

(** C2, as stated, fails on the OpenSSL backend: Root' is another candidate
    and its issuer name is the subject name of Root, yet Root is a leaf,
    because Root' has the subject name of Root. *)
Lemma C2_counterexample :
  ~ (forall (B : Backend) chain cert,
        In cert chain ->
        (is_leaf chain cert = false
         <-> exists other,
               In other chain
               /\ x509_addr other <> x509_addr cert
               /\ x509_issuer other = x509_subject cert)).
Proof.
  intros Hc.
  destruct (Hc Ref.backend [Ref.Root; Ref.Root'] Ref.Root) as [_ Hr];
    [left; reflexivity|].
  assert (E : is_leaf (H := Ref.backend) [Ref.Root; Ref.Root'] Ref.Root = false).
  { apply Hr. exists Ref.Root'. split; [right; left; reflexivity|].
    split; [vm_compute; discriminate | reflexivity]. }
  vm_compute in E. discriminate.
Qed.


(** ** CRL verification and the verification call *)

Section CrlFacts.
Context `{Backend}.

Lemma StoreVerify_crl_error ctx certs l kctx now crl :
  In crl l -> xmlSecOpenSSLX509VerifyCRL (xst ctx) crl = -1 ->
  xmlSecOpenSSLX509StoreVerify ctx certs (Some l) kctx now
  = Error "xmlSecOpenSSLX509VerifyCRL".
Proof.
  intros Hin He. unfold xmlSecOpenSSLX509StoreVerify.
  rewrite revocation_filter_eq.
  replace (existsb _ l) with true; [reflexivity|].
  symmetry. apply existsb_exists. exists crl. split; [assumption|].
  rewrite He. reflexivity.
Qed.

(** The only error of the verification loop is that of [X509_verify_cert]. *)
Lemma verify_loop_error ctx kctx certs2 : forall todo err err_cert msg,
  verify_loop ctx kctx certs2 todo err err_cert = Error msg ->
  msg = "X509_verify_cert"%string.
Proof.
  induction todo as [|c todo IH]; intros err err_cert msg; simpl; [discriminate|].
  destruct (is_leaf certs2 c); [|apply IH].
  destruct (Z.land _ _ =? 0); [|discriminate].
  destruct (X509_verify_cert _ _ _ _ _) as [[ret e] ec].
  destruct (ret =? 1); [discriminate|].
  destruct (ret <? 0); [by intros [= <-] | apply IH].
Qed.

(** The call ends with the error of the CRL check exactly when the check of
    one of the CRLs of the caller returns -1. *)
Lemma StoreVerify_crl_error_iff ctx certs crls_arg kctx now :
  xmlSecOpenSSLX509StoreVerify ctx certs crls_arg kctx now
  = Error "xmlSecOpenSSLX509VerifyCRL"
  <-> exists l crl,
        crls_arg = Some l /\ In crl l
        /\ xmlSecOpenSSLX509VerifyCRL (xst ctx) crl = -1.
Proof.
  unfold xmlSecOpenSSLX509StoreVerify. rewrite revocation_filter_eq.
  destruct (existsb _ _) eqn:Ee.
  - split; [intros _|reflexivity].
    apply existsb_exists in Ee as (crl & Hin & He). apply Z.eqb_eq in He.
    destruct crls_arg as [l|]; [|destruct Hin]. by exists l, crl.
  - assert (Hno : ~ exists l crl,
                      crls_arg = Some l /\ In crl l
                      /\ xmlSecOpenSSLX509VerifyCRL (xst ctx) crl = -1).
    { intros (l & crl & -> & Hin & He).
      assert (Ht : existsb
                     (fun crl => xmlSecOpenSSLX509VerifyCRL (xst ctx) crl =? -1)
                     l = true).
      { apply existsb_exists. exists crl. split; [assumption|].
        by apply Z.eqb_eq. }
      congruence. }
    cbv zeta.
    destruct (existsb (reads_NULL_nextUpdate _ _ _) _); cbn [mbind result_bind].
    + split; [discriminate | intros Hex; destruct (Hno Hex)].
    + split; [|intros Hex; destruct (Hno Hex)].
      intros Hl. apply verify_loop_error in Hl. discriminate.
Qed.
End CrlFacts.

(** C3 (as amended). The issuer of a CRL is looked up by
    [X509_STORE_CTX_get_by_subject] in a context that holds the trusted
    store alone.  When the lookup finds no certificate, or finds one
    without a public key, the result is an error (-1), and an error on any
    CRL of the caller ends [xmlSecOpenSSLX509StoreVerify] with an error
    and no certificate; whether the call ends so depends on the trusted
    store and on the CRLs of the caller only, not on the candidate
    certificates.  When the issuer is found and has a public key, the
    result is 1 or 0 (not verified), never an error. *)
Theorem C3_crl_issuer_lookup :
  (forall (B : Backend) store crl,
      X509_STORE_CTX_get_by_subject store (crl_issuer crl) = None ->
      xmlSecOpenSSLX509VerifyCRL store crl = -1)
  /\ (forall (B : Backend) store crl issuer,
      X509_STORE_CTX_get_by_subject store (crl_issuer crl) = Some issuer ->
      x509_pubkey issuer = None ->
      xmlSecOpenSSLX509VerifyCRL store crl = -1)
  /\ (forall (B : Backend) store crl issuer pkey,
      X509_STORE_CTX_get_by_subject store (crl_issuer crl) = Some issuer ->
      x509_pubkey issuer = Some pkey ->
      xmlSecOpenSSLX509VerifyCRL store crl
      = if X509_CRL_verify crl pkey =? 1 then 1 else 0)
  /\ (forall (B : Backend) ctx certs l kctx now crl,
      In crl l -> xmlSecOpenSSLX509VerifyCRL (xst ctx) crl = -1 ->
      xmlSecOpenSSLX509StoreVerify ctx certs (Some l) kctx now
      = Error "xmlSecOpenSSLX509VerifyCRL")
  /\ (forall (B : Backend) ctx certs crls_arg kctx now
             pool' crls' certs' kctx' now',
      xmlSecOpenSSLX509StoreVerify ctx certs crls_arg kctx now
      = Error "xmlSecOpenSSLX509VerifyCRL"
      <-> xmlSecOpenSSLX509StoreVerify (mkStore (xst ctx) pool' crls') certs'
            crls_arg kctx' now'
          = Error "xmlSecOpenSSLX509VerifyCRL").
Proof.
  split; [|split; [|split; [|split]]].
  - intros B store crl Hno. unfold xmlSecOpenSSLX509VerifyCRL.
    by rewrite Hno.
  - intros B store crl issuer Hf Hk. unfold xmlSecOpenSSLX509VerifyCRL.
    by rewrite Hf, Hk.
  - intros B store crl issuer pkey Hf Hk. unfold xmlSecOpenSSLX509VerifyCRL.
    rewrite Hf, Hk. reflexivity.
  - intros B ctx certs l kctx now crl. apply StoreVerify_crl_error.
  - intros B ctx certs crls_arg kctx now pool' crls' certs' kctx' now'.
    rewrite !StoreVerify_crl_error_iff. reflexivity.
Qed.

(** The store trusts Root only; the second CRL is issued by Intermediate. *)
Lemma C3_crl_issuer_lookup_witness :
  In Ref.crl_intermediate [Ref.crl_root; Ref.crl_intermediate]
  /\ xmlSecOpenSSLX509VerifyCRL (H := Ref.backend) (xst Ref.store_root)
       Ref.crl_intermediate = -1
  /\ xmlSecOpenSSLX509StoreVerify (H := Ref.backend) Ref.store_root
       [Ref.Cert6] (Some [Ref.crl_root; Ref.crl_intermediate]) (Ref.kctx 0) 1000
     = Error "xmlSecOpenSSLX509VerifyCRL".
Proof.
  split; [right; left; reflexivity|]. split; [vm_compute; reflexivity|].
  apply (proj1 (proj2 (proj2 (proj2 C3_crl_issuer_lookup))) Ref.backend
           Ref.store_root
           [Ref.Cert6] [Ref.crl_root; Ref.crl_intermediate] (Ref.kctx 0) 1000
           Ref.crl_intermediate);
    [right; left; reflexivity | vm_compute; reflexivity].
Defined.

(** The lookup is the library's: with the example backend the CRL of an
    issuer written "root" is checked with the key of the trusted
    certificate of "Root". *)
Example VerifyCRL_issuer_in_another_case :
  xmlSecOpenSSLX509VerifyCRL (H := Ref.backend) [Ref.Root]
    (mkCRL (Ref.dn "root") (Some (ASN1_TIME_at 2000)) [5] 11)
  = 1.
Proof. vm_compute. reflexivity. Qed.

(** C3, as stated, fails: the issuer of the CRL, Intermediate, is among the
    candidate certificates and has a public key, and the call still ends
    with the error of the CRL check. *)
Lemma C3_counterexample :
  ~ (forall (B : Backend) ctx certs crl kctx now,
        (exists issuer,
            In issuer (xst ctx ++ certs)
            /\ x509_subject issuer = crl_issuer crl
            /\ x509_pubkey issuer <> None) ->
        xmlSecOpenSSLX509StoreVerify ctx certs (Some [crl]) kctx now
        <> Error "xmlSecOpenSSLX509VerifyCRL").
Proof.
  intros Hc.
  apply (Hc Ref.backend Ref.store_root [Ref.Leaf; Ref.Intermediate]
           Ref.crl_intermediate (Ref.kctx 0) 1000).
  - exists Ref.Intermediate. split; [right; right; left; reflexivity|].
    split; [reflexivity | discriminate].
  - vm_compute. reflexivity.
Qed.

Lemma existsb_serial cert revoked :
  existsb (fun r => ASN1_INTEGER_cmp r (x509_serialNumber cert) =? 0) revoked
  = true
  <-> In (x509_serialNumber cert) revoked.
Proof.
  rewrite existsb_exists. split.
  - intros (s & Hin & Hs). unfold ASN1_INTEGER_cmp in Hs.
    destruct (s <? x509_serialNumber cert); [discriminate|].
    destruct (s =? x509_serialNumber cert) eqn:E; [|discriminate].
    apply Z.eqb_eq in E. by subst s.
  - intros Hin. exists (x509_serialNumber cert). split; [assumption|].
    by rewrite ASN1_INTEGER_cmp_refl.
Qed.






(** C1. The code does not do what the claim says: the test for an expired
    CRL, [ret == 0], is true only for a nextUpdate that cannot be read, so
    a CRL of the issuer of a certificate that lists its serial number
    revokes it however old its nextUpdate is, and the certificate is
    removed from the candidates. *)
Theorem C1_expired_crl_still_revokes :
  (forall ctm now,
      X509_cmp_current_time ctm now = 0 <-> ctm = ASN1_TIME_malformed)
  /\ (forall now secs sig cert,
      xmlSecOpenSSLX509VerifyCertAgainstCrls now
        [mkCRL (x509_issuer cert) (Some (ASN1_TIME_at secs))
               [x509_serialNumber cert] sig]
        cert = Ok 0)
  /\ xmlSecOpenSSLX509VerifyCertAgainstCrls 1000 [Ref.crl_root_expired] Ref.Cert5
     = Ok 0
  /\ revocation_filter (H := Ref.backend) Ref.store_root [Ref.Cert5; Ref.Cert6]
       (Some [Ref.crl_root_expired]) 1000
     = Ok [Ref.Cert6]
  /\ xmlSecOpenSSLX509StoreVerify (H := Ref.backend) Ref.store_root
       [Ref.Cert5] (Some [Ref.crl_root_expired]) (Ref.kctx 0) 1000
     = Ok (NotVerified None).
Proof.
  split; [|split; [|split; [|split]]].
  - intros [secs|] now; simpl; [|tauto].
    destruct (secs <=? now); split; discriminate.
  - intros now secs sig cert. unfold xmlSecOpenSSLX509VerifyCertAgainstCrls.
    cbn [find crl_issuer].
    replace (xmlSecOpenSSLX509NamesCompare (x509_issuer cert) (x509_issuer cert) =? 0)
      with true
      by (symmetry; apply Z.eqb_eq, NamesCompare_zero_iff_perm; reflexivity).
    cbn [crl_nextUpdate crl_revoked existsb X509_cmp_current_time].
    rewrite ASN1_INTEGER_cmp_refl.
    destruct (secs <=? now); reflexivity.
  - vm_compute. reflexivity.
  - vm_compute. reflexivity.
  - vm_compute. reflexivity.
Qed.











Lemma plain_Forall delim s :
  plain delim s = true ->
  Forall (fun c => c <> delim /\ c <> ch_backslash /\ c <> 0) s.
Proof.
  unfold plain. rewrite forallb_forall, List.Forall_forall.
  intros H c Hin. specialize (H c Hin).
  apply andb_true_iff in H as [H H3]. apply andb_true_iff in H as [H1 H2].
  apply negb_true_iff in H1, H2, H3. lia.
Qed.

Lemma NameString_decode_plain delim v tail :
  plain delim v = true ->
  tail = [] \/ (exists r, tail = delim :: r) ->
  NameString_decode delim (v ++ tail) = Some (v, tail).
Proof.
  intros Hp Ht. apply plain_Forall in Hp.
  induction Hp as [|c v (H1 & H2 & _) _ IH]; cbn [app].
  - destruct Ht as [->|(r & ->)]; cbn [NameString_decode]; [reflexivity|].
    by rewrite Z.eqb_refl.
  - cbn [NameString_decode].
    replace (c =? delim) with false by (symmetry; apply Z.eqb_neq; lia).
    replace (c =? ch_backslash) with false by (symmetry; apply Z.eqb_neq; lia).
    by rewrite IH.
Qed.

Lemma skip_spaces_app sp l :
  forallb isspace sp = true -> isspace (peek l) = false ->
  skip_spaces (sp ++ l) = l.
Proof.
  intros Hsp Hl. induction sp as [|c sp IH]; cbn [app].
  - destruct l as [|c l]; [reflexivity|]. cbn [skip_spaces].
    cbn [peek hd] in Hl. by rewrite Hl.
  - cbn [forallb] in Hsp. apply andb_true_iff in Hsp as [Hc Hsp].
    cbn [skip_spaces]. rewrite Hc. by apply IH.
Qed.

Lemma rtrim_spaces tsp : forallb isspace tsp = true -> rtrim tsp = [].
Proof.
  induction tsp as [|c tsp IH]; [reflexivity|]. cbn [forallb].
  intros H. apply andb_true_iff in H as [Hc H]. cbn [rtrim].
  by rewrite IH, Hc.
Qed.

Lemma rtrim_app_spaces v tsp :
  forallb isspace tsp = true -> rtrim v = v -> rtrim (v ++ tsp) = v.
Proof.
  intros Hsp. induction v as [|c v IH]; cbn [app].
  - intros _. by apply rtrim_spaces.
  - cbn [rtrim]. destruct (rtrim v) as [|x t] eqn:E.
    + destruct (isspace c) eqn:Ec; [discriminate|].
      intros [= <-]. cbn [app]. rewrite rtrim_spaces by assumption.
      reflexivity.
    + intros [= Hv]. rewrite IH by congruence. by rewrite <- Hv.
Qed.

Lemma c_str_app_nul n rest :
  Forall (fun c => c <> 0) n -> c_str (n ++ 0 :: rest) = n.
Proof.
  induction 1 as [|c n Hc _ IH]; cbn [app c_str]; [reflexivity|].
  replace (c =? 0) with false by (symmetry; apply Z.eqb_neq; lia).
  by rewrite IH.
Qed.

Lemma insert_nul (n out : list Z) :
  (length n < length out)%nat ->
  <[length n := 0]> (n ++ drop (length n) out)
  = n ++ 0 :: drop (S (length n)) out.
Proof.
  intros H. rewrite insert_app_r_alt, Nat.sub_diag by lia.
  destruct (lookup_lt_is_Some_2 out (length n) H) as [x Hx].
  by rewrite (drop_S _ _ _ Hx).
Qed.

Lemma plain_nonzero delim s :
  plain delim s = true -> Forall (fun c => c <> 0) s.
Proof.
  intros H. apply plain_Forall in H.
  eapply List.Forall_impl; [|exact H]. cbv beta. tauto.
Qed.

Lemma plain_spaces delim tsp :
  negb (isspace delim) = true ->
  forallb isspace tsp = true -> plain delim tsp = true.
Proof.
  intros Hd Hs. unfold plain. rewrite forallb_forall in *.
  intros c Hin. specialize (Hs c Hin).
  apply negb_true_iff in Hd.
  assert (c <> delim) by (intros ->; congruence).
  unfold isspace in Hs.
  replace (c =? delim) with false by (symmetry; apply Z.eqb_neq; lia).
  unfold ch_backslash.
  destruct (c =? 92) eqn:E1; [apply Z.eqb_eq in E1; subst c; discriminate|].
  destruct (c =? 0) eqn:E2; [apply Z.eqb_eq in E2; subst c; discriminate|].
  reflexivity.
Qed.

Lemma plain_app delim a b :
  plain delim a = true -> plain delim b = true -> plain delim (a ++ b) = true.
Proof. unfold plain. rewrite forallb_app. by intros -> ->. Qed.

(** The first byte of the text of a value. *)
Lemma peek_value v tsp tail :
  forallb isspace tsp = true ->
  tail = [] \/ (exists r, tail = ch_comma :: r) ->
  negb (peek v =? ch_quote) = true -> negb (peek v =? ch_hash) = true ->
  (peek (v ++ tsp ++ tail) =? ch_quote) = false
  /\ (peek (v ++ tsp ++ tail) =? ch_hash) = false.
Proof.
  intros Hs Ht Hq Hh. apply negb_true_iff in Hq, Hh.
  destruct v as [|c v]; [|cbn [app peek hd] in *; auto].
  cbn [app]. destruct tsp as [|c tsp]; cbn [app peek hd].
  - destruct Ht as [->|(r & ->)]; cbn; auto.
  - cbn [forallb] in Hs. apply andb_true_iff in Hs as [Hc _].
    unfold isspace in Hc. unfold ch_quote, ch_hash. split; apply Z.eqb_neq; lia.
Qed.

Section Items.
Context `{Backend}.

Lemma NameRead_pair_fields_item i tail name value :
  clean_item i = true ->
  length name = Z.to_nat NAME_BUF_SIZE ->
  length value = Z.to_nat NAME_BUF_SIZE ->
  tail = [] \/ (exists r, tail = ch_comma :: r) ->
  exists name' value',
    NameRead_pair_fields (item_text i ++ tail) name value
    = Ok (skip_one tail, name', value', field_of (it_name i), it_value i)
    /\ length name' = Z.to_nat NAME_BUF_SIZE
    /\ length value' = Z.to_nat NAME_BUF_SIZE.
Proof.
  intros Hc Hn Hv Ht. destruct i as [sp n v tsp]. unfold clean_item in Hc.
  cbn [it_lead it_name it_value it_trail] in Hc.
  repeat (apply andb_true_iff in Hc as [Hc ?]).
  rename Hc into Hsp.
  match goal with H : (Z.of_nat (length (v ++ tsp)) <? _) = true |- _ =>
    apply Z.ltb_lt in H; rename H into Hvl end.
  match goal with H : (Z.of_nat (length n) <? _) = true |- _ =>
    apply Z.ltb_lt in H; rename H into Hnl end.
  match goal with H : bool_decide _ = true |- _ =>
    apply bool_decide_eq_true in H; rename H into Hrt end.
  match goal with H : negb (isspace _) = true |- _ =>
    apply negb_true_iff in H; rename H into Hns end.
  assert (HB : NAME_BUF_SIZE = 256) by reflexivity.
  assert (Hnz : Z.of_nat (length name) = 256) by (rewrite Hn; reflexivity).
  assert (Hvz : Z.of_nat (length value) = 256) by (rewrite Hv; reflexivity).
  unfold NameRead_pair_fields, item_text.
  cbn [it_lead it_name it_value it_trail field_of].
  rewrite <- app_assoc.
  rewrite skip_spaces_app; [|assumption|].
  2:{ destruct n as [|c n]; [reflexivity | exact Hns]. }
  rewrite <- (app_assoc n), <- app_comm_cons, <- (app_assoc v).
  rewrite (NameStringRead_refines ch_equal false _ n (ch_equal :: v ++ tsp ++ tail))
    by (try (apply NameString_decode_plain; eauto); lia).
  cbn [mbind result_bind].
  rewrite store_in_bounds
    by (rewrite length_app, length_drop; lia).
  cbn [mbind result_bind]. rewrite Nat2Z.id.
  rewrite insert_nul by lia.
  rewrite c_str_app_nul by (eapply plain_nonzero; eassumption).
  set (name1 := n ++ 0 :: drop (S (length n)) name).
  assert (Hn1 : length name1 = Z.to_nat NAME_BUF_SIZE).
  { subst name1. rewrite length_app. cbn [length]. rewrite length_drop. lia. }
  set (name2 := if bool_decide (n = BAD_CAST "E")
                then xmlStrPrintf_emailAddress name1 else name1).
  assert (Hn2 : length name2 = Z.to_nat NAME_BUF_SIZE).
  { subst name2. destruct (bool_decide _);
      [by rewrite xmlStrPrintf_emailAddress_length | assumption]. }
  assert (Hf : c_str name2 = field_of n).
  { subst name2. unfold field_of. destruct (bool_decide (n = BAD_CAST "E")).
    - unfold xmlStrPrintf_emailAddress. apply c_str_app_nul.
      repeat constructor; discriminate.
    - subst name1. apply c_str_app_nul. eapply plain_nonzero; eassumption. }
  unfold NameRead_value.
  destruct (peek_value v tsp tail) as [Eq Eh]; auto.
  rewrite Eq, Eh.
  replace (v ++ tsp ++ tail) with ((v ++ tsp) ++ tail) by (by rewrite <- app_assoc).
  rewrite (NameStringRead_refines ch_comma true _ (v ++ tsp) tail)
    by (try (apply NameString_decode_plain;
             [apply plain_app; [assumption | by apply plain_spaces] | assumption]);
        lia).
  rewrite rtrim_app_spaces by assumption.
  cbn [mbind result_bind].
  rewrite store_in_bounds
    by (rewrite length_app, length_drop; rewrite length_app in *; lia).
  cbn [mbind result_bind mret result_ret]. rewrite Nat2Z.id.
  rewrite take_insert_ge by lia.
  rewrite <- app_assoc, take_app_length.
  eexists name2, _. rewrite Hf. split; [reflexivity|].
  split; [assumption|].
  rewrite length_insert, !length_app, length_drop.
  rewrite length_app in Hvl. lia.
Qed.
End Items.

Lemma render_items_cons i rest :
  render_items (i :: rest)
  = item_text i ++ match rest with
                   | [] => []
                   | _ :: _ => ch_comma :: render_items rest
                   end.
Proof. destruct rest; cbn [render_items]; [by rewrite app_nil_r | reflexivity]. Qed.

Lemma item_text_length i : (0 < length (item_text i))%nat.
Proof. unfold item_text. rewrite !length_app. cbn [length]. lia. Qed.

Section ItemsLoop.
Context `{Backend}.

Lemma NameRead_loop_items items : forall fuel name value nm,
  forallb clean_item items = true ->
  (length (render_items items) <= fuel)%nat ->
  length name = Z.to_nat NAME_BUF_SIZE ->
  length value = Z.to_nat NAME_BUF_SIZE ->
  NameRead_loop fuel (render_items items) name value nm
  = match entries_of items with
    | Some es => Ok (nm ++ es)
    | None => Error "X509_NAME_add_entry_by_txt"
    end.
Proof.
  induction items as [|i rest IH]; intros fuel name value nm Hc Hf Hn Hv.
  { cbn [render_items entries_of]. destruct fuel; cbn; by rewrite app_nil_r. }
  cbn [forallb] in Hc. apply andb_true_iff in Hc as [Hi Hc].
  rewrite render_items_cons in *.
  set (tail := match rest with [] => [] | _ :: _ => ch_comma :: render_items rest end)
    in *.
  assert (Ht : tail = [] \/ exists r, tail = ch_comma :: r)
    by (subst tail; destruct rest; eauto).
  assert (Hs : skip_one tail = render_items rest)
    by (subst tail; destruct rest; reflexivity).
  destruct (NameRead_pair_fields_item i tail name value Hi Hn Hv Ht)
    as (name' & value' & Hp & Hn' & Hv').
  pose proof (item_text_length i) as Hlen.
  rewrite length_app in Hf.
  destruct (item_text i ++ tail) as [|c text] eqn:E.
  { apply (f_equal length) in E. rewrite length_app in E. simpl in E. lia. }
  destruct fuel as [|fuel]; [lia|].
  cbn [NameRead_loop]. unfold NameRead_pair. rewrite Hp.
  cbn [mbind result_bind entries_of].
  destruct (X509_NAME_add_entry_by_txt (field_of (it_name i)) (it_value i))
    as [e|]; [|reflexivity].
  cbn [mbind result_bind]. rewrite Hs. rewrite IH; auto.
  - destruct (entries_of rest); [|reflexivity]. by rewrite <- app_assoc.
  - assert (length (render_items rest) <= length tail)%nat
      by (rewrite <- Hs; apply skip_one_length).
    lia.
Qed.
End ItemsLoop.

(** X3. [xmlSecOpenSSLX509NameRead] on a well-formed text: the entries of the
    items in the order of the text, each built by the library from the
    name of the item ([E] standing for [emailAddress]) and its value; white
    space before a name and after a value is dropped.  The result is an
    error when the library refuses an item. *)
Theorem NameRead_reads_the_items `{Backend} (items : list dn_item) :
  forallb clean_item items = true ->
  xmlSecOpenSSLX509NameRead (render_items items)
  = match entries_of items with
    | Some es => Ok es
    | None => Error "X509_NAME_add_entry_by_txt"
    end.
Proof.
  intros Hc. unfold xmlSecOpenSSLX509NameRead.
  rewrite NameRead_loop_items; auto; apply length_replicate.
Qed.

(** The text [ CN=A  ,E=a@b.c] with the table of the examples. *)
Lemma NameRead_reads_the_items_witness :
  let items := [mkItem [32] (BAD_CAST "CN") (BAD_CAST "A") [32; 32];
                mkItem [] (BAD_CAST "E") (BAD_CAST "a@b.c") []] in
  render_items items = BAD_CAST " CN=A  ,E=a@b.c"
  /\ xmlSecOpenSSLX509NameRead (H := Ref.backend) (render_items items)
     = Ok [mkEntry Ref.OID_CN (BAD_CAST "A");
           mkEntry Ref.OID_emailAddress (BAD_CAST "a@b.c")].
Proof.
  intros items. split; [reflexivity|].
  apply (NameRead_reads_the_items (H := Ref.backend) items). reflexivity.
Defined.

(** A quoted value followed by a comma: the pair is read, and one more
    byte of input is consumed after the comma. *)
Lemma NameRead_pair_fields_quoted n v c rest name value :
  plain ch_equal n = true -> isspace (peek n) = false ->
  Z.of_nat (length n) < NAME_BUF_SIZE ->
  plain ch_quote v = true -> Z.of_nat (length v) < NAME_BUF_SIZE ->
  length name = Z.to_nat NAME_BUF_SIZE ->
  length value = Z.to_nat NAME_BUF_SIZE ->
  exists name' value',
    NameRead_pair_fields
      (n ++ [ch_equal; ch_quote] ++ v ++ [ch_quote; ch_comma] ++ c :: rest)
      name value
    = Ok (rest, name', value', field_of n, rtrim v)
    /\ length name' = Z.to_nat NAME_BUF_SIZE
    /\ length value' = Z.to_nat NAME_BUF_SIZE.
Proof.
  intros Hpn Hns Hnl Hpv Hvl Hn Hv.
  assert (HB : NAME_BUF_SIZE = 256) by reflexivity.
  assert (Hnz : Z.of_nat (length name) = 256) by (rewrite Hn; reflexivity).
  assert (Hvz : Z.of_nat (length value) = 256) by (rewrite Hv; reflexivity).
  unfold NameRead_pair_fields.
  assert (Hsk : forall l, skip_spaces (n ++ ch_equal :: l) = n ++ ch_equal :: l).
  { intros l. apply (skip_spaces_app [] _ eq_refl).
    destruct n as [|x n]; [reflexivity | exact Hns]. }
  cbn [app]. rewrite Hsk.
  rewrite (NameStringRead_refines ch_equal false _ n
             (ch_equal :: ch_quote :: v ++ ch_quote :: ch_comma :: c :: rest))
    by (try (apply NameString_decode_plain; eauto); lia).
  cbn [mbind result_bind].
  rewrite store_in_bounds by (rewrite length_app, length_drop; lia).
  cbn [mbind result_bind]. rewrite Nat2Z.id.
  rewrite insert_nul by lia.
  rewrite c_str_app_nul by (eapply plain_nonzero; eassumption).
  set (name1 := n ++ 0 :: drop (S (length n)) name).
  assert (Hn1 : length name1 = Z.to_nat NAME_BUF_SIZE).
  { subst name1. rewrite length_app. cbn [length]. rewrite length_drop. lia. }
  set (name2 := if bool_decide (n = BAD_CAST "E")
                then xmlStrPrintf_emailAddress name1 else name1).
  assert (Hn2 : length name2 = Z.to_nat NAME_BUF_SIZE).
  { subst name2. destruct (bool_decide _);
      [by rewrite xmlStrPrintf_emailAddress_length | assumption]. }
  assert (Hf : c_str name2 = field_of n).
  { subst name2. unfold field_of. destruct (bool_decide (n = BAD_CAST "E")).
    - unfold xmlStrPrintf_emailAddress. apply c_str_app_nul.
      repeat constructor; discriminate.
    - subst name1. apply c_str_app_nul. eapply plain_nonzero; eassumption. }
  unfold NameRead_value. cbn [peek hd skip_one tl].
  rewrite Z.eqb_refl.
  rewrite (NameStringRead_refines ch_quote true _ v
             (ch_quote :: ch_comma :: c :: rest))
    by (try (apply NameString_decode_plain; eauto); lia).
  cbn [mbind result_bind length peek hd skip_one tl skip_spaces].
  change (isspace ch_comma) with false. cbv iota.
  cbn [length peek hd skip_one tl]. rewrite Z.eqb_refl.
  replace (Z.of_nat (S (S (S (length rest)))) <=? 0) with false
    by (symmetry; apply Z.leb_gt; lia).
  replace (0 <? Z.of_nat (S (S (length rest)))) with true
    by (symmetry; apply Z.ltb_lt; lia).
  cbn [orb andb negb mbind result_bind].
  pose proof (rtrim_length v) as Hrl.
  change (negb (ch_comma =? ch_comma)) with false. cbv iota.
  cbn [mbind result_bind].
  rewrite store_in_bounds by (rewrite length_app, length_drop; lia).
  cbn [mbind result_bind mret result_ret]. rewrite Nat2Z.id.
  rewrite take_insert_ge by lia.
  rewrite take_app_le by lia. rewrite rtrim_prefix.
  eexists name2, _. rewrite Hf. split; [reflexivity|].
  split; [assumption|].
  rewrite length_insert, length_app, length_drop. lia.
Qed.

(** X4. After a quoted value and the comma that follows it,
    [xmlSecOpenSSLX509NameRead] skips one more byte, whatever it is: the
    text that follows is read from its second byte on.  White space at the
    end of the quoted text is dropped like that of a bare value. *)
Theorem NameRead_quoted_value_skips_a_byte `{Backend}
    (n v : list Z) (c : Z) (items : list dn_item) :
  plain ch_equal n = true -> isspace (peek n) = false ->
  Z.of_nat (length n) < NAME_BUF_SIZE ->
  plain ch_quote v = true -> Z.of_nat (length v) < NAME_BUF_SIZE ->
  forallb clean_item items = true ->
  xmlSecOpenSSLX509NameRead
    (n ++ [ch_equal; ch_quote] ++ v ++ [ch_quote; ch_comma]
       ++ c :: render_items items)
  = match X509_NAME_add_entry_by_txt (field_of n) (rtrim v) with
    | Some e =>
        match entries_of items with
        | Some es => Ok (e :: es)
        | None => Error "X509_NAME_add_entry_by_txt"
        end
    | None => Error "X509_NAME_add_entry_by_txt"
    end.
Proof.
  intros Hpn Hns Hnl Hpv Hvl Hc. unfold xmlSecOpenSSLX509NameRead.
  destruct (NameRead_pair_fields_quoted n v c (render_items items)
              (replicate (Z.to_nat NAME_BUF_SIZE) 0)
              (replicate (Z.to_nat NAME_BUF_SIZE) 0))
    as (name' & value' & Hp & Hn' & Hv'); auto using length_replicate.
  set (text := n ++ _) in *.
  assert (Hlen : (length (render_items items) < length text)%nat).
  { subst text. rewrite !length_app. cbn [length]. lia. }
  destruct text as [|x text]; [simpl in Hlen; lia|].
  cbn [length NameRead_loop]. unfold NameRead_pair. rewrite Hp.
  cbn [mbind result_bind].
  destruct (X509_NAME_add_entry_by_txt (field_of n) (rtrim v)) as [e|];
    [|reflexivity].
  cbn [mbind result_bind].
  rewrite NameRead_loop_items by (auto; simpl in Hlen; lia).
  reflexivity.
Qed.

(** [CN="A",xO=B]: the byte [x] is skipped and [O=B] is read. *)
Lemma NameRead_quoted_value_skips_a_byte_witness :
  (BAD_CAST "CN" ++ [ch_equal; ch_quote] ++ BAD_CAST "A"
     ++ [ch_quote; ch_comma] ++ 120 :: BAD_CAST "O=B")
  = BAD_CAST "CN=" ++ [34; 65; 34] ++ BAD_CAST ",xO=B"
  /\ xmlSecOpenSSLX509NameRead (H := Ref.backend)
       (BAD_CAST "CN=" ++ [34; 65; 34] ++ BAD_CAST ",xO=B")
     = Ok [mkEntry Ref.OID_CN (BAD_CAST "A"); mkEntry Ref.OID_O (BAD_CAST "B")]
  /\ xmlSecOpenSSLX509NameRead (H := Ref.backend)
       (BAD_CAST "CN=" ++ [34; 65; 34] ++ BAD_CAST ",O=B")
     = Error "X509_NAME_add_entry_by_txt".
Proof.
  split; [reflexivity|]. split.
  - apply (NameRead_quoted_value_skips_a_byte (H := Ref.backend)
             (BAD_CAST "CN") (BAD_CAST "A") 120
             [mkItem [] (BAD_CAST "O") (BAD_CAST "B") []]);
      reflexivity.
  - vm_compute. reflexivity.
Defined.

(** ** The NSS name reader *)

Lemma memcpy_at_ok src : forall buf p,
  0 <= p -> p + Z.of_nat (length src) <= Z.of_nat (length buf) ->
  NssName.memcpy_at buf p src
  = Ok (take (Z.to_nat p) buf ++ src ++ drop (Z.to_nat p + length src) buf).
Proof.
  induction src as [|c src IH]; intros buf p Hp Hl; cbn [NssName.memcpy_at].
  - cbn [app length]. by rewrite Nat.add_0_r, take_drop.
  - cbn [length] in Hl. rewrite store_in_bounds by lia.
    cbn [mbind result_bind]. rewrite IH by (rewrite ?length_insert; lia).
    replace (Z.to_nat (p + 1)) with (S (Z.to_nat p)) by lia.
    rewrite splice_step by lia. reflexivity.
Qed.

Lemma memcpy_at_length src buf p :
  0 <= p -> p + Z.of_nat (length src) <= Z.of_nat (length buf) ->
  exists buf', NssName.memcpy_at buf p src = Ok buf' /\ length buf' = length buf.
Proof.
  intros Hp Hl. rewrite memcpy_at_ok by assumption. eexists. split; [reflexivity|].
  rewrite !length_app, length_take, length_drop. lia.
Qed.

Section Consumes.
Variables (delim : Z) (ign : bool) (outSize : Z).

(** The copy loop writes at most one byte for each byte it reads. *)
Lemma loop_consumes n : forall inp, (length inp <= n)%nat ->
  forall out jj ns,
    match NameStringRead_loop delim ign outSize inp out jj ns with
    | Ok (rest, out', jj', ns') =>
        jj' + Z.of_nat (length rest) <= jj + Z.of_nat (length inp)
    | _ => True
    end.
Proof.
  induction n as [|n IH]; intros inp Hn out jj ns.
  { destruct inp; [|simpl in Hn; lia]. simpl. lia. }
  destruct inp as [|c inp]; [simpl; lia|].
  simpl in Hn. cbn [NameStringRead_loop].
  destruct (c =? delim); [lia|].
  destruct (jj >=? outSize); [exact I|].
  assert (Hstep : forall c0 inp0, (length inp0 <= n)%nat ->
             (length inp0 < length (c :: inp))%nat ->
             match ('(out', jj', ns') ← put ign out jj ns c0;
                    NameStringRead_loop delim ign outSize inp0 out' jj' ns') with
             | Ok (rest, out', jj', ns') =>
                 jj' + Z.of_nat (length rest) <= jj + Z.of_nat (length (c :: inp))
             | _ => True
             end).
  { intros c0 inp0 Hl Hl'. unfold put.
    destruct (store out jj c0) as [o| | |]; cbn [mbind result_bind mret result_ret];
      auto.
    specialize (IH inp0 Hl o (jj + 1)
                  (if ign && negb (isspace c0) then jj + 1 else ns)).
    destruct (NameStringRead_loop _ _ _ _ _ _ _) as [[[[r o'] j] s]| | |]; auto.
    lia. }
  destruct (c =? ch_backslash).
  - destruct inp as [|h1 inp1]; [simpl; lia|].
    destruct (xmlSecIsHex h1).
    + destruct inp1 as [|h2 inp2]; [exact I|].
      destruct (xmlSecIsHex h2); simpl negb; cbv iota; [|exact I].
      apply Hstep; simpl in *; lia.
    + apply Hstep; simpl in *; lia.
  - apply Hstep; simpl in *; lia.
Qed.
End Consumes.

(** [xmlSecOpenSSLX509NameStringRead] on an array of [outSize] bytes: no
    fault, and the number of bytes written is at most the number of bytes
    read. *)
Lemma NameStringRead_consumes inp out outSize delim ign :
  0 <= outSize <= Z.of_nat (length out) ->
  match xmlSecOpenSSLX509NameStringRead inp out outSize delim ign with
  | Ok (rest, out', n) =>
      0 <= n <= outSize /\ length out' = length out
      /\ n + Z.of_nat (length rest) <= Z.of_nat (length inp)
  | Error _ => True
  | Fault _ _ => False
  | Timeout => False
  end.
Proof.
  intros Ho.
  pose proof (NameStringRead_bounds inp out outSize delim ign Ho) as Hb.
  unfold xmlSecOpenSSLX509NameStringRead in *.
  pose proof (loop_consumes delim ign outSize (length inp) inp (le_n _) out 0 0)
    as Hc.
  pose proof (loop_bounds delim ign outSize (length inp) inp (le_n _) out 0 0)
    as Hb2.
  destruct (NameStringRead_loop _ _ _ _ _ _ _) as [[[[r o] j] s]| | |];
    cbn [mbind result_bind mret result_ret] in *; auto.
  destruct Hb as (H1 & H2 & H3). destruct Hb2 as (H4 & H5 & _); try lia.
  repeat split; try lia; try assumption; destruct ign; lia.
Qed.

Lemma NameStringRead_at_delim delim r out outSize ign :
  xmlSecOpenSSLX509NameStringRead (delim :: r) out outSize delim ign
  = Ok (delim :: r, out, 0).
Proof.
  unfold xmlSecOpenSSLX509NameStringRead. cbn [NameStringRead_loop].
  rewrite Z.eqb_refl. cbn [mbind result_bind mret result_ret].
  by destruct ign.
Qed.

Lemma peek_cons str c : str <> [] -> peek str = c -> exists r, str = c :: r.
Proof. destruct str as [|x r]; [congruence|]. cbn. intros _ ->. eauto. Qed.

Section NssBounds.
Variable N : Z.

(** The state between two pairs: the result array has [N + 1] bytes and
    what was written does not exceed what was read. *)
Lemma Nss_value_bounds str value retval p :
  buf_len value -> Z.of_nat (length retval) = N + 1 ->
  0 <= p -> p + Z.of_nat (length str) <= N + 1 ->
  match NssName.NameRead_value str value retval p with
  | Ok (str', value', retval', p') =>
      buf_len value' /\ Z.of_nat (length retval') = N + 1 /\ 0 <= p'
      /\ p' + Z.of_nat (length (skip_one str')) <= N + 1
      /\ (skip_one str' <> [] -> p' + Z.of_nat (length (skip_one str')) <= N)
      /\ (length str' <= length str)%nat
      /\ (str <> [] -> (length (skip_one str') < length str)%nat)
  | Error _ => True
  | Fault _ _ => False
  | Timeout => False
  end.
Proof.
  intros Hv Hr Hp Hl. unfold buf_len in *.
  assert (HB : NAME_BUF_SIZE = 256) by reflexivity.
  assert (Hvz : Z.of_nat (length value) = 256) by (rewrite Hv; reflexivity).
  unfold NssName.NameRead_value.
  destruct str as [|c0 str]; [cbn; repeat split; auto; try lia; congruence|].
  cbn [length] in Hl.
  destruct (peek str =? ch_quote) eqn:Eq.
  - apply Z.eqb_eq in Eq.
    destruct str as [|q r]; [discriminate|]. cbn [peek hd] in Eq. subst q.
    rewrite NameStringRead_at_delim. cbn [mbind result_bind].
    cbn [length] in Hl.
    rewrite store_in_bounds by lia. cbn [mbind result_bind].
    change (Z.to_nat 0) with 0%nat. rewrite take_0.
    cbn [NssName.memcpy_at mbind result_bind].
    rewrite store_in_bounds by (rewrite length_insert; lia).
    cbn [mbind result_bind skip_spaces].
    change (isspace ch_quote) with false. cbv iota.
    cbn [peek hd length].
    replace (0 <? Z.of_nat (S (length r))) with true
      by (symmetry; apply Z.ltb_lt; lia).
    exact I.
  - destruct (peek str =? ch_hash); [exact I|].
    pose proof (NameStringRead_consumes str value NAME_BUF_SIZE ch_comma true)
      as Hc.
    destruct (xmlSecOpenSSLX509NameStringRead _ _ _ _ _)
      as [[[str4 value'] n]| | |]; cbn [mbind result_bind]; auto;
      try (apply Hc; lia).
    destruct Hc as (H1 & H2 & H3); [lia|].
    destruct (memcpy_at_length (take (Z.to_nat n) value') retval p)
      as (retval' & Em & Hr'); [lia|rewrite length_take; lia|].
    rewrite Em. cbn [mbind result_bind].
    destruct (0 <? Z.of_nat (length str4)) eqn:E0.
    + apply Z.ltb_lt in E0.
      rewrite store_in_bounds by lia. cbn [mbind result_bind].
      destruct str4 as [|c4 str5]; [simpl in E0; lia|].
      cbn [skip_one tl length] in *.
      repeat split; try lia; try congruence.
      rewrite length_insert. lia.
    + apply Z.ltb_ge in E0. destruct str4; [|simpl in E0; lia].
      cbn [skip_one tl length] in *.
      repeat split; try lia; try congruence.
Qed.

Lemma Nss_pair_bounds str name value retval p :
  str <> [] -> buf_len name -> buf_len value ->
  Z.of_nat (length retval) = N + 1 ->
  0 <= p -> p + Z.of_nat (length str) <= N ->
  match NssName.NameRead_pair str name value retval p with
  | Ok (str', name', value', retval', p') =>
      buf_len name' /\ buf_len value' /\ Z.of_nat (length retval') = N + 1
      /\ 0 <= p' /\ p' + Z.of_nat (length str') <= N + 1
      /\ (str' <> [] -> p' + Z.of_nat (length str') <= N)
      /\ (length str' < length str)%nat
  | Error _ => True
  | Fault _ _ => False
  | Timeout => False
  end.
Proof.
  intros Hne Hn Hv Hr Hp Hl. unfold buf_len in *.
  assert (HB : NAME_BUF_SIZE = 256) by reflexivity.
  assert (Hnz : Z.of_nat (length name) = 256) by (rewrite Hn; reflexivity).
  unfold NssName.NameRead_pair.
  pose proof (skip_spaces_length str) as Hsp.
  pose proof (NameStringRead_consumes (skip_spaces str) name NAME_BUF_SIZE
                ch_equal false) as Hc.
  destruct (xmlSecOpenSSLX509NameStringRead _ _ _ _ _)
    as [[[str2 name'] n]| | |]; cbn [mbind result_bind]; auto;
    try (apply Hc; lia).
  destruct Hc as (H1 & H2 & H3); [lia|].
  destruct (memcpy_at_length (take (Z.to_nat n) name') retval p)
    as (retval1 & Em & Hr1); [lia|rewrite length_take; lia|].
  rewrite Em. cbn [mbind result_bind].
  rewrite store_in_bounds by lia. cbn [mbind result_bind].
  pose proof (Nss_value_bounds str2 value (<[Z.to_nat (p + n):=ch_equal]> retval1)
                (p + n + 1)) as Hval.
  rewrite length_insert in Hval.
  destruct (NssName.NameRead_value _ _ _ _) as [[[[str' value'] retval'] p']| | |];
    cbn [mbind result_bind]; auto; try (apply Hval; unfold buf_len; lia).
  destruct Hval as (V1 & V2 & V3 & V4 & V5 & V6 & V7);
    try (unfold buf_len; lia).
  unfold buf_len in *.
  repeat split; try lia; try assumption; try congruence.
  destruct str2 as [|c2 str3].
  - pose proof (skip_one_length str'). destruct str; [congruence|].
    cbn [length] in *. lia.
  - assert (length (skip_one str') < length (c2 :: str3))%nat
      by (apply V7; congruence).
    lia.
Qed.

Lemma Nss_loop_bounds fuel : forall str name value retval p,
  (length str <= fuel)%nat -> buf_len name -> buf_len value ->
  Z.of_nat (length retval) = N + 1 ->
  0 <= p -> p + Z.of_nat (length str) <= N ->
  match NssName.NameRead_loop fuel str name value retval p with
  | Ok (retval', p') => Z.of_nat (length retval') = N + 1 /\ 0 <= p' <= N + 1
  | Error _ => True
  | Fault _ _ => False
  | Timeout => False
  end.
Proof.
  induction fuel as [|fuel IH]; intros str name value retval p Hf Hn Hv Hr Hp Hl.
  { destruct str; [|simpl in Hf; lia]. cbn. simpl in Hl. lia. }
  destruct str as [|c str]; [cbn; simpl in Hl; lia|].
  cbn [NssName.NameRead_loop].
  assert (Hne : c :: str <> []) by congruence.
  pose proof (Nss_pair_bounds (c :: str) name value retval p Hne Hn Hv Hr Hp Hl)
    as Hpair.
  destruct (NssName.NameRead_pair _ _ _ _ _)
    as [[[[[str' name'] value'] retval'] p']| | |]; cbn [mbind result_bind];
    auto.
  destruct Hpair as (P1 & P2 & P3 & P4 & P5 & P6 & P7).
  destruct str' as [|c' str''].
  - destruct fuel; cbn; simpl in P5; lia.
  - apply IH; auto; try (cbn [length] in *; lia).
    all: apply P6; congruence.
Qed.
End NssBounds.

Lemma c_str_insert_nul buf : forall p,
  (p < length buf)%nat -> (length (c_str (<[p := 0%Z]> buf)) <= p)%nat.
Proof.
  induction buf as [|c buf IH]; intros p Hp; [simpl in Hp; lia|].
  destruct p as [|p]; cbn [insert list_insert c_str].
  - cbn. lia.
  - cbn [length] in Hp. specialize (IH p ltac:(lia)).
    destruct (c =? 0); cbn [length]; [lia|].
    apply le_n_S. exact IH.
Qed.

(** X5. [xmlSecNssX509NameRead] always returns.  The string it returns is no
    longer than its input; the only store that can leave the array of
    [strSize + 1] bytes is the last one, of the terminating NUL, one byte
    behind the array. *)
Theorem NssNameRead_stays_in_bounds (str : list Z) :
  match NssName.xmlSecNssX509NameRead str with
  | Ok out => (length out <= length str)%nat
  | Error _ => True
  | Fault idx size =>
      idx = Z.of_nat (length str) + 1 /\ size = Z.of_nat (length str) + 1
  | Timeout => False
  end.
Proof.
  unfold NssName.xmlSecNssX509NameRead.
  assert (Hb := Nss_loop_bounds (Z.of_nat (length str)) (length str) str
                (replicate (Z.to_nat NAME_BUF_SIZE) 0)
                (replicate (Z.to_nat NAME_BUF_SIZE) 0)
                (replicate (S (length str)) 0) 0 (le_n _)
                (length_replicate _ _) (length_replicate _ _)).
  rewrite length_replicate in Hb.
  specialize (Hb ltac:(lia) ltac:(lia) ltac:(lia)).
  destruct (NssName.NameRead_loop _ _ _ _ _ _) as [[retval p]| | |];
    cbn [mbind result_bind]; auto; try contradiction.
  destruct Hb as (H1 & H2).
  unfold store.
  destruct ((0 <=? p) && (p <? Z.of_nat (length retval))) eqn:E;
    cbn [mbind result_bind].
  - apply andb_true_iff in E as [E1 E2]. apply Z.ltb_lt in E2.
    pose proof (c_str_insert_nul retval (Z.to_nat p)). lia.
  - apply andb_false_iff in E as [E|E];
      [apply Z.leb_gt in E | apply Z.ltb_ge in E]; lia.
Qed.

Lemma skip_spaces_id l : isspace (peek l) = false -> skip_spaces l = l.
Proof. intros H. exact (skip_spaces_app [] l eq_refl H). Qed.

Lemma memcpy_at_append w junk src :
  (length src <= length junk)%nat ->
  NssName.memcpy_at (w ++ junk) (Z.of_nat (length w)) src
  = Ok ((w ++ src) ++ drop (length src) junk).
Proof.
  intros H. rewrite memcpy_at_ok by (rewrite ?length_app; lia).
  rewrite Nat2Z.id, take_app_length.
  rewrite drop_app_ge, Nat.add_comm, Nat.add_sub by lia.
  by rewrite <- app_assoc.
Qed.

Lemma memcpy_at_0 junk src :
  (length src <= length junk)%nat ->
  NssName.memcpy_at junk 0 src = Ok (src ++ drop (length src) junk).
Proof. exact (memcpy_at_append [] junk src). Qed.

Lemma store_append w junk c :
  (0 < length junk)%nat ->
  store (w ++ junk) (Z.of_nat (length w)) c = Ok ((w ++ [c]) ++ drop 1 junk).
Proof.
  intros H. rewrite store_in_bounds by (rewrite length_app; lia).
  rewrite Nat2Z.id, insert_app_r_alt, Nat.sub_diag by lia.
  destruct junk as [|x junk]; [simpl in H; lia|].
  cbn [insert list_insert drop]. rewrite drop_0. by rewrite <- app_assoc.
Qed.

Lemma item_text_strip i :
  item_text (strip_item i) = it_name i ++ ch_equal :: it_value i.
Proof. unfold item_text, strip_item. cbn. by rewrite app_nil_r. Qed.

Lemma Nss_pair_item i tail name value written junk :
  clean_item i = true -> buf_len name -> buf_len value ->
  tail = [] \/ (exists r, tail = ch_comma :: r) ->
  let out := item_text (strip_item i)
             ++ match tail with [] => [] | _ :: _ => [ch_comma] end in
  (length out <= length junk)%nat ->
  exists name' value' junk',
    NssName.NameRead_pair (item_text i ++ tail) name value (written ++ junk)
      (Z.of_nat (length written))
    = Ok (skip_one tail, name', value', (written ++ out) ++ junk',
          Z.of_nat (length (written ++ out)))
    /\ buf_len name' /\ buf_len value'
    /\ (length junk' + length out = length junk)%nat.
Proof.
  intros Hc Hn Hv Ht out Hroom. unfold buf_len in *.
  destruct i as [sp n v tsp]. unfold clean_item in Hc.
  cbn [it_lead it_name it_value it_trail] in Hc.
  repeat (apply andb_true_iff in Hc as [Hc ?]).
  rename Hc into Hsp.
  match goal with H : (Z.of_nat (length (v ++ tsp)) <? _) = true |- _ =>
    apply Z.ltb_lt in H; rename H into Hvl end.
  match goal with H : (Z.of_nat (length n) <? _) = true |- _ =>
    apply Z.ltb_lt in H; rename H into Hnl end.
  match goal with H : bool_decide _ = true |- _ =>
    apply bool_decide_eq_true in H; rename H into Hrt end.
  match goal with H : negb (isspace _) = true |- _ =>
    apply negb_true_iff in H; rename H into Hns end.
  assert (HB : NAME_BUF_SIZE = 256) by reflexivity.
  assert (Hnz : Z.of_nat (length name) = 256) by (rewrite Hn; reflexivity).
  assert (Hvz : Z.of_nat (length value) = 256) by (rewrite Hv; reflexivity).
  subst out. rewrite item_text_strip in *.
  cbn [it_name it_value] in *.
  rewrite !length_app in Hroom. cbn [length] in Hroom.
  rewrite length_app in Hvl.
  unfold NssName.NameRead_pair, item_text.
  cbn [it_lead it_name it_value it_trail].
  rewrite <- app_assoc.
  rewrite skip_spaces_app; [|assumption|].
  2:{ destruct n as [|c n]; [reflexivity | exact Hns]. }
  rewrite <- (app_assoc n), <- app_comm_cons, <- (app_assoc v).
  rewrite (NameStringRead_refines ch_equal false _ n (ch_equal :: v ++ tsp ++ tail))
    by (try (apply NameString_decode_plain; eauto); lia).
  cbn [mbind result_bind]. rewrite Nat2Z.id, take_app_length.
  rewrite memcpy_at_append by lia. cbn [mbind result_bind].
  replace (Z.of_nat (length written) + Z.of_nat (length n))
    with (Z.of_nat (length (written ++ n))) by (rewrite length_app; lia).
  rewrite store_append by (rewrite length_drop; lia).
  cbn [mbind result_bind]. rewrite drop_drop.
  replace (Z.of_nat (length (written ++ n)) + 1)
    with (Z.of_nat (length ((written ++ n) ++ [ch_equal])))
    by (rewrite !length_app; cbn [length]; lia).
  unfold NssName.NameRead_value.
  destruct (peek_value v tsp tail) as [Eq Eh]; auto.
  rewrite Eq, Eh.
  replace (v ++ tsp ++ tail) with ((v ++ tsp) ++ tail) by (by rewrite <- app_assoc).
  rewrite (NameStringRead_refines ch_comma true _ (v ++ tsp) tail)
    by (try (apply NameString_decode_plain;
             [apply plain_app; [assumption | by apply plain_spaces] | assumption]);
        rewrite ?length_app; lia).
  rewrite rtrim_app_spaces by assumption.
  cbn [mbind result_bind]. rewrite Nat2Z.id.
  rewrite <- (app_assoc v), take_app_length.
  rewrite memcpy_at_append by (rewrite length_drop; lia).
  cbn [mbind result_bind]. rewrite drop_drop.
  replace (Z.of_nat (length ((written ++ n) ++ [ch_equal])) + Z.of_nat (length v))
    with (Z.of_nat (length (((written ++ n) ++ [ch_equal]) ++ v)))
    by (rewrite !length_app; cbn [length]; lia).
  assert (Hname : length (n ++ drop (length n) name) = Z.to_nat NAME_BUF_SIZE)
    by (rewrite length_app, length_drop; lia).
  assert (Hvalue : length (v ++ tsp ++ drop (length (v ++ tsp)) value)
                   = Z.to_nat NAME_BUF_SIZE)
    by (rewrite !length_app, length_drop; rewrite ?length_app; lia).
  destruct Ht as [->|(r & ->)]; cbn [length] in Hroom.
  - cbn [length]. change (0 <? Z.of_nat 0) with false. cbv iota.
    cbn [mbind result_bind skip_one tl].
    assert (El : ((written ++ n) ++ [ch_equal]) ++ v
                 = written ++ (n ++ ch_equal :: v) ++ [])
      by (rewrite app_nil_r, <- !app_assoc; reflexivity).
    rewrite El.
    eexists _, _, _. split; [reflexivity|].
    split; [exact Hname|]. split; [exact Hvalue|].
    rewrite length_drop, !length_app. cbn [length]. lia.
  - cbn [length].
    replace (0 <? Z.of_nat (S (length r))) with true
      by (symmetry; apply Z.ltb_lt; lia).
    rewrite store_append by (rewrite length_drop; lia).
    cbn [mbind result_bind skip_one tl]. rewrite drop_drop.
    replace (Z.of_nat (length (((written ++ n) ++ [ch_equal]) ++ v)) + 1)
      with (Z.of_nat (length ((((written ++ n) ++ [ch_equal]) ++ v) ++ [ch_comma])))
      by (rewrite !length_app; cbn [length]; lia).
    assert (El : (((written ++ n) ++ [ch_equal]) ++ v) ++ [ch_comma]
                 = written ++ (n ++ ch_equal :: v) ++ [ch_comma])
      by (rewrite <- !app_assoc; reflexivity).
    rewrite El.
    eexists _, _, _. split; [reflexivity|].
    split; [exact Hname|]. split; [exact Hvalue|].
    rewrite length_drop, !length_app. cbn [length]. lia.
Qed.

Lemma render_strip_cons i rest :
  render_items (map strip_item (i :: rest))
  = (item_text (strip_item i)
     ++ match rest with [] => [] | _ :: _ => [ch_comma] end)
    ++ render_items (map strip_item rest).
Proof.
  cbn [map]. rewrite render_items_cons.
  destruct rest; cbn [map]; rewrite <- app_assoc; reflexivity.
Qed.

Lemma Nss_loop_items items : forall fuel name value written junk,
  forallb clean_item items = true ->
  (length (render_items items) <= fuel)%nat ->
  buf_len name -> buf_len value ->
  (length (render_items (map strip_item items)) <= length junk)%nat ->
  exists junk',
    NssName.NameRead_loop fuel (render_items items) name value
      (written ++ junk) (Z.of_nat (length written))
    = Ok ((written ++ render_items (map strip_item items)) ++ junk',
          Z.of_nat (length (written ++ render_items (map strip_item items))))
    /\ (length junk' + length (render_items (map strip_item items))
        = length junk)%nat.
Proof.
  induction items as [|i rest IH];
    intros fuel name value written junk Hc Hf Hn Hv Hroom.
  { change (render_items (map strip_item [])) with (@nil Z) in *.
    change (render_items []) with (@nil Z) in *.
    exists junk. rewrite !app_nil_r.
    split; [destruct fuel; reflexivity | cbn [length]; lia]. }
  cbn [forallb] in Hc. apply andb_true_iff in Hc as [Hi Hc].
  rewrite render_strip_cons in *. rewrite render_items_cons in *.
  set (tail := match rest with [] => [] | _ :: _ => ch_comma :: render_items rest end)
    in *.
  assert (Ht : tail = [] \/ exists r, tail = ch_comma :: r)
    by (subst tail; destruct rest; eauto).
  assert (Hs : skip_one tail = render_items rest)
    by (subst tail; destruct rest; reflexivity).
  assert (Hsep : match rest with [] => [] | _ :: _ => [ch_comma] end
                 = match tail with [] => [] | _ :: _ => [ch_comma] end)
    by (subst tail; destruct rest; reflexivity).
  rewrite Hsep in *.
  rewrite length_app in Hroom.
  destruct (Nss_pair_item i tail name value written junk Hi Hn Hv Ht)
    as (name' & value' & junk1 & Hp & Hn' & Hv' & Hj1); [lia|].
  pose proof (item_text_length i) as Hlen.
  rewrite length_app in Hf.
  destruct (item_text i ++ tail) as [|c text] eqn:E.
  { apply (f_equal length) in E. rewrite length_app in E. simpl in E. lia. }
  destruct fuel as [|fuel]; [lia|].
  cbn [NssName.NameRead_loop]. rewrite Hp. cbn [mbind result_bind].
  rewrite Hs.
  assert (Hf' : (length (render_items rest) <= fuel)%nat).
  { assert (length (render_items rest) <= length tail)%nat
      by (rewrite <- Hs; apply skip_one_length).
    lia. }
  set (out := item_text (strip_item i)
              ++ match tail with [] => [] | _ :: _ => [ch_comma] end) in *.
  destruct (IH fuel name' value' (written ++ out) junk1 Hc Hf' Hn' Hv')
    as (junk' & HI & Hj'); [lia|].
  rewrite HI. exists junk'. split; [|rewrite length_app; lia].
  by rewrite <- !app_assoc.
Qed.

Lemma render_strip_length items :
  (length (render_items (map strip_item items)) <= length (render_items items))%nat.
Proof.
  induction items as [|i rest IH]; [reflexivity|].
  rewrite render_strip_cons, render_items_cons, item_text_strip.
  unfold item_text. rewrite !length_app. cbn [length]. rewrite !length_app.
  destruct rest; [cbn; lia | cbn [length] in *; lia].
Qed.

Lemma render_strip_nonzero items :
  forallb clean_item items = true ->
  Forall (fun c => c <> 0) (render_items (map strip_item items)).
Proof.
  induction items as [|i rest IH]; intros Hc; [constructor|].
  cbn [forallb] in Hc. apply andb_true_iff in Hc as [Hi Hc].
  rewrite render_strip_cons, item_text_strip.
  unfold clean_item in Hi. repeat (apply andb_true_iff in Hi as [Hi ?]).
  repeat (apply Forall_app; split); auto.
  - eapply plain_nonzero; eassumption.
  - constructor; [discriminate|]. eapply plain_nonzero; eassumption.
  - destruct rest; repeat constructor; discriminate.
Qed.

(** X6. [xmlSecNssX509NameRead] on a well-formed text returns the same items
    without the white space before the names and after the values; a text
    without such white space is returned as it is. *)
Theorem NssNameRead_normalises (items : list dn_item) :
  forallb clean_item items = true ->
  NssName.xmlSecNssX509NameRead (render_items items)
  = Ok (render_items (map strip_item items)).
Proof.
  intros Hc. unfold NssName.xmlSecNssX509NameRead.
  pose proof (render_strip_length items) as Hl.
  destruct (Nss_loop_items items (length (render_items items))
              (replicate (Z.to_nat NAME_BUF_SIZE) 0)
              (replicate (Z.to_nat NAME_BUF_SIZE) 0) []
              (replicate (S (length (render_items items))) 0))
    as (junk' & HI & Hj); auto;
    try (unfold buf_len; apply length_replicate);
    [rewrite length_replicate; lia|].
  cbn [app length] in HI. change (Z.of_nat 0) with 0 in HI.
  rewrite HI. cbn [mbind result_bind].
  rewrite length_replicate in Hj.
  rewrite store_append by lia. cbn [mbind result_bind].
  rewrite <- app_assoc. cbn [app].
  f_equal. apply c_str_app_nul. by apply render_strip_nonzero.
Qed.

(** The text [ CN=A  ,O=B c] is returned as [CN=A,O=B c]. *)
Lemma NssNameRead_normalises_witness :
  let items := [mkItem [32] (BAD_CAST "CN") (BAD_CAST "A") [32; 32];
                mkItem [] (BAD_CAST "O") (BAD_CAST "B c") []] in
  render_items items = BAD_CAST " CN=A  ,O=B c"
  /\ NssName.xmlSecNssX509NameRead (render_items items) = Ok (BAD_CAST "CN=A,O=B c").
Proof.
  intros items. split; [reflexivity|].
  apply (NssNameRead_normalises items). reflexivity.
Defined.

(** X7. In [xmlSecNssX509NameRead] a quoted value is never read: the reader is
    started on the opening quote, stops at once, and the quote is then
    refused where a comma is expected. *)
Theorem NssNameRead_refuses_quoted_values (n rest : list Z) :
  plain ch_equal n = true -> isspace (peek n) = false ->
  Z.of_nat (length n) < NAME_BUF_SIZE ->
  NssName.xmlSecNssX509NameRead (n ++ [ch_equal; ch_quote] ++ rest)
  = Error "comma expected".
Proof.
  intros Hpn Hns Hnl.
  assert (HB : NAME_BUF_SIZE = 256) by reflexivity.
  unfold NssName.xmlSecNssX509NameRead.
  set (text := n ++ [ch_equal; ch_quote] ++ rest).
  assert (Hlen : length text = (length n + S (S (length rest)))%nat)
    by (subst text; rewrite !length_app; reflexivity).
  rewrite Hlen.
  replace (length n + S (S (length rest)))%nat
    with (S (length n + S (length rest)))%nat by lia.
  destruct text as [|x text'] eqn:Et; [simpl in Hlen; lia|].
  cbn [NssName.NameRead_loop]. rewrite <- Et. subst text.
  unfold NssName.NameRead_pair.
  rewrite skip_spaces_id
    by (destruct n as [|y n]; [reflexivity | exact Hns]).
  cbn [app].
  rewrite (NameStringRead_refines ch_equal false _ n
             (ch_equal :: ch_quote :: rest))
    by (try (apply NameString_decode_plain; eauto);
        rewrite ?length_replicate; lia).
  cbn [mbind result_bind]. rewrite Nat2Z.id, take_app_length.
  rewrite memcpy_at_0 by (rewrite length_replicate; lia).
  cbn [mbind result_bind app]. rewrite Z.add_0_l.
  rewrite (store_append n) by (rewrite length_drop, length_replicate; lia).
  cbn [mbind result_bind]. rewrite drop_drop.
  unfold NssName.NameRead_value. cbn [peek hd]. rewrite Z.eqb_refl.
  rewrite NameStringRead_at_delim. cbn [mbind result_bind].
  replace (Z.of_nat (length n) + 1) with (Z.of_nat (length (n ++ [ch_equal])))
    by (rewrite length_app; cbn [length]; lia).
  rewrite store_append by (rewrite length_drop, length_replicate; lia).
  cbn [mbind result_bind]. change (Z.to_nat 0) with 0%nat. rewrite take_0.
  cbn [NssName.memcpy_at mbind result_bind]. rewrite drop_drop.
  replace (Z.of_nat (length (n ++ [ch_equal])) + 1 + 0)
    with (Z.of_nat (length ((n ++ [ch_equal]) ++ [ch_quote])))
    by (rewrite !length_app; cbn [length]; lia).
  rewrite store_append by (rewrite length_drop, length_replicate; lia).
  cbn [mbind result_bind skip_spaces].
  change (isspace ch_quote) with false. cbv iota. cbn [peek hd length].
  replace (0 <? Z.of_nat (S (length rest))) with true
    by (symmetry; apply Z.ltb_lt; lia).
  reflexivity.
Qed.

Lemma NssNameRead_refuses_quoted_values_witness :
  NssName.xmlSecNssX509NameRead (BAD_CAST "CN=" ++ [34; 65; 34])
  = Error "comma expected".
Proof.
  apply (NssNameRead_refuses_quoted_values (BAD_CAST "CN") [65; 34]);
    [reflexivity | reflexivity | reflexivity].
Defined.

(** X8. A text that is a name without an equal sign: [xmlSecNssX509NameRead]
    appends an equal sign to the name and stores the terminating NUL one
    byte behind the array it allocated. *)
Theorem NssNameRead_name_without_equal_sign (str : list Z) :
  str <> [] -> plain ch_equal str = true -> isspace (peek str) = false ->
  Z.of_nat (length str) < NAME_BUF_SIZE ->
  NssName.xmlSecNssX509NameRead str
  = Fault (Z.of_nat (length str) + 1) (Z.of_nat (length str) + 1).
Proof.
  intros Hne Hp Hns Hl.
  assert (HB : NAME_BUF_SIZE = 256) by reflexivity.
  unfold NssName.xmlSecNssX509NameRead.
  destruct str as [|x str'] eqn:Es; [congruence|]. rewrite <- Es in *.
  replace (length str) with (S (length str')) at 1 by (rewrite Es; reflexivity).
  rewrite Es at 1. cbn [NssName.NameRead_loop]. rewrite <- Es.
  unfold NssName.NameRead_pair.
  rewrite skip_spaces_id by exact Hns.
  rewrite <- (app_nil_r str) at 1.
  rewrite (NameStringRead_refines ch_equal false _ str [])
    by (try (apply NameString_decode_plain; eauto);
        rewrite ?length_replicate; lia).
  cbn [mbind result_bind]. rewrite Nat2Z.id, take_app_length.
  rewrite memcpy_at_0 by (rewrite length_replicate; lia).
  cbn [mbind result_bind app]. rewrite Z.add_0_l.
  rewrite (store_append str) by (rewrite length_drop, length_replicate; lia).
  cbn [mbind result_bind NssName.NameRead_value skip_one tl].
  destruct (length str'); cbn [NssName.NameRead_loop mbind result_bind].
  all: unfold store; rewrite !length_app, !length_drop, length_replicate;
    cbn [length].
  all: replace (Z.of_nat (length str) + 1 <? _) with false
         by (symmetry; apply Z.ltb_ge; lia).
  all: rewrite andb_false_r; cbn [mbind result_bind]; f_equal; lia.
Qed.

Lemma NssNameRead_name_without_equal_sign_witness :
  NssName.xmlSecNssX509NameRead (BAD_CAST "CN") = Fault 3 3.
Proof.
  apply (NssNameRead_name_without_equal_sign (BAD_CAST "CN"));
    [discriminate | reflexivity | reflexivity | reflexivity].
Defined.

(** ** The stores *)

Lemma find_app_l {A : Type} (f : A -> bool) l1 l2 x :
  find f l1 = Some x -> find f (l1 ++ l2) = Some x.
Proof.
  induction l1 as [|a l1 IH]; cbn [find app]; [discriminate|].
  destruct (f a); auto.
Qed.

Lemma find_app_r {A : Type} (f : A -> bool) l1 l2 :
  find f l1 = None -> find f (l1 ++ l2) = find f l2.
Proof.
  induction l1 as [|a l1 IH]; cbn [find app]; [reflexivity|].
  destruct (f a); [discriminate | auto].
Qed.

Lemma find_snoc_some {A : Type} (f : A -> bool) l x :
  f x = true -> exists y, find f (l ++ [x]) = Some y.
Proof.
  intros Hx. destruct (find f l) as [y|] eqn:E.
  - exists y. by apply find_app_l.
  - exists x. rewrite find_app_r by assumption. cbn. by rewrite Hx.
Qed.

(** X9. A certificate adopted by the store as untrusted can be found
    again.  A lookup by its subject key identifier returns a certificate of
    the untrusted pool with that identifier: the adopted one when no
    certificate adopted before it has the same identifier.  A lookup by a
    subject name that reads to the entries of its subject, in any order,
    returns a certificate of the pool with those entries.  A certificate
    adopted as trusted is not seen by the lookup: every result is what it
    was before. *)
Theorem StoreAdoptCert_then_find `{Backend}
    (ctx : xmlSecOpenSSLX509StoreCtx) (cert : X509) (k : list Z) :
  x509_skid cert = Some k -> k <> [] -> Z.of_nat (length k) <= INT_MAX ->
  let ctx' := xmlSecOpenSSLX509StoreAdoptCert ctx cert false in
  (exists c,
      xmlSecOpenSSLX509StoreFindCert_ex ctx' None None None (Some k)
      = Ok (Some c)
      /\ x509_skid c = Some k /\ In c (untrusted ctx ++ [cert]))
  /\ ((forall c, In c (untrusted ctx) -> x509_skid c <> Some k) ->
      xmlSecOpenSSLX509StoreFindCert_ex ctx' None None None (Some k)
      = Ok (Some cert))
  /\ (forall sn nm,
        xmlSecOpenSSLX509NameRead sn = Ok nm -> nm ≡ₚ x509_subject cert ->
        exists c,
          xmlSecOpenSSLX509StoreFindCert_ex ctx' (Some sn) None None None
          = Ok (Some c)
          /\ x509_subject c ≡ₚ x509_subject cert
          /\ In c (untrusted ctx ++ [cert]))
  /\ (forall sn iname iserial ski,
        xmlSecOpenSSLX509StoreFindCert_ex
          (xmlSecOpenSSLX509StoreAdoptCert ctx cert true) sn iname iserial ski
        = xmlSecOpenSSLX509StoreFindCert_ex ctx sn iname iserial ski).
Proof.
  intros Hk Hne Hmax ctx'.
  set (p := fun c : X509 =>
              match x509_skid c with
              | None => false
              | Some keyId =>
                  (Z.of_nat (length keyId) =? Z.of_nat (length k))
                  && (memcmp keyId k (length k) =? 0)
              end).
  assert (Hp : p cert = true).
  { unfold p. rewrite Hk, Z.eqb_refl, memcmp_refl. reflexivity. }
  assert (Hsound : forall c, p c = true -> x509_skid c = Some k).
  { intros c. unfold p. destruct (x509_skid c) as [keyId|]; [|discriminate].
    intros Hc. apply andb_true_iff in Hc as [Hl Hm].
    apply Z.eqb_eq in Hl. apply Z.eqb_eq in Hm. f_equal.
    apply (memcmp_zero_eq keyId k (length k)); [lia | reflexivity | assumption]. }
  assert (E : xmlSecOpenSSLX509StoreFindCert_ex ctx' None None None (Some k)
              = Ok (find p (untrusted ctx ++ [cert]))).
  { unfold xmlSecOpenSSLX509StoreFindCert_ex, xmlSecOpenSSLX509FindCert.
    cbn [mbind result_bind].
    replace (0 <? Z.of_nat (length k)) with true
      by (symmetry; apply Z.ltb_lt; destruct k; [congruence | cbn [length]; lia]).
    unfold find_by_ski.
    replace (INT_MAX <? Z.of_nat (length k)) with false
      by (symmetry; apply Z.ltb_ge; lia).
    reflexivity. }
  split; [|split; [|split]].
  - destruct (find_snoc_some p (untrusted ctx) cert Hp) as [c Hc].
    exists c. rewrite E, Hc. apply find_some in Hc as [Hin Hpc]. auto.
  - intros Hno. rewrite E, find_app_r; [cbn; by rewrite Hp|].
    destruct (find p (untrusted ctx)) as [c|] eqn:Ef; [|reflexivity].
    apply find_some in Ef as [Hin Hpc]. destruct (Hno c Hin (Hsound c Hpc)).
  - intros sn nm Hr Hperm.
    set (q := fun c : X509 =>
                xmlSecOpenSSLX509NamesCompare nm (x509_subject c) =? 0).
    assert (Hq : q cert = true).
    { unfold q. apply Z.eqb_eq. by apply NamesCompare_zero_iff_perm. }
    destruct (find_snoc_some q (untrusted ctx) cert Hq) as [c Hc].
    exists c.
    unfold xmlSecOpenSSLX509StoreFindCert_ex, xmlSecOpenSSLX509FindCert,
      find_by_subject.
    rewrite Hr. cbn [mbind result_bind].
    change (untrusted ctx') with (untrusted ctx ++ [cert]).
    fold q. rewrite Hc. apply find_some in Hc as [Hin Hqc].
    split; [reflexivity|]. split; [|assumption].
    unfold q in Hqc. apply Z.eqb_eq, NamesCompare_zero_iff_perm in Hqc.
    by rewrite <- Hqc.
  - reflexivity.
Qed.

Lemma StoreAdoptCert_then_find_witness :
  exists c,
    xmlSecOpenSSLX509StoreFindCert_ex (H := Ref.backend)
      (xmlSecOpenSSLX509StoreAdoptCert Ref.store_root
         (mkX509 3001 (Ref.dn "K") (Ref.dn "Root") 7 (Some [1; 2; 3]) None)
         false)
      None None None (Some [1; 2; 3])
    = Ok (Some c)
    /\ x509_skid c = Some [1; 2; 3].
Proof.
  destruct (StoreAdoptCert_then_find (H := Ref.backend) Ref.store_root
              (mkX509 3001 (Ref.dn "K") (Ref.dn "Root") 7 (Some [1; 2; 3]) None)
              [1; 2; 3] eq_refl ltac:(discriminate)
              ltac:(vm_compute; discriminate))
    as [(c & Hc & Hs & _) _].
  exists c. split; assumption.
Defined.

(** ** CRLs of the store *)

Section AdoptCrlFacts.
Context `{Backend}.

Lemma verify_loop_xst ctx1 ctx2 kctx certs2 :
  xst ctx1 = xst ctx2 ->
  forall todo err err_cert,
    verify_loop ctx1 kctx certs2 todo err err_cert
    = verify_loop ctx2 kctx certs2 todo err err_cert.
Proof.
  intros Hx. induction todo as [|c todo IH]; intros err err_cert;
    cbn [verify_loop]; [reflexivity|].
  rewrite Hx. destruct (is_leaf certs2 c); [|apply IH].
  destruct (Z.land _ _ =? 0); [|reflexivity].
  destruct (X509_verify_cert _ _ _ _ _) as [[ret e] ec].
  destruct (ret =? 1); [reflexivity|]. destruct (ret <? 0); [reflexivity|].
  apply IH.
Qed.

Lemma StoreVerify_crls_ext ctx1 ctx2 certs crls_arg kctx now :
  xst ctx1 = xst ctx2 -> untrusted ctx1 = untrusted ctx2 ->
  (forall cert,
      xmlSecOpenSSLX509VerifyCertAgainstCrls now (crls ctx1) cert
      = xmlSecOpenSSLX509VerifyCertAgainstCrls now (crls ctx2) cert) ->
  xmlSecOpenSSLX509StoreVerify ctx1 certs crls_arg kctx now
  = xmlSecOpenSSLX509StoreVerify ctx2 certs crls_arg kctx now.
Proof.
  intros Hx Hu Hc. unfold xmlSecOpenSSLX509StoreVerify.
  rewrite !revocation_filter_eq, Hx, Hu.
  destruct (existsb _ _); [reflexivity|]. cbv zeta.
  assert (Ef : forall crls2 l,
             List.filter (not_revoked now crls2 (crls ctx1)) l
             = List.filter (not_revoked now crls2 (crls ctx2)) l).
  { intros crls2 l. apply filter_ext. intros cert. unfold not_revoked.
    by rewrite Hc. }
  assert (Ee : forall crls2 l,
             existsb (reads_NULL_nextUpdate now crls2 (crls ctx1)) l
             = existsb (reads_NULL_nextUpdate now crls2 (crls ctx2)) l).
  { intros crls2 l. induction l as [|cert l IH]; [reflexivity|].
    cbn [existsb]. rewrite IH. unfold reads_NULL_nextUpdate.
    by rewrite Hc. }
  rewrite Ef, Ee.
  destruct (existsb (reads_NULL_nextUpdate _ _ _) _); [reflexivity|].
  cbn [mbind result_bind]. apply verify_loop_xst. assumption.
Qed.
End AdoptCrlFacts.

(** X10. Of the CRLs of the store only the first of each issuer
    counts: adopting a CRL whose issuer name holds the entries of the
    issuer name of a CRL that is in the store already changes no result of
    [xmlSecOpenSSLX509StoreVerify]. *)
Theorem StoreAdoptCrl_second_crl_of_an_issuer_is_ignored `{Backend}
    (ctx : xmlSecOpenSSLX509StoreCtx) (crl1 crl2 : X509_CRL) :
  In crl1 (crls ctx) ->
  xmlSecOpenSSLX509NamesCompare (crl_issuer crl1) (crl_issuer crl2) = 0 ->
  forall certs crls_arg keyInfoCtx now,
    xmlSecOpenSSLX509StoreVerify (xmlSecOpenSSLX509StoreAdoptCrl ctx crl2)
      certs crls_arg keyInfoCtx now
    = xmlSecOpenSSLX509StoreVerify ctx certs crls_arg keyInfoCtx now.
Proof.
  intros Hin Hsame certs crls_arg kctx now.
  apply StoreVerify_crls_ext; [reflexivity | reflexivity |].
  intros cert. cbn [xmlSecOpenSSLX509StoreAdoptCrl crls].
  unfold xmlSecOpenSSLX509VerifyCertAgainstCrls.
  set (p := fun crl : X509_CRL =>
              xmlSecOpenSSLX509NamesCompare (crl_issuer crl) (x509_issuer cert)
              =? 0).
  destruct (find p (crls ctx)) as [crl|] eqn:Ef.
  - rewrite (find_app_l _ _ _ _ Ef). reflexivity.
  - rewrite (find_app_r _ _ _ Ef). cbn [find].
    assert (Hp2 : p crl2 = false).
    { pose proof (find_none _ _ Ef crl1 Hin) as H1. unfold p in *.
      apply Z.eqb_neq in H1. apply Z.eqb_neq. intros H2. apply H1.
      apply NamesCompare_zero_iff_perm. apply NamesCompare_zero_iff_perm in H2.
      apply NamesCompare_zero_iff_perm in Hsame. by rewrite Hsame. }
    rewrite Hp2. reflexivity.
Qed.

Lemma StoreAdoptCrl_second_crl_of_an_issuer_is_ignored_witness :
  xmlSecOpenSSLX509StoreVerify (H := Ref.backend)
    (xmlSecOpenSSLX509StoreAdoptCrl
       (mkStore [Ref.Root] [] [mkCRL (Ref.dn "Root") (Some (ASN1_TIME_at 2000)) [] 0])
       Ref.crl_root)
    [Ref.Cert5] None (Ref.kctx 0) 1000
  = xmlSecOpenSSLX509StoreVerify (H := Ref.backend)
      (mkStore [Ref.Root] [] [mkCRL (Ref.dn "Root") (Some (ASN1_TIME_at 2000)) [] 0])
      [Ref.Cert5] None (Ref.kctx 0) 1000.
Proof.
  apply (StoreAdoptCrl_second_crl_of_an_issuer_is_ignored (H := Ref.backend)
           (mkStore [Ref.Root] [] [mkCRL (Ref.dn "Root") (Some (ASN1_TIME_at 2000)) [] 0])
           (mkCRL (Ref.dn "Root") (Some (ASN1_TIME_at 2000)) [] 0) Ref.crl_root).
  - left. reflexivity.
  - vm_compute. reflexivity.
Defined.

(** X11. A CRL adopted by a store that holds no CRL of its issuer
    revokes, unless its nextUpdate is a time that cannot be read: a
    certificate that has the issuer name of the CRL and a serial number
    the CRL lists is returned by no call of
    [xmlSecOpenSSLX509StoreVerify], whatever the candidates, the CRLs of
    the caller, the flags and the time are.  The signature of the adopted
    CRL plays no part, nor does the time of its next update when it can be
    read.  (When the CRL has no nextUpdate the call returns nothing
    either: it reads through a NULL pointer as soon as the certificate is
    checked against the CRL.) *)
Theorem StoreAdoptCrl_revokes `{Backend}
    (ctx : xmlSecOpenSSLX509StoreCtx) (crl : X509_CRL) (cert : X509) :
  (forall crl', In crl' (crls ctx) ->
     xmlSecOpenSSLX509NamesCompare (crl_issuer crl') (x509_issuer cert) <> 0) ->
  xmlSecOpenSSLX509NamesCompare (crl_issuer crl) (x509_issuer cert) = 0 ->
  crl_nextUpdate crl <> Some ASN1_TIME_malformed ->
  In (x509_serialNumber cert) (crl_revoked crl) ->
  forall certs crls_arg keyInfoCtx now,
    xmlSecOpenSSLX509StoreVerify (xmlSecOpenSSLX509StoreAdoptCrl ctx crl)
      certs crls_arg keyInfoCtx now
    <> Ok (Verified cert).
Proof.
  intros Hno Hiss Htime Hser certs crls_arg kctx now Hv.
  unfold xmlSecOpenSSLX509StoreVerify in Hv.
  destruct (revocation_filter _ certs crls_arg now) as [certs2| | |] eqn:Er;
    cbn [mbind result_bind] in Hv; try discriminate.
  apply revocation_filter_Ok in Er.
  apply verify_loop_in in Hv as [Hin _].
  rewrite Er in Hin. apply filter_In in Hin as [_ Hnr].
  unfold not_revoked in Hnr. apply andb_true_iff in Hnr as [_ Hnr].
  assert (Hf : find (fun crl0 =>
                       xmlSecOpenSSLX509NamesCompare (crl_issuer crl0)
                         (x509_issuer cert) =? 0)
                    (crls (xmlSecOpenSSLX509StoreAdoptCrl ctx crl))
               = Some crl).
  { cbn [xmlSecOpenSSLX509StoreAdoptCrl crls].
    rewrite find_app_r.
    - cbn [find]. replace (_ =? 0) with true by (symmetry; apply Z.eqb_eq; assumption).
      reflexivity.
    - destruct (find _ (crls ctx)) as [crl'|] eqn:Ef; [|reflexivity].
      apply find_some in Ef as [Hin' Hp]. apply Z.eqb_eq in Hp.
      destruct (Hno crl' Hin' Hp). }
  unfold xmlSecOpenSSLX509VerifyCertAgainstCrls in Hnr. rewrite Hf in Hnr.
  destruct (crl_nextUpdate crl) as [[secs|]|]; [|congruence|discriminate].
  apply (existsb_serial cert) in Hser. rewrite Hser in Hnr.
  cbn [X509_cmp_current_time] in Hnr.
  destruct (secs <=? now); discriminate.
Qed.

Lemma StoreAdoptCrl_revokes_witness :
  xmlSecOpenSSLX509StoreVerify (H := Ref.backend)
    (xmlSecOpenSSLX509StoreAdoptCrl Ref.store_root Ref.crl_root)
    [Ref.Cert5] None (Ref.kctx 0) 1000
  <> Ok (Verified Ref.Cert5).
Proof.
  apply (StoreAdoptCrl_revokes (H := Ref.backend) Ref.store_root Ref.crl_root
           Ref.Cert5).
  - intros crl' [].
  - vm_compute. reflexivity.
  - discriminate.
  - vm_compute. auto.
Defined.

(** ** The verification loop of [xmlSecOpenSSLX509StoreVerify] *)

Section VerifyLoopFacts.
Context `{Backend}.

Lemma verify_loop_dont_verify ctx kctx certs2 :
  Z.land (flags kctx) XMLSEC_KEYINFO_FLAGS_X509DATA_DONT_VERIFY_CERTS <> 0 ->
  forall todo err err_cert,
    verify_loop ctx kctx certs2 todo err err_cert
    = Ok (match find (is_leaf certs2) todo with
          | Some cert => Verified cert
          | None => NotVerified (classify err err_cert)
          end).
Proof.
  intros Hf. apply Z.eqb_neq in Hf.
  induction todo as [|c todo IH]; intros err err_cert;
    cbn [verify_loop find]; [reflexivity|].
  destruct (is_leaf certs2 c); [by rewrite Hf | apply IH].
Qed.

Lemma verify_loop_verified ctx kctx certs2 :
  Z.land (flags kctx) XMLSEC_KEYINFO_FLAGS_X509DATA_DONT_VERIFY_CERTS = 0 ->
  let time := if 0 <? certsVerificationTime kctx
              then Some (certsVerificationTime kctx) else None in
  let V cert := X509_verify_cert (xst ctx) cert certs2 time
                  (certsVerificationDepth kctx) in
  forall todo err err_cert cert,
    verify_loop ctx kctx certs2 todo err err_cert = Ok (Verified cert) ->
    exists pre post,
      todo = pre ++ cert :: post
      /\ is_leaf certs2 cert = true
      /\ (V cert).1.1 = 1
      /\ (forall c, In c pre -> is_leaf certs2 c = true ->
            (V c).1.1 <> 1 /\ 0 <= (V c).1.1).
Proof.
  intros Hf time V. apply Z.eqb_eq in Hf.
  induction todo as [|c todo IH]; intros err err_cert cert;
    cbn [verify_loop]; [discriminate|].
  rewrite Hf. fold time. fold (V c).
  destruct (is_leaf certs2 c) eqn:El.
  - destruct (V c) as [[ret e] ec] eqn:EV.
    destruct (ret =? 1) eqn:E1.
    + intros [= <-]. exists [], todo. apply Z.eqb_eq in E1.
      rewrite EV. split; [reflexivity|]. split; [assumption|].
      split; [exact E1|]. intros c' [].
    + destruct (ret <? 0) eqn:E0; [discriminate|].
      intros Hv. apply IH in Hv as (pre & post & -> & Hl & HV & Hpre).
      exists (c :: pre), post. split; [reflexivity|]. split; [assumption|].
      split; [assumption|].
      intros c' [<-|Hin] Hl'; [|auto].
      rewrite EV. cbn. apply Z.eqb_neq in E1. apply Z.ltb_ge in E0. auto.
  - intros Hv. apply IH in Hv as (pre & post & -> & Hl & HV & Hpre).
    exists (c :: pre), post. split; [reflexivity|]. split; [assumption|].
    split; [assumption|].
    intros c' [<-|Hin] Hl'; [congruence | auto].
Qed.

Lemma verify_loop_not_verified ctx kctx certs2 :
  Z.land (flags kctx) XMLSEC_KEYINFO_FLAGS_X509DATA_DONT_VERIFY_CERTS = 0 ->
  let time := if 0 <? certsVerificationTime kctx
              then Some (certsVerificationTime kctx) else None in
  let V cert := X509_verify_cert (xst ctx) cert certs2 time
                  (certsVerificationDepth kctx) in
  forall todo err err_cert reason,
    verify_loop ctx kctx certs2 todo err err_cert = Ok (NotVerified reason) ->
    (forall c, In c todo -> is_leaf certs2 c = true ->
       (V c).1.1 <> 1 /\ 0 <= (V c).1.1)
    /\ reason = match last (List.filter (is_leaf certs2) todo) with
                | Some c => classify (V c).1.2 (V c).2
                | None => classify err err_cert
                end.
Proof.
  intros Hf time V. apply Z.eqb_eq in Hf.
  induction todo as [|c todo IH]; intros err err_cert reason;
    cbn [verify_loop List.filter].
  - intros [= <-]. split; [intros c []|reflexivity].
  - rewrite Hf. fold time. fold (V c).
    destruct (is_leaf certs2 c) eqn:El.
    + destruct (V c) as [[ret e] ec] eqn:EV.
      destruct (ret =? 1) eqn:E1; [discriminate|].
      destruct (ret <? 0) eqn:E0; [discriminate|].
      intros Hv. apply IH in Hv as [Hall Hr]. split.
      * intros c' [<-|Hin] Hl'; [|auto].
        rewrite EV. cbn. apply Z.eqb_neq in E1. apply Z.ltb_ge in E0. auto.
      * rewrite last_cons.
        destruct (last (List.filter (is_leaf certs2) todo)); [assumption|].
        rewrite EV. exact Hr.
    + intros Hv. apply IH in Hv as [Hall Hr]. split; [|assumption].
      intros c' [<-|Hin] Hl'; [congruence | auto].
Qed.
End VerifyLoopFacts.

(** X12. With the flag XMLSEC_KEYINFO_FLAGS_X509DATA_DONT_VERIFY_CERTS
    [xmlSecOpenSSLX509StoreVerify] returns the first leaf among the
    candidates that pass the revocation filter, and NULL with no error
    class when there is none.  [X509_verify_cert] is not consulted: when
    the caller passes no CRLs, the result does not depend on the trusted
    certificates of the store. *)
Theorem StoreVerify_dont_verify_flag `{Backend}
    (ctx : xmlSecOpenSSLX509StoreCtx) (certs : list X509)
    (crls_arg : option (list X509_CRL)) (keyInfoCtx : xmlSecKeyInfoCtx)
    (now : Z) :
  Z.land (flags keyInfoCtx) XMLSEC_KEYINFO_FLAGS_X509DATA_DONT_VERIFY_CERTS
  <> 0 ->
  xmlSecOpenSSLX509StoreVerify ctx certs crls_arg keyInfoCtx now
  = (certs2 ← revocation_filter ctx certs crls_arg now;
     Ok (match find (is_leaf certs2) certs2 with
         | Some cert => Verified cert
         | None => NotVerified None
         end))
  /\ (forall trusted trusted',
        xmlSecOpenSSLX509StoreVerify
          (mkStore trusted (untrusted ctx) (crls ctx)) certs None keyInfoCtx now
        = xmlSecOpenSSLX509StoreVerify
            (mkStore trusted' (untrusted ctx) (crls ctx)) certs None
            keyInfoCtx now).
Proof.
  intros Hf.
  assert (E : forall ctx0 crls0,
             xmlSecOpenSSLX509StoreVerify ctx0 certs crls0 keyInfoCtx now
             = (certs2 ← revocation_filter ctx0 certs crls0 now;
                Ok (match find (is_leaf certs2) certs2 with
                    | Some cert => Verified cert
                    | None => NotVerified None
                    end))).
  { intros ctx0 crls0. unfold xmlSecOpenSSLX509StoreVerify.
    destruct (revocation_filter ctx0 certs crls0 now) as [certs2| | |];
      cbn [mbind result_bind]; try reflexivity.
    rewrite verify_loop_dont_verify by assumption. reflexivity. }
  split; [apply E|].
  intros trusted trusted'. rewrite !E, !revocation_filter_eq. reflexivity.
Qed.

Lemma StoreVerify_dont_verify_flag_witness :
  xmlSecOpenSSLX509StoreVerify (H := Ref.backend) (mkStore [] [] [])
    [Ref.Root; Ref.Intermediate; Ref.Leaf] None (Ref.kctx 512) 1000
  = Ok (Verified Ref.Leaf).
Proof.
  rewrite (proj1 (StoreVerify_dont_verify_flag (H := Ref.backend)
                    (mkStore [] [] [])
                    [Ref.Root; Ref.Intermediate; Ref.Leaf] None (Ref.kctx 512)
                    1000 ltac:(vm_compute; discriminate))).
  vm_compute. reflexivity.
Defined.

(** X13. Without the flag, the certificate
    [xmlSecOpenSSLX509StoreVerify] returns is a leaf of the candidates
    that passed the revocation filter, and [X509_verify_cert] returned 1
    for it, called with the trusted certificates of the store, the
    filtered candidates as the untrusted chain, the verification time of
    the context when it is positive, and its depth.  For every leaf before
    it in the stack the call returned neither 1 nor a negative value. *)
Theorem StoreVerify_verified_is_first_leaf_that_verifies `{Backend}
    (ctx : xmlSecOpenSSLX509StoreCtx) (certs : list X509)
    (crls_arg : option (list X509_CRL)) (keyInfoCtx : xmlSecKeyInfoCtx)
    (now : Z) (cert : X509) :
  Z.land (flags keyInfoCtx) XMLSEC_KEYINFO_FLAGS_X509DATA_DONT_VERIFY_CERTS
  = 0 ->
  xmlSecOpenSSLX509StoreVerify ctx certs crls_arg keyInfoCtx now
  = Ok (Verified cert) ->
  let time := if 0 <? certsVerificationTime keyInfoCtx
              then Some (certsVerificationTime keyInfoCtx) else None in
  exists certs2 pre post,
    let V c := X509_verify_cert (xst ctx) c certs2 time
                 (certsVerificationDepth keyInfoCtx) in
    revocation_filter ctx certs crls_arg now = Ok certs2
    /\ certs2 = pre ++ cert :: post
    /\ is_leaf certs2 cert = true
    /\ (V cert).1.1 = 1
    /\ (forall c, In c pre -> is_leaf certs2 c = true ->
          (V c).1.1 <> 1 /\ 0 <= (V c).1.1).
Proof.
  intros Hf Hv time. unfold xmlSecOpenSSLX509StoreVerify in Hv.
  destruct (revocation_filter ctx certs crls_arg now) as [certs2| | |];
    cbn [mbind result_bind] in Hv; try discriminate.
  apply verify_loop_verified in Hv as (pre & post & E & Hl & HV & Hpre);
    [|assumption].
  exists certs2, pre, post. cbv zeta. auto.
Qed.

Lemma StoreVerify_verified_is_first_leaf_that_verifies_witness :
  exists certs2,
    revocation_filter (H := Ref.backend) Ref.store_root
      [Ref.Cert5; Ref.Cert6] (Some [Ref.crl_root]) 1000 = Ok certs2
    /\ (X509_verify_cert (Backend := Ref.backend) [Ref.Root] Ref.Cert6 certs2
          None 9).1.1 = 1.
Proof.
  destruct (StoreVerify_verified_is_first_leaf_that_verifies
              (H := Ref.backend) Ref.store_root [Ref.Cert5; Ref.Cert6]
              (Some [Ref.crl_root]) (Ref.kctx 0) 1000 Ref.Cert6
              ltac:(vm_compute; reflexivity) ltac:(vm_compute; reflexivity))
    as (certs2 & pre & post & Hr & _ & _ & HV & _).
  exists certs2. split; assumption.
Defined.

(** X14. Without the flag, when [xmlSecOpenSSLX509StoreVerify]
    returns NULL and the library reported no error of its own, every leaf
    among the filtered candidates was tried and none verified, and the
    error class reported at the end is that of the error code and the
    error certificate left by the last leaf tried: the failures of the
    leaves before it are not reported there.  No class is reported when
    there is no leaf. *)
Theorem StoreVerify_reports_the_last_leaf `{Backend}
    (ctx : xmlSecOpenSSLX509StoreCtx) (certs : list X509)
    (crls_arg : option (list X509_CRL)) (keyInfoCtx : xmlSecKeyInfoCtx)
    (now : Z) (reason : option xmlSecErrorReason) :
  Z.land (flags keyInfoCtx) XMLSEC_KEYINFO_FLAGS_X509DATA_DONT_VERIFY_CERTS
  = 0 ->
  xmlSecOpenSSLX509StoreVerify ctx certs crls_arg keyInfoCtx now
  = Ok (NotVerified reason) ->
  let time := if 0 <? certsVerificationTime keyInfoCtx
              then Some (certsVerificationTime keyInfoCtx) else None in
  exists certs2,
    let V c := X509_verify_cert (xst ctx) c certs2 time
                 (certsVerificationDepth keyInfoCtx) in
    revocation_filter ctx certs crls_arg now = Ok certs2
    /\ (forall c, In c certs2 -> is_leaf certs2 c = true ->
          (V c).1.1 <> 1 /\ 0 <= (V c).1.1)
    /\ reason = match last (List.filter (is_leaf certs2) certs2) with
                | Some c => classify (V c).1.2 (V c).2
                | None => None
                end.
Proof.
  intros Hf Hv time. unfold xmlSecOpenSSLX509StoreVerify in Hv.
  destruct (revocation_filter ctx certs crls_arg now) as [certs2| | |];
    cbn [mbind result_bind] in Hv; try discriminate.
  apply verify_loop_not_verified in Hv as [Hall Hr]; [|assumption].
  exists certs2. cbv zeta. auto.
Qed.

Lemma StoreVerify_reports_the_last_leaf_witness :
  exists certs2,
    revocation_filter (H := Ref.backend) (mkStore [] [] [])
      [Ref.Cert5; Ref.Cert6] None 1000 = Ok certs2
    /\ Some XMLSEC_ERRORS_R_CERT_VERIFY_FAILED
       = match last (List.filter (is_leaf (H := Ref.backend) certs2) certs2) with
         | Some c =>
             classify
               (X509_verify_cert (Backend := Ref.backend) [] c certs2 None 9).1.2
               (X509_verify_cert (Backend := Ref.backend) [] c certs2 None 9).2
         | None => None
         end.
Proof.
  destruct (StoreVerify_reports_the_last_leaf (H := Ref.backend)
              (mkStore [] [] []) [Ref.Cert5; Ref.Cert6] None (Ref.kctx 0) 1000
              (Some XMLSEC_ERRORS_R_CERT_VERIFY_FAILED)
              ltac:(vm_compute; reflexivity) ltac:(vm_compute; reflexivity))
    as (certs2 & Hr & _ & Hreason).
  exists certs2. split; assumption.
Defined.

(** ** [xmlSecNssX509StoreVerify] *)

Lemma nss_StoreVerify_loop_success V tb dv certs :
  forall todo cert err cert' err',
    nss_StoreVerify_loop V tb dv certs todo cert err = (true, cert', err') ->
    exists pre post c,
      cert' = Some c /\ todo = pre ++ c :: post
      /\ nss_issuer_of_other certs c = false
      /\ (if dv then True else V c tb = None)
      /\ (forall c', In c' pre -> nss_issuer_of_other certs c' = false ->
            dv = false /\ V c' tb <> None).
Proof.
  induction todo as [|c todo IH]; intros cert err cert' err';
    cbn [nss_StoreVerify_loop]; [discriminate|].
  assert (Hstop : nss_issuer_of_other certs c = false ->
                  (if dv then True else V c tb = None) ->
                  exists pre post c0,
                    Some c = Some c0 /\ c :: todo = pre ++ c0 :: post
                    /\ nss_issuer_of_other certs c0 = false
                    /\ (if dv then True else V c0 tb = None)
                    /\ (forall c', In c' pre ->
                          nss_issuer_of_other certs c' = false ->
                          dv = false /\ V c' tb <> None)).
  { intros Hi HV. exists [], todo, c.
    split; [reflexivity|]. split; [reflexivity|]. split; [assumption|].
    split; [assumption|]. intros c' []. }
  assert (Hnext : forall cur,
             (nss_issuer_of_other certs c = false ->
              dv = false /\ V c tb <> None) ->
             nss_StoreVerify_loop V tb dv certs todo (Some c) cur
             = (true, cert', err') ->
             exists pre post c0,
               cert' = Some c0 /\ c :: todo = pre ++ c0 :: post
               /\ nss_issuer_of_other certs c0 = false
               /\ (if dv then True else V c0 tb = None)
               /\ (forall c', In c' pre ->
                     nss_issuer_of_other certs c' = false ->
                     dv = false /\ V c' tb <> None)).
  { intros cur Hc Hl. apply IH in Hl.
    destruct Hl as (pre & post & c0 & -> & -> & Hi & HV & Hpre).
    exists (c :: pre), post, c0.
    split; [reflexivity|]. split; [reflexivity|]. split; [assumption|].
    split; [assumption|].
    intros c' [<-|Hin] Hl'; [auto | apply (Hpre c'); assumption]. }
  destruct (nss_issuer_of_other certs c) eqn:Ei.
  - apply Hnext. congruence.
  - destruct dv.
    + intros [= <- <-]. apply Hstop; auto.
    + destruct (V c tb) as [e|] eqn:EV.
      * apply Hnext. intros _. split; [reflexivity | congruence].
      * intros [= <- <-]. apply Hstop; auto.
Qed.

Lemma nss_StoreVerify_loop_failure V tb dv certs :
  forall todo cert err cert' err',
    nss_StoreVerify_loop V tb dv certs todo cert err = (false, cert', err') ->
    cert' = match last todo with Some c => Some c | None => cert end
    /\ (forall c', In c' todo -> nss_issuer_of_other certs c' = false ->
          dv = false /\ V c' tb <> None)
    /\ match last (List.filter
                     (fun c => negb (nss_issuer_of_other certs c)) todo) with
       | Some c => V c tb = Some err'
       | None => err' = err
       end.
Proof.
  induction todo as [|c todo IH]; intros cert err cert' err';
    cbn [nss_StoreVerify_loop List.filter].
  - intros [= <- <-]. cbn. split; [reflexivity|].
    split; [intros c' []|reflexivity].
  - rewrite last_cons.
    destruct (nss_issuer_of_other certs c) eqn:Ei; cbn [negb].
    + intros Hl. apply IH in Hl as (Hct & Hall & Hlast).
      split; [destruct (last todo); assumption|]. split; [|assumption].
      intros c' [<-|Hin] Hl'; [congruence | apply (Hall c'); assumption].
    + destruct dv; [discriminate|].
      destruct (V c tb) as [e|] eqn:EV; [|discriminate].
      intros Hl. apply IH in Hl as (Hct & Hall & Hlast).
      split; [destruct (last todo); assumption|]. split.
      * intros c' [<-|Hin] Hl';
          [split; [reflexivity | congruence] | apply (Hall c'); assumption].
      * rewrite last_cons.
        destruct (last (List.filter _ todo)); [assumption|].
        by rewrite EV, Hlast.
Qed.

(** The product is the time in microseconds as long as it fits an
    [int64]. *)
Lemma timeboundary_in_range t :
  0 < t <= 9223372036854 ->
  LL_MUL PR_USEC_PER_SEC (LL_UI2L t) = 1000000 * t.
Proof.
  intros Ht. unfold LL_MUL, LL_UI2L, PR_USEC_PER_SEC, int64_wrap.
  replace ((t + 2 ^ 63) mod 2 ^ 64) with (t + 2 ^ 63)
    by (symmetry; apply Z.mod_small; lia).
  replace (t + 2 ^ 63 - 2 ^ 63) with t by lia.
  rewrite Z.mod_small by lia. lia.
Qed.

(** X15. The certificate [xmlSecNssX509StoreVerify] returns is one of
    the list it was given and is not the issuer of another certificate of
    the list; unless the flag is set, [CERT_VerifyCertificate] accepted it
    at the time the function computes: when the verification time of the
    context is positive, its product with 1000000 as an [int64], which is
    that time in microseconds up to 9223372036854 seconds and wraps around
    beyond (2^44 seconds give a negative time); the current time
    otherwise.  Every certificate before it in the list that is not the
    issuer of another one was tried, the flag not being set, and
    refused. *)
Theorem NssStoreVerify_verified_is_first_leaf_that_verifies
    (CERT_VerifyCertificate : CERTCertificate -> Z -> option PRErrorCode)
    (certs : list CERTCertificate) (keyInfoCtx : xmlSecKeyInfoCtx)
    (now : Z) (err0 : PRErrorCode) (cert : CERTCertificate) :
  xmlSecNssX509StoreVerify CERT_VerifyCertificate certs keyInfoCtx now err0
  = NssVerified cert ->
  let timeboundary :=
    if 0 <? certsVerificationTime keyInfoCtx
    then LL_MUL PR_USEC_PER_SEC (LL_UI2L (certsVerificationTime keyInfoCtx))
    else now in
  (exists pre post,
      certs = pre ++ cert :: post
      /\ nss_issuer_of_other certs cert = false
      /\ (Z.land (flags keyInfoCtx)
            XMLSEC_KEYINFO_FLAGS_X509DATA_DONT_VERIFY_CERTS = 0 ->
          CERT_VerifyCertificate cert timeboundary = None)
      /\ (forall c, In c pre -> nss_issuer_of_other certs c = false ->
            Z.land (flags keyInfoCtx)
              XMLSEC_KEYINFO_FLAGS_X509DATA_DONT_VERIFY_CERTS = 0
            /\ CERT_VerifyCertificate c timeboundary <> None))
  /\ (0 < certsVerificationTime keyInfoCtx <= 9223372036854 ->
      timeboundary = 1000000 * certsVerificationTime keyInfoCtx)
  /\ LL_MUL PR_USEC_PER_SEC (LL_UI2L (2 ^ 44)) = -854558029293551616.
Proof.
  intros Hv tb. split; [|split; [|reflexivity]].
  - unfold xmlSecNssX509StoreVerify in Hv. fold tb in Hv.
    destruct (nss_StoreVerify_loop _ _ _ _ _ _ _) as [[status cert'] err'] eqn:El.
    destruct status; [|destruct cert'; discriminate].
    apply nss_StoreVerify_loop_success in El.
    destruct El as (pre & post & c & -> & E & Hi & HV & Hpre).
    injection Hv as <-. exists pre, post.
    split; [assumption|]. split; [assumption|]. split.
    + intros Hf. rewrite Hf in HV. exact HV.
    + intros c' Hin Hl. destruct (Hpre c' Hin Hl) as [Hdv HV'].
      split; [|assumption]. apply negb_false_iff in Hdv.
      by apply Z.eqb_eq in Hdv.
  - intros Ht. subst tb. replace (0 <? _) with true by lia.
    by apply timeboundary_in_range.
Qed.

Lemma NssStoreVerify_verified_is_first_leaf_that_verifies_witness :
  nss_issuer_of_other [mkCERT 1 [1] [2]; mkCERT 2 [2] [2]] (mkCERT 1 [1] [2])
  = false.
Proof.
  destruct (NssStoreVerify_verified_is_first_leaf_that_verifies
              (fun c _ => if nss_addr c =? 1 then None
                          else Some SEC_ERROR_UNKNOWN_SIGNER)
              [mkCERT 1 [1] [2]; mkCERT 2 [2] [2]] (Ref.kctx 0) 1000
              (SEC_ERROR_other 0) (mkCERT 1 [1] [2]) eq_refl)
    as [(pre & post & _ & Hleaf & _) _].
  exact Hleaf.
Defined.

(** X16. When [xmlSecNssX509StoreVerify] returns no certificate: for
    an empty list, and only then, it reads the subject name through a NULL
    pointer.  For any other list the subject named in the error report is
    that of the last certificate of the list, whether that certificate was
    tried or not; every certificate that is not the issuer of another one
    was refused by [CERT_VerifyCertificate] at the time the function
    computes (the [int64] product of the verification time and 1000000,
    or the current time); and the error class reported is that of the
    error code left by the last certificate tried (of the error code
    found on entry when none was tried). *)
Theorem NssStoreVerify_failure_report
    (CERT_VerifyCertificate : CERTCertificate -> Z -> option PRErrorCode)
    (certs : list CERTCertificate) (keyInfoCtx : xmlSecKeyInfoCtx)
    (now : Z) (err0 : PRErrorCode) :
  let timeboundary :=
    if 0 <? certsVerificationTime keyInfoCtx
    then LL_MUL PR_USEC_PER_SEC (LL_UI2L (certsVerificationTime keyInfoCtx))
    else now in
  let leaves :=
    List.filter (fun c => negb (nss_issuer_of_other certs c)) certs in
  (xmlSecNssX509StoreVerify CERT_VerifyCertificate certs keyInfoCtx now err0
   = NssNullCert <-> certs = [])
  /\ (forall reason cert,
        xmlSecNssX509StoreVerify CERT_VerifyCertificate certs keyInfoCtx now
          err0 = NssNotVerified reason cert ->
        last certs = Some cert
        /\ (forall c, In c leaves ->
              CERT_VerifyCertificate c timeboundary <> None)
        /\ match last leaves with
           | Some c =>
               exists e, CERT_VerifyCertificate c timeboundary = Some e
                         /\ reason = nss_classify e
           | None => reason = nss_classify err0
           end).
Proof.
  intros tb leaves. unfold xmlSecNssX509StoreVerify. fold tb.
  destruct (nss_StoreVerify_loop _ _ _ _ _ _ _) as [[status cert'] err'] eqn:El.
  destruct status.
  - apply nss_StoreVerify_loop_success in El.
    destruct El as (pre & post & c & -> & E & _). split.
    + split; [discriminate|]. intros ->. by destruct pre.
    + intros reason cert. discriminate.
  - apply nss_StoreVerify_loop_failure in El.
    destruct El as (-> & Hall & Hlast). fold leaves in Hlast. split.
    + destruct (last certs) as [c|] eqn:Ec.
      * split; [discriminate|]. intros ->. discriminate.
      * split; [intros _; by apply last_None | reflexivity].
    + intros reason cert.
      destruct (last certs) as [c|] eqn:Ec; [|discriminate].
      intros [= <- <-]. split; [reflexivity|]. split.
      * intros c' Hin. apply filter_In in Hin as [Hin Hl].
        apply negb_true_iff in Hl. apply (Hall c' Hin Hl).
      * destruct (last leaves) as [l|]; [eauto | by rewrite Hlast].
Qed.

(** The subject named in the report need not be the certificate that
    failed: the leaf (address 1) has expired, the certificate of its
    issuer (address 2) is named. *)
Example NssStoreVerify_names_the_last_certificate :
  xmlSecNssX509StoreVerify
    (fun c _ => if nss_addr c =? 1 then Some SEC_ERROR_EXPIRED_CERTIFICATE
                else None)
    [mkCERT 1 [1] [2]; mkCERT 2 [2] [2]] (Ref.kctx 0) 1000 (SEC_ERROR_other 0)
  = NssNotVerified NSS_R_CERT_HAS_EXPIRED (mkCERT 2 [2] [2]).
Proof. reflexivity. Qed.

(** ** The list of the NSS store *)

Section NssAdoptFacts.
Context `{NssBackend}.

Lemma nss_find_ski_in_list_app l1 l2 ski :
  nss_find_ski_in_list l1 ski = Ok None ->
  nss_find_ski_in_list (l1 ++ l2) ski = nss_find_ski_in_list l2 ski.
Proof.
  induction l1 as [|c l1 IH]; cbn [nss_find_ski_in_list app]; [reflexivity|].
  destruct (CERT_FindSubjectKeyIDExtension c) as [t|]; [|discriminate].
  destruct (_ && _); [discriminate | exact IH].
Qed.

Lemma nss_find_ski_in_list_found l ski c :
  nss_find_ski_in_list l ski = Ok (Some c) ->
  In c l /\ CERT_FindSubjectKeyIDExtension c = Some ski.
Proof.
  induction l as [|c0 l IH]; cbn [nss_find_ski_in_list]; [discriminate|].
  destruct (CERT_FindSubjectKeyIDExtension c0) as [t|] eqn:Et; [|discriminate].
  destruct (_ && _) eqn:Em.
  - intros [= <-]. split; [by left|].
    apply andb_true_iff in Em as [Hl Hm].
    apply Z.eqb_eq in Hl. apply Z.eqb_eq in Hm. rewrite Et. f_equal.
    apply (memcmp_zero_eq t ski (length ski)); [lia | reflexivity | assumption].
  - intros Hf. apply IH in Hf as [Hin Hs]. split; [by right | assumption].
Qed.

Lemma nss_find_ski_in_list_app_l l1 l2 ski c :
  nss_find_ski_in_list l1 ski = Ok (Some c) ->
  nss_find_ski_in_list (l1 ++ l2) ski = Ok (Some c).
Proof.
  induction l1 as [|c0 l1 IH]; cbn [nss_find_ski_in_list app]; [discriminate|].
  destruct (CERT_FindSubjectKeyIDExtension c0) as [t|]; [|discriminate].
  destruct (_ && _); [auto | exact IH].
Qed.

Lemma nss_find_ski_in_list_total l ski :
  (forall c, In c l -> CERT_FindSubjectKeyIDExtension c <> None) ->
  exists r, nss_find_ski_in_list l ski = Ok r.
Proof.
  induction l as [|c0 l IH]; cbn [nss_find_ski_in_list]; intros Hall; [eauto|].
  destruct (CERT_FindSubjectKeyIDExtension c0) as [t|] eqn:Et.
  - destruct (_ && _); [eauto|]. apply IH. intros c Hin. apply Hall. by right.
  - destruct (Hall c0 (or_introl eq_refl) Et).
Qed.
End NssAdoptFacts.

(** X17. A certificate adopted by the NSS store is found by its
    subject key identifier.  When the subject key identifier extension of
    every certificate in the list of the store can be read, a lookup by the
    identifier of the adopted certificate returns the certificate the
    database of NSS has for that identifier or, when it has none, a
    certificate of the list with that identifier.  The lookups by subject
    name and by issuer name and serial number never look into the list:
    adopting a certificate does not change their result. *)
Theorem NssStoreAdoptCert_then_find `{NssBackend}
    (certsList : option (list CERTCertificate)) (cert : CERTCertificate)
    (k : list Z) :
  CERT_FindSubjectKeyIDExtension cert = Some k ->
  k <> [] -> Z.of_nat (length k) <= UINT_MAX ->
  (forall l c, certsList = Some l -> In c l ->
     CERT_FindSubjectKeyIDExtension c <> None) ->
  let certsList' := xmlSecNssX509StoreAdoptCert certsList cert in
  (exists c,
      xmlSecNssX509StoreFindCert_ex certsList' None None None (Some k)
      = Ok (Some c)
      /\ (CERT_FindCertBySubjectKeyID k = Some c
          \/ CERT_FindSubjectKeyIDExtension c = Some k
             /\ exists l, certsList' = Some l /\ In c l))
  /\ (forall subjectName issuerName issuerSerial,
        xmlSecNssX509StoreFindCert_ex certsList' subjectName issuerName
          issuerSerial None
        = xmlSecNssX509StoreFindCert_ex certsList subjectName issuerName
            issuerSerial None).
Proof.
  intros Hk Hne Hmax Hall certsList'. split; [|reflexivity].
  unfold xmlSecNssX509StoreFindCert_ex, xmlSecNssX509FindCert.
  cbn [mbind result_bind].
  replace (0 <? Z.of_nat (length k)) with true
    by (symmetry; apply Z.ltb_lt; destruct k; [congruence | cbn [length]; lia]).
  unfold nss_find_by_ski.
  replace (UINT_MAX <? Z.of_nat (length k)) with false
    by (symmetry; apply Z.ltb_ge; lia).
  destruct (CERT_FindCertBySubjectKeyID k) as [c|]; [eauto|].
  assert (Hlast : nss_find_ski_in_list [cert] k = Ok (Some cert)).
  { cbn [nss_find_ski_in_list]. rewrite Hk, Z.eqb_refl, memcmp_refl.
    reflexivity. }
  destruct certsList as [l|]; cbn [certsList' xmlSecNssX509StoreAdoptCert].
  - destruct (nss_find_ski_in_list_total l k (fun c => Hall l c eq_refl))
      as [[c|] Hr].
    + exists c. rewrite (nss_find_ski_in_list_app_l _ _ _ _ Hr).
      split; [reflexivity|]. right.
      apply nss_find_ski_in_list_found in Hr as [Hin Hs].
      split; [assumption|]. exists (l ++ [cert]). split; [reflexivity|].
      apply in_or_app. by left.
    + exists cert. rewrite (nss_find_ski_in_list_app _ _ _ Hr), Hlast.
      split; [reflexivity|]. right. split; [assumption|].
      exists (l ++ [cert]). split; [reflexivity|].
      apply in_or_app. right. by left.
  - exists cert. rewrite Hlast. split; [reflexivity|]. right.
    split; [assumption|]. exists [cert]. split; [reflexivity | by left].
Qed.

Lemma NssStoreAdoptCert_then_find_witness :
  exists c,
    xmlSecNssX509StoreFindCert_ex (H := Ref.nss)
      (xmlSecNssX509StoreAdoptCert None Ref.nss_Leaf) None None None
      (Some [170; 187])
    = Ok (Some c).
Proof.
  destruct (NssStoreAdoptCert_then_find (H := Ref.nss) None Ref.nss_Leaf
              [170; 187] eq_refl ltac:(discriminate)
              ltac:(vm_compute; discriminate)
              ltac:(intros l c; discriminate))
    as [(c & Hc & _) _].
  exists c. exact Hc.
Defined.

(** ** Base64 decoding *)

Module Base64Facts.
Import Base64C.

Lemma Push_spec inp : forall ctx n0,
  match xmlSecBase64CtxPush ctx inp n0 with
  | Ok (ctx', n) =>
      exists k : nat,
        n = n0 + Z.of_nat k /\ (k <= length inp)%nat
        /\ ctx_out ctx' = ctx_out ctx
        /\ (forall more,
              option_map (app (ctx_in ctx'))
                (sextets_of (equalSigns ctx') (drop k inp ++ more))
              = option_map (app (ctx_in ctx))
                  (sextets_of (equalSigns ctx) (inp ++ more)))
        /\ ((4 <= length (ctx_in ctx'))%nat \/ k = length inp)
        /\ ((length (ctx_in ctx) <= 4)%nat -> (length (ctx_in ctx') <= 4)%nat)
        /\ (length (ctx_in ctx') <= length (ctx_in ctx) + k)%nat
  | Error _ => forall more, sextets_of (equalSigns ctx) (inp ++ more) = None
  | _ => False
  end.
Proof.
  induction inp as [|ch rest IH]; intros ctx n0; cbn [xmlSecBase64CtxPush].
  - exists 0%nat. cbn [drop length].
    split; [lia|]. split; [lia|]. split; [reflexivity|].
    split; [reflexivity|]. split; [by right|]. split; [auto | lia].
  - destruct (4 <=? Z.of_nat (length (ctx_in ctx))) eqn:E4.
    { exists 0%nat. apply Z.leb_le in E4. rewrite drop_0.
      split; [lia|]. split; [lia|]. split; [reflexivity|].
      split; [reflexivity|]. split; [left; lia|]. split; [auto | lia]. }
    apply Z.leb_gt in E4.
    assert (Hstep : forall ctx1,
               ctx_out ctx1 = ctx_out ctx ->
               (forall more,
                  option_map (app (ctx_in ctx1))
                    (sextets_of (equalSigns ctx1) (rest ++ more))
                  = option_map (app (ctx_in ctx))
                      (sextets_of (equalSigns ctx) ((ch :: rest) ++ more))) ->
               (length (ctx_in ctx1) <= length (ctx_in ctx) + 1)%nat ->
               match xmlSecBase64CtxPush ctx1 rest (n0 + 1) with
               | Ok (ctx', n) =>
                   exists k : nat,
                     n = n0 + Z.of_nat k /\ (k <= length (ch :: rest))%nat
                     /\ ctx_out ctx' = ctx_out ctx
                     /\ (forall more,
                           option_map (app (ctx_in ctx'))
                             (sextets_of (equalSigns ctx')
                                (drop k (ch :: rest) ++ more))
                           = option_map (app (ctx_in ctx))
                               (sextets_of (equalSigns ctx)
                                  ((ch :: rest) ++ more)))
                     /\ ((4 <= length (ctx_in ctx'))%nat
                         \/ k = length (ch :: rest))
                     /\ ((length (ctx_in ctx) <= 4)%nat ->
                         (length (ctx_in ctx') <= 4)%nat)
                     /\ (length (ctx_in ctx') <= length (ctx_in ctx) + k)%nat
               | Error _ =>
                   forall more,
                     sextets_of (equalSigns ctx) ((ch :: rest) ++ more) = None
               | _ => False
               end).
    { intros ctx1 Hout Hsx Hlen. specialize (IH ctx1 (n0 + 1)).
      destruct (xmlSecBase64CtxPush ctx1 rest (n0 + 1)) as [[ctx' n]|m| |];
        try assumption.
      - destruct IH as (k & -> & Hk & Ho & Hs & Hfull & Hle & Hgrow).
        exists (S k). cbn [drop length].
        split; [lia|]. split; [lia|]. split; [congruence|].
        split; [intros more; by rewrite Hs|].
        split; [lia|]. split; [lia|]. lia.
      - intros more. specialize (Hsx more). rewrite IH in Hsx.
        destruct (sextets_of (equalSigns ctx) ((ch :: rest) ++ more));
          [discriminate | reflexivity]. }
    cbn [sextets_of app] in *.
    destruct (0 <? equalSigns ctx) eqn:Ee.
    + destruct ((ch =? 61) && (equalSigns ctx <? 2)) eqn:Eq.
      * apply Hstep; cbn; auto; lia.
      * destruct (negb (xmlSecIsBase64Space ch)); [reflexivity|].
        apply Hstep; auto; lia.
    + destruct (ch =? 61).
      * apply Hstep; cbn; auto; lia.
      * destruct (xmlSecIsBase64Char ch).
        -- apply Hstep; cbn [ctx_in ctx_out equalSigns]; auto.
           ++ intros more.
              destruct (sextets_of (equalSigns ctx) (rest ++ more)); cbn;
                [|reflexivity].
              by rewrite <- app_assoc.
           ++ rewrite length_app. cbn. lia.
        -- destruct (negb (xmlSecIsBase64Space ch)); [reflexivity|].
           apply Hstep; auto; lia.
Qed.

Lemma Pop_idle ctx outSize :
  ctx_out ctx = [] -> (length (ctx_in ctx) < 4)%nat ->
  xmlSecBase64CtxPop ctx outSize false
  = Ok (mkCtx (ctx_in ctx) [] (equalSigns ctx), []).
Proof.
  intros Ho Hl. unfold xmlSecBase64CtxPop. rewrite Ho. cbn [length].
  replace (4 <=? Z.of_nat (length (ctx_in ctx))) with false
    by (symmetry; apply Z.leb_gt; lia).
  rewrite andb_false_r. cbn [mbind result_bind mret result_ret].
  rewrite Ho. by rewrite take_nil, drop_nil.
Qed.

Lemma Pop_full a b c d e outSize :
  xmlSecBase64CtxPop (mkCtx [a; b; c; d] [] e) outSize false
  = let o3 := [xmlSecBase64Decode1 a b; xmlSecBase64Decode2 b c;
               xmlSecBase64Decode3 c d] in
    let n := Z.to_nat (Z.min 3 outSize) in
    Ok (mkCtx [] (drop n o3) e, take n o3).
Proof. reflexivity. Qed.

Lemma decoded_full a b c d e inp :
  decoded [a; b; c; d] e inp
  = option_map (fun t => xmlSecBase64Decode1 a b :: xmlSecBase64Decode2 b c
                         :: xmlSecBase64Decode3 c d :: t)
      (decoded [] e inp).
Proof.
  unfold decoded. destruct (sextets_of e inp) as [sx|]; reflexivity.
Qed.

Lemma decoded_nil pend e : decoded pend e [] = bytes_of_sextets pend.
Proof. unfold decoded. cbn. by rewrite app_nil_r. Qed.

Lemma decoded_push ctx ctx' k inp more :
  option_map (app (ctx_in ctx'))
    (sextets_of (equalSigns ctx') (drop k inp ++ more))
  = option_map (app (ctx_in ctx)) (sextets_of (equalSigns ctx) (inp ++ more)) ->
  decoded (ctx_in ctx) (equalSigns ctx) (inp ++ more)
  = decoded (ctx_in ctx') (equalSigns ctx') (drop k inp ++ more).
Proof. unfold decoded. by intros ->. Qed.

Lemma Update_spec fuel : forall ctx inp outSize res,
  (length inp < fuel)%nat ->
  ctx_out ctx = [] -> (length (ctx_in ctx) < 4)%nat ->
  match xmlSecBase64CtxUpdate fuel ctx inp outSize res with
  | Ok (ctx', res') =>
      exists written,
        res' = res ++ written
        /\ (forall more bytes,
              decoded (ctx_in ctx) (equalSigns ctx) (inp ++ more) = Some bytes ->
              exists rest, bytes = written ++ rest)
        /\ (Z.of_nat (length written) < outSize ->
            ctx_out ctx' = [] /\ (length (ctx_in ctx') < 4)%nat
            /\ forall more,
                 decoded (ctx_in ctx) (equalSigns ctx) (inp ++ more)
                 = option_map (app written)
                     (decoded (ctx_in ctx') (equalSigns ctx') more))
  | Error _ =>
      forall more, decoded (ctx_in ctx) (equalSigns ctx) (inp ++ more) = None
  | _ => False
  end.
Proof.
  induction fuel as [|fuel IH]; intros ctx inp outSize res Hf Ho Hl; [lia|].
  cbn [xmlSecBase64CtxUpdate].
  assert (Hid : forall more,
             decoded (ctx_in ctx) (equalSigns ctx) more
             = option_map (app [])
                 (decoded (ctx_in ctx) (equalSigns ctx) more)).
  { intros more. destruct (decoded _ _ more); reflexivity. }
  destruct (0 <? Z.of_nat (length inp)) eqn:Ei; cbn [andb].
  2:{ apply Z.ltb_ge in Ei.
      assert (inp = []) as -> by (destruct inp; [reflexivity | cbn [length] in Ei; lia]).
      exists []. split; [by rewrite app_nil_r|]. split; [eauto|].
      intros _. split; [assumption|]. split; [assumption|]. exact Hid. }
  destruct (0 <? outSize) eqn:Es.
  2:{ exists []. split; [by rewrite app_nil_r|]. split; [eauto|].
      intros Hr. apply Z.ltb_ge in Es. cbn [length] in Hr. lia. }
  apply Z.ltb_lt in Es.
  pose proof (Push_spec inp ctx 0) as HP.
  destruct (xmlSecBase64CtxPush ctx inp 0) as [[ctx1 n]|m| |];
    cbn [mbind result_bind]; try assumption.
  2:{ intros more. unfold decoded. by rewrite HP. }
  destruct HP as (k & -> & Hk & Ho1 & Hsx & Hfull & Hle & Hgrow).
  rewrite Z.add_0_l, Nat2Z.id.
  assert (Hdec : forall more,
             decoded (ctx_in ctx) (equalSigns ctx) (inp ++ more)
             = decoded (ctx_in ctx1) (equalSigns ctx1) (drop k inp ++ more)).
  { intros more. apply decoded_push, Hsx. }
  specialize (Hle ltac:(lia)). rewrite Ho in Ho1.
  destruct (decide (length (ctx_in ctx1) = 4%nat)) as [H4|H4].
  - destruct ctx1 as [in1 out1 e1]. cbn [ctx_in ctx_out equalSigns] in *.
    subst out1.
    destruct in1 as [|a [|b [|c [|d [|]]]]]; try discriminate H4.
    rewrite Pop_full. cbv zeta.
    assert (Hk1 : (1 <= k)%nat) by (cbn [length] in Hgrow; lia).
    assert (Hf' : (length (drop k inp) < fuel)%nat)
      by (rewrite length_drop; lia).
    assert (Hpre3 : forall w more bytes,
               (exists t, [xmlSecBase64Decode1 a b; xmlSecBase64Decode2 b c;
                           xmlSecBase64Decode3 c d] = w ++ t) ->
               decoded (ctx_in ctx) (equalSigns ctx) (inp ++ more) = Some bytes ->
               exists rest, bytes = w ++ rest).
    { intros w more bytes (t & Et) Hb. rewrite Hdec, decoded_full in Hb.
      destruct (decoded [] e1 (drop k inp ++ more)) as [u|]; [|discriminate].
      injection Hb as <-. exists (t ++ u).
      change (xmlSecBase64Decode1 a b :: xmlSecBase64Decode2 b c
              :: xmlSecBase64Decode3 c d :: u)
        with ([xmlSecBase64Decode1 a b; xmlSecBase64Decode2 b c;
               xmlSecBase64Decode3 c d] ++ u).
      by rewrite Et, <- app_assoc. }
    destruct (decide (3 <= outSize)) as [H3|H3].
    + replace (Z.to_nat (Z.min 3 outSize)) with 3%nat by lia.
      cbn [take drop mbind result_bind length].
      specialize (IH (mkCtx [] [] e1) (drop k inp) (outSize - 3)
                    (res ++ [xmlSecBase64Decode1 a b; xmlSecBase64Decode2 b c;
                             xmlSecBase64Decode3 c d])
                    Hf' eq_refl ltac:(cbn; lia)).
      cbn [ctx_in equalSigns] in IH.
      destruct (xmlSecBase64CtxUpdate fuel _ (drop k inp) _ _)
        as [[ctx' res']|m| |]; try assumption.
      * destruct IH as (w & -> & Hpre & Hroom).
        exists ([xmlSecBase64Decode1 a b; xmlSecBase64Decode2 b c;
                 xmlSecBase64Decode3 c d] ++ w).
        split; [by rewrite app_assoc|]. split.
        -- intros more bytes Hb. rewrite Hdec, decoded_full in Hb.
           destruct (decoded [] e1 (drop k inp ++ more)) as [t|] eqn:Et;
             [|discriminate].
           injection Hb as <-. destruct (Hpre more t Et) as (rest & ->).
           exists rest. reflexivity.
        -- intros Hr. rewrite length_app in Hr. cbn [length] in Hr.
           destruct (Hroom ltac:(lia)) as (H1 & H2 & H3').
           split; [assumption|]. split; [assumption|].
           intros more. rewrite Hdec, decoded_full, H3'.
           destruct (decoded (ctx_in ctx') (equalSigns ctx') more); reflexivity.
      * intros more. by rewrite Hdec, decoded_full, IH.
    + assert (Hn : outSize = 1 \/ outSize = 2) by lia.
      destruct fuel as [|fuel']; [lia|].
      destruct Hn as [-> | ->].
      * change (Z.to_nat (Z.min 3 1)) with 1%nat.
        cbn [take drop mbind result_bind].
        change (1 - Z.of_nat (length [xmlSecBase64Decode1 a b])) with 0.
        cbn [xmlSecBase64CtxUpdate]. change (0 <? 0) with false.
        rewrite andb_false_r.
        eexists; split; [reflexivity|]; split; [|cbn [length]; intros; lia].
        intros more bytes. apply Hpre3. eexists. reflexivity.
      * change (Z.to_nat (Z.min 3 2)) with 2%nat.
        cbn [take drop mbind result_bind].
        change (2 - Z.of_nat (length [xmlSecBase64Decode1 a b;
                                      xmlSecBase64Decode2 b c])) with 0.
        cbn [xmlSecBase64CtxUpdate]. change (0 <? 0) with false.
        rewrite andb_false_r.
        eexists; split; [reflexivity|]; split; [|cbn [length]; intros; lia].
        intros more bytes. apply Hpre3. eexists. reflexivity.
  - assert (Hlt : (length (ctx_in ctx1) < 4)%nat) by lia.
    assert (Hkk : k = length inp) by (destruct Hfull; [lia | assumption]).
    rewrite (Pop_idle ctx1 outSize Ho1 Hlt). cbn [mbind result_bind].
    subst k. rewrite drop_all in Hdec. cbn [app] in Hdec.
    exists []. split; [by rewrite app_nil_r|]. split; [eauto|].
    intros _. cbn [ctx_out ctx_in equalSigns].
    split; [reflexivity|]. split; [assumption|].
    intros more. rewrite Hdec.
    destruct (decoded (ctx_in ctx1) (equalSigns ctx1) more); reflexivity.
Qed.

Lemma Pop_drain o e outSize final :
  xmlSecBase64CtxPop (mkCtx [] o e) outSize final
  = let n := Z.to_nat (Z.min (Z.of_nat (length o)) outSize) in
    Ok (mkCtx [] (drop n o) e, take n o).
Proof.
  unfold xmlSecBase64CtxPop. cbn [ctx_in ctx_out equalSigns length].
  destruct o as [|x o]; [|reflexivity].
  destruct final; reflexivity.
Qed.

Lemma Final_drain e outLen fuel : forall o res,
  (length o < fuel)%nat ->
  xmlSecBase64CtxFinal fuel (mkCtx [] o e) outLen res
  = if Z.of_nat (length res) + Z.of_nat (length o) <? outLen
    then Ok (res ++ o) else Error "buffer is too small".
Proof.
  induction fuel as [|fuel IH]; intros o res Hf; [lia|].
  cbn [xmlSecBase64CtxFinal].
  destruct (Z.of_nat (length res) <? outLen) eqn:Er.
  2:{ apply Z.ltb_ge in Er.
      replace (_ + _ <? outLen) with false by (symmetry; apply Z.ltb_ge; lia).
      reflexivity. }
  apply Z.ltb_lt in Er. rewrite Pop_drain. cbv zeta.
  cbn [mbind result_bind].
  destruct o as [|x o].
  - cbn [length take]. rewrite take_nil.
    replace (_ + _ <? outLen) with true by (symmetry; apply Z.ltb_lt; lia).
    by rewrite app_nil_r.
  - set (n := Z.to_nat (Z.min (Z.of_nat (length (x :: o)))
                               (outLen - Z.of_nat (length res)))).
    assert (Hn : (1 <= n <= length (x :: o))%nat) by (cbn [length] in *; lia).
    destruct (take n (x :: o)) as [|y w] eqn:Et.
    { apply (f_equal length) in Et. rewrite length_take in Et.
      cbn [length] in *. lia. }
    rewrite <- Et. rewrite IH by (rewrite length_drop; cbn [length] in *; lia).
    rewrite length_app, length_take, length_drop, <- app_assoc, take_drop.
    replace (Z.of_nat (length res + n `min` length (x :: o))
             + Z.of_nat (length (x :: o) - n))
      with (Z.of_nat (length res) + Z.of_nat (length (x :: o))) by lia.
    reflexivity.
Qed.

Lemma Final_S fuel ctx outLen res :
  xmlSecBase64CtxFinal (S fuel) ctx outLen res
  = if Z.of_nat (length res) <? outLen then
      '(ctx, written) ←
        xmlSecBase64CtxPop ctx (outLen - Z.of_nat (length res)) true;
      match written with
      | [] => Ok res
      | _ => xmlSecBase64CtxFinal fuel ctx outLen (res ++ written)
      end
    else Error "buffer is too small".
Proof. reflexivity. Qed.

Lemma Final_spec ctx outLen :
  ctx_out ctx = [] -> (length (ctx_in ctx) < 4)%nat ->
  xmlSecBase64CtxFinal 8 ctx outLen []
  = match bytes_of_sextets (ctx_in ctx) with
    | Some fin =>
        if Z.of_nat (length fin) <? outLen then Ok fin
        else Error "buffer is too small"
    | None =>
        if 0 <? outLen
        then Error "only one or two equal signs are allowed at the end"
        else Error "buffer is too small"
    end.
Proof.
  destruct ctx as [i o e]. cbn [ctx_in ctx_out]. intros -> Hl.
  destruct i as [|a [|b [|c [|d i]]]]; try (cbn [length] in Hl; lia).
  - apply (Final_drain e outLen 8 [] []). cbn [length]. lia.
  - rewrite Final_S. cbn [length bytes_of_sextets]. change (Z.of_nat 0) with 0.
    destruct (0 <? outLen); reflexivity.
  - rewrite Final_S. cbn [bytes_of_sextets].
    change (Z.of_nat (length [])) with 0.
    change (Z.of_nat (length [xmlSecBase64Decode1 a b])) with 1.
    destruct (0 <? outLen) eqn:E0.
    2:{ apply Z.ltb_ge in E0.
        replace (1 <? outLen) with false by (symmetry; apply Z.ltb_ge; lia).
        reflexivity. }
    apply Z.ltb_lt in E0.
    change (xmlSecBase64CtxPop (mkCtx [a; b] [] e) (outLen - 0) true)
      with (Ok (mkCtx [] (drop (Z.to_nat (Z.min 1 (outLen - 0)))
                            [xmlSecBase64Decode1 a b]) e,
                take (Z.to_nat (Z.min 1 (outLen - 0)))
                  [xmlSecBase64Decode1 a b])).
    replace (Z.to_nat (Z.min 1 (outLen - 0))) with 1%nat by lia.
    cbn [mbind result_bind take drop app].
    rewrite (Final_drain e outLen 7 [] [xmlSecBase64Decode1 a b])
      by (cbn [length]; lia).
    reflexivity.
  - rewrite Final_S. cbn [bytes_of_sextets].
    change (Z.of_nat (length [])) with 0.
    change (Z.of_nat (length [xmlSecBase64Decode1 a b;
                              xmlSecBase64Decode2 b c])) with 2.
    destruct (0 <? outLen) eqn:E0.
    2:{ apply Z.ltb_ge in E0.
        replace (2 <? outLen) with false by (symmetry; apply Z.ltb_ge; lia).
        reflexivity. }
    apply Z.ltb_lt in E0.
    change (xmlSecBase64CtxPop (mkCtx [a; b; c] [] e) (outLen - 0) true)
      with (Ok (mkCtx [] (drop (Z.to_nat (Z.min 2 (outLen - 0)))
                            [xmlSecBase64Decode1 a b; xmlSecBase64Decode2 b c]) e,
                take (Z.to_nat (Z.min 2 (outLen - 0)))
                  [xmlSecBase64Decode1 a b; xmlSecBase64Decode2 b c])).
    cbn [mbind result_bind].
    destruct (decide (outLen = 1)) as [->|H1].
    + reflexivity.
    + replace (Z.to_nat (Z.min 2 (outLen - 0))) with 2%nat by lia.
      cbn [take drop app].
      rewrite (Final_drain e outLen 7 []
                 [xmlSecBase64Decode1 a b; xmlSecBase64Decode2 b c])
        by (cbn [length]; lia).
      reflexivity.
Qed.

(** [xmlSecBase64Decode] delivers exactly what [decoded] describes, when
    the buffer has room for it and one byte more. *)
Lemma Decode_iff str len bytes :
  xmlSecBase64Decode str len = Ok bytes
  <-> decoded [] 0 str = Some bytes /\ Z.of_nat (length bytes) < len.
Proof.
  unfold xmlSecBase64Decode.
  pose proof (Update_spec (S (length str)) (mkCtx [] [] 0) str len []
                ltac:(lia) eq_refl ltac:(cbn; lia)) as HU.
  cbn [ctx_in equalSigns ctx_out] in HU.
  destruct (xmlSecBase64CtxUpdate _ _ str len [])
    as [[ctx upd]|m| |]; cbn [mbind result_bind]; try contradiction.
  2:{ specialize (HU []). rewrite app_nil_r in HU. rewrite HU.
      split; [discriminate | intros [? _]; discriminate]. }
  destruct HU as (w & Hw & Hpre & Hroom). cbn [app] in Hw. subst w.
  specialize (Hpre []). rewrite app_nil_r in Hpre.
  destruct (decide (Z.of_nat (length upd) < len)) as [Hr|Hr].
  - destruct (Hroom Hr) as (Ho & Hl & Hd). specialize (Hd []).
    rewrite app_nil_r, decoded_nil in Hd. rewrite Hd.
    rewrite (Final_spec ctx _ Ho Hl).
    destruct (bytes_of_sextets (ctx_in ctx)) as [fin|]; cbn [option_map].
    + destruct (Z.of_nat (length fin) <? len - Z.of_nat (length upd)) eqn:Ef;
        cbn [mbind result_bind mret result_ret].
      * apply Z.ltb_lt in Ef. split.
        -- intros [= <-]. split; [reflexivity|]. rewrite length_app. lia.
        -- intros [[= <-] _]. reflexivity.
      * apply Z.ltb_ge in Ef. split; [discriminate|].
        intros [[= <-] Hlen]. rewrite length_app in Hlen. lia.
    + destruct (0 <? _); cbn [mbind result_bind];
        (split; [discriminate | intros [? _]; discriminate]).
  - assert (E : xmlSecBase64CtxFinal 8 ctx (len - Z.of_nat (length upd)) []
                = Error "buffer is too small").
    { rewrite Final_S. cbn [length].
      replace (Z.of_nat 0 <? len - Z.of_nat (length upd)) with false
        by (symmetry; apply Z.ltb_ge; lia).
      reflexivity. }
    rewrite E. cbn [mbind result_bind]. split; [discriminate|].
    intros [Hd Hlen]. destruct (Hpre bytes Hd) as (more & ->).
    rewrite length_app in Hlen. lia.
Qed.

Lemma Decode_total str len :
  xmlSecBase64Decode str len <> Timeout
  /\ forall idx size, xmlSecBase64Decode str len <> Fault idx size.
Proof.
  unfold xmlSecBase64Decode.
  pose proof (Update_spec (S (length str)) (mkCtx [] [] 0) str len []
                ltac:(lia) eq_refl ltac:(cbn; lia)) as HU.
  destruct (xmlSecBase64CtxUpdate _ _ str len [])
    as [[ctx upd]|m| |]; cbn [mbind result_bind]; try contradiction.
  2:{ split; [discriminate | intros; discriminate]. }
  destruct HU as (w & Hw & Hpre & Hroom). cbn [app] in Hw. subst w.
  destruct (decide (Z.of_nat (length upd) < len)) as [Hr|Hr].
  - destruct (Hroom Hr) as (Ho & Hl & Hd).
    rewrite (Final_spec ctx _ Ho Hl).
    destruct (bytes_of_sextets (ctx_in ctx)) as [fin|].
    + destruct (_ <? _); cbn [mbind result_bind mret result_ret];
        (split; [discriminate | intros; discriminate]).
    + destruct (_ <? _); cbn [mbind result_bind];
        (split; [discriminate | intros; discriminate]).
  - rewrite Final_S. cbn [length].
    replace (Z.of_nat 0 <? len - Z.of_nat (length upd)) with false
      by (symmetry; apply Z.ltb_ge; lia).
    cbn [mbind result_bind]. split; [discriminate | intros; discriminate].
Qed.
End Base64Facts.

(** X18. [xmlSecBase64Decode(str, buf, len)] returns the bytes of the six-bit
    values of the text, and it does so exactly when the text holds no
    character it refuses, the values do not leave a single one over, and
    the buffer is longer than the result by at least one byte.  In every
    other case it returns an error; it always returns. *)
Theorem Base64Decode_result (str : list Z) (len : Z) :
  (forall bytes,
      Base64C.xmlSecBase64Decode str len = Ok bytes
      <-> exists sx,
            sextets_of 0 str = Some sx
            /\ bytes_of_sextets sx = Some bytes
            /\ Z.of_nat (length bytes) < len)
  /\ ((exists r, Base64C.xmlSecBase64Decode str len = Ok r)
      \/ (exists msg, Base64C.xmlSecBase64Decode str len = Error msg)).
Proof.
  split.
  - intros bytes. rewrite Base64Facts.Decode_iff. unfold decoded.
    cbn [app option_map]. split.
    + intros [Hd Hl]. destruct (sextets_of 0 str) as [sx|] eqn:E;
        [|discriminate].
      exists sx. cbn [option_map] in Hd. auto.
    + intros (sx & -> & Hb & Hl). cbn [option_map]. auto.
  - destruct (Base64Facts.Decode_total str len) as [Ht Hf].
    destruct (Base64C.xmlSecBase64Decode str len) as [r|m|i n|] eqn:E.
    + left. by exists r.
    + right. by exists m.
    + destruct (Hf i n eq_refl).
    + destruct (Ht eq_refl).
Qed.

(** The text QUJD decodes to ABC in a buffer of four bytes and is refused
    with a buffer of three; QUI and QUI= decode to AB, Q is refused. *)
Example Base64Decode_examples :
  Base64C.xmlSecBase64Decode (BAD_CAST "QUJD") 4 = Ok (BAD_CAST "ABC")
  /\ Base64C.xmlSecBase64Decode (BAD_CAST "QUJD") 3
     = Error "buffer is too small"
  /\ Base64C.xmlSecBase64Decode (BAD_CAST "QUI") 4 = Ok (BAD_CAST "AB")
  /\ Base64C.xmlSecBase64Decode (BAD_CAST "QUI=") 4 = Ok (BAD_CAST "AB")
  /\ Base64C.xmlSecBase64Decode (BAD_CAST "Q") 4
     = Error "only one or two equal signs are allowed at the end".
Proof. repeat split; vm_compute; reflexivity. Qed.

Lemma sextets_of_space_skip e ch rest :
  Base64C.xmlSecIsBase64Space ch = true ->
  sextets_of e (ch :: rest) = sextets_of e rest.
Proof.
  intros Hs. cbn [sextets_of]. rewrite Hs. cbn [negb].
  assert (H61 : (ch =? 61) = false).
  { destruct (ch =? 61) eqn:E; [|reflexivity].
    apply Z.eqb_eq in E. subst ch. discriminate Hs. }
  assert (Hc : Base64C.xmlSecIsBase64Char ch = false).
  { unfold Base64C.xmlSecIsBase64Space in Hs.
    unfold Base64C.xmlSecIsBase64Char.
    repeat (apply orb_true_iff in Hs as [Hs|Hs]);
      apply Z.eqb_eq in Hs; subst ch; reflexivity. }
  rewrite H61, Hc. cbn [andb]. destruct (0 <? e); reflexivity.
Qed.

Lemma sextets_of_tail_ext ch t1 t2 :
  (forall e, sextets_of e t1 = sextets_of e t2) ->
  forall e, sextets_of e (ch :: t1) = sextets_of e (ch :: t2).
Proof.
  intros H e. cbn [sextets_of]. by rewrite !H.
Qed.

Lemma sextets_of_without_spaces str : forall e,
  sextets_of e
    (List.filter (fun ch => negb (Base64C.xmlSecIsBase64Space ch)) str)
  = sextets_of e str.
Proof.
  induction str as [|ch str IH]; intros e; cbn [List.filter];
    [reflexivity|].
  destruct (Base64C.xmlSecIsBase64Space ch) eqn:Es; cbn [negb].
  - rewrite sextets_of_space_skip by assumption. apply IH.
  - apply sextets_of_tail_ext. exact IH.
Qed.

Lemma sextets_of_app str pad :
  Forall (fun ch => ch <> 61) str ->
  sextets_of 0 (str ++ pad)
  = match sextets_of 0 str with
    | Some sx => option_map (app sx) (sextets_of 0 pad)
    | None => None
    end.
Proof.
  induction str as [|ch str IH]; intros Hne; cbn [app].
  - cbn [sextets_of]. destruct (sextets_of 0 pad); reflexivity.
  - apply Forall_cons in Hne as [Hch Hne]. specialize (IH Hne).
    cbn [sextets_of]. change (0 <? 0) with false. cbv iota.
    apply Z.eqb_neq in Hch. rewrite Hch.
    destruct (Base64C.xmlSecIsBase64Char ch).
    + rewrite IH. destruct (sextets_of 0 str) as [sx|]; cbn [option_map];
        [|reflexivity].
      destruct (sextets_of 0 pad); reflexivity.
    + destruct (negb (Base64C.xmlSecIsBase64Space ch)); [reflexivity|].
      exact IH.
Qed.

Lemma Decode_ext str1 str2 len :
  sextets_of 0 str1 = sextets_of 0 str2 ->
  forall bytes,
    Base64C.xmlSecBase64Decode str1 len = Ok bytes
    <-> Base64C.xmlSecBase64Decode str2 len = Ok bytes.
Proof.
  intros H bytes. rewrite !Base64Facts.Decode_iff. unfold decoded.
  by rewrite H.
Qed.

(** X19. What the decoder lets pass: white space anywhere in the text, and
    padding that does not fit the data.  A text without equal signs
    decodes to the same bytes with one or two equal signs added, whatever
    its length; with three it is refused. *)
Theorem Base64Decode_is_lenient (str : list Z) (len : Z) (bytes : list Z) :
  (Base64C.xmlSecBase64Decode
     (List.filter (fun ch => negb (Base64C.xmlSecIsBase64Space ch)) str) len
   = Ok bytes
   <-> Base64C.xmlSecBase64Decode str len = Ok bytes)
  /\ (Forall (fun ch => ch <> 61) str ->
      (Base64C.xmlSecBase64Decode (str ++ [61]) len = Ok bytes
       <-> Base64C.xmlSecBase64Decode str len = Ok bytes)
      /\ (Base64C.xmlSecBase64Decode (str ++ [61; 61]) len = Ok bytes
          <-> Base64C.xmlSecBase64Decode str len = Ok bytes)
      /\ Base64C.xmlSecBase64Decode (str ++ [61; 61; 61]) len <> Ok bytes).
Proof.
  split.
  - apply Decode_ext, sextets_of_without_spaces.
  - intros Hne. split; [|split].
    + apply Decode_ext. rewrite sextets_of_app by assumption.
      change (sextets_of 0 [61]) with (Some (@nil Z)). cbn [option_map].
      destruct (sextets_of 0 str); [by rewrite app_nil_r | reflexivity].
    + apply Decode_ext. rewrite sextets_of_app by assumption.
      change (sextets_of 0 [61; 61]) with (Some (@nil Z)). cbn [option_map].
      destruct (sextets_of 0 str); [by rewrite app_nil_r | reflexivity].
    + rewrite Base64Facts.Decode_iff. unfold decoded.
      rewrite sextets_of_app by assumption.
      change (sextets_of 0 [61; 61; 61]) with (@None (list Z)).
      destruct (sextets_of 0 str); cbn [option_map]; intros [? _];
        discriminate.
Qed.

Example Encode_examples :
  Base64E.xmlSecBase64Encode (BAD_CAST "ABC") 0 = Ok (BAD_CAST "QUJD")
  /\ Base64E.xmlSecBase64Encode (BAD_CAST "AB") 0 = Ok (BAD_CAST "QUI=")
  /\ Base64E.xmlSecBase64Encode (BAD_CAST "A") 0 = Ok (BAD_CAST "QQ==")
  /\ Base64E.xmlSecBase64Encode [] 0 = Ok []
  /\ Base64E.xmlSecBase64Encode (BAD_CAST "ABCDEFG") 4
     = Ok (BAD_CAST "QUJD" ++ [10] ++ BAD_CAST "REVG" ++ [10] ++ BAD_CAST "R0==")
  /\ Base64E.xmlSecBase64Encode [255; 255; 255; 0] 0 = Ok (BAD_CAST "////AP==")
  /\ Base64E.xmlSecBase64Encode [0; 0; 255; 0; 0] 0 = Ok (BAD_CAST "AAD/AAD=").
Proof. repeat split; vm_compute; reflexivity. Qed.

(** ** Base64 encoding *)

Lemma list_ind3 {A : Type} (P : list A -> Prop) :
  P [] -> (forall a, P [a]) -> (forall a b, P [a; b]) ->
  (forall a b c rest, P rest -> P (a :: b :: c :: rest)) ->
  forall l, P l.
Proof.
  intros H0 H1 H2 H3.
  assert (H : forall n l, (length l <= n)%nat -> P l).
  { induction n as [|n IH]; intros l Hl.
    - destruct l; [assumption | cbn [length] in Hl; lia].
    - destruct l as [|a [|b [|c rest]]]; auto.
      apply H3. apply IH. cbn [length] in Hl. lia. }
  intros l. apply (H (length l)). lia.
Qed.

Module Base64EFacts.
Import Base64E.

Lemma put_chars chars : forall i p o lp cols,
  fold_left put_char chars (mkCtx i p o lp cols)
  = mkCtx i p (o ++ wrap_lines cols lp chars)
      (line_pos_after cols lp chars) cols.
Proof.
  induction chars as [|ch chars IH]; intros i p o lp cols;
    cbn [fold_left wrap_lines line_pos_after].
  - by rewrite app_nil_r.
  - unfold put_char at 2. cbn [columns linePos ctx_in inPos ctx_out].
    destruct ((0 <? cols) && (cols <=? lp));
      cbn [columns linePos ctx_in inPos ctx_out]; rewrite IH;
      rewrite <- ?app_assoc; reflexivity.
Qed.

Lemma CtxEncode_block i p lp cols :
  p <> 0 ->
  xmlSecBase64CtxEncode (mkCtx i p [] lp cols)
  = mkCtx i 0 (wrap_lines cols lp (block_chars i p))
      (line_pos_after cols lp (block_chars i p)) cols.
Proof.
  intros Hp. unfold xmlSecBase64CtxEncode.
  cbn [ctx_out length inPos ctx_in]. change (0 <? Z.of_nat 0) with false.
  cbv iota. apply Z.eqb_neq in Hp. rewrite Hp.
  pose proof (put_chars (block_chars i p) i p [] lp cols) as H.
  cbn [fold_left block_chars app] in H.
  set (c1 := put_char (mkCtx i p [] lp cols) _) in *.
  assert (E1 : inPos c1 = p) by (unfold c1, put_char; destruct (_ && _); reflexivity).
  set (c2 := put_char c1 _) in *.
  assert (E2 : inPos c2 = p)
    by (unfold c2, put_char; destruct (_ && _); cbn [inPos]; assumption).
  rewrite E2.
  set (c3 := put_char c2 _) in *.
  assert (E3 : inPos c3 = p)
    by (unfold c3, put_char; destruct (_ && _); cbn [inPos]; assumption).
  rewrite E3. rewrite H. reflexivity.
Qed.

Lemma Pop_encode i p lp cols outSize final :
  p <> 0 -> (3 <=? p) || final = true ->
  xmlSecBase64CtxPop (mkCtx i p [] lp cols) outSize final
  = let chunk := wrap_lines cols lp (block_chars i p) in
    let n := Z.to_nat (Z.min (Z.of_nat (length chunk)) outSize) in
    (mkCtx i 0 (drop n chunk) (line_pos_after cols lp (block_chars i p)) cols,
     take n chunk).
Proof.
  intros Hp Hf. unfold xmlSecBase64CtxPop.
  cbn [ctx_out length inPos]. change (Z.of_nat 0 =? 0) with true.
  rewrite Hf. cbn [andb]. rewrite CtxEncode_block by assumption. reflexivity.
Qed.

Lemma Pop_wait i p lp cols outSize :
  p < 3 ->
  xmlSecBase64CtxPop (mkCtx i p [] lp cols) outSize false
  = (mkCtx i p [] lp cols, []).
Proof.
  intros Hp. unfold xmlSecBase64CtxPop. cbn [ctx_out length inPos].
  replace (3 <=? p) with false by (symmetry; apply Z.leb_gt; lia).
  rewrite andb_false_r. cbn [ctx_in inPos ctx_out linePos columns].
  by rewrite take_nil, drop_nil.
Qed.

Lemma Pop_nothing i lp cols outSize final :
  xmlSecBase64CtxPop (mkCtx i 0 [] lp cols) outSize final
  = (mkCtx i 0 [] lp cols, []).
Proof.
  unfold xmlSecBase64CtxPop, xmlSecBase64CtxEncode.
  cbn [ctx_out length inPos]. change (0 <? Z.of_nat 0) with false.
  change (0 =? 0) with true. cbv iota.
  destruct ((Z.of_nat 0 =? 0) && ((3 <=? 0) || final));
    cbn [ctx_in inPos ctx_out linePos columns];
    by rewrite take_nil, drop_nil.
Qed.

Lemma wrap_lines_length cols lp chars :
  (length chars <= length (wrap_lines cols lp chars))%nat.
Proof.
  revert lp. induction chars as [|ch chars IH]; intros lp;
    cbn [wrap_lines length]; [lia|].
  destruct (_ && _); cbn [length].
  - specialize (IH 1). lia.
  - specialize (IH (lp + 1)). lia.
Qed.

Lemma wrap_lines_app cols l1 : forall lp l2,
  wrap_lines cols lp (l1 ++ l2)
  = wrap_lines cols lp l1 ++ wrap_lines cols (line_pos_after cols lp l1) l2.
Proof.
  induction l1 as [|ch l1 IH]; intros lp l2;
    cbn [app wrap_lines line_pos_after]; [reflexivity|].
  destruct (_ && _); cbn [app]; by rewrite IH.
Qed.

Lemma Final_enc_S fuel ctx outLen res :
  xmlSecBase64CtxFinal (S fuel) ctx outLen res
  = if Z.of_nat (length res) <? outLen then
      let '(ctx, written) :=
        xmlSecBase64CtxPop ctx (outLen - Z.of_nat (length res)) true in
      match written with
      | [] => Ok res
      | _ => xmlSecBase64CtxFinal fuel ctx outLen (res ++ written)
      end
    else Error "buffer is too small".
Proof. reflexivity. Qed.

(** [xmlSecBase64CtxFinal] on a context that holds [p] bytes of input and
    no output. *)
Lemma Final_block i p lp cols outLen :
  0 <= p ->
  let chunk := if p =? 0 then [] else wrap_lines cols lp (block_chars i p) in
  Z.of_nat (length chunk) < outLen ->
  xmlSecBase64CtxFinal 24 (mkCtx i p [] lp cols) outLen [] = Ok chunk.
Proof.
  intros Hp chunk Hroom. rewrite Final_enc_S. cbn [length].
  replace (Z.of_nat 0 <? outLen) with true by (symmetry; apply Z.ltb_lt; lia).
  destruct (p =? 0) eqn:E0.
  - apply Z.eqb_eq in E0. subst p. rewrite Pop_nothing. reflexivity.
  - apply Z.eqb_neq in E0. rewrite Pop_encode by (auto using orb_true_r).
    cbv zeta. fold chunk. fold chunk in Hroom.
    replace (Z.to_nat (Z.min (Z.of_nat (length chunk))
                         (outLen - Z.of_nat 0)))
      with (length chunk) by lia.
    rewrite take_ge, drop_ge by lia.
    assert (Hne : (4 <= length chunk)%nat)
      by (pose proof (wrap_lines_length cols lp (block_chars i p)) as H;
          cbn [block_chars length] in H; exact H).
    destruct chunk as [|c0 chunk'] eqn:Ec; [cbn [length] in Hne; lia|].
    rewrite <- Ec in *. cbn [app]. rewrite Final_enc_S.
    replace (Z.of_nat (length chunk) <? outLen) with true
      by (symmetry; apply Z.ltb_lt; lia).
    rewrite Pop_nothing. reflexivity.
Qed.

Lemma Update_enc_S fuel ctx inp outSize res :
  xmlSecBase64CtxUpdate (S fuel) ctx inp outSize res
  = if (0 <? Z.of_nat (length inp)) && (0 <? outSize) then
      let '(ctx, n) := xmlSecBase64CtxPush ctx inp in
      let inp := drop (Z.to_nat n) inp in
      let '(ctx, written) := xmlSecBase64CtxPop ctx outSize false in
      match written with
      | [] => Ok (ctx, res)
      | _ => xmlSecBase64CtxUpdate fuel ctx inp
               (outSize - Z.of_nat (length written)) (res ++ written)
      end
    else Ok (ctx, res).
Proof. reflexivity. Qed.

Lemma Push_block x y z w o lp cols a b c rest :
  xmlSecBase64CtxPush (mkCtx [x; y; z; w] 0 o lp cols) (a :: b :: c :: rest)
  = (mkCtx [a; b; c; w] 3 o lp cols, 3).
Proof.
  unfold xmlSecBase64CtxPush. cbn [inPos ctx_in ctx_out linePos columns].
  replace (0 <? Z.of_nat (length (a :: b :: c :: rest))) with true
    by (symmetry; apply Z.ltb_lt; cbn [length]; lia).
  replace (Z.min (Z.of_nat (length (a :: b :: c :: rest))) (3 - 0)) with 3
    by (cbn [length]; lia).
  reflexivity.
Qed.

(** The two loops on a context between two blocks: what
    [xmlSecBase64CtxUpdate] writes and what [xmlSecBase64CtxFinal] adds
    make up the characters of the bytes with their line breaks, when the
    buffer has room for them and one byte more. *)
Lemma Update_Final_enc cols buf :
  forall fuel x y z w lp outSize res,
    (length buf < fuel)%nat ->
    Z.of_nat (length (wrap_lines cols lp (encode_blocks y z buf))) < outSize ->
    exists ctx' U V,
      xmlSecBase64CtxUpdate fuel (mkCtx [x; y; z; w] 0 [] lp cols) buf
        outSize res = Ok (ctx', res ++ U)
      /\ xmlSecBase64CtxFinal 24 ctx' (outSize - Z.of_nat (length U)) []
         = Ok V
      /\ U ++ V = wrap_lines cols lp (encode_blocks y z buf).
Proof.
  induction buf as [|a|a b|a b c rest IH] using list_ind3;
    intros fuel x y z w lp outSize res Hf Hroom;
    (destruct fuel as [|fuel]; [cbn [length] in Hf; lia|]);
    rewrite Update_enc_S.
  - cbn [length]. change (0 <? Z.of_nat 0) with false. cbn [andb].
    exists (mkCtx [x; y; z; w] 0 [] lp cols), [], [].
    split; [by rewrite app_nil_r|]. split; [|reflexivity].
    apply (Final_block [x; y; z; w] 0 lp cols); [lia|].
    cbn [encode_blocks wrap_lines length] in Hroom. cbn. lia.
  - assert (H0 : 0 < outSize) by lia.
    replace (0 <? outSize) with true by (symmetry; apply Z.ltb_lt; lia).
    change (xmlSecBase64CtxPush (mkCtx [x; y; z; w] 0 [] lp cols) [a])
      with (mkCtx [a; y; z; w] 1 [] lp cols, 1).
    cbv iota beta. cbn [andb length Z.of_nat Z.ltb Z.compare Pos.of_succ_nat].
    cbv iota. rewrite Pop_wait by lia.
    exists (mkCtx [a; y; z; w] 1 [] lp cols), [],
      (wrap_lines cols lp (encode_blocks y z [a])).
    split; [by rewrite app_nil_r|]. split; [|reflexivity].
    apply (Final_block [a; y; z; w] 1 lp cols); [lia|].
    cbn [length Z.of_nat]. rewrite Z.sub_0_r. exact Hroom.
  - assert (H0 : 0 < outSize) by lia.
    replace (0 <? outSize) with true by (symmetry; apply Z.ltb_lt; lia).
    change (xmlSecBase64CtxPush (mkCtx [x; y; z; w] 0 [] lp cols) [a; b])
      with (mkCtx [a; b; z; w] 2 [] lp cols, 2).
    cbv iota beta. cbn [andb length Z.of_nat Z.ltb Z.compare Pos.of_succ_nat
                        Pos.succ].
    cbv iota. rewrite Pop_wait by lia.
    exists (mkCtx [a; b; z; w] 2 [] lp cols), [],
      (wrap_lines cols lp (encode_blocks y z [a; b])).
    split; [by rewrite app_nil_r|]. split; [|reflexivity].
    apply (Final_block [a; b; z; w] 2 lp cols); [lia|].
    cbn [length Z.of_nat]. rewrite Z.sub_0_r. exact Hroom.
  - assert (H0 : 0 < outSize) by lia.
    replace (0 <? outSize) with true by (symmetry; apply Z.ltb_lt; lia).
    replace (0 <? Z.of_nat (length (a :: b :: c :: rest))) with true
      by (symmetry; apply Z.ltb_lt; cbn [length]; lia).
    rewrite Push_block. cbv iota beta. cbn [andb].
    rewrite Pop_encode by (auto; lia). cbv zeta.
    set (chars := block_chars [a; b; c; w] 3).
    set (chunk := wrap_lines cols lp chars).
    assert (Esplit : wrap_lines cols lp (encode_blocks y z (a :: b :: c :: rest))
                     = chunk ++ wrap_lines cols (line_pos_after cols lp chars)
                                  (encode_blocks b c rest)).
    { change (encode_blocks y z (a :: b :: c :: rest))
        with (chars ++ encode_blocks b c rest).
      apply wrap_lines_app. }
    rewrite Esplit, length_app in Hroom.
    replace (Z.to_nat (Z.min (Z.of_nat (length chunk)) outSize))
      with (length chunk) by lia.
    rewrite take_ge, drop_ge by lia.
    assert (Hne : (4 <= length chunk)%nat)
      by (pose proof (wrap_lines_length cols lp chars) as H;
          cbn [chars block_chars length] in H; exact H).
    destruct chunk as [|c0 chunk'] eqn:Ec; [cbn [length] in Hne; lia|].
    rewrite <- Ec in *.
    change (Z.to_nat 3) with 3%nat. cbn [drop].
    destruct (IH fuel a b c w (line_pos_after cols lp chars)
                (outSize - Z.of_nat (length chunk)) (res ++ chunk))
      as (ctx' & U & V & HU & HV & HUV).
    { cbn [length] in Hf. lia. }
    { lia. }
    exists ctx', (chunk ++ U), V.
    split; [by rewrite app_assoc|]. split.
    + rewrite length_app.
      replace (outSize - Z.of_nat (length chunk + length U))
        with (outSize - Z.of_nat (length chunk) - Z.of_nat (length U)) by lia.
      exact HV.
    + by rewrite Esplit, <- app_assoc, HUV.
Qed.

Lemma encode_blocks_length buf : forall s1 s2,
  Z.of_nat (length (encode_blocks s1 s2 buf))
  = 4 * ((Z.of_nat (length buf) + 2) / 3).
Proof.
  induction buf as [|a|a b|a b c rest IH] using list_ind3; intros s1 s2;
    try reflexivity.
  cbn [encode_blocks length]. specialize (IH b c).
  replace (Z.of_nat (S (S (S (length rest)))) + 2)
    with (Z.of_nat (length rest) + 2 + 1 * 3) by lia.
  rewrite Z.div_add by lia. lia.
Qed.

Lemma wrap_lines_0 chars : forall lp, wrap_lines 0 lp chars = chars.
Proof.
  induction chars as [|ch chars IH]; intros lp; cbn [wrap_lines];
    [reflexivity|].
  change (0 <? 0) with false. cbn [andb]. by rewrite IH.
Qed.

Lemma wrap_lines_breaks cols chars : forall lp,
  0 < cols -> 0 <= lp ->
  (Z.of_nat (length (wrap_lines cols lp chars)) - Z.of_nat (length chars))
  * cols <= lp + Z.of_nat (length chars).
Proof.
  induction chars as [|ch chars IH]; intros lp Hc Hlp;
    cbn [wrap_lines length]; [lia|].
  replace (0 <? cols) with true by (symmetry; apply Z.ltb_lt; lia).
  cbn [andb]. destruct (cols <=? lp) eqn:E; cbn [length].
  - apply Z.leb_le in E. specialize (IH 1 Hc ltac:(lia)).
    replace (Z.of_nat (S (S (length (wrap_lines cols 1 chars))))
             - Z.of_nat (S (length chars)))
      with (Z.of_nat (length (wrap_lines cols 1 chars))
            - Z.of_nat (length chars) + 1) by lia.
    rewrite Z.mul_add_distr_r. lia.
  - apply Z.leb_gt in E. specialize (IH (lp + 1) Hc ltac:(lia)).
    replace (Z.of_nat (S (length (wrap_lines cols (lp + 1) chars)))
             - Z.of_nat (S (length chars)))
      with (Z.of_nat (length (wrap_lines cols (lp + 1) chars))
            - Z.of_nat (length chars)) by lia.
    lia.
Qed.

(** The buffer [xmlSecBase64Encode] allocates has room for the result and
    one byte more. *)
Lemma Encode_size buf columns :
  0 <= columns ->
  let size := 4 * Z.of_nat (length buf) / 3 + 4 in
  Z.of_nat (length (wrap_lines columns 0 (encode_blocks 0 0 buf)))
  < (if 0 <? columns then size + size / columns + 4 else size).
Proof.
  intros Hc size.
  pose proof (encode_blocks_length buf 0 0) as Hn.
  assert (Hn' : Z.of_nat (length (encode_blocks 0 0 buf)) <= size - 1).
  { rewrite Hn. subst size. Z.div_mod_to_equations. lia. }
  destruct (0 <? columns) eqn:E.
  - apply Z.ltb_lt in E.
    pose proof (wrap_lines_breaks columns (encode_blocks 0 0 buf) 0 E
                  ltac:(lia)) as Hb.
    set (L := Z.of_nat (length (wrap_lines columns 0 (encode_blocks 0 0 buf))))
      in *.
    set (n := Z.of_nat (length (encode_blocks 0 0 buf))) in *.
    assert (H1 : L - n <= n / columns).
    { apply Z.div_le_lower_bound; lia. }
    assert (H2 : n / columns <= size / columns).
    { apply Z.div_le_mono; lia. }
    lia.
  - apply Z.ltb_ge in E. assert (columns = 0) as -> by lia.
    rewrite wrap_lines_0. lia.
Qed.

Lemma to_int_small z : 0 <= z <= INT_MAX -> to_int z = z.
Proof.
  unfold to_int, INT_MAX. intros Hz. rewrite Z.mod_small by lia. lia.
Qed.

Lemma to_size_t_small z : 0 <= z <= INT_MAX -> to_size_t z = z.
Proof. unfold to_size_t, INT_MAX. intros Hz. apply Z.mod_small. lia. Qed.

(** As long as the size of the buffer fits an [int], no count wraps
    around. *)
Lemma Encode_eq buf columns :
  0 <= columns <= INT_MAX ->
  encode_buffer_size (Z.of_nat (length buf)) columns <= INT_MAX ->
  xmlSecBase64Encode buf columns
  = Ok (wrap_lines columns 0 (encode_blocks 0 0 buf)).
Proof.
  intros Hc Hs. unfold xmlSecBase64Encode, xmlSecBase64CtxCreate.
  rewrite Z.mod_small by (unfold INT_MAX in Hc; lia).
  pose proof (Encode_size buf columns ltac:(lia)) as Hroom. cbv zeta in Hroom.
  unfold encode_buffer_size in Hs. cbv zeta in Hs.
  set (len := Z.of_nat (length buf)) in *.
  assert (H0 : 0 <= 4 * len / 3) by (apply Z.div_pos; lia).
  assert (H1 : 4 * len / 3 + 4 <= INT_MAX).
  { destruct (0 <? columns) eqn:E; [|assumption].
    apply Z.ltb_lt in E.
    assert (0 <= (4 * len / 3 + 4) / columns) by (apply Z.div_pos; lia).
    lia. }
  assert (H2 : 4 * len <= 3 * INT_MAX).
  { pose proof (Z.mul_div_le (4 * len) 3 ltac:(lia)).
    pose proof (Z.mod_pos_bound (4 * len) 3 ltac:(lia)).
    rewrite (Z.div_mod (4 * len) 3) by lia. lia. }
  replace (to_size_t (4 * len)) with (4 * len)
    by (symmetry; unfold to_size_t, INT_MAX in *; apply Z.mod_small; lia).
  rewrite (to_size_t_small (4 * len / 3 + 4)) by lia.
  set (size := if 0 <? columns then to_size_t _ else _).
  assert (Esize : size = if 0 <? columns
                         then 4 * len / 3 + 4 + (4 * len / 3 + 4) / columns + 4
                         else 4 * len / 3 + 4).
  { subst size. destruct (0 <? columns) eqn:E; [|reflexivity].
    apply Z.ltb_lt in E. apply to_size_t_small.
    assert (0 <= (4 * len / 3 + 4) / columns) by (apply Z.div_pos; lia).
    lia. }
  clearbody size. subst size.
  set (size := if 0 <? columns then _ else _) in *.
  destruct (Update_Final_enc columns buf (S (length buf)) 0 0 0 0 0 size [])
    as (ctx' & U & V & HU & HV & HUV).
  { lia. }
  { exact Hroom. }
  rewrite HU. cbn [mbind result_bind app].
  rewrite <- HUV, length_app in Hroom.
  rewrite (to_int_small (Z.of_nat (length U))) by lia.
  replace (Z.of_nat (length U) <? 0) with false by lia.
  rewrite (to_size_t_small (size - Z.of_nat (length U))) by lia.
  rewrite HV. cbn [mbind result_bind].
  rewrite (to_int_small (Z.of_nat (length V))) by lia.
  replace (Z.of_nat (length V) <? 0) with false by lia.
  rewrite (to_int_small (Z.of_nat (length U) + Z.of_nat (length V))) by lia.
  replace (Z.of_nat (length U) + Z.of_nat (length V) <? 0) with false by lia.
  replace (size <=? Z.of_nat (length U) + Z.of_nat (length V)) with false by lia.
  cbn [orb mret result_ret].
  rewrite Nat2Z.id, firstn_all. by rewrite HUV.
Qed.

(** *** Round trip *)

Lemma forallb_seqZ (P : Z -> bool) n :
  forallb P (seqZ 0 n) = true -> forall x, 0 <= x < n -> P x = true.
Proof.
  intros H x Hx. rewrite forallb_forall in H. apply H.
  apply list_elem_of_In, elem_of_seqZ. lia.
Qed.

Lemma base64_at_sextet i :
  0 <= i < 64 ->
  Base64C.xmlSecIsBase64Char (base64_at i) = true
  /\ Base64C.sextet (base64_at i) = i.
Proof.
  intros Hi.
  pose proof (forallb_seqZ
    (fun i => Base64C.xmlSecIsBase64Char (base64_at i)
              && (Base64C.sextet (base64_at i) =? i)) 64
    ltac:(vm_compute; reflexivity) i Hi) as H.
  apply andb_true_iff in H as [H1 H2]. apply Z.eqb_eq in H2. auto.
Qed.

Lemma byte_parts a :
  0 <= a < 256 ->
  0 <= Z.land (Z.shiftr a 2) 63 < 64
  /\ 0 <= Z.land a 63 < 64
  /\ 0 <= Z.land (Z.shiftr a 4) 15 < 16
  /\ 0 <= Z.land (Z.shiftr a 6) 3 < 4
  /\ (exists h, 0 <= h < 4 /\ Z.land (Z.shiftl a 4) 48 = 16 * h)
  /\ (exists h, 0 <= h < 16 /\ Z.land (Z.shiftl a 2) 60 = 4 * h).
Proof.
  intros Ha.
  pose proof (forallb_seqZ
    (fun a => (0 <=? Z.land (Z.shiftr a 2) 63) && (Z.land (Z.shiftr a 2) 63 <? 64)
              && (0 <=? Z.land a 63) && (Z.land a 63 <? 64)
              && (0 <=? Z.land (Z.shiftr a 4) 15)
              && (Z.land (Z.shiftr a 4) 15 <? 16)
              && (0 <=? Z.land (Z.shiftr a 6) 3)
              && (Z.land (Z.shiftr a 6) 3 <? 4)
              && (Z.land (Z.shiftl a 4) 48 =? 16 * (a mod 4))
              && (Z.land (Z.shiftl a 2) 60 =? 4 * (a mod 16))) 256
    ltac:(vm_compute; reflexivity) a Ha) as H.
  repeat (apply andb_true_iff in H as [H ?]).
  repeat match goal with
         | H : (_ <=? _) = true |- _ => apply Z.leb_le in H
         | H : (_ <? _) = true |- _ => apply Z.ltb_lt in H
         | H : (_ =? _) = true |- _ => apply Z.eqb_eq in H
         end.
  repeat split; try lia.
  - exists (a mod 4). split; [apply Z.mod_pos_bound; lia | assumption].
  - exists (a mod 16). split; [apply Z.mod_pos_bound; lia | assumption].
Qed.

Lemma Decode1_Encode a t :
  0 <= a < 256 -> 0 <= t < 16 ->
  Base64C.xmlSecBase64Decode1 (Z.land (Z.shiftr a 2) 63)
    (Z.land (Z.shiftl a 4) 48 + t) = a.
Proof.
  intros Ha Ht.
  pose proof (forallb_seqZ
    (fun a => forallb (fun t =>
       Base64C.xmlSecBase64Decode1 (Z.land (Z.shiftr a 2) 63)
         (Z.land (Z.shiftl a 4) 48 + t) =? a) (seqZ 0 16)) 256
    ltac:(vm_compute; reflexivity) a Ha) as H.
  apply Z.eqb_eq. exact (forallb_seqZ _ 16 H t Ht).
Qed.

Lemma Decode2_Encode h b l :
  0 <= h < 4 -> 0 <= b < 256 -> 0 <= l < 4 ->
  Base64C.xmlSecBase64Decode2 (16 * h + Z.land (Z.shiftr b 4) 15)
    (Z.land (Z.shiftl b 2) 60 + l) = b.
Proof.
  intros Hh Hb Hl.
  pose proof (forallb_seqZ
    (fun h => forallb (fun b => forallb (fun l =>
       Base64C.xmlSecBase64Decode2 (16 * h + Z.land (Z.shiftr b 4) 15)
         (Z.land (Z.shiftl b 2) 60 + l) =? b) (seqZ 0 4)) (seqZ 0 256)) 4
    ltac:(vm_compute; reflexivity) h Hh) as H.
  apply Z.eqb_eq.
  exact (forallb_seqZ _ 4 (forallb_seqZ _ 256 H b Hb) l Hl).
Qed.

Lemma Decode3_Encode h c :
  0 <= h < 16 -> 0 <= c < 256 ->
  Base64C.xmlSecBase64Decode3 (4 * h + Z.land (Z.shiftr c 6) 3)
    (Z.land c 63) = c.
Proof.
  intros Hh Hc.
  pose proof (forallb_seqZ
    (fun h => forallb (fun c =>
       Base64C.xmlSecBase64Decode3 (4 * h + Z.land (Z.shiftr c 6) 3)
         (Z.land c 63) =? c) (seqZ 0 256)) 16
    ltac:(vm_compute; reflexivity) h Hh) as H.
  apply Z.eqb_eq. exact (forallb_seqZ _ 256 H c Hc).
Qed.

Lemma sextets_of_char ch rest :
  Base64C.xmlSecIsBase64Char ch = true ->
  sextets_of 0 (ch :: rest)
  = option_map (cons (Base64C.sextet ch)) (sextets_of 0 rest).
Proof.
  intros Hc. cbn [sextets_of]. change (0 <? 0) with false. cbv iota.
  destruct (ch =? 61) eqn:E; [|by rewrite Hc].
  apply Z.eqb_eq in E. subst ch. discriminate Hc.
Qed.

(** The decoder does not see the line breaks of the encoder. *)
Lemma sextets_of_wrap_lines cols chars : forall lp e,
  sextets_of e (wrap_lines cols lp chars) = sextets_of e chars.
Proof.
  induction chars as [|ch chars IH]; intros lp e; cbn [wrap_lines];
    [reflexivity|].
  destruct (_ && _).
  - rewrite sextets_of_space_skip by reflexivity.
    apply sextets_of_tail_ext. intros e'. apply IH.
  - apply sextets_of_tail_ext. intros e'. apply IH.
Qed.

Lemma encode_blocks_decoded buf : forall s1 s2,
  Forall is_byte buf -> is_byte s1 -> is_byte s2 ->
  exists sx,
    sextets_of 0 (encode_blocks s1 s2 buf) = Some sx
    /\ bytes_of_sextets sx = Some buf.
Proof.
  induction buf as [|a|a b|a b c rest IH] using list_ind3;
    intros s1 s2 Hb Hs1 Hs2.
  - exists []. split; reflexivity.
  - apply Forall_cons in Hb as [Ha _].
    destruct (byte_parts a Ha) as (A1 & A2 & A3 & A4 & (ha & Hha & Ea) & _).
    destruct (byte_parts s1 Hs1) as (_ & _ & S3 & _).
    cbn [encode_blocks].
    unfold xmlSecBase64Encode1, xmlSecBase64Encode2. rewrite Ea.
    destruct (base64_at_sextet _ A1) as [C1 X1].
    destruct (base64_at_sextet (16 * ha + Z.land (Z.shiftr s1 4) 15)
                ltac:(lia)) as [C2 X2].
    rewrite (sextets_of_char _ _ C1), (sextets_of_char _ _ C2), X1, X2.
    change (sextets_of 0 [61; 61]) with (Some (@nil Z)). cbn [option_map].
    eexists. split; [reflexivity|]. cbn [bytes_of_sextets].
    rewrite <- Ea, Decode1_Encode by assumption. reflexivity.
  - apply Forall_cons in Hb as [Ha Hb]. apply Forall_cons in Hb as [Hb _].
    destruct (byte_parts a Ha) as (A1 & A2 & A3 & A4 & (ha & Hha & Ea) & _).
    destruct (byte_parts b Hb)
      as (B1 & B2 & B3 & B4 & _ & (hb & Hhb & Eb)).
    destruct (byte_parts s2 Hs2) as (_ & _ & _ & S4 & _).
    cbn [encode_blocks].
    unfold xmlSecBase64Encode1, xmlSecBase64Encode2, xmlSecBase64Encode3.
    rewrite Ea, Eb.
    destruct (base64_at_sextet _ A1) as [C1 X1].
    destruct (base64_at_sextet (16 * ha + Z.land (Z.shiftr b 4) 15)
                ltac:(lia)) as [C2 X2].
    destruct (base64_at_sextet (4 * hb + Z.land (Z.shiftr s2 6) 3)
                ltac:(lia)) as [C3 X3].
    rewrite (sextets_of_char _ _ C1), (sextets_of_char _ _ C2),
      (sextets_of_char _ _ C3), X1, X2, X3.
    change (sextets_of 0 [61]) with (Some (@nil Z)). cbn [option_map].
    eexists. split; [reflexivity|]. cbn [bytes_of_sextets].
    rewrite <- Eb, Decode2_Encode by assumption.
    rewrite <- Ea, Decode1_Encode by assumption.
    reflexivity.
  - apply Forall_cons in Hb as [Ha Hb]. apply Forall_cons in Hb as [Hb Hc].
    apply Forall_cons in Hc as [Hc Hrest].
    destruct (byte_parts a Ha) as (A1 & A2 & A3 & A4 & (ha & Hha & Ea) & _).
    destruct (byte_parts b Hb)
      as (B1 & B2 & B3 & B4 & _ & (hb & Hhb & Eb)).
    destruct (byte_parts c Hc) as (C1' & C2' & C3' & C4' & _).
    destruct (IH b c Hrest Hb Hc) as (sx & Hsx & Hbytes).
    cbn [encode_blocks].
    unfold xmlSecBase64Encode1, xmlSecBase64Encode2, xmlSecBase64Encode3,
      xmlSecBase64Encode4.
    rewrite Ea, Eb.
    destruct (base64_at_sextet _ A1) as [C1 X1].
    destruct (base64_at_sextet (16 * ha + Z.land (Z.shiftr b 4) 15)
                ltac:(lia)) as [C2 X2].
    destruct (base64_at_sextet (4 * hb + Z.land (Z.shiftr c 6) 3)
                ltac:(lia)) as [C3 X3].
    destruct (base64_at_sextet _ C2') as [C4 X4].
    rewrite (sextets_of_char _ _ C1), (sextets_of_char _ _ C2),
      (sextets_of_char _ _ C3), (sextets_of_char _ _ C4), X1, X2, X3, X4, Hsx.
    cbn [option_map].
    eexists. split; [reflexivity|]. cbn [bytes_of_sextets]. rewrite Hbytes.
    cbn [option_map].
    rewrite Decode3_Encode by assumption.
    rewrite <- Eb, Decode2_Encode by assumption.
    rewrite <- Ea, Decode1_Encode by assumption.
    reflexivity.
Qed.
End Base64EFacts.

(** X20. [xmlSecBase64Encode(buf, len, columns)] returns the characters of the
    bytes, four for each block of three bytes and four for a last block of
    one or two bytes, with a line feed after every [columns] characters
    when [columns] is not 0, as long as the size of the buffer it
    allocates fits an [int]: the buffer is then large enough and none of
    the counts of characters, which the code keeps in [int]s, wraps
    around.  Without line breaks the size fits for data of up to
    1610612732 bytes. *)
Theorem Base64Encode_result (buf : list Z) (columns : Z) :
  0 <= columns <= INT_MAX ->
  encode_buffer_size (Z.of_nat (length buf)) columns <= INT_MAX ->
  Base64E.xmlSecBase64Encode buf columns
  = Ok (wrap_lines columns 0 (encode_blocks 0 0 buf))
  /\ Z.of_nat (length (encode_blocks 0 0 buf))
     = 4 * ((Z.of_nat (length buf) + 2) / 3)
  /\ wrap_lines 0 0 (encode_blocks 0 0 buf) = encode_blocks 0 0 buf
  /\ (forall len, encode_buffer_size len 0 <= INT_MAX <-> len <= 1610612732).
Proof.
  intros Hc Hs. split; [by apply Base64EFacts.Encode_eq|].
  split; [apply Base64EFacts.encode_blocks_length|].
  split; [apply Base64EFacts.wrap_lines_0|].
  intros len. unfold encode_buffer_size, INT_MAX. cbn [Z.ltb Z.compare].
  Z.div_mod_to_equations. lia.
Qed.

Lemma Base64Encode_result_witness :
  Base64E.xmlSecBase64Encode (BAD_CAST "ABCDEF") 4
  = Ok (BAD_CAST "QUJD" ++ [10] ++ BAD_CAST "REVG").
Proof.
  rewrite (proj1 (Base64Encode_result (BAD_CAST "ABCDEF") 4
                    ltac:(vm_compute; split; discriminate)
                    ltac:(vm_compute; discriminate))).
  reflexivity.
Defined.

(** X21. Encoding and then decoding gives the bytes back, with or without line
    breaks, when the size of the buffer of the encoder fits an [int] and
    the buffer of the decoder is longer than the data. *)
Theorem Base64_round_trip (buf : list Z) (columns len : Z) :
  Forall is_byte buf -> 0 <= columns <= INT_MAX ->
  encode_buffer_size (Z.of_nat (length buf)) columns <= INT_MAX ->
  Z.of_nat (length buf) < len ->
  exists str,
    Base64E.xmlSecBase64Encode buf columns = Ok str
    /\ Base64C.xmlSecBase64Decode str len = Ok buf.
Proof.
  intros Hb Hc Hs Hl. eexists. split; [by apply Base64EFacts.Encode_eq|].
  apply Base64Facts.Decode_iff. split; [|assumption].
  unfold decoded. rewrite Base64EFacts.sextets_of_wrap_lines.
  destruct (Base64EFacts.encode_blocks_decoded buf 0 0 Hb)
    as (sx & -> & Hsx); [unfold is_byte; lia | unfold is_byte; lia|].
  exact Hsx.
Qed.

Lemma Base64_round_trip_witness :
  exists str,
    Base64E.xmlSecBase64Encode [255; 255; 255; 0] 2 = Ok str
    /\ Base64C.xmlSecBase64Decode str 5 = Ok [255; 255; 255; 0].
Proof.
  apply (Base64_round_trip [255; 255; 255; 0] 2 5).
  - repeat constructor; unfold is_byte; lia.
  - vm_compute. split; discriminate.
  - vm_compute. discriminate.
  - cbn [length]. lia.
Defined.

Lemma encode_blocks_snoc (tail : list Z) pre : forall s1 s2,
  (length pre mod 3 = 0)%nat ->
  forall x y z,
    encode_blocks s1 s2 (pre ++ x :: y :: z :: tail)
    = encode_blocks s1 s2 (pre ++ [x; y; z]) ++ encode_blocks y z tail.
Proof.
  induction pre as [|a|a b|a b c rest IH] using list_ind3;
    intros s1 s2 Hm x y z; try discriminate Hm.
  - reflexivity.
  - cbn [app encode_blocks]. rewrite IH; [reflexivity|].
    cbn [length] in Hm.
    replace (S (S (S (length rest)))) with (length rest + 1 * 3)%nat in Hm
      by lia.
    by rewrite Nat.Div0.mod_add in Hm.
Qed.

(** X22. The characters for a last block of one or two bytes depend on the
    block before it: the bits that pad the last character come from the
    second byte of that block (for one byte) or its third byte (for two
    bytes), not from zero.  So the encoding of data is in general not the
    encoding of its first blocks followed by the encoding of the rest.
    The data are short enough for the size of the buffer of
    [xmlSecBase64Encode] to fit an [int]. *)
Theorem Base64Encode_last_block_depends_on_the_block_before
    (pre : list Z) (x y z a b : Z) (s : list Z) :
  (length pre mod 3 = 0)%nat ->
  encode_buffer_size (Z.of_nat (length pre) + 5) 0 <= INT_MAX ->
  Base64E.xmlSecBase64Encode (pre ++ [x; y; z]) 0 = Ok s ->
  Base64E.xmlSecBase64Encode (pre ++ [x; y; z; a]) 0
  = Ok (s ++ [Base64E.xmlSecBase64Encode1 a;
              Base64E.xmlSecBase64Encode2 a y; 61; 61])
  /\ Base64E.xmlSecBase64Encode (pre ++ [x; y; z; a; b]) 0
     = Ok (s ++ [Base64E.xmlSecBase64Encode1 a;
                 Base64E.xmlSecBase64Encode2 a b;
                 Base64E.xmlSecBase64Encode3 b z; 61])
  /\ Base64E.xmlSecBase64Encode [a] 0
     = Ok [Base64E.xmlSecBase64Encode1 a; Base64E.xmlSecBase64Encode2 a 0;
           61; 61]
  /\ Base64E.xmlSecBase64Encode [a; b] 0
     = Ok [Base64E.xmlSecBase64Encode1 a; Base64E.xmlSecBase64Encode2 a b;
           Base64E.xmlSecBase64Encode3 b 0; 61]
  /\ (is_byte a -> 16 <= y < 256 ->
      Base64E.xmlSecBase64Encode2 a y <> Base64E.xmlSecBase64Encode2 a 0)
  /\ (is_byte b -> 64 <= z < 256 ->
      Base64E.xmlSecBase64Encode3 b z <> Base64E.xmlSecBase64Encode3 b 0).
Proof.
  intros Hm Hsize Hs.
  assert (H0 : 0 <= 0 <= INT_MAX) by (vm_compute; split; discriminate).
  assert (Hfit : forall l : list Z,
             Z.of_nat (length l) <= Z.of_nat (length pre) + 5 ->
             encode_buffer_size (Z.of_nat (length l)) 0 <= INT_MAX).
  { intros l Hl. unfold encode_buffer_size in *. cbn [Z.ltb Z.compare] in *.
    assert (4 * Z.of_nat (length l) / 3
            <= 4 * (Z.of_nat (length pre) + 5) / 3)
      by (apply Z.div_le_mono; lia).
    lia. }
  rewrite !Base64EFacts.Encode_eq in *
    by (first [assumption | apply Hfit; rewrite ?length_app; cbn [length]; lia]).
  rewrite !Base64EFacts.wrap_lines_0 in *. injection Hs as <-.
  split; [|split; [|split; [|split; [|split]]]].
  - by rewrite (encode_blocks_snoc [a]).
  - by rewrite (encode_blocks_snoc [a; b]).
  - reflexivity.
  - reflexivity.
  - intros Ha Hy.
    pose proof (Base64EFacts.forallb_seqZ
      (fun a => forallb (fun y =>
         (y <? 16)
         || negb (Base64E.xmlSecBase64Encode2 a y
                  =? Base64E.xmlSecBase64Encode2 a 0)) (seqZ 0 256)) 256
      ltac:(vm_compute; reflexivity) a Ha) as H.
    pose proof (Base64EFacts.forallb_seqZ _ 256 H y ltac:(lia)) as H'.
    apply orb_true_iff in H' as [H'|H']; [apply Z.ltb_lt in H'; lia|].
    apply negb_true_iff, Z.eqb_neq in H'. exact H'.
  - intros Hb Hz.
    pose proof (Base64EFacts.forallb_seqZ
      (fun b => forallb (fun z =>
         (z <? 64)
         || negb (Base64E.xmlSecBase64Encode3 b z
                  =? Base64E.xmlSecBase64Encode3 b 0)) (seqZ 0 256)) 256
      ltac:(vm_compute; reflexivity) b Hb) as H.
    pose proof (Base64EFacts.forallb_seqZ _ 256 H z ltac:(lia)) as H'.
    apply orb_true_iff in H' as [H'|H']; [apply Z.ltb_lt in H'; lia|].
    apply negb_true_iff, Z.eqb_neq in H'. exact H'.
Qed.

(** The bytes FF FF FF 00: the last block 00 is written AP== and not
    AA==. *)
Lemma Base64Encode_last_block_depends_on_the_block_before_witness :
  Base64E.xmlSecBase64Encode ([] ++ [255; 255; 255; 0]) 0
  = Ok (BAD_CAST "////" ++ BAD_CAST "AP==")
  /\ Base64E.xmlSecBase64Encode [0] 0 = Ok (BAD_CAST "AA==").
Proof.
  destruct (Base64Encode_last_block_depends_on_the_block_before
              [] 255 255 255 0 0 (BAD_CAST "////") eq_refl
              ltac:(vm_compute; discriminate)
              ltac:(vm_compute; reflexivity))
    as (H1 & _ & H3 & _).
  split; [exact H1 | exact H3].
Defined.

(** X23. [xmlSecOpenSSLX509_NAME_ENTRY_cmp] is a comparison function a
    sort can rely on: an entry compares equal to itself, swapping the
    arguments swaps the sign, the order is transitive, and only equal
    entries (same value bytes, same attribute type) compare equal.  The
    length of the value decides first: an entry with a shorter value comes
    before every entry with a longer one, whatever the bytes are. *)
Theorem NAME_ENTRY_cmp_is_a_total_order :
  (forall a, xmlSecOpenSSLX509_NAME_ENTRY_cmp a a = 0)
  /\ (forall a b,
        Z.sgn (xmlSecOpenSSLX509_NAME_ENTRY_cmp b a)
        = - Z.sgn (xmlSecOpenSSLX509_NAME_ENTRY_cmp a b))
  /\ (forall a b c,
        xmlSecOpenSSLX509_NAME_ENTRY_cmp a b <= 0 ->
        xmlSecOpenSSLX509_NAME_ENTRY_cmp b c <= 0 ->
        xmlSecOpenSSLX509_NAME_ENTRY_cmp a c <= 0)
  /\ (forall a b, xmlSecOpenSSLX509_NAME_ENTRY_cmp a b = 0 <-> a = b)
  /\ (forall a b,
        (length (ne_value a) < length (ne_value b))%nat ->
        xmlSecOpenSSLX509_NAME_ENTRY_cmp a b < 0).
Proof.
  pose proof NAME_ENTRY_cmp_good as G.
  split; [apply (gc_refl _ G)|].
  split; [intros a b; rewrite (gc_opp _ G a b); apply Z.sgn_opp|].
  split; [apply (gc_trans _ G)|].
  split.
  - intros a b. split; [apply (gc_zero _ G)|]. intros ->. apply (gc_refl _ G).
  - intros a b Hl. unfold xmlSecOpenSSLX509_NAME_ENTRY_cmp. cbv zeta.
    replace (Z.of_nat (length (ne_value a)) - Z.of_nat (length (ne_value b)) =? 0)
      with false by (symmetry; apply Z.eqb_neq; lia).
    cbn [negb]. lia.
Qed.

(** X24. Decoding a text in two pieces gives what decoding it at once
    gives: when [xmlSecBase64CtxUpdate] is called on a fresh context with
    the first piece and then with the second, each time into a buffer it
    does not fill, and [xmlSecBase64CtxFinal] succeeds, the bytes written
    by the three calls are, in this order, the bytes [xmlSecBase64Decode]
    returns for the whole text.  The pieces may be cut anywhere, also
    inside a group of four characters or inside the padding. *)
Theorem Base64Decode_in_pieces (a b : list Z) (size1 size2 size3 : Z)
    (ctx1 ctx2 : Base64C.xmlSecBase64Ctx) (out1 out2 out3 : list Z) :
  Base64C.xmlSecBase64CtxUpdate (S (length a)) (Base64C.mkCtx [] [] 0) a
    size1 [] = Ok (ctx1, out1) ->
  Z.of_nat (length out1) < size1 ->
  Base64C.xmlSecBase64CtxUpdate (S (length b)) ctx1 b size2 []
  = Ok (ctx2, out2) ->
  Z.of_nat (length out2) < size2 ->
  Base64C.xmlSecBase64CtxFinal 8 ctx2 size3 [] = Ok out3 ->
  forall len,
    Z.of_nat (length (out1 ++ out2 ++ out3)) < len ->
    Base64C.xmlSecBase64Decode (a ++ b) len = Ok (out1 ++ out2 ++ out3).
Proof.
  intros H1 Hr1 H2 Hr2 H3 len Hlen.
  pose proof (Base64Facts.Update_spec (S (length a)) (Base64C.mkCtx [] [] 0)
                a size1 [] ltac:(lia) eq_refl ltac:(cbn; lia)) as HU1.
  rewrite H1 in HU1. destruct HU1 as (w1 & E1 & _ & Hroom1).
  cbn [app] in E1. subst w1.
  destruct (Hroom1 Hr1) as (Ho1 & Hl1 & Hd1).
  pose proof (Base64Facts.Update_spec (S (length b)) ctx1 b size2 []
                ltac:(lia) Ho1 Hl1) as HU2.
  rewrite H2 in HU2. destruct HU2 as (w2 & E2 & _ & Hroom2).
  cbn [app] in E2. subst w2.
  destruct (Hroom2 Hr2) as (Ho2 & Hl2 & Hd2).
  rewrite (Base64Facts.Final_spec ctx2 size3 Ho2 Hl2) in H3.
  apply Base64Facts.Decode_iff. split; [|assumption].
  cbn [Base64C.ctx_in Base64C.equalSigns] in Hd1.
  rewrite (Hd1 b). specialize (Hd2 []).
  rewrite app_nil_r, Base64Facts.decoded_nil in Hd2. rewrite Hd2.
  destruct (bytes_of_sextets (Base64C.ctx_in ctx2)) as [fin|];
    [|destruct (0 <? size3); discriminate].
  destruct (Z.of_nat (length fin) <? size3); [|discriminate].
  injection H3 as <-. reflexivity.
Qed.

(** The text QUJD cut after its second character. *)
Lemma Base64Decode_in_pieces_witness :
  Base64C.xmlSecBase64Decode (BAD_CAST "QU" ++ BAD_CAST "JD") 4
  = Ok ([] ++ BAD_CAST "ABC" ++ []).
Proof.
  apply (Base64Decode_in_pieces (BAD_CAST "QU") (BAD_CAST "JD") 4 4 4
           (Base64C.mkCtx [16; 20] [] 0) (Base64C.mkCtx [] [] 0)
           [] (BAD_CAST "ABC") []);
    first [reflexivity | vm_compute; reflexivity].
Defined.

Module Base64EStream.
Import Base64E Base64EFacts.

Lemma encode_blocks_two s1 s1' s2 l :
  (2 <= length l)%nat -> encode_blocks s1 s2 l = encode_blocks s1' s2 l.
Proof.
  destruct l as [|a [|b [|c rest]]]; cbn [length]; intros Hl;
    try lia; reflexivity.
Qed.

Lemma Update_no_room fuel ctx buf res ctx' out :
  xmlSecBase64CtxUpdate fuel ctx buf 0 res = Ok (ctx', out) -> out = res.
Proof.
  destruct fuel as [|fuel]; [discriminate|]. rewrite Update_enc_S.
  change (0 <? 0) with false. rewrite andb_false_r. by intros [= _ <-].
Qed.

Section Inv.
Variable cols : Z.

Lemma update_post_wait x0 x1 x2 x3 p lp buf outSize res y0 y1 y2 y3 p' :
  0 <= p' < 3 ->
  (forall more,
      enc_rest [x0; x1; x2; x3] p (buf ++ more)
      = enc_rest [y0; y1; y2; y3] p' more) ->
  update_post cols [x0; x1; x2; x3] p lp buf outSize res
    (mkCtx [y0; y1; y2; y3] p' [] lp cols) res.
Proof.
  intros Hp' He. exists []. split; [by rewrite app_nil_r|].
  intros _. exists y0, y1, y2, y3, p', [].
  split; [reflexivity|]. split; [assumption|]. split; [reflexivity|].
  exact He.
Qed.

Lemma Update_enc_inv fuel : forall buf x0 x1 x2 x3 p lp outSize res ctx' out,
  0 <= p < 3 ->
  xmlSecBase64CtxUpdate fuel (mkCtx [x0; x1; x2; x3] p [] lp cols) buf
    outSize res = Ok (ctx', out) ->
  update_post cols [x0; x1; x2; x3] p lp buf outSize res ctx' out.
Proof.
  induction fuel as [|fuel IH];
    intros buf x0 x1 x2 x3 p lp outSize res ctx' out Hp; [discriminate|].
  rewrite Update_enc_S.
  destruct (0 <? Z.of_nat (length buf)) eqn:Eb; cbn [andb].
  2:{ intros [= <- <-]. apply Z.ltb_ge in Eb.
      assert (buf = []) as ->
        by (destruct buf; [reflexivity | cbn [length] in Eb; lia]).
      apply update_post_wait; [assumption | reflexivity]. }
  destruct (0 <? outSize) eqn:Es.
  2:{ intros [= <- <-]. apply Z.ltb_ge in Es. exists [].
      split; [by rewrite app_nil_r|]. cbn [length]. lia. }
  apply Z.ltb_lt in Es.
  (* the step that follows a push that completes a block *)
  assert (Hblock : forall y0 y1 y2 rest,
             (forall more,
                 enc_rest [x0; x1; x2; x3] p (buf ++ more)
                 = block_chars [y0; y1; y2; x3] 3
                   ++ enc_rest [y0; y1; y2; x3] 0 (rest ++ more)) ->
             (let '(ctx, written) :=
                xmlSecBase64CtxPop (mkCtx [y0; y1; y2; x3] 3 [] lp cols)
                  outSize false in
              match written with
              | [] => Ok (ctx, res)
              | _ => xmlSecBase64CtxUpdate fuel ctx rest
                       (outSize - Z.of_nat (length written)) (res ++ written)
              end) = Ok (ctx', out) ->
             update_post cols [x0; x1; x2; x3] p lp buf outSize res ctx' out).
  { intros y0 y1 y2 rest He. rewrite Pop_encode by (auto; lia). cbv zeta.
    set (chars := block_chars [y0; y1; y2; x3] 3) in *.
    set (chunk := wrap_lines cols lp chars).
    assert (Hne : (4 <= length chunk)%nat)
      by (pose proof (wrap_lines_length cols lp chars) as H;
          cbn [chars block_chars length] in H; exact H).
    destruct (decide (Z.of_nat (length chunk) < outSize)) as [Hroom|Hroom].
    - replace (Z.to_nat (Z.min (Z.of_nat (length chunk)) outSize))
        with (length chunk) by lia.
      rewrite take_ge, drop_ge by lia.
      destruct chunk as [|c0 chunk'] eqn:Ec; [cbn [length] in Hne; lia|].
      rewrite <- Ec in *. intros HU.
      apply IH in HU; [|lia].
      destruct HU as (w & -> & Hw). exists (chunk ++ w).
      split; [by rewrite app_assoc|]. intros Hr.
      rewrite length_app in Hr.
      destruct (Hw ltac:(lia)) as (z0 & z1 & z2 & z3 & p' & chars' & -> & Hp'
                                   & -> & He').
      exists z0, z1, z2, z3, p', (chars ++ chars').
      split; [|split; [assumption|split]].
      + f_equal. clear. revert lp.
        induction chars as [|ch chars IH]; intros lp;
          cbn [app line_pos_after]; [reflexivity|].
        destruct (_ && _); apply IH.
      + subst chunk. symmetry. apply wrap_lines_app.
      + intros more. rewrite He, He', app_assoc. reflexivity.
    - set (n := Z.to_nat (Z.min (Z.of_nat (length chunk)) outSize)).
      assert (Hn : (1 <= n <= length chunk)%nat /\ Z.of_nat n = outSize)
        by lia.
      destruct (take n chunk) as [|c0 w] eqn:Et.
      { apply (f_equal length) in Et. rewrite length_take in Et.
        cbn [length] in Et. lia. }
      rewrite <- Et.
      assert (Hlen : Z.of_nat (length (take n chunk)) = outSize)
        by (rewrite length_take; lia).
      rewrite Hlen, Z.sub_diag. intros HU. apply Update_no_room in HU.
      subst out. exists (take n chunk). split; [reflexivity|]. lia. }
  assert (Hcases : p = 0 \/ p = 1 \/ p = 2) by lia.
  destruct Hcases as [-> | [-> | ->]].
  - destruct buf as [|a [|b [|c rest]]]; [discriminate Eb| | |].
    + change (xmlSecBase64CtxPush (mkCtx [x0; x1; x2; x3] 0 [] lp cols) [a])
        with (mkCtx [a; x1; x2; x3] 1 [] lp cols, 1).
      cbv iota beta. rewrite Pop_wait by lia. intros [= <- <-].
      apply update_post_wait; [lia | reflexivity].
    + change (xmlSecBase64CtxPush (mkCtx [x0; x1; x2; x3] 0 [] lp cols) [a; b])
        with (mkCtx [a; b; x2; x3] 2 [] lp cols, 2).
      cbv iota beta. rewrite Pop_wait by lia. intros [= <- <-].
      apply update_post_wait; [lia|]. intros more. unfold enc_rest.
      change (Z.to_nat 0) with 0%nat. change (Z.to_nat 2) with 2%nat.
      cbn [nth take app]. apply encode_blocks_two. cbn [length]. lia.
    + rewrite Push_block. cbv iota beta. change (Z.to_nat 3) with 3%nat.
      cbn [drop]. apply Hblock. intros more. reflexivity.
  - destruct buf as [|b [|c rest]]; [discriminate Eb| |].
    + change (xmlSecBase64CtxPush (mkCtx [x0; x1; x2; x3] 1 [] lp cols) [b])
        with (mkCtx [x0; b; x2; x3] 2 [] lp cols, 1).
      cbv iota beta. rewrite Pop_wait by lia. intros [= <- <-].
      apply update_post_wait; [lia|]. intros more. unfold enc_rest.
      change (Z.to_nat 1) with 1%nat. change (Z.to_nat 2) with 2%nat.
      cbn [nth take app]. apply encode_blocks_two. cbn [length]. lia.
    + assert (EP : xmlSecBase64CtxPush (mkCtx [x0; x1; x2; x3] 1 [] lp cols)
                     (b :: c :: rest)
                   = (mkCtx [x0; b; c; x3] 3 [] lp cols, 2)).
      { unfold xmlSecBase64CtxPush.
        cbn [inPos ctx_in ctx_out linePos columns].
        replace (0 <? Z.of_nat (length (b :: c :: rest))) with true
          by (symmetry; apply Z.ltb_lt; cbn [length]; lia).
        replace (Z.min (Z.of_nat (length (b :: c :: rest))) (3 - 1)) with 2
          by (cbn [length]; lia).
        reflexivity. }
      rewrite EP. cbv iota beta. change (Z.to_nat 2) with 2%nat.
      cbn [drop]. apply Hblock. intros more. reflexivity.
  - destruct buf as [|c rest]; [discriminate Eb|].
    assert (EP : xmlSecBase64CtxPush (mkCtx [x0; x1; x2; x3] 2 [] lp cols)
                   (c :: rest)
                 = (mkCtx [x0; x1; c; x3] 3 [] lp cols, 1)).
    { unfold xmlSecBase64CtxPush.
      cbn [inPos ctx_in ctx_out linePos columns].
      replace (0 <? Z.of_nat (length (c :: rest))) with true
        by (symmetry; apply Z.ltb_lt; cbn [length]; lia).
      replace (Z.min (Z.of_nat (length (c :: rest))) (3 - 2)) with 1
        by (cbn [length]; lia).
      reflexivity. }
    rewrite EP. cbv iota beta. change (Z.to_nat 1) with 1%nat.
    cbn [drop]. apply Hblock. intros more. reflexivity.
Qed.

Lemma Final_enc_inv i p lp outLen out :
  0 <= p < 3 ->
  xmlSecBase64CtxFinal 24 (mkCtx i p [] lp cols) outLen [] = Ok out ->
  out = wrap_lines cols lp (if p =? 0 then [] else block_chars i p).
Proof.
  intros Hp HF.
  set (chunk := if p =? 0 then [] else wrap_lines cols lp (block_chars i p)).
  assert (Ec : wrap_lines cols lp (if p =? 0 then [] else block_chars i p)
               = chunk) by (unfold chunk; destruct (p =? 0); reflexivity).
  rewrite Ec.
  destruct (decide (Z.of_nat (length chunk) < outLen)) as [Hroom|Hroom].
  - rewrite (Final_block i p lp cols outLen) in HF by (auto; lia).
    by injection HF as <-.
  - exfalso. rewrite Final_enc_S in HF. cbn [length] in HF.
    destruct (Z.of_nat 0 <? outLen) eqn:E0; [|discriminate].
    apply Z.ltb_lt in E0.
    destruct (p =? 0) eqn:Ep.
    { unfold chunk in Hroom. cbn [length] in Hroom. lia. }
    apply Z.eqb_neq in Ep.
    rewrite Pop_encode in HF by (auto using orb_true_r). cbv zeta in HF.
    fold chunk in HF.
    set (n := Z.to_nat (Z.min (Z.of_nat (length chunk))
                          (outLen - Z.of_nat 0))) in HF.
    assert (Hn : (1 <= n <= length chunk)%nat /\ Z.of_nat n = outLen) by lia.
    destruct (take n chunk) as [|c0 w] eqn:Et.
    { apply (f_equal length) in Et. rewrite length_take in Et.
      cbn [length] in Et. lia. }
    rewrite <- Et in HF. cbn [app] in HF. rewrite Final_enc_S in HF.
    replace (Z.of_nat (length (take n chunk)) <? outLen) with false in HF
      by (symmetry; apply Z.ltb_ge; rewrite length_take; lia).
    discriminate.
Qed.
End Inv.
End Base64EStream.

(** X25. Encoding data in two pieces gives what encoding it at once
    gives: when [xmlSecBase64CtxUpdate] is called on a fresh context with
    the first piece and then with the second, each time into a buffer it
    does not fill, and [xmlSecBase64CtxFinal] succeeds, the characters
    written by the three calls are, in this order, the string
    [xmlSecBase64Encode] returns for the whole data, line breaks
    included, when the data are short enough for the size of the buffer of
    that function to fit an [int].  The pieces may be cut anywhere. *)
Theorem Base64Encode_in_pieces (a b : list Z) (columns : Z)
    (size1 size2 size3 : Z) (ctx1 ctx2 : Base64E.xmlSecBase64Ctx)
    (out1 out2 out3 : list Z) :
  0 <= columns <= INT_MAX ->
  encode_buffer_size (Z.of_nat (length (a ++ b))) columns <= INT_MAX ->
  Base64E.xmlSecBase64CtxUpdate (S (length a))
    (Base64E.xmlSecBase64CtxCreate columns) a size1 [] = Ok (ctx1, out1) ->
  Z.of_nat (length out1) < size1 ->
  Base64E.xmlSecBase64CtxUpdate (S (length b)) ctx1 b size2 []
  = Ok (ctx2, out2) ->
  Z.of_nat (length out2) < size2 ->
  Base64E.xmlSecBase64CtxFinal 24 ctx2 size3 [] = Ok out3 ->
  Base64E.xmlSecBase64Encode (a ++ b) columns = Ok (out1 ++ out2 ++ out3).
Proof.
  intros Hc Hs H1 Hr1 H2 Hr2 H3.
  rewrite Base64EFacts.Encode_eq by assumption.
  unfold Base64E.xmlSecBase64CtxCreate in H1.
  rewrite Z.mod_small in H1 by (unfold INT_MAX in Hc; lia).
  apply Base64EStream.Update_enc_inv in H1; [|lia].
  destruct H1 as (w1 & E1 & Hw1). cbn [app] in E1. subst w1.
  destruct (Hw1 Hr1) as (y0 & y1 & y2 & y3 & p1 & chars1 & -> & Hp1 & -> & He1).
  apply Base64EStream.Update_enc_inv in H2; [|assumption].
  destruct H2 as (w2 & E2 & Hw2). cbn [app] in E2. subst w2.
  destruct (Hw2 Hr2) as (z0 & z1 & z2 & z3 & p2 & chars2 & -> & Hp2 & -> & He2).
  apply Base64EStream.Final_enc_inv in H3; [|assumption]. subst out3.
  assert (E : encode_blocks 0 0 (a ++ b)
              = chars1 ++ chars2
                ++ (if p2 =? 0 then []
                    else block_chars [z0; z1; z2; z3] p2)).
  { change (encode_blocks 0 0 (a ++ b))
      with (enc_rest [0; 0; 0; 0] 0 (a ++ b)).
    rewrite He1. f_equal. specialize (He2 []). rewrite app_nil_r in He2.
    rewrite He2. f_equal. unfold enc_rest. rewrite app_nil_r.
    assert (Hcases : p2 = 0 \/ p2 = 1 \/ p2 = 2) by lia.
    destruct Hcases as [-> | [-> | ->]]; reflexivity. }
  rewrite E, !Base64EFacts.wrap_lines_app. reflexivity.
Qed.

(** The bytes ABCDEFG cut after the second byte, lines of four
    characters. *)
Lemma Base64Encode_in_pieces_witness :
  Base64E.xmlSecBase64Encode (BAD_CAST "AB" ++ BAD_CAST "CDEFG") 4
  = Ok ([] ++ (BAD_CAST "QUJD" ++ [10] ++ BAD_CAST "REVG")
        ++ [10] ++ BAD_CAST "R0==").
Proof.
  apply (Base64Encode_in_pieces (BAD_CAST "AB") (BAD_CAST "CDEFG") 4
           16 16 16
           (Base64E.mkCtx [65; 66; 0; 0] 2 [] 0 4)
           (Base64E.mkCtx [71; 69; 70; 0] 1 [] 4 4));
    first [reflexivity
          | vm_compute; first [reflexivity | split; discriminate | discriminate]].
Defined.

Lemma NameRead_items `{Backend} (items : list dn_item) es :
  forallb clean_item items = true -> entries_of items = Some es ->
  xmlSecOpenSSLX509NameRead (render_items items) = Ok es.
Proof.
  intros Hc He. unfold xmlSecOpenSSLX509NameRead.
  rewrite NameRead_loop_items, He; auto; apply length_replicate.
Qed.

Lemma find_ext_bool {A : Type} (f g : A -> bool) l :
  (forall x, f x = g x) -> find f l = find g l.
Proof.
  intros H. induction l as [|a l IH]; cbn [find]; [reflexivity|].
  by rewrite H, IH.
Qed.

Lemma find_first {A : Type} (f : A -> bool) l x :
  find f l = Some x ->
  exists pre post,
    l = pre ++ x :: post /\ f x = true /\ forall c, In c pre -> f c = false.
Proof.
  induction l as [|a l IH]; cbn [find]; [discriminate|].
  destruct (f a) eqn:E.
  - intros [= <-]. exists [], l. split; [reflexivity|].
    split; [assumption|]. intros c [].
  - intros Hf. destruct (IH Hf) as (pre & post & -> & Hx & Hpre).
    exists (a :: pre), post. split; [reflexivity|]. split; [assumption|].
    intros c [<-|Hin]; [assumption | by apply Hpre].
Qed.

(** X26. A lookup by subject name does not depend on the order of the
    items in the text nor on the white space around them: two well-formed
    texts whose items give the same entries, in any order, select the same
    certificate of the store.  The certificate found is the first of the
    untrusted pool whose subject holds exactly these entries; when the
    pool has none, nothing is found and this lookup reports no error. *)
Theorem StoreFindCert_by_subject_ignores_order_and_spacing `{Backend}
    (ctx : xmlSecOpenSSLX509StoreCtx) (items1 items2 : list dn_item)
    (es1 es2 : list X509_NAME_ENTRY) :
  forallb clean_item items1 = true -> forallb clean_item items2 = true ->
  entries_of items1 = Some es1 -> entries_of items2 = Some es2 ->
  es1 ≡ₚ es2 ->
  let lookup text :=
    xmlSecOpenSSLX509StoreFindCert_ex ctx (Some text) None None None in
  lookup (render_items items1) = lookup (render_items items2)
  /\ (forall cert,
        lookup (render_items items1) = Ok (Some cert) ->
        exists pre post,
          untrusted ctx = pre ++ cert :: post
          /\ x509_subject cert ≡ₚ es1
          /\ forall c, In c pre -> ~ x509_subject c ≡ₚ es1)
  /\ ((forall c, In c (untrusted ctx) -> ~ x509_subject c ≡ₚ es1) ->
      lookup (render_items items1) = Ok None).
Proof.
  intros Hc1 Hc2 He1 He2 Hp lookup.
  assert (EL : forall items es,
             forallb clean_item items = true -> entries_of items = Some es ->
             lookup (render_items items)
             = Ok (find (fun cert =>
                           xmlSecOpenSSLX509NamesCompare es (x509_subject cert)
                           =? 0) (untrusted ctx))).
  { intros items es Hc He. unfold lookup, xmlSecOpenSSLX509StoreFindCert_ex,
      xmlSecOpenSSLX509FindCert, find_by_subject.
    rewrite (NameRead_items items es Hc He). cbn [mbind result_bind].
    destruct (find _ (untrusted ctx)); reflexivity. }
  assert (Hiff : forall es c,
             (xmlSecOpenSSLX509NamesCompare es (x509_subject c) =? 0) = true
             <-> x509_subject c ≡ₚ es).
  { intros es c. rewrite Z.eqb_eq, NamesCompare_zero_iff_perm.
    split; intros Hx; by symmetry. }
  rewrite (EL items1 es1 Hc1 He1), (EL items2 es2 Hc2 He2).
  split; [|split].
  - f_equal. apply find_ext_bool. intros c.
    destruct (xmlSecOpenSSLX509NamesCompare es1 (x509_subject c) =? 0) eqn:E1;
      destruct (xmlSecOpenSSLX509NamesCompare es2 (x509_subject c) =? 0) eqn:E2;
      try reflexivity.
    + apply Hiff in E1. rewrite Hp in E1. apply Hiff in E1. congruence.
    + apply Hiff in E2. rewrite <- Hp in E2. apply Hiff in E2. congruence.
  - intros cert [= Hf].
    destruct (find_first _ _ _ Hf) as (pre & post & E & Hx & Hpre).
    exists pre, post. split; [assumption|]. split; [by apply Hiff|].
    intros c Hin Hc. apply Hiff in Hc. rewrite (Hpre c Hin) in Hc.
    discriminate.
  - intros Hno. f_equal.
    destruct (find _ (untrusted ctx)) as [c|] eqn:Ef; [|reflexivity].
    apply find_some in Ef as [Hin Hc]. apply Hiff in Hc.
    destruct (Hno c Hin Hc).
Qed.

(** The texts [CN=Leaf,O=X] and [ O=X , CN=Leaf]. *)
Lemma StoreFindCert_by_subject_ignores_order_and_spacing_witness :
  xmlSecOpenSSLX509StoreFindCert_ex (H := Ref.backend)
    (mkStore [] [Ref.Root; Ref.Leaf] []) (Some (BAD_CAST "CN=Leaf,O=X"))
    None None None
  = xmlSecOpenSSLX509StoreFindCert_ex (H := Ref.backend)
      (mkStore [] [Ref.Root; Ref.Leaf] []) (Some (BAD_CAST " O=X , CN=Leaf"))
      None None None.
Proof.
  apply (proj1 (StoreFindCert_by_subject_ignores_order_and_spacing
                  (H := Ref.backend) (mkStore [] [Ref.Root; Ref.Leaf] [])
                  [mkItem [] (BAD_CAST "CN") (BAD_CAST "Leaf") [];
                   mkItem [] (BAD_CAST "O") (BAD_CAST "X") []]
                  [mkItem [32] (BAD_CAST "O") (BAD_CAST "X") [32];
                   mkItem [32] (BAD_CAST "CN") (BAD_CAST "Leaf") []]
                  [mkEntry Ref.OID_CN (BAD_CAST "Leaf");
                   mkEntry Ref.OID_O (BAD_CAST "X")]
                  [mkEntry Ref.OID_O (BAD_CAST "X");
                   mkEntry Ref.OID_CN (BAD_CAST "Leaf")]
                  eq_refl eq_refl eq_refl eq_refl (perm_swap _ _ _))).
Defined.

Module Base64Bounds.

Lemma dec_Pop_bounds ctx outSize final :
  0 <= outSize -> dec_ctx_ok ctx ->
  match Base64C.xmlSecBase64CtxPop ctx outSize final with
  | Ok (ctx', w) => Z.of_nat (length w) <= outSize /\ dec_ctx_ok ctx'
  | Error _ => True
  | _ => False
  end.
Proof.
  intros Hs [Hi Ho]. unfold Base64C.xmlSecBase64CtxPop.
  assert (Hd : match Base64C.xmlSecBase64CtxDecode ctx with
               | Ok c => dec_ctx_ok c
               | Error _ => True
               | _ => False
               end).
  { unfold Base64C.xmlSecBase64CtxDecode.
    destruct (0 <? Z.of_nat (length (Base64C.ctx_out ctx))); [by split|].
    destruct (Base64C.ctx_in ctx) as [|a [|b [|c [|d more]]]] eqn:E;
      try exact I; split; cbn [Base64C.ctx_in Base64C.ctx_out length app];
      try rewrite E; cbn [length]; lia. }
  destruct (_ && _).
  - destruct (Base64C.xmlSecBase64CtxDecode ctx) as [c|m| |];
      cbn [mbind result_bind mret result_ret]; try assumption.
    destruct Hd as [Hi' Ho']. split.
    + rewrite length_take. lia.
    + split; cbn [Base64C.ctx_in Base64C.ctx_out]; [assumption|].
      rewrite length_drop. lia.
  - cbn [mbind result_bind mret result_ret]. split.
    + rewrite length_take. lia.
    + split; cbn [Base64C.ctx_in Base64C.ctx_out]; [assumption|].
      rewrite length_drop. lia.
Qed.

Lemma dec_Update_bounds fuel : forall ctx inp outSize res,
  0 <= outSize -> dec_ctx_ok ctx ->
  match Base64C.xmlSecBase64CtxUpdate fuel ctx inp outSize res with
  | Ok (ctx', res') =>
      (exists w, res' = res ++ w /\ Z.of_nat (length w) <= outSize)
      /\ dec_ctx_ok ctx'
  | Fault _ _ => False
  | _ => True
  end.
Proof.
  induction fuel as [|fuel IH]; intros ctx inp outSize res Hs Hok; [exact I|].
  cbn [Base64C.xmlSecBase64CtxUpdate].
  destruct (_ && _).
  2:{ split; [|assumption]. exists []. rewrite app_nil_r. cbn [length].
      split; [reflexivity | lia]. }
  pose proof (Base64Facts.Push_spec inp ctx 0) as HP.
  destruct (Base64C.xmlSecBase64CtxPush ctx inp 0) as [[ctx1 n]|m| |];
    cbn [mbind result_bind]; try exact I; try contradiction.
  destruct HP as (k & -> & Hk & Ho1 & _ & _ & Hle & _).
  destruct Hok as [Hi Ho].
  assert (Hok1 : dec_ctx_ok ctx1) by (split; [auto | by rewrite Ho1]).
  pose proof (dec_Pop_bounds ctx1 outSize false Hs Hok1) as HPop.
  destruct (Base64C.xmlSecBase64CtxPop ctx1 outSize false) as [[ctx2 w]|m| |];
    cbn [mbind result_bind]; try exact I; try contradiction.
  destruct HPop as [Hw Hok2].
  destruct w as [|c0 w'] eqn:Ew.
  - split; [|assumption]. exists []. rewrite app_nil_r. cbn [length].
    split; [reflexivity | lia].
  - rewrite <- Ew in *.
    specialize (IH ctx2 (drop (Z.to_nat (0 + Z.of_nat k)) inp)
                  (outSize - Z.of_nat (length w)) (res ++ w)
                  ltac:(lia) Hok2).
    destruct (Base64C.xmlSecBase64CtxUpdate fuel ctx2 _ _ _)
      as [[ctx' res']|m| |]; try exact I; try contradiction.
    destruct IH as [(w2 & -> & Hw2) Hok']. split; [|assumption].
    exists (w ++ w2). rewrite app_assoc, length_app.
    split; [reflexivity | lia].
Qed.

Lemma dec_Final_bounds fuel : forall ctx outLen res out,
  Base64C.xmlSecBase64CtxFinal fuel ctx outLen res = Ok out ->
  Z.of_nat (length out) < outLen.
Proof.
  induction fuel as [|fuel IH]; intros ctx outLen res out; [discriminate|].
  rewrite Base64Facts.Final_S.
  destruct (Z.of_nat (length res) <? outLen) eqn:E; [|discriminate].
  apply Z.ltb_lt in E.
  destruct (Base64C.xmlSecBase64CtxPop ctx _ true) as [[ctx2 w]|m| |];
    cbn [mbind result_bind]; try discriminate.
  destruct w as [|c0 w']; [by intros [= <-]|]. apply IH.
Qed.

Lemma enc_Push_ok ctx inp :
  enc_ctx_ok ctx ->
  enc_ctx_ok (Base64E.xmlSecBase64CtxPush ctx inp).1
  /\ Base64E.ctx_out (Base64E.xmlSecBase64CtxPush ctx inp).1
     = Base64E.ctx_out ctx.
Proof.
  intros (Hi & Hp & Ho). unfold Base64E.xmlSecBase64CtxPush. cbv zeta.
  destruct (_ && _) eqn:E; cbn [fst];
    [|split; [exact (conj Hi (conj Hp Ho)) | reflexivity]].
  apply andb_true_iff in E as [E1 E2].
  apply Z.ltb_lt in E1. apply Z.ltb_lt in E2.
  split; [|reflexivity].
  split; [|split];
    cbn [Base64E.ctx_in Base64E.inPos Base64E.ctx_out]; [|lia|assumption].
  rewrite !length_app, !length_take, length_drop. lia.
Qed.

Lemma enc_put_char_out ctx ch :
  (length (Base64E.ctx_out (Base64E.put_char ctx ch))
   <= length (Base64E.ctx_out ctx) + 2)%nat
  /\ Base64E.ctx_in (Base64E.put_char ctx ch) = Base64E.ctx_in ctx
  /\ Base64E.inPos (Base64E.put_char ctx ch) = Base64E.inPos ctx.
Proof.
  unfold Base64E.put_char. destruct (_ && _);
    cbn [Base64E.ctx_in Base64E.inPos Base64E.ctx_out];
    rewrite ?length_app; cbn [length]; repeat split; lia.
Qed.

Lemma enc_CtxEncode_ok ctx :
  enc_ctx_ok ctx -> enc_ctx_ok (Base64E.xmlSecBase64CtxEncode ctx).
Proof.
  intros (Hi & Hp & Ho). unfold Base64E.xmlSecBase64CtxEncode.
  destruct (0 <? Z.of_nat (length (Base64E.ctx_out ctx))) eqn:E0;
    [exact (conj Hi (conj Hp Ho))|].
  apply Z.ltb_ge in E0.
  destruct (Base64E.inPos ctx =? 0); [exact (conj Hi (conj Hp Ho))|].
  cbv zeta.
  set (c1 := Base64E.put_char ctx _).
  destruct (enc_put_char_out ctx
              (Base64E.xmlSecBase64Encode1 (nth 0 (Base64E.ctx_in ctx) 0)))
    as (L1 & I1 & P1). fold c1 in L1, I1, P1.
  set (c2 := Base64E.put_char c1 _).
  destruct (enc_put_char_out c1
              (Base64E.xmlSecBase64Encode2 (nth 0 (Base64E.ctx_in ctx) 0)
                 (nth 1 (Base64E.ctx_in ctx) 0)))
    as (L2 & I2 & P2). fold c2 in L2, I2, P2.
  set (c3 := Base64E.put_char c2 _).
  assert (H3 : (length (Base64E.ctx_out c3)
                <= length (Base64E.ctx_out c2) + 2)%nat
               /\ Base64E.ctx_in c3 = Base64E.ctx_in c2)
    by (unfold c3; split; apply enc_put_char_out).
  destruct H3 as [L3 I3].
  set (c4 := Base64E.put_char c3 _).
  assert (H4 : (length (Base64E.ctx_out c4)
                <= length (Base64E.ctx_out c3) + 2)%nat
               /\ Base64E.ctx_in c4 = Base64E.ctx_in c3)
    by (unfold c4; split; apply enc_put_char_out).
  destruct H4 as [L4 I4].
  split; [|split]; cbn [Base64E.ctx_in Base64E.inPos Base64E.ctx_out].
  - congruence.
  - lia.
  - lia.
Qed.

Lemma enc_Pop_bounds ctx outSize final :
  0 <= outSize -> enc_ctx_ok ctx ->
  Z.of_nat (length (Base64E.xmlSecBase64CtxPop ctx outSize final).2)
  <= outSize
  /\ enc_ctx_ok (Base64E.xmlSecBase64CtxPop ctx outSize final).1.
Proof.
  intros Hs Hok. unfold Base64E.xmlSecBase64CtxPop.
  set (c := if _ && _ then _ else ctx).
  assert (Hc : enc_ctx_ok c)
    by (unfold c; destruct (_ && _); [by apply enc_CtxEncode_ok | assumption]).
  destruct Hc as (Hi & Hp & Ho). cbn [fst snd]. split.
  - rewrite length_take. lia.
  - split; [|split]; cbn [Base64E.ctx_in Base64E.inPos Base64E.ctx_out];
      [assumption | assumption |]. rewrite length_drop. lia.
Qed.

Lemma enc_Update_bounds fuel : forall ctx inp outSize res ctx' res',
  0 <= outSize -> enc_ctx_ok ctx ->
  Base64E.xmlSecBase64CtxUpdate fuel ctx inp outSize res = Ok (ctx', res') ->
  (exists w, res' = res ++ w /\ Z.of_nat (length w) <= outSize)
  /\ enc_ctx_ok ctx'.
Proof.
  induction fuel as [|fuel IH]; intros ctx inp outSize res ctx' res' Hs Hok;
    [discriminate|].
  rewrite Base64EFacts.Update_enc_S.
  destruct (_ && _).
  2:{ intros [= <- <-]. split; [|assumption]. exists [].
      rewrite app_nil_r. cbn [length]. split; [reflexivity | lia]. }
  destruct (enc_Push_ok ctx inp Hok) as [Hok1 _].
  destruct (Base64E.xmlSecBase64CtxPush ctx inp) as [ctx1 n].
  cbn [fst] in Hok1.
  destruct (enc_Pop_bounds ctx1 outSize false Hs Hok1) as [Hw Hok2].
  destruct (Base64E.xmlSecBase64CtxPop ctx1 outSize false) as [ctx2 w].
  cbn [fst snd] in Hw, Hok2.
  destruct w as [|c0 w'] eqn:Ew.
  - intros [= <- <-]. split; [|assumption]. exists [].
    rewrite app_nil_r. cbn [length]. split; [reflexivity | lia].
  - rewrite <- Ew in *. intros HU.
    apply IH in HU; [|lia|assumption].
    destruct HU as [(w2 & -> & Hw2) Hok']. split; [|assumption].
    exists (w ++ w2). rewrite app_assoc, length_app.
    split; [reflexivity | lia].
Qed.

Lemma enc_Final_bounds fuel : forall ctx outLen res out,
  Base64E.xmlSecBase64CtxFinal fuel ctx outLen res = Ok out ->
  Z.of_nat (length out) < outLen.
Proof.
  induction fuel as [|fuel IH]; intros ctx outLen res out; [discriminate|].
  rewrite Base64EFacts.Final_enc_S.
  destruct (Z.of_nat (length res) <? outLen) eqn:E; [|discriminate].
  apply Z.ltb_lt in E.
  destruct (Base64E.xmlSecBase64CtxPop ctx _ true) as [ctx2 w].
  destruct w as [|c0 w']; [by intros [= <-]|]. apply IH.
Qed.
End Base64Bounds.

(** X27. The base64 context stays within its buffers, in both modes and
    from any state it can be in.  [xmlSecBase64CtxUpdate] writes at most
    [outSize] bytes and keeps the context within its arrays ([in] of 4
    bytes, [out] of 16, of which at most 3 are used when decoding and 8
    when encoding); what [xmlSecBase64CtxFinal] returns is shorter than
    [outLen], so that the terminating NUL fits.  A fresh context is within
    its arrays. *)
Theorem Base64Ctx_stays_within_its_buffers :
  (forall fuel ctx inp outSize ctx' out,
      0 <= outSize -> dec_ctx_ok ctx ->
      Base64C.xmlSecBase64CtxUpdate fuel ctx inp outSize [] = Ok (ctx', out) ->
      Z.of_nat (length out) <= outSize /\ dec_ctx_ok ctx')
  /\ (forall fuel ctx outLen out,
        Base64C.xmlSecBase64CtxFinal fuel ctx outLen [] = Ok out ->
        Z.of_nat (length out) < outLen)
  /\ (forall fuel ctx inp outSize ctx' out,
        0 <= outSize -> enc_ctx_ok ctx ->
        Base64E.xmlSecBase64CtxUpdate fuel ctx inp outSize [] = Ok (ctx', out) ->
        Z.of_nat (length out) <= outSize /\ enc_ctx_ok ctx')
  /\ (forall fuel ctx outLen out,
        Base64E.xmlSecBase64CtxFinal fuel ctx outLen [] = Ok out ->
        Z.of_nat (length out) < outLen)
  /\ dec_ctx_ok (Base64C.mkCtx [] [] 0)
  /\ (forall columns, enc_ctx_ok (Base64E.xmlSecBase64CtxCreate columns)).
Proof.
  split; [|split; [|split; [|split; [|split]]]].
  - intros fuel ctx inp outSize ctx' out Hs Hok HU.
    pose proof (Base64Bounds.dec_Update_bounds fuel ctx inp outSize [] Hs Hok)
      as H. rewrite HU in H. destruct H as [(w & E & Hw) Hok'].
    cbn [app] in E. subst w. auto.
  - intros fuel ctx outLen out. apply Base64Bounds.dec_Final_bounds.
  - intros fuel ctx inp outSize ctx' out Hs Hok HU.
    apply Base64Bounds.enc_Update_bounds in HU; [|assumption|assumption].
    destruct HU as [(w & E & Hw) Hok']. cbn [app] in E. subst w. auto.
  - intros fuel ctx outLen out. apply Base64Bounds.enc_Final_bounds.
  - split; cbn; lia.
  - intros columns. unfold Base64E.xmlSecBase64CtxCreate.
    split; [reflexivity|]. split; cbn; lia.
Qed.
